(* ===== verification/_CoqProject ===== *)
-Q . S2P
Prelude.v
Filter.v
FlowSafety.v
Packet.v
CounterRace.v
PacketRef.v
PacketSpec.v
Traffic.v
PacketRst.v
PacketWire.v
TokenBucket.v
BucketRace.v
GoText.v
TextLemmas.v
GoFlag.v
GoNet.v
GoFloat.v
GoFmt.v
Config.v
ConfigSpec.v
ConfigDiff.v
ConfigFile.v
Resources.v
CgroupWalk.v
Ebpf.v
Policy.v
PolicySpec.v
FlowTable.v
Loader.v
LoaderSpec.v
LoaderTrace.v
FlowMonitor.v
FlowMonitorSpec.v
Stats.v
StatsSpec.v
SysRef.v
Controller.v
ControllerSpec.v
ConsoleRef.v
Manage.v
ManageSpec.v
Dashboard.v
DashboardSpec.v
Tune.v
TuneSpec.v
TuneRss.v
TuneRestore.v
TuneRef.v
Daemon.v
DaemonSpec.v
Watch.v
Wizard.v
WizardSpec.v
Forms.v
FormsSpec.v
Sampler.v
Console.v
Cli.v
Args.v
KernelView.v
Deploy.v
Monitored.v
Running.v
Operate.v
