(* ===== verification/Prelude.v ===== *)
(** * xdpfilter: a verification library

    xdpfilter sits as a bridge between two network ports, "trusted" (the
    hosts it protects) and "untrusted" (the internet), and passes a TCP or UDP
    frame from the untrusted side only when it belongs to a flow the trusted
    side opened.  An XDP program (src/bpf) decides on each frame; a Go daemon
    (src/cmd/xdpfilter) loads it, writes its policy into kernel maps, sweeps
    dead flows and reports; a setup wizard and an operations console
    (src/internal/wizard, src/internal/manage) write the configuration file.
    The library models these parts from the sources and proves what makes each
    of them, and their composition, correct.

    ** How the parts interact

    The configuration file is written by the wizard and the console, watched
    and loaded by the daemon.  The daemon and the console reach the XDP program
    only through the pinned kernel maps: features, server allowlist, monitored
    networks, monitoring control, flow tables, statistics.  The files here
    depend on each other the same way.  Components meet at type classes:
    [Ebpf.EbpfMap] and [EbpfLaws] (a kernel map and what is relied on),
    [Loader.Sys] and [SysLaws] (links, pins, handles), [Tune.Machine] and
    [TuneRestore.MachineLaws] (files and commands of a host),
    [Filter.LruLaws] and [HelperLaws] (the helpers of the kernel).  Every class
    with laws has an instance (FMap, SysRef, TuneRef, the helpers of the
    examples) on which the witnesses are evaluated; calls fail there on a
    schedule.

    ** The files

    Shared ground.
    - Prelude: machine words as [Z] with their wrap-around, hint databases,
      tactics, generic lemmas.
    - GoText, TextLemmas, GoNet, GoFloat, GoFmt, GoFlag: the parts of Go's standard
      library the program uses: strings and strconv, net and netip, float64,
      formatting verbs; GoFlag is its flag package.

    The packet path: src/bpf/filter.bpf.c and filter.h.
    - Filter: the flow tables, the handlers of the two directions
      ([handle_outbound], [handle_inbound], their UDP forms), the SYN token
      bucket, the L1 cache.  The maps are the record [dp].
    - FlowSafety: packets, evictions and allowlist updates as a transition
      system; its invariant, and what a forwarded inbound packet says about
      the past.
    - TokenBucket: the admission bound of the bucket, one CPU at a time.
    - BucketRace: the same code as the atomic operations of many CPUs in any
      order; the limit under contention.
    - CounterRace: a flow's counter updated by many CPUs, with refused
      insertions, evictions and additions to an evicted counter's memory.
    - Packet: [xdp_filter] on a frame of bytes, every load and store of which
      may fault; statistics, flow monitoring, drops, the reset written in
      place.
    - PacketRef, PacketSpec: the program refines a classification followed by
      an action; frames in bounds, their fate, their accounting.
    - Traffic: frames on several CPUs with a cache each; spoofed TCP and UDP
      do not get through.  This composes Packet, PacketRef and FlowSafety.
    - PacketRst, PacketWire: the reset byte by byte with its checksums; frames
      written from fields and read back.

    Configuration: src/internal/config.
    - Config, ConfigSpec, ConfigDiff: config.go's record, validation, diff with
      impacts, live update, clone; the declarative [Valid].
    - ConfigFile: [Load] and [Save] over a file system whose calls fail.
    - Resources, CgroupWalk: resources.go.

    Datapath: src/internal/dataplane.
    - Policy, PolicySpec: loader.go's live policy, that is features, allowlist,
      networks and monitoring control.
    - Loader, LoaderSpec, LoaderTrace, SysRef: [Load], [Detach], [OpenPinned] with the
      account of handles.
    - FlowTable: gc.go and flows.go.  The probe of probe.go is in Wizard.

    Reporters.
    - FlowMonitor, FlowMonitorSpec: internal/flowmonitor/flowmonitor.go.
    - Stats, StatsSpec: internal/stats/stats.go.

    Console: src/internal/manage.
    - Controller, ControllerSpec, ConsoleRef: controller.go's transaction.
    - Manage, ManageSpec: the editing callbacks of manage.go.
    - Dashboard, DashboardSpec: its texts.
    - Forms, FormsSpec: which setting each widget changes.
    - Console: its sections, operations, tables, keys and refresh.
    - Sampler: the sampling goroutine, the frame around the sections, the
      filter of the flow section.

    Host tuning: src/internal/tuning/tuning.go.
    - Tune: every step of the profile, the snapshot, the restoration.
    - TuneSpec (CPU lists, channels, cores for interrupts), TuneRss (the
      symmetric key), TuneRestore, TuneRef.

    Process: src/cmd/xdpfilter/main.go and src/internal/wizard/wizard.go.
    - Daemon, DaemonSpec: start, live reload with rollbacks, sweep worker,
      subcommands on a running datapath; the refinement of the published
      configuration.
    - Watch: the file watch, the debounce, the reload channel and the shutdown
      as step relations of goroutines.
    - Wizard, WizardSpec: the first-run dialogue.
    - Cli: the dispatch of [main], exit codes, usage, the other subcommands.
    - Args: every subcommand on its command line.

    The whole: daemon and packet program on the same kernel maps.
    - KernelView: the C layouts of the structs the daemon's keys are, and the
      program's view of the maps the daemon wrote.
    - Deploy: an allowlist entry of the file and a request on the wire.
    - Monitored: the longest-prefix trie of the monitored networks between
      the daemon, the program and the reporter.
    - Running: one transition system of frames, evictions, sweeps, policy
      writes one by one and reloads, with its invariant.
    - Operate: the console and the mode command composed with the file, the
      daemon's reload and the packet program; configurations with the same
      policy as a setoid.

    ** What the theorems show

    - Safety of the filter.  [Traffic.spoofed_tcp_stopped] and
      [spoofed_udp_stopped] start from bytes on the two wires;
      [PacketSpec.frame_in_bounds] (memory), [frame_fate], [frame_counted];
      [FlowSafety.reachable_tables_wf], [inbound_never_allocates],
      [inbound_close_recovers]; [TokenBucket.admission_bound],
      and [BucketRace.contended_admission] for many CPUs;
      [PacketRst.reset_reply], over frames written and read back
      ([PacketWire.wire_roundtrip]).
    - The whole.  [Running.uninvited_tcp_stopped] says of the running system,
      after any traffic, sweeps and reloads, that a TCP frame from the untrusted
      side gets through only for a server the policy has listed or a flow the
      trusted side opened; [uninvited_udp_stopped] says it of datagrams; [Deploy.allowlist_on_the_wire] takes an entry of
      the configuration file to the fate of a connection request;
      [Operate.console_to_wire] takes what the operator staged in the console
      to the same fate, before and after the daemon reloads the saved file, and
      [mode_sticks] says that a mode set on the command line survives that
      reload;
      [Monitored.monitored_hosts] takes a monitored network to the frames that
      are sampled and the rule they are charged to; [KernelView.keys_shown]
      reads the program's flow keys back from the daemon's bytes.
    - The policy in force is the one configured.  [PolicySpec.reload_effective]
      and [sync_exact] for the maps, [LoaderTrace.load_installs] at start,
      [FlowTable.gc_agrees] between the daemon's sweep and the packet path,
      [DaemonSpec.daemon_refines] over the life of the daemon,
      [Watch.no_lost_update] from the file to the daemon, failed reloads
      included.
    - Configuration.  [ConfigSpec.validate_iff] ties the validator to a
      declarative notion; [ConfigDiff.live_update_exact];
      [ConfigFile.save_load], [save_atomic]; [Resources.recommend_fits],
      [CgroupWalk.cgroup_tightest].
    - Errors and resources.  [LoaderSpec.load_no_leak],
      [ControllerSpec.apply_transaction], [reattach_outcomes]: every failing
      call is followed to its end.
    - Reports.  [FlowMonitorSpec.tick_window], [longestMatch_best],
      [snapshot_roundtrip]; [CounterRace.samples_counted];
      [StatsSpec.rates_never_underflow],
      [spike_warning_sound]; [FlowTable.gc_exact].
    - Operators.  [ManageSpec.session_keeps_lists], [FormsSpec.forms_wired],
      [WizardSpec.setup_writes_loadable], [dialogue_ends];
      [Args.bridge_kept]: stopping takes the bridge down only on request.
    - The host.  [TuneRestore.tune_restore] and its lemmas [preview_harmless],
      [TuneSpec.common_channels_tight]; [Sampler.sampler_harmless]: watching
      changes nothing.

    Some theorems show what the code does not do: [PolicySpec.spaced_rule_refused],
    [FlowTable.gc_race], [StatsSpec.rst_row_shows_total],
    [ConfigDiff.clone_default_differs], [FlowMonitorSpec.failed_reading_mixes_settings],
    [ConsoleRef.postponed_reattach_loses_pin], [DaemonSpec.failed_reload_mixes],
    [Watch.early_save_unnoticed], [TuneRef.second_start_loses_originals],
    [WizardSpec.b_name_unreachable], [nan_rate_refused] and
    [repeated_network_refused], [Args.late_preview_applies],
    [BucketRace.refills_overshoot], [PacketWire.reset_answers_reset].

    ** Conventions, bounds and fuel

    A w-bit integer is a [Z], reduced where the code's type is ([Prelude.u8]
    to [u64], [s64] for Go's int).  Go strings are byte strings; a nil slice and
    an empty one differ ([Config.slice]); a Go map is a [gmap], and where the
    order of its iteration matters it is an argument.  A float64 is a binary64,
    rounded after each operation.  What the kernel, the file system, the clock
    and the commands answer are arguments: records of answers, schedules, or
    the classes above.

    Loops run on fuel only where the recursion is not structural.
    - [GoText.format_fuel] 20: a 64-bit number has at most 20 digits;
      [GoFmt.digits] takes its fuel from the logarithm of the number.
    - The text loops ([trim_left_fuel], [fields_fuel], [comma_loop],
      [comma_groups], [Wizard.trim_slashes]) take the length of their input, each round consuming a
      character; [GoNet.parse6_loop], [zero_run] and [ip6_groups] take 8, the
      number of groups of an IPv6 address.
    - [Resources.pow2_loop] doubles up to a 64-bit value; [cg_dirs] climbs one
      component of the path per round, and [CgroupWalk.cgroup_tightest] shows
      that more fuel would visit no more.
    - [Daemon.scan_events] takes the number of bytes read and one more; a
      round moves on by the sixteen bytes of an event's header and its name.
    - The dialogue of Wizard: after the ports are picked the length of the
      input is enough ([WizardSpec.dialogue_ends]).  [pickIface] asks again for
      ever when the input has ended, and has no sufficient fuel there.
    - [Watch.no_lost_update] bounds the steps by a measure.
    - [BucketRace.alone] takes 7 steps: the longest path of one charge
      ([alone_charges]).
    - The program's own bounded loop over VLAN tags is unrolled, as
      MAX_VLAN_DEPTH is 2.

    ** Not modelled

    - Concurrency inside a packet, except where the code uses atomic
      operations (BucketRace, on an entry that is not evicted meanwhile, and
      CounterRace, where it may be): elsewhere packets are handled one at a time.  What other CPUs,
      the sweep and the kernel do between two packets is modelled.
    - The kernel, its trie lookup included ([Monitored.lpm_find] is an
      instance of what is assumed), the verifier and cilium/ebpf, the YAML and JSON libraries,
      systemctl, ethtool: arguments with the laws the code relies on.
    - tview: drawing, focus, layout, its own key handling, and the code that
      only builds widgets.  Manage, Forms and Console have the callbacks.
    - strconv's parsing and shortest printing of floats, and wall-clock
      formats: parameters.
    - Log lines and printed text of the subcommands and the
      wizard, the signal set-up, the sockets, the blinking of a port, driver
      links: input and output only.
    - src/internal/dataplane/gen.go (a go:generate directive), packaging,
      tests. *)

From stdpp Require Import prelude gmap strings list fin_maps.
From Stdlib Require Import ZArith Lia Bool.

(** ** Scopes, hint databases *)

Declare Scope go_scope.
Delimit Scope go_scope with go.

Create HintDb go.
Create Rewrite HintDb go_simpl.
Create HintDb word.

(** ** Machine words: a w-bit unsigned integer is a [Z] reduced modulo 2^w *)

Section Words.
Local Open Scope Z_scope.

Definition wrap (w z : Z) : Z := z mod 2 ^ w.
Definition u8 (z : Z) : Z := z mod 256.
Definition u16 (z : Z) : Z := z mod 65536.
Definition u32 (z : Z) : Z := z mod 4294967296.
Definition u64 (z : Z) : Z := z mod 18446744073709551616.

(** A signed 64-bit result (Go's [int]). *)
Definition s64 (z : Z) : Z := (z + 9223372036854775808) mod 18446744073709551616 - 9223372036854775808.

Definition is_u8 (z : Z) : Prop := 0 <= z < 256.
Definition is_u16 (z : Z) : Prop := 0 <= z < 65536.
Definition is_u32 (z : Z) : Prop := 0 <= z < 4294967296.
Definition is_u64 (z : Z) : Prop := 0 <= z < 18446744073709551616.

(** [x & m] is non-zero: the C and Go idiom for a flag test. *)
Definition tst (x m : Z) : bool := negb (Z.land x m =? 0).

(** [x > 0 && x & (x - 1) == 0]: the code's test for a power of two. *)
Definition is_pow2 (x : Z) : Prop := exists k, 0 <= k /\ x = 2 ^ k.

(** A bool as the 0/1 byte or word the kernel side reads. *)
Definition b2z (b : bool) : Z := if b then 1 else 0.
End Words.

Section WordLemmas.
Local Open Scope Z_scope.

Lemma u8_small z : is_u8 z -> u8 z = z.
Proof. unfold is_u8, u8. intros. now apply Z.mod_small. Qed.

Lemma u16_small z : is_u16 z -> u16 z = z.
Proof. unfold is_u16, u16. intros. now apply Z.mod_small. Qed.

Lemma u32_small z : is_u32 z -> u32 z = z.
Proof. unfold is_u32, u32. intros. now apply Z.mod_small. Qed.

Lemma u64_small z : is_u64 z -> u64 z = z.
Proof. unfold is_u64, u64. intros. now apply Z.mod_small. Qed.

Lemma s64_small z : - 9223372036854775808 <= z < 9223372036854775808 -> s64 z = z.
Proof. intros. unfold s64. rewrite Z.mod_small; lia. Qed.

Lemma u8_range z : is_u8 (u8 z).
Proof. unfold is_u8, u8. now apply Z.mod_pos_bound. Qed.

Lemma u16_range z : is_u16 (u16 z).
Proof. unfold is_u16, u16. now apply Z.mod_pos_bound. Qed.

Lemma u32_range z : is_u32 (u32 z).
Proof. unfold is_u32, u32. now apply Z.mod_pos_bound. Qed.

Lemma u64_range z : is_u64 (u64 z).
Proof. unfold is_u64, u64. now apply Z.mod_pos_bound. Qed.

Lemma u64_le z : 0 <= z -> u64 z <= z.
Proof. intros. unfold u64. now apply Z.mod_le. Qed.

(** The bit trick is a power-of-two test: clearing the lowest set bit of
    [x] leaves zero exactly when [x] has one bit. *)
Lemma land_pred_pow2 x : 0 < x -> Z.land x (x - 1) = 0 -> is_pow2 x.
Proof.
  intros Hx H. set (k := Z.log2 x). exists k.
  assert (0 <= k) as Hk by apply Z.log2_nonneg. split; [done|].
  destruct (Z.log2_spec x Hx) as [Hlo Hhi]. fold k in Hlo, Hhi.
  destruct (Z.eq_dec x (2 ^ k)) as [|Hne]; [done|]. exfalso.
  assert (Z.log2 (x - 1) = k) as Hl.
  { apply Z.log2_unique; lia. }
  assert (Z.testbit (Z.land x (x - 1)) k = true) as Hb.
  { rewrite Z.land_spec. unfold k at 1. rewrite Z.bit_log2 by done.
    rewrite <- Hl at 1. rewrite Z.bit_log2; [done|]. pose proof (Z.pow_pos_nonneg 2 k). lia. }
  rewrite H, Z.bits_0 in Hb. discriminate.
Qed.

Lemma pow2_land_pred k : 0 <= k -> Z.land (2 ^ k) (2 ^ k - 1) = 0.
Proof.
  intros Hk. replace (2 ^ k - 1) with (Z.ones k) by (rewrite Z.ones_equiv; lia).
  rewrite Z.land_ones by done. apply Z.mod_same. pose proof (Z.pow_pos_nonneg 2 k). lia.
Qed.

Lemma pow2_test x : 0 < x -> (Z.land x (x - 1) =? 0) = true <-> is_pow2 x.
Proof.
  intros Hx. rewrite Z.eqb_eq. split; [now apply land_pred_pow2|].
  intros (k & Hk & ->). now apply pow2_land_pred.
Qed.

Lemma b2z_01 b : b2z b = 0 \/ b2z b = 1.
Proof. destruct b; auto. Qed.

Lemma b2z_nonzero b : negb (b2z b =? 0) = b.
Proof. now destruct b. Qed.

End WordLemmas.

#[export] Hint Resolve u8_range u16_range u32_range u64_range : word.
#[export] Hint Rewrite b2z_nonzero : go_simpl.

(** ** Tactics *)

(** Case analysis on the boolean conditions of the program in the goal. *)
Ltac case_ifs :=
  repeat match goal with
  | |- context [if ?b then _ else _] =>
      lazymatch type of b with
      | bool => let E := fresh "E" in destruct b eqn:E
      end
  end.

(** The same for a hypothesis. *)
Ltac case_ifs_in H :=
  repeat match type of H with
  | context [if ?b then _ else _] =>
      lazymatch type of b with
      | bool => let E := fresh "E" in destruct b eqn:E in H; try discriminate H
      end
  end.

(** Boolean comparisons as propositions, then linear arithmetic. *)
Ltac zbool :=
  repeat match goal with
  | H : (_ =? _)%Z = true |- _ => apply Z.eqb_eq in H
  | H : (_ =? _)%Z = false |- _ => apply Z.eqb_neq in H
  | H : (_ <? _)%Z = true |- _ => apply Z.ltb_lt in H
  | H : (_ <? _)%Z = false |- _ => apply Z.ltb_ge in H
  | H : (_ <=? _)%Z = true |- _ => apply Z.leb_le in H
  | H : (_ <=? _)%Z = false |- _ => apply Z.leb_gt in H
  | H : negb _ = true |- _ => apply negb_true_iff in H
  | H : negb _ = false |- _ => apply negb_false_iff in H
  | H : (_ && _)%bool = true |- _ => apply andb_true_iff in H; destruct H
  | H : (_ || _)%bool = false |- _ => apply orb_false_iff in H; destruct H
  end.

Ltac zlia := zbool; unfold is_u8, is_u16, is_u32, is_u64 in *; lia.

(** ** Sums over a list *)

Local Open Scope Z_scope.

Definition total {A} (f : A -> Z) (l : list A) : Z := foldr (fun a n => f a + n) 0 l.

Section Total.
Context {A : Type}.
Implicit Types (f g : A -> Z) (l : list A).

Lemma total_cons f a l : total f (a :: l) = f a + total f l.
Proof. done. Qed.

Lemma total_app f l1 l2 : total f (l1 ++ l2) = total f l1 + total f l2.
Proof. induction l1 as [|a l1 IH]; [done|]. cbn [app]. rewrite !total_cons. lia. Qed.

Lemma total_middle f l1 a l2 : total f (l1 ++ a :: l2) = total f (l1 ++ l2) + f a.
Proof. rewrite !total_app, total_cons. lia. Qed.

Lemma total_le f g c l : (forall a, a ∈ l -> f a <= g a + c) -> total f l <= total g l + c * Z.of_nat (length l).
Proof.
  induction l as [|a l IH]; intros Hl; [cbn; lia|]. rewrite !total_cons. cbn [length].
  pose proof (Hl a ltac:(left)). specialize (IH ltac:(intros; apply Hl; now right)). lia.
Qed.

Lemma total_nonneg f l : (forall a, a ∈ l -> 0 <= f a) -> 0 <= total f l.
Proof.
  induction l as [|a l IH]; intros Hl; [done|]. rewrite total_cons.
  pose proof (Hl a ltac:(left)). specialize (IH ltac:(intros; apply Hl; now right)). lia.
Qed.

Lemma total_replicate f n a : f a = 0 -> total f (replicate n a) = 0.
Proof. intros H. induction n; [done|]. cbn [replicate]. rewrite total_cons. lia. Qed.
End Total.
