(* ===== verification/Filter.v ===== *)
(** The per-packet flow logic of bpf/filter.bpf.c: the flow tables, the TCP and
    UDP handlers of the two directions, the SYN token bucket and the per-CPU L1
    cache.  Every C function is one Definition over the record [dp] of the maps
    the program shares; kernel helpers whose code is not part of the repository
    (the LRU map update) are arguments. *)
From stdpp Require Import prelude gmap.
From Stdlib Require Import ZArith Lia Bool.
From S2P Require Import Prelude.
Local Open Scope Z_scope.

(** ** Constants of bpf/filter.h *)

Definition TCP_FIN : Z := 1.
Definition TCP_SYN : Z := 2.
Definition TCP_RST : Z := 4.
Definition TCP_PSH : Z := 8.
Definition TCP_ACK : Z := 16.
Definition TCP_URG : Z := 32.

Definition NOW_SHIFT : Z := 30.

(** enum flow_state; the struct field is a u8, so states are numbers here too. *)
Definition ST_NONE : Z := 0.
Definition ST_SYN_SENT : Z := 1.
Definition ST_SYN_RCVD : Z := 2.
Definition ST_EST : Z := 3.
Definition ST_CLOSING : Z := 4.
Definition ST_UDP : Z := 5.

Definition FL_ISN_VALID : Z := 1.
Definition FL_CLOSED_OUT : Z := 2.

Definition MODE_MONITOR : Z := 0.
Definition MODE_ENFORCE : Z := 1.

Definition RSN_UNSOL_SYNACK : Z := 0.
Definition RSN_BAD_ISN : Z := 1.
Definition RSN_OOS_IN : Z := 2.
Definition RSN_OOS_OUT : Z := 3.
Definition RSN_OOS_RST : Z := 4.
Definition RSN_INBOUND_SYN : Z := 5.
Definition RSN_BAD_FLAGS : Z := 6.
Definition RSN_TCP_FRAG : Z := 7.
Definition RSN_MALFORMED : Z := 8.
Definition RSN_UDP_OOS : Z := 9.
Definition RSN_MAP_FAIL : Z := 10.
Definition RSN_VLAN_DEPTH : Z := 11.
Definition RSN_UDP_FRAG : Z := 12.
Definition RSN__MAX : Z := 13.

Definition ACT_FORWARD : Z := -1.

(** ** Data: the structs of bpf/filter.h *)

Record flow_key := FlowKey {
  inet_ip : Z; host_ip : Z; inet_port : Z; host_port : Z; vlans : Z }.

Record flow_val := FlowVal {
  client_isn : Z; last_seen : Z; state : Z; flags : Z }.

Record l1_entry := L1Entry { l1_key : flow_key; l1_last_seen : Z; l1_state : Z }.

Record features := Features {
  mode : Z; oos_out_strict : Z; allow_inbound_servers : Z; drop_frags : Z;
  drop_bad_flags : Z; filter_udp : Z; drop_vlan_deep : Z; drop_udp_frags : Z;
  reject_with_rst : Z; allow_inbound_syn : Z;
  ttl_syn : Z; ttl_est : Z; ttl_closing : Z; ttl_udp : Z }.

Record tbkt := Tbkt { tokens : Z; ts_ns : Z }.

#[export] Instance flow_key_eq_dec : EqDecision flow_key.
Proof. solve_decision. Defined.

#[export] Instance flow_val_eq_dec : EqDecision flow_val.
Proof. solve_decision. Defined.

Lemma flow_key_tuple_inj (k : flow_key) :
  (fun t : Z * Z * Z * Z * Z => let '(a, b, c, d, e) := t in FlowKey a b c d e)
    (inet_ip k, host_ip k, inet_port k, host_port k, vlans k) = k.
Proof. now destruct k. Qed.

#[export] Instance flow_key_countable : Countable flow_key :=
  inj_countable' _ _ flow_key_tuple_inj.

(** The maps both program instances share.  [server_allow] is keyed by
    (protected ip, port); [drop_reason] and [l1cache] are this CPU's slots. *)
Record dp := Dp {
  flows : gmap flow_key flow_val;
  udp_flows : gmap flow_key flow_val;
  l1cache : gmap Z l1_entry;
  server_allow : gset (Z * Z);
  synbkt : gmap Z tbkt;
  drop_reason : gmap Z Z }.

Definition set_flows (m : gmap flow_key flow_val) (s : dp) : dp :=
  Dp m (udp_flows s) (l1cache s) (server_allow s) (synbkt s) (drop_reason s).
Definition set_udp_flows (m : gmap flow_key flow_val) (s : dp) : dp :=
  Dp (flows s) m (l1cache s) (server_allow s) (synbkt s) (drop_reason s).
Definition set_l1cache (m : gmap Z l1_entry) (s : dp) : dp :=
  Dp (flows s) (udp_flows s) m (server_allow s) (synbkt s) (drop_reason s).
Definition set_server_allow (m : gset (Z * Z)) (s : dp) : dp :=
  Dp (flows s) (udp_flows s) (l1cache s) m (synbkt s) (drop_reason s).
Definition set_synbkt (m : gmap Z tbkt) (s : dp) : dp :=
  Dp (flows s) (udp_flows s) (l1cache s) (server_allow s) m (drop_reason s).
Definition set_drop_reason (m : gmap Z Z) (s : dp) : dp :=
  Dp (flows s) (udp_flows s) (l1cache s) (server_allow s) (synbkt s) m.

(** ** The kernel's LRU map update, a parameter

    [bpf_map_update_elem] on an LRU hash either fails, leaving the map as it
    was ([None]), or stores the value, possibly evicting other entries. *)

Definition lru_op (K V : Type) `{Countable K} : Type :=
  gmap K V -> K -> V -> option (gmap K V).

Class LruLaws {K V : Type} `{Countable K} (op : lru_op K V) : Prop := {
  lru_stores : forall m k v m', op m k v = Some m' -> m' !! k = Some v;
  lru_keeps : forall m k v m' k' w,
    op m k v = Some m' -> k' <> k -> m' !! k' = Some w -> m !! k' = Some w }.

(** The helpers one packet may call. *)
Record helpers := Helpers {
  update_flows : lru_op flow_key flow_val;
  update_udp : lru_op flow_key flow_val;
  update_synbkt : lru_op Z tbkt }.

Class HelperLaws (h : helpers) : Prop := {
  flows_laws :: LruLaws (update_flows h);
  udp_laws :: LruLaws (update_udp h);
  synbkt_laws :: LruLaws (update_synbkt h) }.

(** ** Small helpers *)

Definition now_tick (ns : Z) : Z := u32 (Z.shiftr ns NOW_SHIFT).

Definition stat_reason (reason : Z) (s : dp) : dp :=
  match drop_reason s !! reason with
  | Some c => set_drop_reason (<[reason := u64 (c + 1)]> (drop_reason s)) s
  | None => s
  end.

Definition ttl_for (f : features) (st : Z) : Z :=
  if st =? ST_EST then ttl_est f
  else if st =? ST_CLOSING then ttl_closing f
  else if st =? ST_UDP then ttl_udp f
  else ttl_syn f.

Definition expired (f : features) (v : flow_val) (now : Z) : bool :=
  let ttl := ttl_for f (state v) in
  if now <? last_seen v then false else ttl <? u32 (now - last_seen v).

Definition bad_flags (fl : Z) : bool :=
  if fl =? 0 then true
  else if Z.land fl (Z.lor TCP_SYN TCP_FIN) =? Z.lor TCP_SYN TCP_FIN then true
  else if Z.land fl (Z.lor TCP_SYN TCP_RST) =? Z.lor TCP_SYN TCP_RST then true
  else if Z.land fl (Z.lor TCP_FIN (Z.lor TCP_PSH TCP_URG)) =?
          Z.lor TCP_FIN (Z.lor TCP_PSH TCP_URG) then true
  else if Z.land fl (Z.lor TCP_FIN TCP_ACK) =? TCP_FIN then true
  else false.

Definition touch (v : flow_val) (now : Z) : flow_val :=
  if last_seen v =? now then v
  else FlowVal (client_isn v) now (state v) (flags v).

Definition with_state (st : Z) (v : flow_val) : flow_val :=
  FlowVal (client_isn v) (last_seen v) st (flags v).

Definition or_flags (b : Z) (v : flow_val) : flow_val :=
  FlowVal (client_isn v) (last_seen v) (state v) (Z.lor (flags v) b).

(** A write through the pointer a lookup returned: the entry is in the map. *)
Definition store_flow (k : flow_key) (v : flow_val) (s : dp) : dp :=
  set_flows (<[k := v]> (flows s)) s.

(** ** Handlers.  Each returns (action or drop reason, cache_st, maps). *)

Definition lone_syn (fl : Z) : bool := Z.land fl (Z.lor TCP_SYN TCP_ACK) =? TCP_SYN.
Definition syn_ack (fl : Z) : bool :=
  Z.land fl (Z.lor TCP_SYN TCP_ACK) =? Z.lor TCP_SYN TCP_ACK.

(** Out-of-state outbound packet: drop under the strict policy, else adopt. *)
Definition adopt_outbound (h : helpers) (f : features) (k : flow_key)
    (fl now : Z) (s : dp) : Z * Z * dp :=
  if negb (oos_out_strict f =? 0) then (RSN_OOS_OUT, 0, s)
  else
    let '(nv, cacheable) :=
      if tst fl TCP_FIN then (FlowVal 0 now ST_CLOSING FL_CLOSED_OUT, false)
      else (FlowVal 0 now ST_EST 0, true) in
    match update_flows h (flows s) k nv with
    | None => (ACT_FORWARD, 0, stat_reason RSN_MAP_FAIL s)
    | Some m => (ACT_FORWARD, if (cacheable : bool) then ST_EST else 0, set_flows m s)
    end.

(** What an outbound segment that is neither a lone SYN nor a RST does to a
    live entry, and the state it makes cacheable (0 for none). *)
Definition promote_outbound (fl : Z) (v : flow_val) : flow_val * Z :=
  if tst fl TCP_FIN then (or_flags FL_CLOSED_OUT (with_state ST_CLOSING v), 0)
  else if state v =? ST_CLOSING then
    if tst (flags v) FL_CLOSED_OUT then (v, 0) else (with_state ST_EST v, ST_EST)
  else if (state v =? ST_SYN_RCVD) && tst fl TCP_SYN then (v, 0)
  else (with_state ST_EST v, ST_EST).

Definition handle_outbound (h : helpers) (f : features) (k : flow_key)
    (fl seq now : Z) (s : dp) : Z * Z * dp :=
  let v := flows s !! k in
  if lone_syn fl then
    match v with
    | None =>
        let nv := FlowVal seq now ST_SYN_SENT FL_ISN_VALID in
        match update_flows h (flows s) k nv with
        | None => (ACT_FORWARD, 0, stat_reason RSN_MAP_FAIL s)
        | Some m => (ACT_FORWARD, 0, set_flows m s)
        end
    | Some v =>
        let v' := FlowVal seq (last_seen v) ST_SYN_SENT FL_ISN_VALID in
        (ACT_FORWARD, 0, store_flow k (touch v' now) s)
    end
  else if tst fl TCP_RST then
    match v with
    | Some v =>
        (ACT_FORWARD, 0,
         store_flow k (touch (or_flags FL_CLOSED_OUT (with_state ST_CLOSING v)) now) s)
    | None => (ACT_FORWARD, 0, s)
    end
  else
    match v with
    | Some v =>
      if expired f v now then adopt_outbound h f k fl now s
      else
        let '(v', cache_st) := promote_outbound fl v in
        (ACT_FORWARD, cache_st, store_flow k (touch v' now) s)
    | None => adopt_outbound h f k fl now s
    end.

(** The token bucket, as one CPU runs it: the compare-and-swap on [ts_ns] and
    the first one on [tokens] succeed. *)
Definition tbkt_burst (rate : Z) : Z := u64 (rate * 2 * 1000).

Definition tbkt_refill (b : tbkt) (rate tnow : Z) : tbkt :=
  let last := ts_ns b in
  if (last <? tnow) && (Z.shiftl 1 20 <=? u64 (tnow - last)) then
    let add := Z.shiftr (u64 (u64 (tnow - last) * rate)) 20 in
    let cur := tokens b in
    if cur <? tbkt_burst rate then
      let room := tbkt_burst rate - cur in
      let add := if room <? add then room else add in
      Tbkt (u64 (cur + add)) tnow
    else Tbkt cur tnow
  else b.

Definition tbkt_spend (b : tbkt) : bool * tbkt :=
  if tokens b <? 1000 then (false, b)
  else (true, Tbkt (tokens b - 1000) (ts_ns b)).

Definition tbkt_charge (h : helpers) (key rate tnow : Z) (s : dp) : bool * dp :=
  match synbkt s !! key with
  | None =>
      let nb := Tbkt (tbkt_burst rate - 1000) tnow in
      match update_synbkt h (synbkt s) key nb with
      | Some m => (true, set_synbkt m s)
      | None => (true, s)
      end
  | Some b =>
      let '(ok, b') := tbkt_spend (tbkt_refill b rate tnow) in
      (ok, set_synbkt (<[key := b']> (synbkt s)) s)
  end.

Definition syn_token_ok (h : helpers) (src_ip tnow : Z) (s : dp) : bool * dp :=
  tbkt_charge h src_ip 50 tnow s.

Definition syn_global_ok (h : helpers) (tnow : Z) (s : dp) : bool * dp :=
  tbkt_charge h 0 (50 * 64) tnow s.

(** Is an inbound lone SYN to this key admitted by policy (before rate limits)? *)
Definition syn_policy_ok (f : features) (k : flow_key) (s : dp) : bool :=
  if allow_inbound_syn f =? 0 then
    if allow_inbound_servers f =? 0 then false
    else bool_decide ((host_ip k, host_port k) ∈ server_allow s)
  else true.

Definition inbound_synack (k : flow_key) (ack_seq now : Z)
    (live : option flow_val) (s : dp) : Z * Z * dp :=
  match live with
  | None => (RSN_UNSOL_SYNACK, 0, s)
  | Some v =>
      if tst (flags v) FL_ISN_VALID then
        if negb (ack_seq =? u32 (client_isn v + 1)) then (RSN_BAD_ISN, 0, s)
        else
          let v' := if state v =? ST_SYN_SENT then with_state ST_EST v else v in
          (ACT_FORWARD, 0, store_flow k (touch v' now) s)
      else if state v =? ST_SYN_SENT then (RSN_BAD_ISN, 0, s)
      else (ACT_FORWARD, 0, store_flow k (touch v now) s)
  end.

Definition inbound_lone_syn (h : helpers) (f : features) (k : flow_key)
    (now t_src t_glob : Z) (live : option flow_val) (s : dp) : Z * Z * dp :=
  if negb (syn_policy_ok f k s) then (RSN_INBOUND_SYN, 0, s)
  else
    let '(ok, s) := syn_token_ok h (inet_ip k) t_src s in
    if negb ok then (RSN_INBOUND_SYN, 0, s)
    else
      let '(ok, s) := syn_global_ok h t_glob s in
      if negb ok then (RSN_INBOUND_SYN, 0, s)
      else if (match live with None => true | Some v => state v =? ST_CLOSING end) then
        match update_flows h (flows s) k (FlowVal 0 now ST_SYN_RCVD 0) with
        | None => (ACT_FORWARD, 0, stat_reason RSN_MAP_FAIL s)
        | Some m => (ACT_FORWARD, 0, set_flows m s)
        end
      else (ACT_FORWARD, 0, s).

Definition inbound_rst (k : flow_key) (fl ack_seq now : Z)
    (live : option flow_val) (s : dp) : Z * Z * dp :=
  match live with
  | None => (RSN_OOS_RST, 0, s)
  | Some v =>
      if (state v =? ST_SYN_SENT) && tst (flags v) FL_ISN_VALID &&
         (negb (tst fl TCP_ACK) || negb (ack_seq =? u32 (client_isn v + 1)))
      then (RSN_OOS_RST, 0, s)
      else (ACT_FORWARD, 0, store_flow k (touch (with_state ST_CLOSING v) now) s)
  end.

Definition inbound_data (k : flow_key) (fl now : Z)
    (live : option flow_val) (s : dp) : Z * Z * dp :=
  match live with
  | None => (RSN_OOS_IN, 0, s)
  | Some v =>
      let v' :=
        if tst fl TCP_FIN then with_state ST_CLOSING v
        else if state v =? ST_SYN_RCVD then with_state ST_EST v
        else v in
      (ACT_FORWARD, if state v' =? ST_EST then ST_EST else 0,
       store_flow k (touch v' now) s)
  end.

(** The live entry of a key: present and not expired. *)
Definition live_flow (f : features) (k : flow_key) (now : Z) (s : dp) : option flow_val :=
  match flows s !! k with
  | Some v => if expired f v now then None else Some v
  | None => None
  end.

(** [t_src] and [t_glob] are the clock readings of the two token buckets. *)
Definition handle_inbound (h : helpers) (f : features) (k : flow_key)
    (fl ack_seq now t_src t_glob : Z) (s : dp) : Z * Z * dp :=
  let live := live_flow f k now s in
  if syn_ack fl then inbound_synack k ack_seq now live s
  else if lone_syn fl then inbound_lone_syn h f k now t_src t_glob live s
  else if tst fl TCP_RST then inbound_rst k fl ack_seq now live s
  else inbound_data k fl now live s.

Definition handle_outbound_udp (h : helpers) (k : flow_key) (now : Z) (s : dp) : Z * Z * dp :=
  match udp_flows s !! k with
  | None =>
      match update_udp h (udp_flows s) k (FlowVal 0 now ST_UDP 0) with
      | None => (ACT_FORWARD, 0, stat_reason RSN_MAP_FAIL s)
      | Some m => (ACT_FORWARD, ST_UDP, set_udp_flows m s)
      end
  | Some v => (ACT_FORWARD, ST_UDP, set_udp_flows (<[k := touch v now]> (udp_flows s)) s)
  end.

Definition server_listed (k : flow_key) (s : dp) : bool :=
  bool_decide ((host_ip k, host_port k) ∈ server_allow s).

Definition handle_inbound_udp (f : features) (k : flow_key) (now : Z) (s : dp) : Z * Z * dp :=
  let allow :=
    if negb (allow_inbound_servers f =? 0) && server_listed k s
    then (ACT_FORWARD, 0, s) else (RSN_UDP_OOS, 0, s) in
  match udp_flows s !! k with
  | Some v =>
      if expired f v now then allow
      else (ACT_FORWARD, ST_UDP, set_udp_flows (<[k := touch v now]> (udp_flows s)) s)
  | None => allow
  end.

(** ** L1 cache *)

Definition fmix32 (h : Z) : Z :=
  let h := Z.lxor h (Z.shiftr h 16) in
  let h := u32 (h * 2246822507) in
  let h := Z.lxor h (Z.shiftr h 13) in
  let h := u32 (h * 3266489909) in
  Z.lxor h (Z.shiftr h 16).

Definition l1_index (k : flow_key) (mask : Z) : Z :=
  let h := Z.lxor (Z.lxor (Z.lxor (inet_ip k) (host_ip k)) (vlans k))
                  (Z.lor (u32 (Z.shiftl (inet_port k) 16)) (host_port k)) in
  Z.land (fmix32 h) mask.

Definition l1_hit (idx : Z) (k : flow_key) (want_state now : Z) (s : dp) : bool :=
  match l1cache s !! idx with
  | Some e => (l1_last_seen e =? now) && (l1_state e =? want_state) && bool_decide (l1_key e = k)
  | None => false
  end.

Definition l1_put (idx : Z) (k : flow_key) (st now : Z) (s : dp) : dp :=
  match l1cache s !! idx with
  | None => s
  | Some e =>
      if (l1_state e =? st) && bool_decide (l1_key e = k) then
        if l1_last_seen e =? now then s
        else set_l1cache (<[idx := L1Entry (l1_key e) now (l1_state e)]> (l1cache s)) s
      else set_l1cache (<[idx := L1Entry k now st]> (l1cache s)) s
  end.

(** ** A kernel that never fails nor evicts, to run the model *)

Definition ref_update {K V : Type} `{Countable K} : lru_op K V :=
  fun m k v => Some (<[k := v]> m).

#[export] Instance ref_update_laws {K V : Type} `{Countable K} :
  LruLaws (ref_update (K := K) (V := V)).
Proof.
  split; unfold ref_update; intros; simplify_eq.
  - apply lookup_insert_eq.
  - by rewrite lookup_insert_ne in *.
Qed.

Definition ref_helpers : helpers := Helpers ref_update ref_update ref_update.

#[export] Instance ref_helpers_laws : HelperLaws ref_helpers.
Proof. split; apply _. Qed.
