(* ===== verification/FlowSafety.v ===== *)
(** Safety of the flow state machine of Filter: the transition system of
    packets, evictions and allowlist updates, its well-formedness invariant and
    what a forwarded inbound packet says about the past. *)
From stdpp Require Import prelude gmap.
From Stdlib Require Import ZArith Lia Bool.
From S2P Require Import Prelude Filter.
Local Open Scope Z_scope.

(** ** The transition system *)

(** One packet of either direction, an eviction (the kernel's LRU or the
    garbage collector), or an allowlist update. *)
Inductive event :=
| EvOut (k : flow_key) (fl seq now : Z)
| EvIn (k : flow_key) (fl ack_seq now t_src t_glob : Z)
| EvOutUdp (k : flow_key) (now : Z)
| EvInUdp (k : flow_key) (now : Z)
| EvEvict (tcp udp : gset flow_key)
| EvAllow (allow : gset (Z * Z)).

Definition evict (tcp udp : gset flow_key) (s : dp) : dp :=
  set_udp_flows (filter (fun kv => kv.1 ∉ udp) (udp_flows s))
    (set_flows (filter (fun kv => kv.1 ∉ tcp) (flows s)) s).

Definition run (h : helpers) (f : features) (e : event) (s : dp) : Z * Z * dp :=
  match e with
  | EvOut k fl seq now => handle_outbound h f k fl seq now s
  | EvIn k fl ack now t1 t2 => handle_inbound h f k fl ack now t1 t2 s
  | EvOutUdp k now => handle_outbound_udp h k now s
  | EvInUdp k now => handle_inbound_udp f k now s
  | EvEvict tcp udp => (0, 0, evict tcp udp s)
  | EvAllow a => (0, 0, set_server_allow a s)
  end.

(** A step of the history: the policy in force, the event and its verdict. *)
Record step := Step { st_policy : features; st_event : event; st_act : Z }.

(** The maps as the loader creates them; the policy and the kernel's choices
    may change from one event to the next.  Histories are newest first. *)
Definition dp_init (reasons : gmap Z Z) : dp := Dp ∅ ∅ ∅ ∅ ∅ reasons.

Inductive reach : list step -> dp -> Prop :=
| reach_init r : reach [] (dp_init r)
| reach_step tr s h f e act c s' :
    reach tr s -> HelperLaws h -> run h f e s = (act, c, s') ->
    reach (Step f e act :: tr) s'.

(** ** Well-formed tables *)

Definition tcp_wf (v : flow_val) : Prop :=
  (state v = ST_SYN_SENT \/ state v = ST_SYN_RCVD \/
   state v = ST_EST \/ state v = ST_CLOSING) /\
  (state v = ST_SYN_SENT -> tst (flags v) FL_ISN_VALID = true) /\
  (tst (flags v) FL_CLOSED_OUT = true -> state v = ST_CLOSING).

Definition udp_wf (v : flow_val) : Prop := state v = ST_UDP.

Definition dp_wf (s : dp) : Prop :=
  map_Forall (fun _ v => tcp_wf v) (flows s) /\
  map_Forall (fun _ v => udp_wf v) (udp_flows s).

(** ** What opened a key *)

(** A step that can put [k] in the TCP table: an outbound segment, or an
    inbound lone SYN forwarded while a server policy is on. *)
Definition opens (k : flow_key) (x : step) : Prop :=
  match st_event x with
  | EvOut k' _ _ _ => k' = k
  | EvIn k' fl _ _ _ _ =>
      k' = k /\ lone_syn fl = true /\ st_act x = ACT_FORWARD /\
      (allow_inbound_syn (st_policy x) <> 0 \/ allow_inbound_servers (st_policy x) <> 0)
  | _ => False
  end.

Definition opens_udp (k : flow_key) (x : step) : Prop :=
  match st_event x with EvOutUdp k' _ => k' = k | _ => False end.

(** The sequence number of the most recent outbound lone SYN on [k]. *)
Fixpoint last_syn (k : flow_key) (tr : list step) : option Z :=
  match tr with
  | [] => None
  | x :: tr =>
      match st_event x with
      | EvOut k' fl seq _ =>
          if bool_decide (k' = k) && lone_syn fl then Some seq else last_syn k tr
      | _ => last_syn k tr
      end
  end.

(** The verdict on an inbound SYN-ACK: forwarded exactly when the key is live
    and, for an entry with an ISN, the segment acknowledges it; a rejected one
    changes nothing.  The code's last rejection branch is never taken. *)
Definition synack_ok (f : features) (k : flow_key) (ack now : Z) (s : dp) : bool :=
  match live_flow f k now s with
  | Some v => negb (tst (flags v) FL_ISN_VALID) || (ack =? u32 (client_isn v + 1))
  | None => false
  end.

(** The verdict on an inbound RST (neither SYN-ACK nor lone SYN): on a key in
    SYN_SENT it must carry the ACK of the SYN. *)
Definition rst_ok (f : features) (k : flow_key) (fl ack now : Z) (s : dp) : bool :=
  match live_flow f k now s with
  | Some v =>
      negb ((state v =? ST_SYN_SENT) && tst (flags v) FL_ISN_VALID) ||
      (tst fl TCP_ACK && (ack =? u32 (client_isn v + 1)))
  | None => false
  end.

(** A run of packets from the internet side only, with both server policies
    off throughout. *)
Definition servers_closed (f : features) : Prop :=
  allow_inbound_syn f = 0 /\ allow_inbound_servers f = 0.

Definition inbound_event (e : event) : Prop :=
  match e with EvIn _ _ _ _ _ _ | EvInUdp _ _ => True | _ => False end.

Inductive inbound_run : dp -> dp -> Prop :=
| inbound_nil s : inbound_run s s
| inbound_cons s h f e r c s1 s2 :
    servers_closed f -> inbound_event e -> run h f e s = (r, c, s1) ->
    inbound_run s1 s2 -> inbound_run s s2.

(** ** Lemmas on single handlers *)

Lemma touch_eq v now : touch v now = FlowVal (client_isn v) now (state v) (flags v).
Proof.
  unfold touch. destruct (last_seen v =? now) eqn:E; [|done].
  apply Z.eqb_eq in E. destruct v; cbn in *; congruence.
Qed.

Lemma tst_or_closed fl : tst (Z.lor fl FL_CLOSED_OUT) FL_CLOSED_OUT = true.
Proof.
  unfold tst, FL_CLOSED_OUT. rewrite Z.land_lor_distr_l. change (Z.land 2 2) with 2.
  apply negb_true_iff, Z.eqb_neq. intros H.
  assert (Z.testbit (Z.lor (Z.land fl 2) 2) 1 = true) as Hb
    by (rewrite Z.lor_spec; change (Z.testbit 2 1) with true; apply orb_true_r).
  rewrite H in Hb. discriminate.
Qed.

Lemma tst_or_isn fl : tst (Z.lor fl FL_CLOSED_OUT) FL_ISN_VALID = tst fl FL_ISN_VALID.
Proof.
  unfold tst, FL_CLOSED_OUT, FL_ISN_VALID. rewrite Z.land_lor_distr_l.
  change (Z.land 2 1) with 0. now rewrite Z.lor_0_r.
Qed.

#[export] Hint Rewrite touch_eq tst_or_closed tst_or_isn : go_simpl.

Lemma syn_ack_not_lone fl : syn_ack fl = true -> lone_syn fl = false.
Proof.
  unfold syn_ack, lone_syn. intros H. apply Z.eqb_eq in H. rewrite H.
  reflexivity.
Qed.

Lemma charge_flows h key rate t s ok s' :
  tbkt_charge h key rate t s = (ok, s') ->
  flows s' = flows s /\ udp_flows s' = udp_flows s /\ server_allow s' = server_allow s.
Proof.
  unfold tbkt_charge, tbkt_spend. intros H. repeat case_match; simplify_eq; done.
Qed.

Lemma stat_reason_flows r s :
  flows (stat_reason r s) = flows s /\ udp_flows (stat_reason r s) = udp_flows s.
Proof. unfold stat_reason. by case_match. Qed.

(** The frame condition every handler obeys: entries of other keys are those
    that were there (an insert may evict, never invent). *)
Definition others_kept (k : flow_key) (m m' : gmap flow_key flow_val) : Prop :=
  forall k' w, k' <> k -> m' !! k' = Some w -> m !! k' = Some w.

Lemma others_kept_refl k m : others_kept k m m.
Proof. by intros ???. Qed.

Lemma others_kept_insert k v m : others_kept k m (<[k := v]> m).
Proof. intros k' w Hne. by rewrite lookup_insert_ne. Qed.

Lemma others_kept_lru (op : lru_op flow_key flow_val) `{!LruLaws op} k v m m' :
  op m k v = Some m' -> others_kept k m m'.
Proof. intros Hop k' w Hne Hw. by eapply lru_keeps. Qed.

#[export] Hint Resolve others_kept_refl others_kept_insert : go.

(** What a handler may do to the TCP table: entries of other keys are old, the
    entry of [k] satisfies [P], the UDP table is untouched. *)
Definition tcp_effect (k : flow_key) (P : flow_val -> Prop) (s s' : dp) : Prop :=
  others_kept k (flows s) (flows s') /\
  (forall v', flows s' !! k = Some v' -> P v') /\
  udp_flows s' = udp_flows s.

Lemma effect_same k P s s' :
  flows s' = flows s -> udp_flows s' = udp_flows s ->
  (forall v, flows s !! k = Some v -> P v) -> tcp_effect k P s s'.
Proof. intros Hf Hu HP. repeat split; rewrite ?Hf; auto with go. Qed.

Lemma effect_store k (P : flow_val -> Prop) v s : P v -> tcp_effect k P s (store_flow k v s).
Proof.
  intros HP. repeat split; cbn; auto with go.
  intros v'. rewrite lookup_insert_eq. by intros [= <-].
Qed.

Lemma effect_update h `{!HelperLaws h} k (P : flow_val -> Prop) v s m :
  update_flows h (flows s) k v = Some m -> P v -> tcp_effect k P s (set_flows m s).
Proof.
  intros Hm HP. repeat split; cbn.
  - exact (others_kept_lru _ _ _ _ _ Hm).
  - intros v' Hv'. pose proof (lru_stores _ _ _ _ Hm) as Hk. congruence.
Qed.

(** The ISN clause of the invariant, for an entry computed from [old]. *)
Definition isn_from (old : option flow_val) (v' : flow_val) : Prop :=
  tst (flags v') FL_ISN_VALID = true ->
  exists v, old = Some v /\ tst (flags v) FL_ISN_VALID = true /\ client_isn v' = client_isn v.

Lemma isn_from_same v v' :
  flags v' = flags v -> client_isn v' = client_isn v -> isn_from (Some v) v'.
Proof. intros Hf Hi H. exists v. by rewrite <- Hf. Qed.

Ltac wf_entry :=
  unfold tcp_wf, with_state, or_flags in *; cbn in *;
  rewrite ?tst_or_closed, ?tst_or_isn in *; intuition (try discriminate; try congruence; auto).

(** Conjunctions of equivalences between verdicts, by cases. *)
Ltac iff_cases :=
  repeat match goal with
  | |- _ /\ _ => split
  | |- _ <-> _ => split
  | |- _ -> _ => intros ?
  | H : exists _, _ |- _ => destruct H as [? H]
  | H : _ /\ _ |- _ => destruct H
  | _ => progress simplify_eq
  end; eauto; try done; try congruence.

(** Arithmetic on the state constants. *)
Ltac st_lia := unfold ST_SYN_SENT, ST_SYN_RCVD, ST_EST, ST_CLOSING, ST_UDP in *; lia.

Section Effects.
Context (h : helpers) `{!HelperLaws h} (f : features) (k : flow_key).

Lemma adopt_effect fl now s r c s' :
  (forall v, flows s !! k = Some v -> tcp_wf v) ->
  adopt_outbound h f k fl now s = (r, c, s') ->
  tcp_effect k (fun v' => tcp_wf v' /\ isn_from (flows s !! k) v') s s'.
Proof.
  intros Hwf. unfold adopt_outbound. intros H.
  assert (forall s'', flows s'' = flows s -> udp_flows s'' = udp_flows s ->
            tcp_effect k (fun v' => tcp_wf v' /\ isn_from (flows s !! k) v') s s'') as Hsame.
  { intros s'' Hf Hu. apply effect_same; [done..|]. intros v Hv. split; [auto|].
    rewrite Hv. by apply isn_from_same. }
  repeat case_match; simplify_eq; auto using stat_reason_flows;
    try (apply Hsame; apply stat_reason_flows);
    (eapply effect_update; [eauto..|]; split; [wf_entry|intros Hi; discriminate Hi]).
Qed.

Lemma promote_wf fl v v' c :
  tcp_wf v -> promote_outbound fl v = (v', c) ->
  tcp_wf v' /\ client_isn v' = client_isn v /\
  tst (flags v') FL_ISN_VALID = tst (flags v) FL_ISN_VALID.
Proof.
  unfold promote_outbound. intros Hwf H.
  assert (state v <> ST_CLOSING -> tst (flags v) FL_CLOSED_OUT = false) as Hc.
  { intros Hn. destruct Hwf as (_ & _ & Hcl). destruct (tst _ FL_CLOSED_OUT); [|done].
    by rewrite Hcl in Hn. }
  repeat case_match; simplify_eq; zbool; wf_entry.
Qed.

Lemma outbound_effect fl seq now s r c s' :
  (forall v, flows s !! k = Some v -> tcp_wf v) ->
  handle_outbound h f k fl seq now s = (r, c, s') ->
  tcp_effect k (fun v' => tcp_wf v' /\
    if lone_syn fl then client_isn v' = seq else isn_from (flows s !! k) v') s s'.
Proof.
  intros Hwf. unfold handle_outbound. intros H.
  destruct (lone_syn fl) eqn:Hsyn.
  - destruct (flows s !! k) as [v|] eqn:Hk.
    + simplify_eq. rewrite touch_eq. apply effect_store. split; [wf_entry|done].
    + case_match; simplify_eq.
      * eapply effect_update; [eauto..|]. split; [wf_entry|done].
      * apply effect_same; [apply stat_reason_flows..|congruence].
  - destruct (tst fl TCP_RST).
    + destruct (flows s !! k) as [v|] eqn:Hk; simplify_eq.
      * rewrite touch_eq. apply effect_store. split; [wf_entry|].
        intros Hi. cbn in Hi. rewrite tst_or_isn in Hi. eauto.
      * apply effect_same; [done..|congruence].
    + destruct (flows s !! k) as [v|] eqn:Hk; [destruct (expired f v now)|];
        try (eapply adopt_effect in H; [by rewrite Hk in H|by rewrite Hk]).
      destruct (promote_outbound fl v) as [v' c'] eqn:Hp. simplify_eq.
      apply promote_wf in Hp as (Hw & Hi & Hfl); [|by apply Hwf].
      rewrite touch_eq. apply effect_store. split; [wf_entry|].
      intros Hi'. cbn in Hi'. exists v. rewrite <- Hfl. auto.
Qed.

Lemma live_flow_Some now s v :
  live_flow f k now s = Some v <-> flows s !! k = Some v /\ expired f v now = false.
Proof.
  unfold live_flow. destruct (flows s !! k) as [w|]; [destruct (expired f w now) eqn:He|].
  - split; [done|]. intros [[= ->] ?]. congruence.
  - split; [by intros [= <-]|by intros [[= ->] _]].
  - split; [done|by intros [? _]].
Qed.

(** Policy admits an inbound lone SYN only when one of its switches is on. *)
Lemma syn_policy_switch s :
  syn_policy_ok f k s = true -> allow_inbound_syn f <> 0 \/ allow_inbound_servers f <> 0.
Proof. unfold syn_policy_ok. intros H. repeat case_match; zbool; auto. Qed.

Definition inbound_opens (fl r : Z) : Prop :=
  lone_syn fl = true /\ r = ACT_FORWARD /\
  (allow_inbound_syn f <> 0 \/ allow_inbound_servers f <> 0).

Lemma with_state_wf st v now :
  tcp_wf v -> st = state v \/ st = ST_CLOSING \/ (st = ST_EST /\ state v <> ST_CLOSING) ->
  tcp_wf (FlowVal (client_isn v) now st (flags v)).
Proof.
  intros (Hs & Hi & Hc) Hst. unfold tcp_wf; cbn.
  destruct Hst as [Hst|[Hst|[Hst Hn]]]; subst st; split_and!; auto; intros Hx;
    try discriminate Hx;
    try (by apply Hc in Hx).
Qed.

(** What an inbound packet may leave at its key: a well-formed entry whose ISN
    is the old one, present before unless the packet opened the key. *)
Definition inbound_post (fl r : Z) (s : dp) (v' : flow_val) : Prop :=
  tcp_wf v' /\ isn_from (flows s !! k) v' /\
  (is_Some (flows s !! k) \/ inbound_opens fl r).

Section Inbound.
Implicit Types s : dp.

Definition wf_at s : Prop := forall v, flows s !! k = Some v -> tcp_wf v.

Lemma inbound_same fl r s s' :
  wf_at s -> flows s' = flows s -> udp_flows s' = udp_flows s ->
  tcp_effect k (inbound_post fl r s) s s'.
Proof.
  intros Hwf Hf Hu. apply effect_same; [done..|]. intros v Hv. unfold inbound_post. rewrite Hv.
  split_and!; [auto|by apply isn_from_same|eauto].
Qed.

Lemma inbound_set fl r s v st now :
  wf_at s -> flows s !! k = Some v ->
  st = state v \/ st = ST_CLOSING \/ (st = ST_EST /\ state v <> ST_CLOSING) ->
  tcp_effect k (inbound_post fl r s) s (store_flow k (touch (with_state st v) now) s).
Proof.
  intros Hwf Hv Hst. rewrite touch_eq. apply effect_store. unfold inbound_post. rewrite Hv.
  split_and!; [apply (with_state_wf st v now); auto|by apply isn_from_same|eauto].
Qed.

Lemma inbound_touch fl r s v now :
  wf_at s -> flows s !! k = Some v ->
  tcp_effect k (inbound_post fl r s) s (store_flow k (touch v now) s).
Proof.
  intros Hwf Hv. destruct v as [i l st g]. apply (inbound_set fl r s _ st now Hwf Hv). by left.
Qed.

Lemma inbound_synack_effect fl ack now live s r c s' :
  wf_at s -> (forall v, live = Some v -> flows s !! k = Some v) ->
  inbound_synack k ack now live s = (r, c, s') ->
  tcp_effect k (inbound_post fl r s) s s'.
Proof.
  unfold inbound_synack. intros Hwf Hl H.
  repeat case_match; simplify_eq; zbool; auto using inbound_same, inbound_touch.
  apply inbound_set; auto. right; right. split; [done|st_lia].
Qed.

(** A lone SYN that passes the policy and both buckets either leaves the table
    as it was or stores a fresh SYN_RCVD entry. *)
Lemma inbound_lone_syn_cases now t1 t2 live s r c s' :
  inbound_lone_syn h f k now t1 t2 live s = (r, c, s') ->
  (flows s' = flows s /\ udp_flows s' = udp_flows s) \/
  (syn_policy_ok f k s = true /\ r = ACT_FORWARD /\ udp_flows s' = udp_flows s /\
   update_flows h (flows s) k (FlowVal 0 now ST_SYN_RCVD 0) = Some (flows s')).
Proof using.
  unfold inbound_lone_syn, syn_token_ok, syn_global_ok. intros H.
  destruct (syn_policy_ok f k s) eqn:Hpol; cbn in H; [|simplify_eq; auto].
  destruct (tbkt_charge h (inet_ip k) 50 t1 s) as [ok1 s1] eqn:Hc1.
  apply charge_flows in Hc1 as (Hf1 & Hu1 & _).
  destruct ok1; cbn in H; [|simplify_eq; auto].
  destruct (tbkt_charge h 0 (50 * 64) t2 s1) as [ok2 s2] eqn:Hc2.
  apply charge_flows in Hc2 as (Hf2 & Hu2 & _). rewrite Hf1 in Hf2. rewrite Hu1 in Hu2.
  destruct ok2; cbn in H; [|simplify_eq; auto].
  destruct (match live with Some v => state v =? ST_CLOSING | None => true end);
    [|simplify_eq; auto].
  rewrite Hf2 in H. destruct (update_flows h (flows s) k _) as [m|] eqn:Hm; simplify_eq.
  - right. cbn. auto.
  - left. pose proof (stat_reason_flows RSN_MAP_FAIL s2) as [-> ->]. auto.
Qed.

Lemma inbound_lone_syn_effect fl now t1 t2 live s r c s' :
  wf_at s -> lone_syn fl = true ->
  inbound_lone_syn h f k now t1 t2 live s = (r, c, s') ->
  tcp_effect k (inbound_post fl r s) s s'.
Proof.
  intros Hwf Hsyn [[Hf Hu]|(Hpol & -> & Hu & Hm)]%inbound_lone_syn_cases.
  - by apply inbound_same.
  - apply syn_policy_switch in Hpol. pose proof (lru_stores _ _ _ _ Hm) as Hk.
    split_and!; [exact (others_kept_lru _ _ _ _ _ Hm)| |done].
    intros v' Hv'. simplify_eq. split_and!; [wf_entry|by intros Hi|].
    right. by split_and!.
Qed.

Lemma inbound_rst_effect fl ack now live s r c s' :
  wf_at s -> (forall v, live = Some v -> flows s !! k = Some v) ->
  inbound_rst k fl ack now live s = (r, c, s') ->
  tcp_effect k (inbound_post fl r s) s s'.
Proof.
  unfold inbound_rst. intros Hwf Hl H.
  repeat case_match; simplify_eq; auto using inbound_same, inbound_set.
Qed.

Lemma inbound_data_effect fl now live s r c s' :
  wf_at s -> (forall v, live = Some v -> flows s !! k = Some v) ->
  inbound_data k fl now live s = (r, c, s') ->
  tcp_effect k (inbound_post fl r s) s s'.
Proof.
  unfold inbound_data. intros Hwf Hl H.
  destruct live as [v|]; simplify_eq; [|by apply inbound_same].
  repeat case_match; zbool; auto using inbound_set, inbound_touch.
  apply inbound_set; auto. right; right. split; [done|st_lia].
Qed.

Lemma inbound_effect fl ack now t1 t2 s r c s' :
  wf_at s -> handle_inbound h f k fl ack now t1 t2 s = (r, c, s') ->
  tcp_effect k (inbound_post fl r s) s s'.
Proof.
  unfold handle_inbound. intros Hwf.
  assert (forall v, live_flow f k now s = Some v -> flows s !! k = Some v) as Hl
    by (intros v Hv; by apply live_flow_Some in Hv as [? _]).
  destruct (syn_ack fl); [by apply inbound_synack_effect|].
  destruct (lone_syn fl) eqn:Hsyn; [by apply inbound_lone_syn_effect|].
  destruct (tst fl TCP_RST); [by apply inbound_rst_effect|by apply inbound_data_effect].
Qed.
End Inbound.
End Effects.

(** ** UDP *)

(** The two UDP handlers leave the TCP table alone; an inbound datagram keeps
    the key set, an outbound one may add its own key. *)
Definition udp_effect (k : flow_key) (s s' : dp) : Prop :=
  others_kept k (udp_flows s) (udp_flows s') /\
  (map_Forall (fun _ v => udp_wf v) (udp_flows s) ->
   forall v, udp_flows s' !! k = Some v -> udp_wf v) /\
  flows s' = flows s.

Lemma udp_touch_effect k v now s :
  udp_flows s !! k = Some v ->
  udp_effect k s (set_udp_flows (<[k := touch v now]> (udp_flows s)) s).
Proof.
  intros Hv. split_and!; cbn; auto with go. intros Hwf v'.
  rewrite lookup_insert_eq, touch_eq. intros [= <-]. exact (Hwf k v Hv).
Qed.

Lemma udp_same_effect k s s' :
  udp_flows s' = udp_flows s -> flows s' = flows s -> udp_effect k s s'.
Proof.
  intros Hu Hf. split_and!; rewrite ?Hu; auto with go. intros Hwf v Hv. exact (Hwf k v Hv).
Qed.

Lemma outbound_udp_effect h `{!HelperLaws h} k now s r c s' :
  handle_outbound_udp h k now s = (r, c, s') -> udp_effect k s s'.
Proof.
  unfold handle_outbound_udp. intros H.
  destruct (udp_flows s !! k) as [v|] eqn:Hv; [simplify_eq; by apply udp_touch_effect|].
  destruct (update_udp h (udp_flows s) k _) as [m|] eqn:Hm; simplify_eq.
  - pose proof (lru_stores _ _ _ _ Hm) as Hk. split_and!; cbn; auto.
    + exact (others_kept_lru _ _ _ _ _ Hm).
    + intros _ v Hv'. by simplify_eq.
  - apply udp_same_effect; apply stat_reason_flows.
Qed.

Lemma inbound_udp_effect f k now s r c s' :
  handle_inbound_udp f k now s = (r, c, s') ->
  udp_effect k s s' /\ (is_Some (udp_flows s' !! k) -> is_Some (udp_flows s !! k)).
Proof.
  intros H.
  assert (s' = s \/ exists v, udp_flows s !! k = Some v /\
            s' = set_udp_flows (<[k := touch v now]> (udp_flows s)) s) as [->|(v & Hv & ->)].
  { unfold handle_inbound_udp in H. repeat case_match; simplify_eq; eauto. }
  - split; [by apply udp_same_effect|done].
  - split; [by apply udp_touch_effect|eauto].
Qed.

(** With the server policies off, an inbound segment rewrites its own entry or
    nothing. *)
Lemma inbound_closed_cases h f k fl ack now t1 t2 s r c s' :
  allow_inbound_syn f = 0 -> allow_inbound_servers f = 0 ->
  handle_inbound h f k fl ack now t1 t2 s = (r, c, s') ->
  s' = s \/ exists k v w, flows s !! k = Some v /\ s' = store_flow k w s.
Proof.
  intros Hsyn Hsrv. unfold handle_inbound, inbound_synack, inbound_lone_syn, inbound_rst,
    inbound_data, syn_policy_ok. rewrite Hsyn, Hsrv. cbn.
  destruct (live_flow f k now s) as [v|] eqn:Hl.
  - apply live_flow_Some in Hl as [Hv _]. intros H. repeat case_match; simplify_eq; eauto 6.
  - intros H. repeat case_match; simplify_eq; eauto.
Qed.

Lemma inbound_udp_cases f k now s r c s' :
  handle_inbound_udp f k now s = (r, c, s') ->
  s' = s \/ exists k v w, udp_flows s !! k = Some v /\
     s' = set_udp_flows (<[k := w]> (udp_flows s)) s.
Proof. unfold handle_inbound_udp. intros H. repeat case_match; simplify_eq; eauto 6. Qed.

(** An entry stamped at most [ttl] ticks ago is fresh. *)
Lemma fresh_within last now ttl :
  is_u32 now -> is_u32 last -> now - last <= ttl ->
  (if now <? last then false else ttl <? u32 (now - last)) = false.
Proof.
  intros. destruct (now <? last) eqn:E; [done|]. zbool.
  rewrite u32_small by (unfold is_u32 in *; lia). apply Z.ltb_ge. lia.
Qed.

(** ** The invariant of reachable tables *)

Definition table_inv (tr : list step) (s : dp) : Prop :=
  (forall k v, flows s !! k = Some v ->
     tcp_wf v /\ Exists (opens k) tr /\
     (tst (flags v) FL_ISN_VALID = true -> last_syn k tr = Some (client_isn v))) /\
  (forall k v, udp_flows s !! k = Some v -> udp_wf v /\ Exists (opens_udp k) tr).

Lemma evict_sub tcp udp s k v :
  (flows (evict tcp udp s) !! k = Some v -> flows s !! k = Some v) /\
  (udp_flows (evict tcp udp s) !! k = Some v -> udp_flows s !! k = Some v).
Proof. cbn. split; by intros [? _]%map_lookup_filter_Some. Qed.

Lemma table_inv_wf tr s : table_inv tr s -> dp_wf s.
Proof. intros [H1 H2]. split; intros k v Hv; [apply (H1 k v Hv)|apply (H2 k v Hv)]. Qed.

Lemma last_syn_other k x tr :
  (forall k' fl seq now, st_event x = EvOut k' fl seq now -> k' <> k \/ lone_syn fl = false) ->
  last_syn k (x :: tr) = last_syn k tr.
Proof.
  intros H. cbn. destruct (st_event x) eqn:Hx; try done.
  destruct (H _ _ _ _ eq_refl) as [Hne| ->]; [|by rewrite andb_false_r].
  by rewrite bool_decide_false.
Qed.

(** One side of the invariant for a step that keeps the table. *)
Lemma tcp_inv_same tr x s s' :
  flows s' = flows s -> (forall k fl seq now, st_event x <> EvOut k fl seq now) ->
  (forall k v, flows s !! k = Some v -> tcp_wf v /\ Exists (opens k) tr /\
     (tst (flags v) FL_ISN_VALID = true -> last_syn k tr = Some (client_isn v))) ->
  (forall k v, flows s' !! k = Some v -> tcp_wf v /\ Exists (opens k) (x :: tr) /\
     (tst (flags v) FL_ISN_VALID = true -> last_syn k (x :: tr) = Some (client_isn v))).
Proof.
  intros -> Hx H k v Hv. destruct (H k v Hv) as (Hw & Ho & Hi).
  split_and!; [done|by right|]. rewrite last_syn_other; [done|]. intros ?????. by exfalso; eapply Hx.
Qed.

Lemma udp_inv_same tr x s s' :
  udp_flows s' = udp_flows s ->
  (forall k v, udp_flows s !! k = Some v -> udp_wf v /\ Exists (opens_udp k) tr) ->
  (forall k v, udp_flows s' !! k = Some v -> udp_wf v /\ Exists (opens_udp k) (x :: tr)).
Proof. intros -> H k v Hv. destruct (H k v Hv). split; [done|by right]. Qed.

Lemma isn_from_last k old tr v' :
  isn_from old v' ->
  (forall v, old = Some v -> tst (flags v) FL_ISN_VALID = true ->
     last_syn k tr = Some (client_isn v)) ->
  tst (flags v') FL_ISN_VALID = true -> last_syn k tr = Some (client_isn v').
Proof. intros Hf Ho Hi. destruct (Hf Hi) as (v & Hv & Hiv & ->). auto. Qed.

(** A step on one TCP key: it is enough to look at that key's new entry. *)
Lemma table_inv_tcp tr x k0 P s s' :
  table_inv tr s -> tcp_effect k0 P s s' ->
  (forall k fl seq now, st_event x = EvOut k fl seq now -> k = k0) ->
  (forall v, P v -> tcp_wf v /\ Exists (opens k0) (x :: tr) /\
     (tst (flags v) FL_ISN_VALID = true -> last_syn k0 (x :: tr) = Some (client_isn v))) ->
  table_inv (x :: tr) s'.
Proof.
  intros [Ht Hu] (Hk & HP & Hsame) Hx Hnew. split; [|by apply (udp_inv_same tr x s s')].
  intros k v Hv. destruct (decide (k = k0)) as [->|Hne]; [by apply Hnew, HP|].
  destruct (Ht k v (Hk _ _ Hne Hv)) as (Hw & Ho & Hi). split_and!; [done|by right|].
  rewrite last_syn_other; [done|]. intros ???? He. left. by rewrite (Hx _ _ _ _ He).
Qed.

(** A step on one UDP key. *)
Lemma table_inv_udp tr x k0 s s' :
  table_inv tr s -> udp_effect k0 s s' ->
  (forall k fl seq now, st_event x <> EvOut k fl seq now) ->
  (is_Some (udp_flows s' !! k0) -> Exists (opens_udp k0) (x :: tr)) ->
  table_inv (x :: tr) s'.
Proof.
  intros Hinv (Hk & HP & Hsame) Hx Ho. pose proof (table_inv_wf _ _ Hinv) as [_ Hwu].
  destruct Hinv as [Ht Hu]. split; [by apply (tcp_inv_same tr x s s')|].
  intros k v Hv. destruct (decide (k = k0)) as [->|Hne]; [split; [by apply HP|eauto]|].
  destruct (Hu k v (Hk _ _ Hne Hv)). split; [done|by right].
Qed.

(** Every step preserves the invariant. *)
Lemma table_inv_step tr s h `{!HelperLaws h} f e r c s' :
  table_inv tr s -> run h f e s = (r, c, s') -> table_inv (Step f e r :: tr) s'.
Proof.
  intros Hinv Hrun. pose proof (table_inv_wf _ _ Hinv) as [Hwt _].
  pose proof Hinv as [Ht Hu].
  destruct e as [k0 fl seq now|k0 fl ack now t1 t2|k0 now|k0 now|tcp udp|a]; cbn in Hrun.
  - apply outbound_effect in Hrun; [|by eauto|apply Hwt].
    eapply table_inv_tcp; [done..|by intros ???? [= ->]|].
    intros v [Hw Hi]. split_and!; [done|by left|]. intros Hval. cbn.
    rewrite bool_decide_true by done. destruct (lone_syn fl); cbn; [congruence|].
    eapply isn_from_last; [done| |done]. intros w Hw' Hiw. by apply (Ht k0).
  - apply inbound_effect in Hrun; [|done|exact (Hwt k0)].
    eapply table_inv_tcp; [done..|].
    intros v (Hw & Hi & Ho). split_and!; [done| |].
    + destruct Ho as [[w Hw']|(Hs & -> & Hp)]; [right; by apply (Ht k0 w)|by left].
    + rewrite last_syn_other by done. eapply isn_from_last; [done|].
      intros w Hw' Hiw. by apply (Ht k0).
  - apply outbound_udp_effect in Hrun; [|done]. eapply table_inv_udp; [done..|by left].
  - apply inbound_udp_effect in Hrun as [He Hin]. eapply table_inv_udp; [done..|].
    intros [w Hw]%Hin. right. by apply (Hu k0 w).
  - simplify_eq. split; intros k v Hv; apply evict_sub in Hv.
    + destruct (Ht k v Hv) as (? & ? & ?). split_and!; [done|by right|by rewrite last_syn_other].
    + destruct (Hu k v Hv). split; [done|by right].
  - simplify_eq. split; [by apply (tcp_inv_same tr _ s _)|by apply (udp_inv_same tr _ s _)].
Qed.

Lemma reach_inv tr s : reach tr s -> table_inv tr s.
Proof.
  induction 1 as [|tr s h f e r c s' _ IH Hh Hrun]; [|by eapply table_inv_step].
  split; intros k v; cbn; by rewrite lookup_empty.
Qed.

(** ** Properties *)

(** Whatever packets, evictions, policy changes and kernel choices came
    before, an inbound TCP segment other than a lone SYN is forwarded only on a
    key that the trusted side sent on, or that an admitted inbound SYN opened. *)
Theorem inbound_needs_opener tr s h `{!HelperLaws h} f k fl ack now t1 t2 c s' :
  reach tr s -> lone_syn fl = false ->
  run h f (EvIn k fl ack now t1 t2) s = (ACT_FORWARD, c, s') ->
  Exists (opens k) tr.
Proof.
  intros Hr Hsyn Hrun. apply reach_inv in Hr as [Ht _].
  assert (is_Some (flows s !! k)) as [v Hv]; [|by apply (Ht k v)].
  cbn in Hrun. unfold handle_inbound in Hrun. rewrite Hsyn in Hrun.
  destruct (live_flow f k now s) as [v|] eqn:Hl;
    [apply live_flow_Some in Hl as [Hv _]; eauto|].
  cbn in Hrun. repeat case_match; discriminate.
Qed.

(** A forwarded inbound SYN-ACK acknowledges the sequence number of the most
    recent outbound SYN on its key plus one, unless the live entry carries no
    ISN (an adopted flow or one opened by an admitted inbound SYN). *)
Theorem synack_matches_isn tr s h `{!HelperLaws h} f k fl ack now t1 t2 c s' :
  reach tr s -> syn_ack fl = true ->
  run h f (EvIn k fl ack now t1 t2) s = (ACT_FORWARD, c, s') ->
  (exists seq, last_syn k tr = Some seq /\ ack = u32 (seq + 1)) \/
  (exists v, flows s !! k = Some v /\ tst (flags v) FL_ISN_VALID = false).
Proof.
  intros Hr Hsa Hrun. apply reach_inv in Hr as [Ht _].
  cbn in Hrun. unfold handle_inbound, inbound_synack in Hrun. rewrite Hsa in Hrun.
  destruct (live_flow f k now s) as [v|] eqn:Hl; [|discriminate].
  apply live_flow_Some in Hl as [Hv _].
  destruct (tst (flags v) FL_ISN_VALID) eqn:Hi; [|by eauto].
  destruct (ack =? u32 (client_isn v + 1)) eqn:Ha; [|discriminate].
  left. exists (client_isn v). split; [by apply (Ht k v)|by apply Z.eqb_eq].
Qed.

(** C17. Every reachable table is well formed: TCP entries are in one of the four
    TCP states, a SYN_SENT entry always has its ISN, an entry the trusted side
    closed is in CLOSING, and the UDP table holds only UDP pseudo-flows. *)
Theorem reachable_tables_wf tr s : reach tr s -> dp_wf s.
Proof. intros Hr. by eapply table_inv_wf, reach_inv. Qed.

(** In a well-formed table an inbound SYN-ACK is forwarded exactly when its
    key is live and it acknowledges the stored ISN plus one (when there is
    one); otherwise it is dropped and no map changes. *)
Theorem synack_verdict s h f k fl ack now t1 t2 r c s' :
  dp_wf s -> syn_ack fl = true ->
  handle_inbound h f k fl ack now t1 t2 s = (r, c, s') ->
  (r = ACT_FORWARD <-> synack_ok f k ack now s = true) /\
  (r <> ACT_FORWARD -> s' = s) /\
  (r = RSN_BAD_ISN <-> exists v, live_flow f k now s = Some v /\
     tst (flags v) FL_ISN_VALID = true /\ ack <> u32 (client_isn v + 1)).
Proof.
  intros [Hwf _] Hsa. unfold handle_inbound, inbound_synack, synack_ok. rewrite Hsa.
  destruct (live_flow f k now s) as [v|] eqn:Hl; [|intros; simplify_eq; iff_cases].
  apply live_flow_Some in Hl as [Hv _]. destruct (Hwf k v Hv) as (_ & Hi & _).
  destruct (tst (flags v) FL_ISN_VALID) eqn:Hf; cbn.
  - destruct (ack =? u32 (client_isn v + 1)) eqn:Ha; zbool; intros; simplify_eq/=; iff_cases.
  - destruct (state v =? ST_SYN_SENT) eqn:Hs; zbool; [by apply Hi in Hs|].
    intros; simplify_eq/=; iff_cases.
Qed.

(** An inbound RST is forwarded exactly when its key is live and, while the
    key is in SYN_SENT with an ISN, it acknowledges the SYN; a rejected one
    changes nothing and a forwarded one puts the entry in CLOSING, keeping its
    flags (so it is not recorded as a close of the trusted side). *)
Theorem rst_verdict s h f k fl ack now t1 t2 r c s' :
  syn_ack fl = false -> lone_syn fl = false -> tst fl TCP_RST = true ->
  handle_inbound h f k fl ack now t1 t2 s = (r, c, s') ->
  (r = ACT_FORWARD <-> rst_ok f k fl ack now s = true) /\
  (r <> ACT_FORWARD -> r = RSN_OOS_RST /\ s' = s) /\
  (r = ACT_FORWARD -> exists v, flows s !! k = Some v /\
     flows s' = <[k := FlowVal (client_isn v) now ST_CLOSING (flags v)]> (flows s)).
Proof.
  intros H1 H2 H3. unfold handle_inbound, inbound_rst, rst_ok. rewrite H1, H2, H3.
  destruct (live_flow f k now s) as [v|] eqn:Hl; [|intros; simplify_eq; iff_cases].
  apply live_flow_Some in Hl as [Hv _].
  rewrite touch_eq. destruct (_ && tst (flags v) FL_ISN_VALID); cbn;
    [destruct (tst fl TCP_ACK), (ack =? u32 (client_isn v + 1)); cbn|];
    intros; simplify_eq; iff_cases; eauto.
Qed.

(** C28. With both server policies off, no sequence of packets from the internet
    side adds or removes a flow-table key or touches the SYN buckets: the tables
    cannot be grown or churned from outside. *)
Theorem inbound_never_allocates s s' :
  inbound_run s s' ->
  dom (flows s') = dom (flows s) /\ dom (udp_flows s') = dom (udp_flows s) /\
  synbkt s' = synbkt s.
Proof.
  induction 1 as [s|s h f e r c s1 s2 [Hsyn Hsrv] He Hrun _ (-> & -> & ->)]; [done|].
  assert (s1 = s \/ (exists k v w, flows s !! k = Some v /\ s1 = store_flow k w s) \/
    (exists k v w, udp_flows s !! k = Some v /\ s1 = set_udp_flows (<[k := w]> (udp_flows s)) s))
    as [->|[(k & v & w & Hk & ->)|(k & v & w & Hk & ->)]].
  { destruct e; cbn in He; try done; cbn in Hrun.
    - eapply inbound_closed_cases in Hrun; [|done..]. destruct Hrun; eauto 8.
    - eapply inbound_udp_cases in Hrun. destruct Hrun; eauto 8. }
  - done.
  - cbn. rewrite dom_insert_lookup_L; eauto.
  - cbn. rewrite dom_insert_lookup_L; eauto.
Qed.

(** A close that came from the internet side does not demote a connection
    the host keeps using: after an inbound RST or FIN on an established entry,
    an outbound data segment within the closing timeout puts it back in EST. *)
Theorem inbound_close_recovers s h f k v fl1 ack now1 t1 t2 r1 c1 s1 h2 fl2 seq now2 :
  flows s !! k = Some v -> tcp_wf v -> state v = ST_EST -> expired f v now1 = false ->
  syn_ack fl1 = false -> lone_syn fl1 = false ->
  tst fl1 TCP_RST || tst fl1 TCP_FIN = true ->
  handle_inbound h f k fl1 ack now1 t1 t2 s = (r1, c1, s1) ->
  lone_syn fl2 = false -> tst fl2 TCP_RST = false -> tst fl2 TCP_FIN = false ->
  is_u32 now2 -> is_u32 now1 -> now2 - now1 <= ttl_closing f ->
  r1 = ACT_FORWARD /\
  exists s2, handle_outbound h2 f k fl2 seq now2 s1 = (ACT_FORWARD, ST_EST, s2) /\
    flows s2 !! k = Some (FlowVal (client_isn v) now2 ST_EST (flags v)).
Proof.
  intros Hk (_ & _ & Hc) Hst Hlive Hs1 Hl1 Hrf Hin Hl2 Hr2 Hf2 Hn2 Hn1 Httl.
  assert (r1 = ACT_FORWARD /\ flows s1 !! k = Some (FlowVal (client_isn v) now1 ST_CLOSING (flags v)))
    as [-> Hk1].
  { unfold handle_inbound, inbound_rst, inbound_data in Hin.
    rewrite (proj2 (live_flow_Some f k now1 s v)) in Hin by done.
    rewrite Hs1, Hl1, Hst in Hin. cbn in Hin.
    destruct (tst fl1 TCP_RST); cbn in *; [|rewrite Hrf in Hin; cbn in Hin];
      rewrite touch_eq in Hin; simplify_eq; cbn; by rewrite lookup_insert_eq. }
  split; [done|]. unfold handle_outbound. rewrite Hl2, Hr2, Hk1.
  unfold expired. cbn. rewrite (fresh_within now1 now2 (ttl_closing f)) by done.
  unfold promote_outbound. cbn. rewrite Hf2.
  destruct (tst (flags v) FL_CLOSED_OUT) eqn:Hcl; [specialize (Hc eq_refl); st_lia|].
  rewrite touch_eq. eexists. split; [done|]. cbn. by rewrite lookup_insert_eq.
Qed.

(** A close by the trusted side sticks: while the entry is fresh, no segment
    of either direction other than a lone SYN moves it out of CLOSING, clears
    the close mark or makes it cacheable. *)
Theorem local_close_sticks s h `{!HelperLaws h} f k v e now r c s' :
  flows s !! k = Some v -> state v = ST_CLOSING ->
  tst (flags v) FL_CLOSED_OUT = true -> expired f v now = false ->
  (exists fl, lone_syn fl = false /\
     ((exists seq, e = EvOut k fl seq now) \/ (exists ack t1 t2, e = EvIn k fl ack now t1 t2))) ->
  run h f e s = (r, c, s') ->
  c = 0 /\ exists v', flows s' !! k = Some v' /\ state v' = ST_CLOSING /\
    tst (flags v') FL_CLOSED_OUT = true.
Proof.
  destruct v as [i0 l0 st0 g0]. cbn. intros Hk -> Hcl Hx (fl & Hsyn & He) Hrun.
  assert (c = 0 /\ (s' = s \/ exists i n g, s' = store_flow k (FlowVal i n ST_CLOSING g) s /\
            tst g FL_CLOSED_OUT = true)) as [-> [->|(i & n & g & -> & Hg)]].
  { destruct He as [(seq & ->)|(ack & t1 & t2 & ->)]; cbn in Hrun.
    - unfold handle_outbound, promote_outbound in Hrun. rewrite Hsyn, Hk, Hx in Hrun.
      cbn in Hrun. rewrite Hcl in Hrun.
      repeat case_match; simplify_eq/=; rewrite ?touch_eq; cbn; eauto 10 using tst_or_closed.
    - unfold handle_inbound in Hrun. rewrite Hsyn in Hrun.
      rewrite (proj2 (live_flow_Some f k now s _)) in Hrun by done.
      unfold inbound_synack, inbound_rst, inbound_data in Hrun. cbn in Hrun.
      repeat case_match; simplify_eq/=; rewrite ?touch_eq; cbn; eauto 10. }
  - eauto.
  - split; [done|]. eexists. cbn. rewrite lookup_insert_eq. auto.
Qed.

(** Inbound UDP is forwarded only as the reply to a datagram the trusted
    side sent on that key, or to a listed server while servers are allowed. *)
Theorem inbound_udp_needs_opener tr s h `{!HelperLaws h} f k now c s' :
  reach tr s -> run h f (EvInUdp k now) s = (ACT_FORWARD, c, s') ->
  Exists (opens_udp k) tr \/
  (allow_inbound_servers f <> 0 /\ (host_ip k, host_port k) ∈ server_allow s).
Proof.
  intros Hr Hrun. apply reach_inv in Hr as [_ Hu]. cbn in Hrun. unfold handle_inbound_udp in Hrun.
  destruct (udp_flows s !! k) as [v|] eqn:Hv; [left; by apply (Hu k v)|]. right.
  unfold server_listed in Hrun.
  destruct (allow_inbound_servers f =? 0) eqn:Ha; cbn in Hrun; [discriminate|].
  destruct (bool_decide _) eqn:Hb; [|discriminate]. zbool.
  split; [done|by apply bool_decide_eq_true in Hb].
Qed.

(** ** The properties at concrete inputs *)

Definition w_key : flow_key := FlowKey 100 200 443 40000 0.
Definition w_policy : features := Features 1 1 0 1 1 1 0 0 0 0 10 280 10 28.
Definition w_syn : event := EvOut w_key TCP_SYN 7000 50.
Definition w_hist : list step := [Step w_policy w_syn ACT_FORWARD].
Definition w_open : dp :=
  Dp {[w_key := FlowVal 7000 50 ST_SYN_SENT FL_ISN_VALID]} ∅ ∅ ∅ ∅ ∅.
Definition w_est : dp := Dp {[w_key := FlowVal 7000 50 ST_EST FL_ISN_VALID]} ∅ ∅ ∅ ∅ ∅.

Lemma w_reach : reach w_hist w_open.
Proof.
  eapply (reach_step [] (dp_init ∅) ref_helpers); [apply reach_init|apply _|reflexivity].
Qed.

Lemma inbound_needs_opener_witness :
  exists c s', run ref_helpers w_policy (EvIn w_key (TCP_SYN + TCP_ACK) 7001 51 0 0) w_open =
    (ACT_FORWARD, c, s') /\ Exists (opens w_key) w_hist.
Proof.
  eexists _, _. split; [reflexivity|].
  eapply (inbound_needs_opener w_hist w_open ref_helpers w_policy w_key (TCP_SYN + TCP_ACK) 7001 51 0 0);
    [apply w_reach|reflexivity|reflexivity].
Defined.

Lemma synack_matches_isn_witness :
  (exists seq, last_syn w_key w_hist = Some seq /\ 7001 = u32 (seq + 1)) \/
  (exists v, flows w_open !! w_key = Some v /\ tst (flags v) FL_ISN_VALID = false).
Proof.
  eapply (synack_matches_isn w_hist w_open ref_helpers w_policy w_key (TCP_SYN + TCP_ACK) 7001 51 0 0);
    [apply w_reach|reflexivity|reflexivity].
Defined.

Lemma reachable_tables_wf_witness : dp_wf w_open.
Proof. exact (reachable_tables_wf w_hist w_open w_reach). Defined.

Lemma w_open_wf : dp_wf w_open.
Proof.
  split; [|apply map_Forall_empty]. apply map_Forall_singleton. cbn. unfold tcp_wf; cbn.
  split_and!; auto; discriminate.
Qed.

Lemma synack_verdict_witness :
  RSN_BAD_ISN <> ACT_FORWARD /\ w_open = w_open.
Proof.
  split; [discriminate|].
  eapply (synack_verdict w_open ref_helpers w_policy w_key (TCP_SYN + TCP_ACK) 9 51 0 0);
    [apply w_open_wf|reflexivity|reflexivity|discriminate].
Defined.

Lemma rst_verdict_witness :
  RSN_OOS_RST = RSN_OOS_RST /\ w_open = w_open.
Proof.
  eapply (rst_verdict w_open ref_helpers w_policy w_key TCP_RST 0 51 0 0);
    [reflexivity..|discriminate].
Defined.

Lemma inbound_never_allocates_witness :
  dom (flows w_open) = dom (flows w_open) /\
  dom (udp_flows w_open) = dom (udp_flows w_open) /\ synbkt w_open = synbkt w_open.
Proof.
  eapply inbound_never_allocates.
  eapply (inbound_cons w_open ref_helpers w_policy (EvIn w_key TCP_SYN 0 51 0 0));
    [split; reflexivity|exact I|reflexivity|apply inbound_nil].
Defined.

Lemma inbound_close_recovers_witness :
  exists s1 c1, handle_inbound ref_helpers w_policy w_key (TCP_RST + TCP_ACK) 0 51 0 0 w_est =
    (ACT_FORWARD, c1, s1) /\
  exists s2, handle_outbound ref_helpers w_policy w_key TCP_ACK 7001 52 s1 =
    (ACT_FORWARD, ST_EST, s2) /\
    flows s2 !! w_key = Some (FlowVal 7000 52 ST_EST FL_ISN_VALID).
Proof.
  eexists _, _. split; [reflexivity|].
  eapply (inbound_close_recovers w_est ref_helpers w_policy w_key
    (FlowVal 7000 50 ST_EST FL_ISN_VALID) (TCP_RST + TCP_ACK) 0 51 0 0);
    try reflexivity; try (unfold is_u32; lia).
  - unfold tcp_wf; cbn. split_and!; auto; discriminate.
  - cbn. lia.
Defined.

Lemma local_close_sticks_witness :
  0 = 0 /\ exists v', flows (Dp {[w_key := FlowVal 0 51 ST_CLOSING FL_CLOSED_OUT]} ∅ ∅ ∅ ∅ ∅)
    !! w_key = Some v' /\ state v' = ST_CLOSING /\ tst (flags v') FL_CLOSED_OUT = true.
Proof.
  eapply (local_close_sticks (Dp {[w_key := FlowVal 0 50 ST_CLOSING FL_CLOSED_OUT]} ∅ ∅ ∅ ∅ ∅)
    ref_helpers w_policy w_key (FlowVal 0 50 ST_CLOSING FL_CLOSED_OUT)
    (EvOut w_key TCP_ACK 5 51) 51); [reflexivity..| |].
  - exists TCP_ACK. split; [reflexivity|]. left. by exists 5.
  - vm_compute. reflexivity.
Defined.

Lemma inbound_udp_needs_opener_witness :
  Exists (opens_udp w_key) [Step w_policy (EvOutUdp w_key 50) ACT_FORWARD] \/
  (allow_inbound_servers w_policy <> 0 /\ (host_ip w_key, host_port w_key) ∈ (∅ : gset (Z * Z))).
Proof.
  eapply (inbound_udp_needs_opener _
    (Dp ∅ {[w_key := FlowVal 0 50 ST_UDP 0]} ∅ ∅ ∅ ∅) ref_helpers w_policy w_key 51);
    [|reflexivity].
  eapply (reach_step [] (dp_init ∅) ref_helpers); [apply reach_init|apply _|reflexivity].
Defined.
