(* ===== verification/Packet.v ===== *)
(** * Packet: the XDP program of bpf/filter.bpf.c on frames of bytes

    [xdp_filter] from the Ethernet header to the verdict, around the flow
    logic of Filter.v: VLAN tags, the IPv4, TCP and UDP checks, statistics,
    flow monitoring, the policy drops and the TCP reset written into the frame
    in place.  A frame is its list of bytes; a load or a store outside it is
    [None], the fault the kernel's verifier exists to exclude.  The host is
    little-endian, as gen.go's targets are, and a field loaded raw keeps its
    network byte order.  Kernel helpers are arguments. *)

From Stdlib Require Import ZArith Lia Bool.
From stdpp Require Import prelude gmap.
From S2P Require Import Prelude Filter.

Local Open Scope Z_scope.

(** ** Memory *)

Abbreviation frame := (list Z).

Definition load8 (off : Z) (p : frame) : option Z := if 0 <=? off then p !! Z.to_nat off else None.
Definition load16 (off : Z) (p : frame) : option Z :=
  a ← load8 off p; b ← load8 (off + 1) p; Some (a + 256 * b).
Definition load32 (off : Z) (p : frame) : option Z :=
  a ← load16 off p; b ← load16 (off + 2) p; Some (a + 65536 * b).

Definition size (p : frame) : Z := Z.of_nat (length p).

Definition store (off : Z) (bs : list Z) (p : frame) : option frame :=
  if (0 <=? off) && (off + size bs <=? size p)
  then Some (take (Z.to_nat off) p ++ bs ++ drop (Z.to_nat off + length bs) p) else None.

Definition bytes16 (x : Z) : list Z := [x mod 256; x / 256 mod 256].
Definition bytes32 (x : Z) : list Z := (bytes16 (x mod 65536) ++ bytes16 (x / 65536 mod 65536))%list.

(** Copies [n] bytes out of the frame. *)
Definition load_bytes (n : nat) (off : Z) (p : frame) : option (list Z) :=
  if (0 <=? off) && (off + Z.of_nat n <=? size p) then Some (take n (drop (Z.to_nat off) p)) else None.

(** [bpf_htons], [bpf_ntohs] and their 32-bit versions. *)
Definition bswap16 (x : Z) : Z := x mod 256 * 256 + x / 256 mod 256.
Definition bswap32 (x : Z) : Z := bswap16 (x mod 65536) * 65536 + bswap16 (x / 65536 mod 65536).

(** ** Headers: sizes and field offsets *)

Definition ETH_ALEN : Z := 6.
Definition eth_size : Z := 14.
Definition vlan_size : Z := 4.
Definition ip_size : Z := 20.
Definition tcp_size : Z := 20.
Definition udp_size : Z := 8.

Definition ETH_P_IP : Z := 2048.        (* 0x0800 *)
Definition ETH_P_8021Q : Z := 33024.    (* 0x8100 *)
Definition ETH_P_8021AD : Z := 34984.   (* 0x88A8 *)
Definition IPPROTO_TCP : Z := 6.
Definition IPPROTO_UDP : Z := 17.
Definition MAX_VLAN_DEPTH : nat := 2.
Definition VLAN_VID_MASK : Z := 4095.
Definition IP_FRAG_OFF_MASK : Z := 8191.

(** ** Maps and the instance *)

Record stats_global := StatsGlobal {
  rx_pkts : Z; rx_bytes : Z; redir_pkts : Z; redir_bytes : Z; drop_pkts : Z; drop_bytes : Z;
  nonip_pkts : Z; nonip_bytes : Z; nontcp_pkts : Z; nontcp_bytes : Z; l1_hits : Z; rst_pkts : Z; rst_bytes : Z }.
Record vlan_stat := VlanStat { v_pkts : Z; v_bytes : Z; v_drops : Z }.

(** A load of the program: the rodata of its port and the two variables of
    flow monitoring. *)
Record instance := Instance {
  ROLE_TRUSTED : bool; PEER_IDX : Z; L1_MASK : Z; MULTIBUF : bool;
  FLOW_MONITOR_ENABLED : Z; FLOW_MONITOR_SAMPLE_MASK : Z }.

Definition counters : Type := gmap (flow_key * Z) (Z * Z).

(** The maps; a lookup in a one-entry array may fail. *)
Record machine := Machine {
  m_dp : dp; m_features : option features; m_stats : option stats_global; m_vlan : gmap Z vlan_stat; m_counters : counters }.

Definition on_dp (g : dp -> dp) (m : machine) : machine :=
  Machine (g (m_dp m)) (m_features m) (m_stats m) (m_vlan m) (m_counters m).
Definition on_stats (g : stats_global -> stats_global) (m : machine) : machine :=
  Machine (m_dp m) (m_features m) (g <$> m_stats m) (m_vlan m) (m_counters m).
Definition on_vlan (vid : Z) (g : vlan_stat -> vlan_stat) (m : machine) : machine :=
  Machine (m_dp m) (m_features m) (m_stats m) (alter g vid (m_vlan m)) (m_counters m).
Definition set_counters (c : counters) (m : machine) : machine :=
  Machine (m_dp m) (m_features m) (m_stats m) (m_vlan m) c.

(** What the kernel's helpers answer while one packet is handled. *)
Record kernel := Kernel {
  k_helpers : helpers; k_ns : Z; k_t_src : Z; k_t_glob : Z;
  k_prandom : Z; k_buff_len : Z;
  k_lpm : Z -> bool;                                              (* the LPM trie, on a /32 *)
  k_insert : counters -> flow_key * Z -> Z * Z -> bool * counters (* BPF_NOEXIST; true: it failed *) }.

(** ** Accounting *)

Definition inc (x : Z) : Z := u64 (x + 1).
Definition add_len (len x : Z) : Z := u64 (x + len).

Definition count_rx (len : Z) (g : stats_global) : stats_global :=
  StatsGlobal (inc (rx_pkts g)) (add_len len (rx_bytes g)) (redir_pkts g) (redir_bytes g) (drop_pkts g) (drop_bytes g)
    (nonip_pkts g) (nonip_bytes g) (nontcp_pkts g) (nontcp_bytes g) (l1_hits g) (rst_pkts g) (rst_bytes g).
Definition count_redir (len : Z) (g : stats_global) : stats_global :=
  StatsGlobal (rx_pkts g) (rx_bytes g) (inc (redir_pkts g)) (add_len len (redir_bytes g)) (drop_pkts g) (drop_bytes g)
    (nonip_pkts g) (nonip_bytes g) (nontcp_pkts g) (nontcp_bytes g) (l1_hits g) (rst_pkts g) (rst_bytes g).
Definition count_drop (len : Z) (g : stats_global) : stats_global :=
  StatsGlobal (rx_pkts g) (rx_bytes g) (redir_pkts g) (redir_bytes g) (inc (drop_pkts g)) (add_len len (drop_bytes g))
    (nonip_pkts g) (nonip_bytes g) (nontcp_pkts g) (nontcp_bytes g) (l1_hits g) (rst_pkts g) (rst_bytes g).
Definition count_nonip (len : Z) (g : stats_global) : stats_global :=
  StatsGlobal (rx_pkts g) (rx_bytes g) (redir_pkts g) (redir_bytes g) (drop_pkts g) (drop_bytes g)
    (inc (nonip_pkts g)) (add_len len (nonip_bytes g)) (nontcp_pkts g) (nontcp_bytes g) (l1_hits g) (rst_pkts g) (rst_bytes g).
Definition count_nontcp (len : Z) (g : stats_global) : stats_global :=
  StatsGlobal (rx_pkts g) (rx_bytes g) (redir_pkts g) (redir_bytes g) (drop_pkts g) (drop_bytes g)
    (nonip_pkts g) (nonip_bytes g) (inc (nontcp_pkts g)) (add_len len (nontcp_bytes g)) (l1_hits g) (rst_pkts g) (rst_bytes g).
Definition count_l1 (g : stats_global) : stats_global :=
  StatsGlobal (rx_pkts g) (rx_bytes g) (redir_pkts g) (redir_bytes g) (drop_pkts g) (drop_bytes g)
    (nonip_pkts g) (nonip_bytes g) (nontcp_pkts g) (nontcp_bytes g) (inc (l1_hits g)) (rst_pkts g) (rst_bytes g).
Definition count_rst (len : Z) (g : stats_global) : stats_global :=
  StatsGlobal (rx_pkts g) (rx_bytes g) (redir_pkts g) (redir_bytes g) (drop_pkts g) (drop_bytes g)
    (nonip_pkts g) (nonip_bytes g) (nontcp_pkts g) (nontcp_bytes g) (l1_hits g) (inc (rst_pkts g)) (add_len len (rst_bytes g)).
Definition vlan_rx (len : Z) (v : vlan_stat) : vlan_stat := VlanStat (inc (v_pkts v)) (add_len len (v_bytes v)) (v_drops v).
Definition vlan_drop (v : vlan_stat) : vlan_stat := VlanStat (v_pkts v) (v_bytes v) (inc (v_drops v)).

(** The slot of a VLAN. *)
Definition stat_vlan_ptr (vid : Z) : Z := if 4095 <? vid then 0 else vid.

(** ** Flow monitoring *)

Definition bump (len : Z) (c : Z * Z) : Z * Z := (inc (fst c), add_len len (snd c)).

Definition monitor_flow (i : instance) (kn : kernel) (k : flow_key) (protocol len : Z) (m : machine) : machine :=
  if FLOW_MONITOR_ENABLED i =? 0 then m
  else if negb (Z.land (k_prandom kn) (FLOW_MONITOR_SAMPLE_MASK i) =? 0) then m
  else if negb (k_lpm kn (host_ip k)) then m
  else
    match m_counters m !! (k, protocol) with
    | Some _ => set_counters (alter (bump len) (k, protocol) (m_counters m)) m
    | None =>
        let '(failed, c) := k_insert kn (m_counters m) (k, protocol) (1, len) in
        set_counters (if (failed : bool) then alter (bump len) (k, protocol) c else c) m
    end.

(** ** Verdicts *)

(** [Redirected]: handed to [bpf_redirect_map] for the peer port. *)
Inductive verdict := Redirected (peer : Z) | XDP_DROP | XDP_TX.

Definition result : Type := option (verdict * frame * machine).

Definition do_forward (i : instance) (len : Z) (p : frame) (m : machine) : verdict * frame * machine :=
  (Redirected (PEER_IDX i), p, on_stats (count_redir len) m).

(** Without the policy the packet is handed on uncounted. *)
Definition no_policy (i : instance) (p : frame) (m : machine) : verdict * frame * machine := (Redirected (PEER_IDX i), p, m).

Definition do_drop (i : instance) (f : features) (vs reason len : Z) (p : frame) (m : machine) : verdict * frame * machine :=
  let m := on_dp (stat_reason reason) m in
  if mode f =? MODE_ENFORCE then (XDP_DROP, p, on_vlan vs vlan_drop (on_stats (count_drop len) m))
  else do_forward i len p m.

Definition do_drop_lazy (i : instance) (vs reason len : Z) (p : frame) (m : machine) : verdict * frame * machine :=
  match m_features m with
  | None => no_policy i p m
  | Some f => do_drop i f vs reason len p m
  end.

(** ** The TCP reset *)

Definition csum_fold (sum : Z) : Z :=
  let sum := Z.land sum 65535 + Z.shiftr sum 16 in
  let sum := Z.land sum 65535 + Z.shiftr sum 16 in
  u16 (Z.lnot sum).

(** [sum += w[i]] over [n] raw words. *)
Fixpoint sum_words (n : nat) (off : Z) (p : frame) (sum : Z) : option Z :=
  match n with
  | O => Some sum
  | S n => w ← load16 off p; sum_words n (off + 2) p (u32 (sum + w))
  end.

(** Sequence number, acknowledgement and flags of the reply, in network order. *)
Definition rst_header (in_flags in_seq in_ack tot_len ihl doff : Z) : Z * Z * Z :=
  if tst in_flags TCP_ACK then (in_ack, 0, TCP_RST)
  else
    let seglen := u32 (tot_len - ihl - doff) in
    let seglen := if tst in_flags TCP_SYN then u32 (seglen + 1) else seglen in
    let seglen := if tst in_flags TCP_FIN then u32 (seglen + 1) else seglen in
    (0, bswap32 (u32 (bswap32 in_seq + seglen)), Z.lor TCP_RST TCP_ACK).

(** Exchange the [n] bytes at two places. *)
Definition swap_bytes (n : nat) (a b : Z) (p : frame) : option frame :=
  x ← load_bytes n a p; y ← load_bytes n b p; p ← store a y p; store b x p.

(** The new IP total length, and its checksum patched for that field. *)
Definition patch_ip (ip ihl tot_len : Z) (p : frame) : option frame :=
  let new_len := u16 (ihl + tcp_size) in
  check ← load16 (ip + 10) p;
  let ics := u16 (Z.lnot (bswap16 check)) in
  let ics := u32 (ics + u16 (Z.lnot tot_len)) in
  let ics := u32 (ics + new_len) in
  p ← store (ip + 2) (bytes16 (bswap16 new_len)) p;
  store (ip + 10) (bytes16 (bswap16 (csum_fold ics))) p.

(** The fields of the reset, with an empty checksum. *)
Definition write_tcp (tcp rst_seq rst_ack rst_flags : Z) (p : frame) : option frame :=
  p ← store (tcp + 4) (bytes32 rst_seq) p;
  p ← store (tcp + 8) (bytes32 rst_ack) p;
  p ← store (tcp + 12) [80] p;
  p ← store (tcp + 13) [rst_flags] p;
  p ← store (tcp + 14) [0; 0] p;
  p ← store (tcp + 18) [0; 0] p;
  store (tcp + 16) [0; 0] p.

(** The checksum over the pseudo-header and the twenty bytes of the header. *)
Definition write_tcp_check (ip tcp : Z) (p : frame) : option frame :=
  sa0 ← load16 (ip + 12) p; sa1 ← load16 (ip + 14) p; da0 ← load16 (ip + 16) p; da1 ← load16 (ip + 18) p;
  let sum := u32 (sa0 + sa1 + da0 + da1) in
  let sum := u32 (sum + (bswap16 IPPROTO_TCP + bswap16 tcp_size)) in
  sum ← sum_words 10 tcp p sum;
  store (tcp + 16) (bytes16 (csum_fold sum)) p.

(** [Some None]: the bounds check fails (-1), nothing is written. *)
Definition build_and_send_rst (eth ip tcp : Z) (p : frame) : option (option frame) :=
  if size p <? tcp + tcp_size then Some None
  else
    in_flags ← load8 (tcp + 13) p;
    in_seq ← load32 (tcp + 4) p;
    in_ack ← load32 (tcp + 8) p;
    ver_ihl ← load8 ip p;
    let ihl := Z.land ver_ihl 15 * 4 in
    raw_len ← load16 (ip + 2) p;
    let tot_len := bswap16 raw_len in
    doff_res ← load8 (tcp + 12) p;
    let doff := Z.shiftr doff_res 4 * 4 in
    let '(rst_seq, rst_ack, rst_flags) := rst_header in_flags in_seq in_ack tot_len ihl doff in
    p ← swap_bytes 6 eth (eth + 6) p;
    p ← swap_bytes 4 (ip + 12) (ip + 16) p;
    p ← patch_ip ip ihl tot_len p;
    p ← swap_bytes 2 tcp (tcp + 2) p;
    p ← write_tcp tcp rst_seq rst_ack rst_flags p;
    p ← write_tcp_check ip tcp p;
    Some (Some p).

Definition do_drop_tcp (i : instance) (f : features) (vs reason len eth ip tcp : Z) (p : frame) (m : machine) : result :=
  if negb (ROLE_TRUSTED i) && (mode f =? MODE_ENFORCE) && negb (reject_with_rst f =? 0) then
    sent ← build_and_send_rst eth ip tcp p;
    match sent with
    | Some p' => Some (XDP_TX, p', on_stats (count_rst len) (on_dp (stat_reason reason) m))
    | None => Some (do_drop i f vs reason len p m)
    end
  else Some (do_drop i f vs reason len p m).

(** ** The program *)

(** The direction-independent key of the segment whose ports are at [l4]. *)
Definition make_key (trusted : bool) (outer inner ip l4 : Z) (p : frame) : option flow_key :=
  saddr ← load32 (ip + 12) p; daddr ← load32 (ip + 16) p; sport ← load16 l4 p; dport ← load16 (l4 + 2) p;
  let vl := Z.lor (u32 (Z.shiftl outer 12)) inner in
  Some (if trusted then FlowKey daddr saddr dport sport vl else FlowKey saddr daddr sport dport vl).

(** IPv4 non-TCP, and UDP with filtering off. *)
Definition nontcp (i : instance) (len : Z) (p : frame) (m : machine) : verdict * frame * machine :=
  do_forward i len p (on_stats (count_nontcp len) m).

(** What follows the policy for a TCP segment with key [k]: the handler of the
    direction, the cache and the verdict. *)
Definition tcp_state (i : instance) (kn : kernel) (f : features) (vs len eth ip tcp fl now l1_idx : Z) (l1_ok : bool)
    (k : flow_key) (p : frame) (m : machine) : result :=
  handled ← (if ROLE_TRUSTED i
             then seq ← load32 (tcp + 4) p; Some (handle_outbound (k_helpers kn) f k fl (bswap32 seq) now (m_dp m))
             else ack ← load32 (tcp + 8) p; Some (handle_inbound (k_helpers kn) f k fl (bswap32 ack) now (k_t_src kn) (k_t_glob kn) (m_dp m)));
  let '(r, cache_st, d) := handled in
  let m := on_dp (fun _ => d) m in
  if r =? ACT_FORWARD then
    let m := if l1_ok && (cache_st =? ST_EST) then on_dp (l1_put l1_idx k ST_EST now) m else m in
    Some (do_forward i len p m)
  else do_drop_tcp i f vs r len eth ip tcp p m.

Definition l1_eligible (mask fl : Z) : bool :=
  negb (mask =? 0) && negb (tst fl (Z.lor TCP_SYN (Z.lor TCP_FIN TCP_RST))) && tst fl TCP_ACK.

(** The checks of the header, then the fast path, then [tcp_state]. *)
Definition xdp_tcp (i : instance) (kn : kernel) (outer inner vs len ip ihl l4 : Z) (p : frame) (m : machine) : result :=
  frag ← load16 (ip + 6) p;
  if tst frag (bswap16 IP_FRAG_OFF_MASK) then
    match m_features m with
    | None => Some (no_policy i p m)
    | Some f => Some (if drop_frags f =? 0 then do_forward i len p m else do_drop i f vs RSN_TCP_FRAG len p m)
    end
  else if size p <? l4 + tcp_size then Some (do_drop_lazy i vs RSN_MALFORMED len p m)
  else
    doff_res ← load8 (l4 + 12) p;
    let doff := Z.shiftr doff_res 4 * 4 in
    raw_len ← load16 (ip + 2) p;
    if (doff <? tcp_size) || (bswap16 raw_len <? ihl + doff) then Some (do_drop_lazy i vs RSN_MALFORMED len p m)
    else
      fl ← load8 (l4 + 13) p;
      let l1_ok := l1_eligible (L1_MASK i) fl in
      let early := if l1_ok then None else m_features m in
      if negb l1_ok && match early with None => true | Some _ => false end then Some (no_policy i p m)
      else
        k ← make_key (ROLE_TRUSTED i) outer inner ip l4 p;
        let m := if ROLE_TRUSTED i then m else monitor_flow i kn k IPPROTO_TCP len m in
        match early with
        | Some f =>
            if negb (drop_bad_flags f =? 0) && bad_flags fl then do_drop_tcp i f vs RSN_BAD_FLAGS len 0 ip l4 p m
            else tcp_state i kn f vs len 0 ip l4 fl (now_tick (k_ns kn)) 0 false k p m
        | None =>
            let now := now_tick (k_ns kn) in
            let l1_idx := l1_index k (L1_MASK i) in
            if l1_hit l1_idx k ST_EST now (m_dp m) then Some (do_forward i len p (on_stats count_l1 m))
            else match m_features m with
                 | None => Some (no_policy i p m)
                 | Some f => tcp_state i kn f vs len 0 ip l4 fl now l1_idx true k p m
                 end
        end.

Definition udp_state (i : instance) (kn : kernel) (f : features) (vs len : Z) (k : flow_key) (p : frame) (m : machine) : result :=
  let now := now_tick (k_ns kn) in
  let l1_on := negb (L1_MASK i =? 0) in
  let l1_idx := l1_index k (L1_MASK i) in
  if l1_on && l1_hit l1_idx k ST_UDP now (m_dp m) then Some (do_forward i len p (on_stats count_l1 m))
  else
    let '(r, cache_st, d) := if ROLE_TRUSTED i then handle_outbound_udp (k_helpers kn) k now (m_dp m)
                             else handle_inbound_udp f k now (m_dp m) in
    let m := on_dp (fun _ => d) m in
    if r =? ACT_FORWARD then
      let m := if l1_on && (cache_st =? ST_UDP) then on_dp (l1_put l1_idx k ST_UDP now) m else m in
      Some (do_forward i len p m)
    else Some (do_drop i f vs r len p m).

Definition xdp_udp (i : instance) (kn : kernel) (outer inner vs len ip ihl l4 : Z) (p : frame) (m : machine) : result :=
  match m_features m with
  | None => Some (no_policy i p m)
  | Some f =>
      frag ← load16 (ip + 6) p;
      if tst frag (bswap16 IP_FRAG_OFF_MASK) then
        Some (if filter_udp f =? 0 then nontcp i len p m
              else if drop_udp_frags f =? 0 then do_forward i len p m else do_drop i f vs RSN_UDP_FRAG len p m)
      else if size p <? l4 + udp_size then
        Some (if filter_udp f =? 0 then nontcp i len p m else do_drop i f vs RSN_MALFORMED len p m)
      else
        raw_len ← load16 (ip + 2) p;
        if bswap16 raw_len <? ihl + udp_size then
          Some (if filter_udp f =? 0 then nontcp i len p m else do_drop i f vs RSN_MALFORMED len p m)
        else
          k ← make_key (ROLE_TRUSTED i) outer inner ip l4 p;
          let m := if ROLE_TRUSTED i then m else monitor_flow i kn k IPPROTO_UDP len m in
          if filter_udp f =? 0 then Some (nontcp i len p m) else udp_state i kn f vs len k p m
  end.

Definition xdp_ipv4 (i : instance) (kn : kernel) (outer inner vs len ip : Z) (p : frame) (m : machine) : result :=
  if size p <? ip + ip_size then Some (do_drop_lazy i vs RSN_MALFORMED len p m)
  else
    ver_ihl ← load8 ip p;
    if negb (Z.shiftr ver_ihl 4 =? 4) then Some (do_drop_lazy i vs RSN_MALFORMED len p m)
    else
      let ihl := Z.land ver_ihl 15 * 4 in
      if ihl <? ip_size then Some (do_drop_lazy i vs RSN_MALFORMED len p m)
      else if size p <? ip + ihl then Some (do_drop_lazy i vs RSN_MALFORMED len p m)
      else
        protocol ← load8 (ip + 9) p;
        if protocol =? IPPROTO_TCP then xdp_tcp i kn outer inner vs len ip ihl (ip + ihl) p m
        else if protocol =? IPPROTO_UDP then xdp_udp i kn outer inner vs len ip ihl (ip + ihl) p m
        else Some (nontcp i len p m).

Definition is_vlan (proto : Z) : bool := (proto =? bswap16 ETH_P_8021Q) || (proto =? bswap16 ETH_P_8021AD).

(** The tags: truncated or not, the protocol, the position after them, the
    outer and the inner number. *)
Record tags := Tags { t_trunc : bool; t_proto : Z; t_cur : Z; t_outer : Z; t_inner : Z }.

Fixpoint vlan_tags (n : nat) (first : bool) (t : tags) (p : frame) : option tags :=
  match n with
  | O => Some t
  | S n =>
      if negb (is_vlan (t_proto t)) then Some t
      else if size p <? t_cur t + vlan_size then Some (Tags true (t_proto t) (t_cur t) (t_outer t) (t_inner t))
      else
        tci ← load16 (t_cur t) p;
        let vid := Z.land (bswap16 tci) VLAN_VID_MASK in
        encap ← load16 (t_cur t + 2) p;
        vlan_tags n false
          (Tags false encap (t_cur t + vlan_size) (if first then vid else t_outer t) (if first then t_inner t else vid)) p
  end.

Definition rx_account (vs len : Z) (m : machine) : machine := on_vlan vs (vlan_rx len) (on_stats (count_rx len) m).

Definition xdp_filter (i : instance) (kn : kernel) (p : frame) (m : machine) : result :=
  let len := if MULTIBUF i then k_buff_len kn else size p in
  if size p <? eth_size then
    let vs := stat_vlan_ptr 0 in Some (do_drop_lazy i vs RSN_MALFORMED len p (rx_account vs len m))
  else
    proto ← load16 12 p;
    t ← vlan_tags MAX_VLAN_DEPTH true (Tags false proto eth_size 0 0) p;
    let vs := stat_vlan_ptr (t_outer t) in
    let m := rx_account vs len m in
    if t_trunc t then Some (do_drop_lazy i vs RSN_MALFORMED len p m)
    else if is_vlan (t_proto t) then
      match m_features m with
      | None => Some (no_policy i p m)
      | Some f => Some (if drop_vlan_deep f =? 0 then do_forward i len p (on_stats (count_nonip len) m)
                        else do_drop i f vs RSN_VLAN_DEPTH len p m)
      end
    else if negb (t_proto t =? bswap16 ETH_P_IP) then Some (do_forward i len p (on_stats (count_nonip len) m))
    else xdp_ipv4 i kn (t_outer t) (t_inner t) vs len (t_cur t) p m.
