(* ===== verification/CounterRace.v ===== *)
(** * CounterRace: flow counters updated by many CPUs at once

    The end of [monitor_flow] in bpf/filter.bpf.c for one flow, one map
    operation or atomic addition per step: the lookup, the insertion, the second
    lookup, the two additions.  An insertion fails because another CPU was
    first or for a reason of the map's own; the LRU map may evict the counter at
    any point, and a CPU that looked it up before still adds to its memory,
    which may by then count for another flow.  Every sample is accounted for,
    and what is lost is lost in one of these ways. *)

From stdpp Require Import prelude gmap relations.
From Stdlib Require Import ZArith Lia Bool.
From S2P Require Import Prelude Packet.
Local Open Scope Z_scope.

(** ** One CPU *)

(** A CPU on a sample of [len] bytes: about to look the counter up, to add a
    packet or then the bytes to the counter it found, the [h]-th of the flow,
    to insert one, or to look up again. *)
Inductive sampler :=
  | SIdle
  | SLookup (len : Z)
  | SPackets (len : Z) (h : nat)
  | SBytes (len : Z) (h : nat)
  | SInsert (len : Z)
  | SAgain (len : Z).

(** What else a step did: an addition to the memory of an evicted counter, a
    failed insertion of a flow without a counter, a sample given up. *)
Inductive event := Quiet | Stray (packets bytes : Z) | Refused | Lost (len : Z).

(** The counter, where the CPU is then, and the event, when the flow's current
    counter is the [g]-th.  [ok]: the map takes the insertion. *)
Definition sample_step (ok : bool) (g : nat) (c : option (Z * Z)) (s : sampler) : option (Z * Z) * sampler * event :=
  match s, c with
  | SIdle, _ => (c, SIdle, Quiet)
  | SLookup len, Some _ => (c, SPackets len g, Quiet)
  | SLookup len, None => (c, SInsert len, Quiet)
  | SPackets len h, Some (p, b) => if Nat.eqb h g then (Some (inc p, b), SBytes len h, Quiet) else (c, SBytes len h, Stray 1 0)
  | SPackets len h, None => (c, SBytes len h, Stray 1 0)
  | SBytes len h, Some (p, b) => if Nat.eqb h g then (Some (p, add_len len b), SIdle, Quiet) else (c, SIdle, Stray 0 len)
  | SBytes len h, None => (c, SIdle, Stray 0 len)
  | SInsert len, None => if ok then (Some (1, len), SIdle, Quiet) else (c, SAgain len, Refused)
  | SInsert len, Some _ => (c, SAgain len, Quiet)
  | SAgain len, Some _ => (c, SPackets len g, Quiet)
  | SAgain len, None => (c, SIdle, Lost len)
  end.

(** A CPU alone does what Packet says, whether the insertion succeeds or not. *)
Fixpoint sample_alone (ok : bool) (fuel : nat) (c : option (Z * Z)) (s : sampler) : option (Z * Z) :=
  match fuel with
  | O => c
  | S fuel => let '(c, s, _) := sample_step ok 0 c s in sample_alone ok fuel c s
  end.

Lemma sample_alone_bumps ok c len :
  sample_alone ok 3 c (SLookup len) = match c with Some v => Some (bump len v) | None => if ok then Some (1, len) else None end.
Proof. now destruct c as [[p b]|], ok. Qed.

(** ** Many CPUs *)

(** Packets and bytes. *)
Definition sum : Type := Z * Z.
Definition plus (a b : sum) : sum := (fst a + fst b, snd a + snd b).

(** The counter and its number, the CPUs, the samples taken so far; what the
    evicted counters held, what was added to their memory since, what was
    lost, what CPUs of other flows added here the same way; the insertions the
    map refused. *)
Record sampling := Sampling {
  sm_counter : option (Z * Z); sm_gen : nat; sm_cpus : list sampler; sm_taken : list Z;
  sm_evicted : sum; sm_stray : sum; sm_lost : sum; sm_foreign : sum; sm_refused : nat
}.

Definition held (c : option (Z * Z)) : sum := default (0, 0) c.

Definition stray_of (e : event) : sum := match e with Stray p b => (p, b) | _ => (0, 0) end.
Definition lost_of (e : event) : sum := match e with Lost len => (1, len) | _ => (0, 0) end.
Definition refused_of (e : event) : nat := match e with Refused => 1 | _ => 0 end.

Inductive sampling_step : sampling -> sampling -> Prop :=
| sample_taken c g l1 l2 len taken ev st lo fo rf : is_u64 len ->
    sampling_step (Sampling c g (l1 ++ SIdle :: l2) taken ev st lo fo rf) (Sampling c g (l1 ++ SLookup len :: l2) (len :: taken) ev st lo fo rf)
| sample_moved ok c g l1 s l2 taken ev st lo fo rf c' s' e : sample_step ok g c s = (c', s', e) ->
    sampling_step (Sampling c g (l1 ++ s :: l2) taken ev st lo fo rf)
      (Sampling c' g (l1 ++ s' :: l2) taken ev (plus st (stray_of e)) (plus lo (lost_of e)) fo (rf + refused_of e)%nat)
| counter_evicted v g l taken ev st lo fo rf :
    sampling_step (Sampling (Some v) g l taken ev st lo fo rf) (Sampling None (S g) l taken (plus ev v) st lo fo rf)
| counter_shared p b g l taken ev st lo fo rf dp db : dp = 0 \/ dp = 1 -> is_u64 db -> (dp, db) <> (0, 0) ->
    sampling_step (Sampling (Some (p, b)) g l taken ev st lo fo rf)
      (Sampling (Some (u64 (p + dp), add_len db b)) g l taken ev st lo (plus fo (dp, db)) rf).

(** What a CPU has still to add. *)
Definition due (s : sampler) : sum :=
  match s with
  | SIdle => (0, 0)
  | SBytes len _ => (0, len)
  | SLookup len | SPackets len _ | SInsert len | SAgain len => (1, len)
  end.
Definition due_packets (s : sampler) : Z := fst (due s).
Definition due_bytes (s : sampler) : Z := snd (due s).

(** The counter a CPU has found, and the places it reaches only when it found one. *)
Definition found (s : sampler) : nat := match s with SPackets _ h | SBytes _ h => h | _ => 0 end.
Definition met_counter (s : sampler) : bool := match s with SPackets _ _ | SBytes _ _ | SAgain _ => true | _ => false end.

(** A sum adds up: counted, evicted, strayed, lost or still due, it was taken
    here or came from another flow. *)
Definition adds_up (pick : sum -> Z) (n : Z) (d : sampler -> Z) (r : sampling) : Prop :=
  u64 (pick (held (sm_counter r)) + (pick (sm_evicted r) + pick (sm_stray r) + pick (sm_lost r) + total d (sm_cpus r))) = u64 (n + pick (sm_foreign r)).

Record sampling_inv (r : sampling) : Prop := {
  si_packets : adds_up fst (Z.of_nat (length (sm_taken r))) due_packets r;
  si_bytes : adds_up snd (total (fun len => len) (sm_taken r)) due_bytes r;
  si_words : is_u64 (fst (held (sm_counter r))) /\ is_u64 (snd (held (sm_counter r)));
  si_found : Forall (fun s => (found s <= sm_gen r)%nat) (sm_cpus r);
  si_calm : sm_gen r = 0%nat -> sm_refused r = 0%nat ->
    sm_evicted r = (0, 0) /\ sm_stray r = (0, 0) /\ sm_lost r = (0, 0) /\
    (sm_counter r = None -> Forall (fun s => met_counter s = false) (sm_cpus r) /\ Z.of_nat (length (sm_taken r)) = total due_packets (sm_cpus r))
}.

Lemma u64_plus_l a b : u64 (u64 a + b) = u64 (a + b).
Proof. unfold u64. now rewrite Zplus_mod_idemp_l. Qed.

Lemma u64_shift a a' b b' d : u64 (a + b) = u64 a' -> b' = b + d -> u64 (a + b') = u64 (a' + d).
Proof. intros E ->. rewrite Z.add_assoc, <- (u64_plus_l (a + b)), E. apply u64_plus_l. Qed.

(** What a step moves between the counter, the stray and lost sums and the CPU. *)
Lemma step_adds ok g c s c' s' e : sample_step ok g c s = (c', s', e) -> is_u64 (due_bytes s) ->
  (forall x, u64 (fst (held c') + (x + fst (stray_of e) + fst (lost_of e) + due_packets s')) = u64 (fst (held c) + (x + due_packets s))) /\
  (forall x, u64 (snd (held c') + (x + snd (stray_of e) + snd (lost_of e) + due_bytes s')) = u64 (snd (held c) + (x + due_bytes s))) /\
  (found s' <= found s \/ found s' = g)%nat /\
  (is_u64 (fst (held c)) /\ is_u64 (snd (held c)) -> is_u64 (fst (held c')) /\ is_u64 (snd (held c'))) /\ is_u64 (due_bytes s').
Proof.
  intros Hs Hu. destruct s as [|len|len h|len h|len|len], c as [[p b]|]; cbn [sample_step] in Hs;
    repeat case_match; injection Hs as <- <- <-;
    (split_and!; [intros x; cbn; unfold inc; rewrite ?u64_plus_l; f_equal; lia | intros x; cbn; unfold add_len; rewrite ?u64_plus_l; f_equal; lia | cbn; lia | | exact Hu || (unfold is_u64; cbn; lia)]);
    cbn [held default from_option id fst snd]; unfold inc, add_len; intros [H1 H2]; split; auto using u64_range; unfold is_u64; lia.
Qed.

(** While nothing was evicted or refused, a step does not lose or stray. *)
Lemma step_calm ok c s c' s' e : sample_step ok 0 c s = (c', s', e) -> found s = 0%nat -> refused_of e = 0%nat ->
  (c = None -> met_counter s = false) ->
  stray_of e = (0, 0) /\ lost_of e = (0, 0) /\ (c' = None -> c = None /\ met_counter s' = false /\ due_packets s' = due_packets s).
Proof.
  intros Hs Hf He Hm. destruct s as [|len|len h|len h|len|len], c as [[p b]|]; cbn [sample_step] in Hs;
    try (specialize (Hm eq_refl); discriminate Hm); cbn in Hf; subst; cbn [Nat.eqb] in Hs; try (destruct ok); injection Hs as <- <- <-;
    try discriminate He; split_and!; try done.
Qed.

Lemma taken_invariant c g l1 l2 len taken ev st lo fo rf : is_u64 len ->
  sampling_inv (Sampling c g (l1 ++ SIdle :: l2) taken ev st lo fo rf) ->
  sampling_inv (Sampling c g (l1 ++ SLookup len :: l2) (len :: taken) ev st lo fo rf).
Proof.
  intros Hlen [Hp Hb Hw Hf Hc]. unfold adds_up in *. cbn [sm_counter sm_gen sm_cpus sm_taken sm_evicted sm_stray sm_lost sm_foreign sm_refused] in *.
  apply Forall_app in Hf as [Hf1 [_ Hf2]%Forall_cons].
  constructor; unfold adds_up; cbn [sm_counter sm_gen sm_cpus sm_taken sm_evicted sm_stray sm_lost sm_foreign sm_refused].
  - rewrite total_middle in *. cbn [length]. replace (Z.of_nat _ + fst fo) with (Z.of_nat (length taken) + fst fo + 1) by lia.
    eapply u64_shift; [exact Hp|]. change (due_packets (SLookup len)) with 1. change (due_packets SIdle) with 0. lia.
  - rewrite total_middle in *. rewrite total_cons. replace (len + _ + snd fo) with (total (fun len => len) taken + snd fo + len) by lia.
    eapply u64_shift; [exact Hb|]. change (due_bytes (SLookup len)) with len. change (due_bytes SIdle) with 0. lia.
  - exact Hw.
  - apply Forall_app; split; [done|]. apply Forall_cons. split; [cbn; lia | done].
  - intros Hg Hr. destruct (Hc Hg Hr) as (E1 & E2 & E3 & Hn). split_and!; try done. intros Hcn. destruct (Hn Hcn) as [[Hm1 [_ Hm2]%Forall_cons]%Forall_app Ht].
    split; [apply Forall_app; split; [done | now apply Forall_cons]|]. rewrite total_middle in *. cbn [length]. change (due_packets (SLookup len)) with 1. change (due_packets SIdle) with 0 in Ht. lia.
Qed.

Lemma sampling_invariant r r' : sampling_step r r' -> Forall (fun s => is_u64 (due_bytes s)) (sm_cpus r) -> sampling_inv r ->
  Forall (fun s => is_u64 (due_bytes s)) (sm_cpus r') /\ sampling_inv r'.
Proof.
  intros Hst Hu [Hp Hb Hw Hf Hc]. destruct Hst as [c g l1 l2 len taken ev st lo fo rf Hlen | ok c g l1 s l2 taken ev st lo fo rf c' s' e Hs |
    v g l taken ev st lo fo rf | p b g l taken ev st lo fo rf dp db Hdp Hdb Hd];
    unfold adds_up in *; cbn [sm_counter sm_gen sm_cpus sm_taken sm_evicted sm_stray sm_lost sm_foreign sm_refused] in *.
  - split; [|now apply taken_invariant]. apply Forall_app in Hu as [Hu1 [_ Hu2]%Forall_cons]. apply Forall_app; split; [done | now apply Forall_cons].
  - pose proof Hu as [Hu1 [Hus Hu2]%Forall_cons]%Forall_app. pose proof Hf as [Hf1 [Hfs Hf2]%Forall_cons]%Forall_app.
    destruct (step_adds _ _ _ _ _ _ _ Hs Hus) as (Sp & Sb & Sf & Sw & Hus').
    split; [apply Forall_app; split; [done | now apply Forall_cons]|].
    constructor; unfold adds_up; cbn [sm_counter sm_gen sm_cpus sm_taken sm_evicted sm_stray sm_lost sm_foreign sm_refused].
    + rewrite total_middle in *. rewrite <- Hp. cbn [plus fst].
      specialize (Sp (fst ev + fst st + fst lo + total due_packets (l1 ++ l2))). etransitivity; [|etransitivity; [exact Sp|]]; f_equal; lia.
    + rewrite total_middle in *. rewrite <- Hb. cbn [plus snd].
      specialize (Sb (snd ev + snd st + snd lo + total due_bytes (l1 ++ l2))). etransitivity; [|etransitivity; [exact Sb|]]; f_equal; lia.
    + exact (Sw Hw).
    + apply Forall_app; split; [done|]. apply Forall_cons. split; [lia | done].
    + intros -> Hr. destruct (Hc eq_refl ltac:(lia)) as (E1 & E2 & E3 & Hn).
      destruct (step_calm _ _ _ _ _ _ Hs) as (-> & -> & Hn'); [lia | lia | |].
      { intros Hcn. now destruct (Hn Hcn) as [[_ [Hm _]%Forall_cons]%Forall_app _]. }
      rewrite E2, E3. split_and!; try done. intros Hcn. destruct (Hn' Hcn) as (Hc0 & Hm' & Hd). destruct (Hn Hc0) as [[Hm1 [_ Hm2]%Forall_cons]%Forall_app Ht].
      split; [apply Forall_app; split; [done | now apply Forall_cons]|]. rewrite total_middle in *. lia.
  - split; [done|]. constructor; unfold adds_up; cbn [sm_counter sm_gen sm_cpus sm_taken sm_evicted sm_stray sm_lost sm_foreign sm_refused].
    + rewrite <- Hp. f_equal. cbn. lia.
    + rewrite <- Hb. f_equal. cbn. lia.
    + unfold is_u64. cbn. lia.
    + eapply Forall_impl; [exact Hf|]. intros s Hs. cbn beta in *. lia.
    + done.
  - split; [done|]. constructor; unfold adds_up; cbn [sm_counter sm_gen sm_cpus sm_taken sm_evicted sm_stray sm_lost sm_foreign sm_refused].
    + cbn [held default from_option fst plus id] in *. rewrite u64_plus_l, <- Z.add_assoc, (Z.add_assoc _ (fst fo)).
      eapply u64_shift; [exact Hp | lia].
    + cbn [held default from_option snd plus id] in *. unfold add_len. rewrite u64_plus_l, <- Z.add_assoc, (Z.add_assoc _ (snd fo)).
      eapply u64_shift; [exact Hb | lia].
    + split; apply u64_range.
    + done.
    + intros Hg Hr. destruct (Hc Hg Hr) as (E1 & E2 & E3 & _). now split_and!.
Qed.

Definition unsampled (n : nat) : sampling := Sampling None 0 (replicate n SIdle) [] (0, 0) (0, 0) (0, 0) (0, 0) 0.

Lemma sampling_reachable n r : rtc sampling_step (unsampled n) r -> sampling_inv r.
Proof.
  intros Hr. assert (H0 : Forall (fun s => is_u64 (due_bytes s)) (sm_cpus (unsampled n)) /\ sampling_inv (unsampled n)).
  { split; [apply Forall_replicate; unfold is_u64; cbn; lia|].
    constructor; unfold adds_up; cbn [unsampled sm_counter sm_gen sm_cpus sm_taken sm_evicted sm_stray sm_lost sm_foreign sm_refused].
    - now rewrite total_replicate.
    - now rewrite total_replicate.
    - unfold is_u64. cbn. lia.
    - apply Forall_replicate. cbn. lia.
    - intros _ _. split_and!; try done. intros _. split; [now apply Forall_replicate|]. now rewrite total_replicate. }
  revert H0. induction Hr as [|r r1 r2 Hs _ IH]; [tauto|]. intros [Hu Hi]. apply IH. now apply (sampling_invariant r).
Qed.

(** C29. Every sample is accounted for once.  When the CPUs have finished the
    samples they took, then, as 64-bit values, what the flow's counter holds,
    what its evicted counters held, what strayed to their memory, and the
    samples lost after a refused insertion, add up to the samples taken, in
    packets and in bytes, plus what strayed here from other flows.  If nothing
    was evicted and no insertion refused, then none is lost however many CPUs
    race for the insertion, and the counter is exact. *)
Theorem samples_counted n r : rtc sampling_step (unsampled n) r ->
  Forall (fun s => s = SIdle) (sm_cpus r) ->
  let parts pick := pick (held (sm_counter r)) + pick (sm_evicted r) + pick (sm_stray r) + pick (sm_lost r) in
  u64 (parts fst) = u64 (Z.of_nat (length (sm_taken r)) + fst (sm_foreign r)) /\
  u64 (parts snd) = u64 (total (fun len => len) (sm_taken r) + snd (sm_foreign r)) /\
  (sm_gen r = 0%nat -> sm_refused r = 0%nat ->
   sm_lost r = (0, 0) /\ sm_stray r = (0, 0) /\
   match sm_counter r with
   | None => sm_taken r = []
   | Some (p, b) => sm_foreign r = (0, 0) -> p = u64 (Z.of_nat (length (sm_taken r))) /\ b = u64 (total (fun len => len) (sm_taken r))
   end).
Proof.
  intros Hr Hi parts. destruct (sampling_reachable n r Hr) as [Hp Hb [Hw1 Hw2] _ Hc]. unfold adds_up in *.
  assert (Hz : forall f, f SIdle = 0 -> total f (sm_cpus r) = 0).
  { intros f Hf. clear -Hi Hf. induction Hi as [|s l -> _ IH]; [done|]. rewrite total_cons. lia. }
  rewrite !Hz in Hp, Hb by done. rewrite Z.add_0_r, !Z.add_assoc in Hp, Hb.
  split; [exact Hp|]. split; [exact Hb|]. intros Hg Hrf. destruct (Hc Hg Hrf) as (E1 & E2 & E3 & Hn). rewrite E1, E2, E3 in Hp, Hb. split_and!; try done.
  destruct (sm_counter r) as [[p b]|].
  - intros Hfo. rewrite Hfo in Hp, Hb. cbn in Hp, Hb, Hw1, Hw2. rewrite !Z.add_0_r in Hp, Hb. now rewrite <- Hp, <- Hb, !u64_small.
  - destruct (Hn eq_refl) as [_ Ht]. rewrite Hz in Ht by done. destruct (sm_taken r); [done | cbn in Ht; lia].
Qed.

(** ** Two CPUs race for the insertion *)

(** The first CPU takes its next step, or the second. *)
Lemma first_moves ok c g s t taken ev st lo fo rf c' s' e : sample_step ok g c s = (c', s', e) ->
  sampling_step (Sampling c g [s; t] taken ev st lo fo rf)
    (Sampling c' g [s'; t] taken ev (plus st (stray_of e)) (plus lo (lost_of e)) fo (rf + refused_of e)%nat).
Proof. exact (sample_moved ok c g [] s [t] taken ev st lo fo rf c' s' e). Qed.

Lemma second_moves ok c g s t taken ev st lo fo rf c' t' e : sample_step ok g c t = (c', t', e) ->
  sampling_step (Sampling c g [s; t] taken ev st lo fo rf)
    (Sampling c' g [s; t'] taken ev (plus st (stray_of e)) (plus lo (lost_of e)) fo (rf + refused_of e)%nat).
Proof. exact (sample_moved ok c g [s] t [] taken ev st lo fo rf c' t' e). Qed.

Definition two_taken : sampling := Sampling None 0 [SLookup 1500; SLookup 60] [60; 1500] (0, 0) (0, 0) (0, 0) (0, 0) 0.

Lemma two_taken_run : rtc sampling_step (unsampled 2) two_taken.
Proof.
  eapply rtc_l; [apply (sample_taken None 0 [] [SIdle] 1500); unfold is_u64; lia|].
  apply rtc_once. apply (sample_taken None 0 [SLookup 1500] [] 60). unfold is_u64. lia.
Qed.

Definition raced : sampling := Sampling (Some (2, 1560)) 0 [SIdle; SIdle] [60; 1500] (0, 0) (0, 0) (0, 0) (0, 0) 0.

(** Both find no counter; the first inserts it, the second adds to it. *)
Lemma race_run : rtc sampling_step (unsampled 2) raced.
Proof.
  etransitivity; [exact two_taken_run|].
  do 2 (eapply rtc_l; [apply (first_moves true); reflexivity|]; eapply rtc_l; [apply (second_moves true); reflexivity|]).
  do 3 (eapply rtc_l; [apply (second_moves true); reflexivity|]). reflexivity.
Qed.

Theorem samples_counted_witness : rtc sampling_step (unsampled 2) raced /\
  sm_lost raced = (0, 0) /\ sm_counter raced = Some (2, 1560) /\ 2 = u64 (Z.of_nat (length [60; 1500])) /\ 1560 = u64 (60 + (1500 + 0)).
Proof.
  split; [exact race_run|].
  destruct (samples_counted 2 raced race_run ltac:(repeat constructor)) as (_ & _ & Hc). destruct (Hc eq_refl eq_refl) as (Hl & _ & Hx).
  destruct (Hx eq_refl) as [Hp Hb]. split; [exact Hl|]. split; [reflexivity|]. split; [exact Hp | exact Hb].
Defined.

(** The map refuses the first CPU's insertion, and its sample is lost: nothing
    is found by the second lookup.  The second CPU's is counted. *)
Example refused_sample_lost : rtc sampling_step (unsampled 2)
  (Sampling (Some (1, 60)) 0 [SIdle; SIdle] [60; 1500] (0, 0) (0, 0) (1, 1500) (0, 0) 1).
Proof.
  etransitivity; [exact two_taken_run|].
  do 3 (eapply rtc_l; [apply (first_moves false); reflexivity|]).
  do 2 (eapply rtc_l; [apply (second_moves true); reflexivity|]). reflexivity.
Qed.
