(* ===== verification/PacketRef.v ===== *)
(** * PacketRef: the XDP program as classification followed by action

    [classify] says what a frame is, from its bytes alone; [act] is what the
    program does with a frame of that class.  [xdp_filter_act] shows that the
    interleaved checks of [xdp_filter] are exactly that, and that it never
    touches a byte outside the frame. *)

From Stdlib Require Import ZArith Lia Bool.
From stdpp Require Import prelude gmap.
From S2P Require Import Prelude Filter Packet.

Local Open Scope Z_scope.

(** ** Memory accesses inside the frame succeed *)

Lemma load8_ok off p : 0 <= off < size p -> exists x, load8 off p = Some x.
Proof.
  intros H. unfold load8, size in *. rewrite (proj2 (Z.leb_le 0 off)) by lia. apply lookup_lt_is_Some. lia.
Qed.

Lemma load16_ok off p : 0 <= off -> off + 2 <= size p -> exists x, load16 off p = Some x.
Proof.
  intros H1 H2. unfold load16. destruct (load8_ok off p) as [a ->]; [lia|]. destruct (load8_ok (off + 1) p) as [b ->]; [lia|]. eauto.
Qed.

Lemma load32_ok off p : 0 <= off -> off + 4 <= size p -> exists x, load32 off p = Some x.
Proof.
  intros H1 H2. unfold load32. destruct (load16_ok off p) as [a ->]; [lia..|]. destruct (load16_ok (off + 2) p) as [b ->]; [lia..|]. eauto.
Qed.

Lemma load_bytes_ok n off p : 0 <= off -> off + Z.of_nat n <= size p ->
  exists l, load_bytes n off p = Some l /\ length l = n.
Proof.
  intros H1 H2. unfold load_bytes, size in *. rewrite (proj2 (Z.leb_le _ _)), (proj2 (Z.leb_le _ _)) by lia.
  eexists; split; [reflexivity|]. rewrite length_take, length_drop. lia.
Qed.

Lemma store_ok off bs p : 0 <= off -> off + size bs <= size p -> exists p', store off bs p = Some p' /\ size p' = size p.
Proof.
  intros H1 H2. unfold store, size in *. rewrite (proj2 (Z.leb_le _ _)), (proj2 (Z.leb_le _ _)) by lia.
  eexists; split; [reflexivity|]. rewrite !length_app, length_take, length_drop. lia.
Qed.

(** Resolves the accesses of a goal, from bounds in the context. *)
Ltac mem_step :=
  match goal with
  | |- context [load8 ?o ?p] => let x := fresh "x" in let E := fresh "E" in
      destruct (load8_ok o p) as [x E]; [lia | rewrite E; cbn [mbind option_bind]]
  | |- context [load16 ?o ?p] => let x := fresh "x" in let E := fresh "E" in
      destruct (load16_ok o p) as [x E]; [lia | lia | rewrite E; cbn [mbind option_bind]]
  | |- context [load32 ?o ?p] => let x := fresh "x" in let E := fresh "E" in
      destruct (load32_ok o p) as [x E]; [lia | lia | rewrite E; cbn [mbind option_bind]]
  end.

(** One named access. *)
Tactic Notation "read8" constr(o) "of" constr(p) "as" ident(x) :=
  let E := fresh "E" in destruct (load8_ok o p) as [x E]; [lia | rewrite ?E; cbn [mbind option_bind]].
Tactic Notation "read16" constr(o) "of" constr(p) "as" ident(x) :=
  let E := fresh "E" in destruct (load16_ok o p) as [x E]; [lia | lia | rewrite ?E; cbn [mbind option_bind]].
Tactic Notation "read32" constr(o) "of" constr(p) "as" ident(x) :=
  let E := fresh "E" in destruct (load32_ok o p) as [x E]; [lia | lia | rewrite ?E; cbn [mbind option_bind]].

(** ** The reset stays inside the frame *)

Lemma swap_ok n a b p : 0 <= a -> 0 <= b -> a + Z.of_nat n <= size p -> b + Z.of_nat n <= size p ->
  exists p', swap_bytes n a b p = Some p' /\ size p' = size p.
Proof.
  intros Ha Hb Ha' Hb'. unfold swap_bytes. destruct (load_bytes_ok n a p) as (x & -> & Hx); [lia..|].
  destruct (load_bytes_ok n b p) as (y & -> & Hy); [lia..|]. cbn [mbind option_bind].
  destruct (store_ok a y p) as (p1 & -> & H1); [lia | unfold size in *; lia |]. cbn [mbind option_bind].
  destruct (store_ok b x p1) as (p2 & -> & H2); [lia | unfold size in *; lia |]. exists p2. split; [done | lia].
Qed.

Ltac store_step :=
  match goal with
  | |- context [store ?o ?bs ?p] => let q := fresh "q" in let E := fresh "E" in let H := fresh "Hq" in
      destruct (store_ok o bs p) as (q & E & H);
        [lia | change (size bs) with (Z.of_nat (length bs)); cbn [length bytes16 bytes32 app]; lia | rewrite E; cbn [mbind option_bind]]
  end.

Lemma patch_ip_ok ip ihl tot p : 0 <= ip -> ip + 20 <= size p -> exists p', patch_ip ip ihl tot p = Some p' /\ size p' = size p.
Proof. intros H1 H2. unfold patch_ip. mem_step. cbv zeta. do 2 store_step. eexists; split; [done | lia]. Qed.

Lemma write_tcp_ok tcp a b c p : 0 <= tcp -> tcp + 20 <= size p -> exists p', write_tcp tcp a b c p = Some p' /\ size p' = size p.
Proof. intros H1 H2. unfold write_tcp. do 7 store_step. eexists; split; [done | lia]. Qed.

Lemma sum_words_ok n : forall off p sum, 0 <= off -> off + 2 * Z.of_nat n <= size p -> exists s, sum_words n off p sum = Some s.
Proof.
  induction n as [|n IH]; intros off p sum H1 H2; cbn [sum_words]; [eauto|].
  mem_step. apply IH; lia.
Qed.

Lemma write_check_ok ip tcp p : 0 <= ip -> 0 <= tcp -> ip + 20 <= size p -> tcp + 20 <= size p ->
  exists p', write_tcp_check ip tcp p = Some p' /\ size p' = size p.
Proof.
  intros H1 H2 H3 H4. unfold write_tcp_check. do 4 mem_step. cbv zeta.
  match goal with |- context [sum_words 10 tcp p ?s] => destruct (sum_words_ok 10 tcp p s) as [r ->]; [lia..|] end.
  cbn [mbind option_bind]. store_step. eexists; split; [done | lia].
Qed.

Lemma rst_ok eth ip tcp p : 0 <= eth -> eth + 12 <= size p -> 0 <= ip -> ip + 20 <= size p -> 0 <= tcp ->
  exists r, build_and_send_rst eth ip tcp p = Some r /\ (tcp + tcp_size <= size p -> exists p', r = Some p' /\ size p' = size p).
Proof.
  intros H1 H2 H3 H4 H5. unfold build_and_send_rst. destruct (Z.ltb_spec (size p) (tcp + tcp_size)) as [Hlt|Hge].
  { eexists; split; [done | lia]. }
  unfold tcp_size in Hge. do 6 mem_step. cbv zeta. destruct (rst_header _ _ _ _ _ _) as [[rs ra] rf].
  destruct (swap_ok 6 eth (eth + 6) p) as (p1 & -> & S1); [lia..|]. cbn [mbind option_bind].
  destruct (swap_ok 4 (ip + 12) (ip + 16) p1) as (p2 & -> & S2); [lia..|]. cbn [mbind option_bind].
  match goal with |- context [patch_ip ip ?a ?b p2] => destruct (patch_ip_ok ip a b p2) as (p3 & -> & S3); [lia..|] end. cbn [mbind option_bind].
  destruct (swap_ok 2 tcp (tcp + 2) p3) as (p4 & -> & S4); [lia..|]. cbn [mbind option_bind].
  destruct (write_tcp_ok tcp rs ra rf p4) as (p5 & -> & S5); [lia..|]. cbn [mbind option_bind].
  destruct (write_check_ok ip tcp p5) as (p6 & -> & S6); [lia..|]. cbn [mbind option_bind].
  eexists; split; [done|]. intros _. exists p6. split; [done | lia].
Qed.

(** ** What a frame is *)

(** A TCP segment whose header passed the checks: its key, the fields the
    handlers take, and where its headers are. *)
Record segment := Segment { sg_key : flow_key; sg_flags : Z; sg_seq : Z; sg_ack : Z; sg_ip : Z; sg_tcp : Z }.

Inductive fclass :=
  | Malformed (vs : Z) | DeepVlan (vs : Z) | NonIp (vs : Z) | OtherIp (vs : Z)
  | TcpFrag (vs : Z) | Tcp (vs : Z) (sg : segment)
  | UdpFrag (vs : Z) | UdpShort (vs : Z) | Udp (vs : Z) (k : flow_key).

Definition classify_tcp (trusted : bool) (outer inner vs ip ihl l4 : Z) (p : frame) : option fclass :=
  frag ← load16 (ip + 6) p;
  if tst frag (bswap16 IP_FRAG_OFF_MASK) then Some (TcpFrag vs)
  else if size p <? l4 + tcp_size then Some (Malformed vs)
  else
    doff_res ← load8 (l4 + 12) p; raw_len ← load16 (ip + 2) p;
    let doff := Z.shiftr doff_res 4 * 4 in
    if (doff <? tcp_size) || (bswap16 raw_len <? ihl + doff) then Some (Malformed vs)
    else
      fl ← load8 (l4 + 13) p; k ← make_key trusted outer inner ip l4 p;
      seq ← load32 (l4 + 4) p; ack ← load32 (l4 + 8) p;
      Some (Tcp vs (Segment k fl (bswap32 seq) (bswap32 ack) ip l4)).

Definition classify_udp (trusted : bool) (outer inner vs ip ihl l4 : Z) (p : frame) : option fclass :=
  frag ← load16 (ip + 6) p;
  if tst frag (bswap16 IP_FRAG_OFF_MASK) then Some (UdpFrag vs)
  else if size p <? l4 + udp_size then Some (UdpShort vs)
  else
    raw_len ← load16 (ip + 2) p;
    if bswap16 raw_len <? ihl + udp_size then Some (UdpShort vs)
    else k ← make_key trusted outer inner ip l4 p; Some (Udp vs k).

Definition classify_ip (trusted : bool) (outer inner vs ip : Z) (p : frame) : option fclass :=
  if size p <? ip + ip_size then Some (Malformed vs)
  else
    ver_ihl ← load8 ip p;
    let ihl := Z.land ver_ihl 15 * 4 in
    if negb (Z.shiftr ver_ihl 4 =? 4) || (ihl <? ip_size) || (size p <? ip + ihl) then Some (Malformed vs)
    else
      protocol ← load8 (ip + 9) p;
      if protocol =? IPPROTO_TCP then classify_tcp trusted outer inner vs ip ihl (ip + ihl) p
      else if protocol =? IPPROTO_UDP then classify_udp trusted outer inner vs ip ihl (ip + ihl) p
      else Some (OtherIp vs).

Definition classify (trusted : bool) (p : frame) : option fclass :=
  if size p <? eth_size then Some (Malformed 0)
  else
    proto ← load16 12 p;
    t ← vlan_tags MAX_VLAN_DEPTH true (Tags false proto eth_size 0 0) p;
    let vs := stat_vlan_ptr (t_outer t) in
    if t_trunc t then Some (Malformed vs)
    else if is_vlan (t_proto t) then Some (DeepVlan vs)
    else if negb (t_proto t =? bswap16 ETH_P_IP) then Some (NonIp vs)
    else classify_ip trusted (t_outer t) (t_inner t) vs (t_cur t) p.

(** ** What is done with it *)

Definition class_vlan (c : fclass) : Z :=
  match c with
  | Malformed vs | DeepVlan vs | NonIp vs | OtherIp vs | TcpFrag vs | Tcp vs _ | UdpFrag vs | UdpShort vs | Udp vs _ => vs
  end.

(** The monitoring of a segment or datagram with key [k], inbound only. *)
Definition monitored (i : instance) (kn : kernel) (k : flow_key) (protocol len : Z) (m : machine) : machine :=
  if ROLE_TRUSTED i then m else monitor_flow i kn k protocol len m.

Definition tcp_handle (i : instance) (kn : kernel) (f : features) (sg : segment) (d : dp) : Z * Z * dp :=
  let now := now_tick (k_ns kn) in
  if ROLE_TRUSTED i then handle_outbound (k_helpers kn) f (sg_key sg) (sg_flags sg) (sg_seq sg) now d
  else handle_inbound (k_helpers kn) f (sg_key sg) (sg_flags sg) (sg_ack sg) now (k_t_src kn) (k_t_glob kn) d.

Definition act_tcp_state (i : instance) (kn : kernel) (f : features) (vs len : Z) (l1_ok : bool) (sg : segment) (p : frame)
    (m : machine) : result :=
  let '(r, cache_st, d) := tcp_handle i kn f sg (m_dp m) in
  let m := on_dp (fun _ => d) m in
  if r =? ACT_FORWARD then
    let m := if l1_ok && (cache_st =? ST_EST)
             then on_dp (l1_put (l1_index (sg_key sg) (L1_MASK i)) (sg_key sg) ST_EST (now_tick (k_ns kn))) m else m in
    Some (do_forward i len p m)
  else do_drop_tcp i f vs r len 0 (sg_ip sg) (sg_tcp sg) p m.

(** With the policy [f]; the fast path does not need it, and takes its place. *)
Definition act_tcp (i : instance) (kn : kernel) (vs len : Z) (sg : segment) (p : frame) (m : machine) : result :=
  let fast := l1_eligible (L1_MASK i) (sg_flags sg) in
  let watched := monitored i kn (sg_key sg) IPPROTO_TCP len m in
  let now := now_tick (k_ns kn) in
  if fast && l1_hit (l1_index (sg_key sg) (L1_MASK i)) (sg_key sg) ST_EST now (m_dp m)
  then Some (do_forward i len p (on_stats count_l1 watched))
  else match m_features m with
       | None => Some (no_policy i p (if fast then watched else m))
       | Some f =>
           if negb fast && negb (drop_bad_flags f =? 0) && bad_flags (sg_flags sg)
           then do_drop_tcp i f vs RSN_BAD_FLAGS len 0 (sg_ip sg) (sg_tcp sg) p watched
           else act_tcp_state i kn f vs len fast sg p watched
       end.

Definition act_udp (i : instance) (kn : kernel) (c : fclass) (len : Z) (p : frame) (m : machine) : result :=
  match m_features m with
  | None => Some (no_policy i p m)
  | Some f =>
      match c with
      | Udp vs k =>
          let watched := monitored i kn k IPPROTO_UDP len m in
          if filter_udp f =? 0 then Some (nontcp i len p watched) else udp_state i kn f vs len k p watched
      | _ =>
          if filter_udp f =? 0 then Some (nontcp i len p m)
          else Some (match c with
                     | UdpFrag vs => if drop_udp_frags f =? 0 then do_forward i len p m else do_drop i f vs RSN_UDP_FRAG len p m
                     | _ => do_drop i f (class_vlan c) RSN_MALFORMED len p m
                     end)
      end
  end.

(** The action once the accounting is done. *)
Definition act_after (i : instance) (kn : kernel) (c : fclass) (len : Z) (p : frame) (m : machine) : result :=
  match c with
  | Malformed vs => Some (do_drop_lazy i vs RSN_MALFORMED len p m)
  | DeepVlan vs =>
      match m_features m with
      | None => Some (no_policy i p m)
      | Some f => Some (if drop_vlan_deep f =? 0 then do_forward i len p (on_stats (count_nonip len) m)
                        else do_drop i f vs RSN_VLAN_DEPTH len p m)
      end
  | NonIp _ => Some (do_forward i len p (on_stats (count_nonip len) m))
  | OtherIp _ => Some (nontcp i len p m)
  | TcpFrag vs =>
      match m_features m with
      | None => Some (no_policy i p m)
      | Some f => Some (if drop_frags f =? 0 then do_forward i len p m else do_drop i f vs RSN_TCP_FRAG len p m)
      end
  | Tcp vs sg => act_tcp i kn vs len sg p m
  | UdpFrag _ | UdpShort _ | Udp _ _ => act_udp i kn c len p m
  end.

Definition frame_len (i : instance) (kn : kernel) (p : frame) : Z := if MULTIBUF i then k_buff_len kn else size p.

Definition act (i : instance) (kn : kernel) (c : fclass) (p : frame) (m : machine) : result :=
  act_after i kn c (frame_len i kn p) p (rx_account (class_vlan c) (frame_len i kn p) m).

(** ** The program is the classification followed by the action *)

Lemma vlan_tags_cur n : forall first t p t', vlan_tags n first t p = Some t' -> t_cur t <= t_cur t'.
Proof.
  induction n as [|n IH]; intros first t p t'; cbn [vlan_tags]; [now intros [= <-]|].
  destruct (negb _); [now intros [= <-]|]. destruct (_ <? _); [now intros [= <-]|].
  destruct (load16 (t_cur t) p); [|done]. cbn [mbind option_bind]. destruct (load16 (t_cur t + 2) p); [|done]. cbn [mbind option_bind].
  intros H. apply IH in H. cbn [t_cur] in H. unfold vlan_size in H. lia.
Qed.

Lemma make_key_ok trusted outer inner ip l4 p : 0 <= ip -> ip + 20 <= size p -> 0 <= l4 -> l4 + 4 <= size p ->
  exists k, make_key trusted outer inner ip l4 p = Some k.
Proof. intros H1 H2 H3 H4. unfold make_key. do 4 mem_step. eauto. Qed.

Lemma monitor_flow_fields i kn k protocol len m : m_dp (monitor_flow i kn k protocol len m) = m_dp m /\
  m_features (monitor_flow i kn k protocol len m) = m_features m /\ m_stats (monitor_flow i kn k protocol len m) = m_stats m.
Proof. unfold monitor_flow. repeat case_match; split_and!; reflexivity. Qed.

Lemma monitored_fields i kn k protocol len m : m_dp (monitored i kn k protocol len m) = m_dp m /\
  m_features (monitored i kn k protocol len m) = m_features m /\ m_stats (monitored i kn k protocol len m) = m_stats m.
Proof. unfold monitored. destruct (ROLE_TRUSTED i); [done | apply monitor_flow_fields]. Qed.

Lemma monitored_if i kn k protocol len m :
  (if ROLE_TRUSTED i then m else monitor_flow i kn k protocol len m) = monitored i kn k protocol len m.
Proof. reflexivity. Qed.

Section Refine.
Context (i : instance) (kn : kernel) (p : frame).

Lemma tcp_state_act f vs len sg m now l1_idx fast : 
  (exists seq ack, load32 (sg_tcp sg + 4) p = Some seq /\ load32 (sg_tcp sg + 8) p = Some ack /\ sg_seq sg = bswap32 seq /\ sg_ack sg = bswap32 ack) ->
  now = now_tick (k_ns kn) -> (fast = true -> l1_idx = l1_index (sg_key sg) (L1_MASK i)) ->
  tcp_state i kn f vs len 0 (sg_ip sg) (sg_tcp sg) (sg_flags sg) now l1_idx fast (sg_key sg) p m = act_tcp_state i kn f vs len fast sg p m.
Proof.
  intros (seq & ack & E1 & E2 & Es & Ea) -> Hidx. unfold tcp_state, act_tcp_state, tcp_handle. rewrite E1, E2, Es, Ea. cbn [mbind option_bind].
  destruct (ROLE_TRUSTED i); cbn [mbind option_bind].
  all: destruct fast; [now rewrite Hidx|]; reflexivity.
Qed.

Lemma xdp_tcp_act outer inner vs len ip ihl m : 0 <= ip -> ip + 20 <= size p -> 20 <= ihl ->
  xdp_tcp i kn outer inner vs len ip ihl (ip + ihl) p m =
  c ← classify_tcp (ROLE_TRUSTED i) outer inner vs ip ihl (ip + ihl) p;
  match c with
  | Malformed vs => Some (do_drop_lazy i vs RSN_MALFORMED len p m)
  | TcpFrag vs =>
      match m_features m with
      | None => Some (no_policy i p m)
      | Some f => Some (if drop_frags f =? 0 then do_forward i len p m else do_drop i f vs RSN_TCP_FRAG len p m)
      end
  | Tcp vs sg => act_tcp i kn vs len sg p m
  | _ => None
  end.
Proof.
  intros H1 H2 H3. unfold xdp_tcp, classify_tcp. read16 (ip + 6) of p as frag. destruct (tst frag _); [reflexivity|].
  destruct (Z.ltb_spec (size p) (ip + ihl + tcp_size)) as [|Hs]; [reflexivity|]. unfold tcp_size in Hs.
  read8 (ip + ihl + 12) of p as doff. read16 (ip + 2) of p as tot. cbv zeta.
  destruct (_ || _); [reflexivity|]. read8 (ip + ihl + 13) of p as fl.
  destruct (make_key_ok (ROLE_TRUSTED i) outer inner ip (ip + ihl) p) as [k Ek]; [lia..|]. rewrite Ek. cbn [mbind option_bind].
  read32 (ip + ihl + 4) of p as seq. read32 (ip + ihl + 8) of p as ack. unfold act_tcp. cbn [sg_key sg_flags sg_seq sg_ack sg_ip sg_tcp]. rewrite !monitored_if.
  destruct (monitored_fields i kn k IPPROTO_TCP len m) as (Ed & Ef & _). rewrite Ed, Ef.
  assert (Ht : forall fast f idx m', (fast = true -> idx = l1_index k (L1_MASK i)) ->
    tcp_state i kn f vs len 0 ip (ip + ihl) fl (now_tick (k_ns kn)) idx fast k p m' =
    act_tcp_state i kn f vs len fast (Segment k fl (bswap32 seq) (bswap32 ack) ip (ip + ihl)) p m').
  { intros fast f idx m' Hi. apply (tcp_state_act f vs len (Segment k fl (bswap32 seq) (bswap32 ack) ip (ip + ihl))); eauto 8. }
  destruct (l1_eligible (L1_MASK i) fl); cbn [negb andb].
  - destruct (l1_hit _ _ _ _ _); [reflexivity|]. destruct (m_features m); [now rewrite Ht | reflexivity].
  - destruct (m_features m) as [f|]; [|reflexivity]. destruct (_ && _); [reflexivity | now rewrite Ht].
Qed.

Lemma xdp_udp_act outer inner vs len ip ihl m : 0 <= ip -> ip + 20 <= size p -> 20 <= ihl ->
  xdp_udp i kn outer inner vs len ip ihl (ip + ihl) p m =
  c ← classify_udp (ROLE_TRUSTED i) outer inner vs ip ihl (ip + ihl) p; act_udp i kn c len p m.
Proof.
  intros H1 H2 H3. unfold xdp_udp, classify_udp. read16 (ip + 6) of p as frag. destruct (tst frag _) eqn:Et.
  { cbn [mbind option_bind]. unfold act_udp. destruct (m_features m) as [f|]; [|reflexivity]. now destruct (filter_udp f =? 0). }
  destruct (Z.ltb_spec (size p) (ip + ihl + udp_size)) as [|Hs].
  { cbn [mbind option_bind]. unfold act_udp. destruct (m_features m) as [f|]; [|reflexivity]. now destruct (filter_udp f =? 0). }
  unfold udp_size in Hs. read16 (ip + 2) of p as tot. destruct (bswap16 _ <? _).
  { cbn [mbind option_bind]. unfold act_udp. destruct (m_features m) as [f|]; [|reflexivity]. now destruct (filter_udp f =? 0). }
  destruct (make_key_ok (ROLE_TRUSTED i) outer inner ip (ip + ihl) p) as [k Ek]; [lia..|]. rewrite Ek. cbn [mbind option_bind].
  unfold act_udp. rewrite monitored_if. destruct (m_features m); reflexivity.
Qed.

(** The classes a TCP or UDP packet of VLAN slot [vs] can have. *)
Lemma classify_tcp_classes trusted outer inner vs ip ihl l4 c : classify_tcp trusted outer inner vs ip ihl l4 p = Some c ->
  match c with Malformed v | TcpFrag v | Tcp v _ => v = vs | _ => False end.
Proof.
  unfold classify_tcp. intros H.
  repeat (let x := fresh in apply bind_Some in H as (x & _ & H)
          || (destruct (tst _ _); [now simplify_eq|]) || (destruct (_ <? _) ; [now simplify_eq|])
          || (cbv zeta in H; destruct (_ || _); [now simplify_eq|])); now simplify_eq.
Qed.

Lemma classify_udp_classes trusted outer inner vs ip ihl l4 c : classify_udp trusted outer inner vs ip ihl l4 p = Some c ->
  match c with UdpFrag v | UdpShort v | Udp v _ => v = vs | _ => False end.
Proof.
  unfold classify_udp. intros H.
  repeat (let x := fresh in apply bind_Some in H as (x & _ & H)
          || (destruct (tst _ _); [now simplify_eq|]) || (destruct (_ <? _) ; [now simplify_eq|])); now simplify_eq.
Qed.

Lemma xdp_ipv4_act outer inner vs len ip m : 0 <= ip ->
  xdp_ipv4 i kn outer inner vs len ip p m =
  c ← classify_ip (ROLE_TRUSTED i) outer inner vs ip p; act_after i kn c len p m.
Proof.
  intros H1. unfold xdp_ipv4, classify_ip. destruct (Z.ltb_spec (size p) (ip + ip_size)) as [|H2]; [reflexivity|].
  unfold ip_size in *. read8 ip of p as ver. cbv zeta. set (ihl := Z.land ver 15 * 4).
  destruct (negb _); [reflexivity|]. cbn [orb]. destruct (Z.ltb_spec ihl 20) as [|H3]; [reflexivity|]. cbn [orb].
  destruct (size p <? ip + ihl); [reflexivity|]. read8 (ip + 9) of p as proto.
  destruct (proto =? IPPROTO_TCP).
  - rewrite xdp_tcp_act by lia. destruct (classify_tcp _ _ _ _ _ _ _ _) as [c|] eqn:Ec; [|reflexivity].
    apply classify_tcp_classes in Ec. cbn [mbind option_bind]. now destruct c.
  - destruct (proto =? IPPROTO_UDP); [|reflexivity]. rewrite xdp_udp_act by lia.
    destruct (classify_udp _ _ _ _ _ _ _ _) as [c|] eqn:Ec; [|reflexivity].
    apply classify_udp_classes in Ec. cbn [mbind option_bind]. now destruct c.
Qed.

Lemma classify_ip_vlan trusted outer inner vs ip c : classify_ip trusted outer inner vs ip p = Some c -> class_vlan c = vs.
Proof.
  unfold classify_ip. destruct (_ <? _); [now intros [= <-]|]. intros (ver & _ & H)%bind_Some. cbv zeta in H.
  destruct (_ || _); [now simplify_eq|]. apply bind_Some in H as (proto & _ & H).
  destruct (_ =? _); [apply classify_tcp_classes in H; now destruct c|].
  destruct (_ =? _); [apply classify_udp_classes in H; now destruct c | now simplify_eq].
Qed.

(** The interleaved checks of the program are its classification. *)
Lemma xdp_filter_act m : xdp_filter i kn p m = c ← classify (ROLE_TRUSTED i) p; act i kn c p m.
Proof.
  unfold xdp_filter, classify. destruct (size p <? eth_size); [reflexivity|].
  destruct (load16 12 p) as [proto|]; [|reflexivity]. cbn [mbind option_bind].
  destruct (vlan_tags MAX_VLAN_DEPTH true _ p) as [t|] eqn:Et; [|reflexivity]. cbn [mbind option_bind]. cbv zeta.
  destruct (t_trunc t); [reflexivity|]. destruct (is_vlan (t_proto t)); [reflexivity|]. destruct (negb _); [reflexivity|].
  apply vlan_tags_cur in Et. cbn [t_cur] in Et. unfold eth_size in Et. rewrite xdp_ipv4_act by lia.
  destruct (classify_ip _ _ _ _ _ _) as [c|] eqn:Ec; [|reflexivity]. apply classify_ip_vlan in Ec. cbn [mbind option_bind].
  unfold act, frame_len. now rewrite Ec.
Qed.

(** ** No access outside the frame *)

(** Where the headers of a classified segment are, and what its fields are. *)
Definition segment_at (sg : segment) : Prop :=
  exists ver tot doff seq ack, load8 (sg_ip sg) p = Some ver /\ Z.shiftr ver 4 = 4 /\ sg_tcp sg = sg_ip sg + Z.land ver 15 * 4 /\
    load8 (sg_ip sg + 9) p = Some IPPROTO_TCP /\
    load16 (sg_ip sg + 2) p = Some tot /\ load8 (sg_tcp sg + 12) p = Some doff /\
    sg_tcp sg - sg_ip sg + Z.shiftr doff 4 * 4 <= bswap16 tot /\ load8 (sg_tcp sg + 13) p = Some (sg_flags sg) /\
    load32 (sg_tcp sg + 4) p = Some seq /\ sg_seq sg = bswap32 seq /\ load32 (sg_tcp sg + 8) p = Some ack /\ sg_ack sg = bswap32 ack.

Definition class_ok (c : fclass) : Prop :=
  match c with
  | Tcp _ sg => (14 <= sg_ip sg /\ sg_ip sg + 20 <= sg_tcp sg /\ sg_tcp sg + 20 <= size p) /\ segment_at sg
  | _ => True
  end.

Lemma vlan_tags_ok n : forall first t, 0 <= t_cur t -> exists t', vlan_tags n first t p = Some t'.
Proof.
  induction n as [|n IH]; intros first t Ht; cbn [vlan_tags]; [eauto|]. destruct (negb _); [eauto|].
  destruct (Z.ltb_spec (size p) (t_cur t + vlan_size)) as [|Hs]; [eauto|]. unfold vlan_size in *.
  read16 (t_cur t) of p as tci. read16 (t_cur t + 2) of p as encap. apply IH. cbn [t_cur]. lia.
Qed.

Lemma classify_ip_ok trusted outer inner vs ip : 14 <= ip ->
  exists c, classify_ip trusted outer inner vs ip p = Some c /\ class_ok c.
Proof.
  intros H1. unfold classify_ip. destruct (Z.ltb_spec (size p) (ip + ip_size)) as [|H2]; [now eexists|].
  unfold ip_size in *. read8 ip of p as ver. cbv zeta. set (ihl := Z.land ver 15 * 4).
  destruct (negb _) eqn:Hver; [now eexists|]. apply negb_false_iff, Z.eqb_eq in Hver. cbn [orb]. destruct (Z.ltb_spec ihl 20) as [|H3]; [now eexists|]. cbn [orb].
  destruct (size p <? ip + ihl); [now eexists|]. read8 (ip + 9) of p as proto. destruct (Z.eqb_spec proto IPPROTO_TCP) as [->|_].
  - unfold classify_tcp. read16 (ip + 6) of p as frag. destruct (tst frag _); [now eexists|].
    destruct (Z.ltb_spec (size p) (ip + ihl + tcp_size)) as [|Hs]; [now eexists|]. unfold tcp_size in Hs.
    read8 (ip + ihl + 12) of p as doff. read16 (ip + 2) of p as tot. cbv zeta. destruct (_ || _) eqn:Hlen; [now eexists|]. apply orb_false_iff in Hlen as [_ Hlen%Z.ltb_ge].
    read8 (ip + ihl + 13) of p as fl. destruct (make_key_ok trusted outer inner ip (ip + ihl) p) as [k ->]; [lia..|]. cbn [mbind option_bind].
    read32 (ip + ihl + 4) of p as seq. read32 (ip + ihl + 8) of p as ack.
    eexists; split; [reflexivity|]. split; cbn [sg_ip sg_tcp]; [lia|]. exists ver, tot, doff, seq, ack. cbn. replace (ip + ihl - ip) with ihl by lia. done.
  - destruct (proto =? IPPROTO_UDP); [|now eexists]. unfold classify_udp. read16 (ip + 6) of p as frag.
    destruct (tst frag _); [now eexists|]. destruct (Z.ltb_spec (size p) (ip + ihl + udp_size)) as [|Hs]; [now eexists|].
    unfold udp_size in Hs. read16 (ip + 2) of p as tot. destruct (bswap16 tot <? _); [now eexists|].
    destruct (make_key_ok trusted outer inner ip (ip + ihl) p) as [k ->]; [lia..|]. now eexists.
Qed.

Lemma classify_ok trusted : exists c, classify trusted p = Some c /\ class_ok c.
Proof.
  unfold classify. destruct (Z.ltb_spec (size p) eth_size) as [|Hs]; [now eexists|]. unfold eth_size in *.
  read16 12 of p as proto. destruct (vlan_tags_ok MAX_VLAN_DEPTH true (Tags false proto 14 0 0)) as [t Et]; [now cbn|].
  rewrite Et. cbn [mbind option_bind]. cbv zeta. destruct (t_trunc t); [now eexists|].
  destruct (is_vlan (t_proto t)); [now eexists|]. destruct (negb _); [now eexists|].
  apply vlan_tags_cur in Et. cbn [t_cur] in Et. now apply classify_ip_ok.
Qed.

Lemma do_drop_tcp_ok f vs r len ip tcp m : 14 <= ip -> ip + 20 <= tcp -> tcp + 20 <= size p ->
  is_Some (do_drop_tcp i f vs r len 0 ip tcp p m).
Proof.
  intros H1 H2 H3. unfold do_drop_tcp. destruct (_ && _); [|eauto].
  destruct (rst_ok 0 ip tcp p) as (x & -> & _); [lia..|]. cbn [mbind option_bind]. destruct x; eauto.
Qed.

Lemma act_ok c m : class_ok c -> is_Some (act i kn c p m).
Proof.
  intros Hc. unfold act. destruct c; cbn [act_after class_ok] in *; try (eauto; fail).
  - case_match; eauto.
  - case_match; eauto.
  - destruct Hc as [(H1 & H2 & H3) _]. unfold act_tcp. destruct (_ && _); [eauto|]. case_match; [|eauto].
    destruct (_ && _); [now apply do_drop_tcp_ok|]. unfold act_tcp_state. destruct (tcp_handle _ _ _ _ _) as [[r c] d].
    destruct (_ =? _); [eauto | now apply do_drop_tcp_ok].
  - unfold act_udp. repeat case_match; eauto.
  - unfold act_udp. repeat case_match; eauto.
  - unfold act_udp, udp_state. repeat case_match; eauto.
Qed.
End Refine.
