(* ===== verification/PacketSpec.v ===== *)
(** * PacketSpec: what the XDP program does to any frame

    Every frame gets a verdict without an access outside it; only enforcement
    stops a frame; a frame that is not answered with a reset is not changed;
    every frame is counted once on the way in and once on the way out; only
    inbound TCP and UDP is sampled. *)

From Stdlib Require Import ZArith Lia Bool.
From stdpp Require Import prelude gmap.
From S2P Require Import Prelude Filter Packet PacketRef.

Local Open Scope Z_scope.

(** ** How a frame is settled *)

(** [m] is the machine after the accounting of the reception and the flow
    logic; [tx] is what may be answered with a reset. *)
Inductive settled (i : instance) (len : Z) (p : frame) (tx : frame -> Prop) (m : machine) : verdict * frame * machine -> Prop :=
  | settled_forward : settled i len p tx m (do_forward i len p m)
  | settled_unguarded : m_features m = None -> settled i len p tx m (no_policy i p m)
  | settled_drop f vs reason : m_features m = Some f -> settled i len p tx m (do_drop i f vs reason len p m)
  | settled_reset f p' reason : m_features m = Some f -> mode f = MODE_ENFORCE -> reject_with_rst f <> 0 -> ROLE_TRUSTED i = false -> tx p' ->
      settled i len p tx m (XDP_TX, p', on_stats (count_rst len) (on_dp (stat_reason reason) m)).

(** The counters the reception and the flow logic leave alone. *)
Definition same_exits (g g' : stats_global) : Prop :=
  rx_pkts g' = rx_pkts g /\ rx_bytes g' = rx_bytes g /\ redir_pkts g' = redir_pkts g /\ redir_bytes g' = redir_bytes g /\
  drop_pkts g' = drop_pkts g /\ drop_bytes g' = drop_bytes g /\ rst_pkts g' = rst_pkts g /\ rst_bytes g' = rst_bytes g.

(** What precedes the verdict keeps the policy, and counts no exit. *)
Definition prelude (m m1 : machine) : Prop :=
  m_features m1 = m_features m /\
  match m_stats m, m_stats m1 with Some g, Some g1 => same_exits g g1 | None, None => True | _, _ => False end.

Lemma prelude_refl m : prelude m m.
Proof. split; [done|]. destruct (m_stats m); [unfold same_exits; tauto | done]. Qed.

Lemma prelude_trans m1 m2 m3 : prelude m1 m2 -> prelude m2 m3 -> prelude m1 m3.
Proof.
  intros [F1 S1] [F2 S2]. split; [congruence|]. destruct (m_stats m1), (m_stats m2), (m_stats m3); try done.
  unfold same_exits in *. intuition congruence.
Qed.

Lemma prelude_dp g m : prelude m (on_dp g m).
Proof. exact (prelude_refl m). Qed.

Lemma prelude_stats h m : (forall g, same_exits g (h g)) -> prelude m (on_stats h m).
Proof. intros Hh. split; [done|]. cbn. destruct (m_stats m); cbn; auto. Qed.

Lemma prelude_monitored i kn k proto len m : prelude m (monitored i kn k proto len m).
Proof.
  destruct (monitored_fields i kn k proto len m) as (_ & F & S). split; [done|]. rewrite S. apply prelude_refl.
Qed.

#[local] Hint Resolve prelude_refl prelude_dp prelude_monitored : core.
#[local] Hint Extern 1 (prelude _ (on_stats _ _)) => apply prelude_stats; intros ?; unfold same_exits; tauto : core.

Lemma prelude_policy m m1 f : prelude m m1 -> m_features m = Some f -> m_features m1 = Some f.
Proof. intros [-> _]; done. Qed.

Lemma prelude_no_policy m m1 : prelude m m1 -> m_features m = None -> m_features m1 = None.
Proof. intros [-> _]; done. Qed.

Section Settle.
Context (i : instance) (kn : kernel) (p : frame).

(** [p'] is the reset that answers the frame. *)
Definition reset_of (c : fclass) (p' : frame) : Prop :=
  match c with Tcp _ sg => build_and_send_rst 0 (sg_ip sg) (sg_tcp sg) p = Some (Some p') | _ => False end.

Lemma lazy_settled vs reason len tx m : settled i len p tx m (do_drop_lazy i vs reason len p m).
Proof. unfold do_drop_lazy. destruct (m_features m) eqn:F; [now apply settled_drop | now apply settled_unguarded]. Qed.

Lemma drop_tcp_settled f vs reason len ip tcp m r : m_features m = Some f -> do_drop_tcp i f vs reason len 0 ip tcp p m = Some r ->
  settled i len p (fun p' => build_and_send_rst 0 ip tcp p = Some (Some p')) m r.
Proof.
  intros F. unfold do_drop_tcp.
  destruct (negb (ROLE_TRUSTED i) && (mode f =? MODE_ENFORCE) && negb (reject_with_rst f =? 0)) eqn:C; [|intros [= <-]; now apply settled_drop].
  apply andb_true_iff in C as [[Hr%negb_true_iff Hm%Z.eqb_eq]%andb_true_iff Hj%negb_true_iff%Z.eqb_neq].
  intros (x & Hx & H)%bind_Some. destruct x; simplify_eq; [now apply (settled_reset i len p _ m f) | now apply settled_drop].
Qed.

Lemma tcp_settled vs len sg m r : act_tcp i kn vs len sg p m = Some r ->
  exists m1, prelude m m1 /\ settled i len p (reset_of (Tcp vs sg)) m1 r.
Proof.
  unfold act_tcp. set (w := monitored i kn (sg_key sg) IPPROTO_TCP len m). assert (Hw : prelude m w) by apply prelude_monitored.
  destruct (_ && l1_hit _ _ _ _ _).
  { intros [= <-]. exists (on_stats count_l1 w). split; [eapply prelude_trans; [done | auto] | constructor]. }
  destruct (m_features m) as [f|] eqn:F.
  2: { intros [= <-]. destruct (l1_eligible _ _); [exists w | exists m]; (split; [auto|]); apply settled_unguarded; [|done]. now apply (prelude_no_policy m). }
  pose proof (prelude_policy _ _ _ Hw F) as Fw. destruct (_ && _).
  { intros H. exists w. split; [done|]. now apply drop_tcp_settled in H. }
  unfold act_tcp_state. destruct (tcp_handle i kn f sg (m_dp w)) as [[a c] d]. destruct (a =? ACT_FORWARD).
  - intros [= <-]. eexists. split; [|constructor]. eapply prelude_trans; [exact Hw|]. destruct (_ && _); auto. exact (prelude_refl w).
  - intros H. exists (on_dp (fun _ => d) w). split; [eapply prelude_trans; [exact Hw | auto]|]. now apply drop_tcp_settled in H.
Qed.

Lemma udp_settled c len m r : act_udp i kn c len p m = Some r -> exists m1, prelude m m1 /\ settled i len p (fun _ => False) m1 r.
Proof.
  unfold act_udp. destruct (m_features m) as [f|] eqn:F; [|intros [= <-]; exists m; split; [auto | now apply settled_unguarded]].
  assert (Hn : exists m1, prelude m m1 /\ settled i len p (fun _ => False) m1 (nontcp i len p m))
    by (exists (on_stats (count_nontcp len) m); split; [auto | constructor]).
  assert (Hf : exists m1, prelude m m1 /\ settled i len p (fun _ => False) m1 (do_forward i len p m)) by (exists m; split; [auto | constructor]).
  assert (Hd : forall vs rs, exists m1, prelude m m1 /\ settled i len p (fun _ => False) m1 (do_drop i f vs rs len p m))
    by (intros vs rs; exists m; split; [auto | now apply settled_drop]).
  destruct c as [v|v|v|v|v|v sg|v|v|v k].
  9: { set (w := monitored i kn k IPPROTO_UDP len m). assert (Hw : prelude m w) by apply prelude_monitored.
    pose proof (prelude_policy _ _ _ Hw F) as Fw. destruct (filter_udp f =? 0).
    { intros [= <-]. exists (on_stats (count_nontcp len) w). split; [eapply prelude_trans; [done | auto] | constructor]. }
    unfold udp_state. destruct (_ && _); [intros [= <-]; exists (on_stats count_l1 w); split; [eapply prelude_trans; [done | auto] | constructor]|].
    destruct (if ROLE_TRUSTED i then _ else _) as [[a c] d]. destruct (a =? ACT_FORWARD); intros [= <-].
    - eexists. split; [|constructor]. eapply prelude_trans; [exact Hw|]. destruct (_ && _); auto. exact (prelude_refl w).
    - exists (on_dp (fun _ => d) w). split; [eapply prelude_trans; [exact Hw | auto]|]. now apply settled_drop. }
  all: destruct (filter_udp f =? 0); intros [= <-]; try exact Hn; try (case_match; [exact Hf|]); apply Hd.
Qed.

Lemma act_settled c m r : act i kn c p m = Some r ->
  let len := frame_len i kn p in
  exists m1, prelude (rx_account (class_vlan c) len m) m1 /\ settled i len p (reset_of c) m1 r.
Proof.
  unfold act. cbv zeta. set (len := frame_len i kn p). set (m0 := rx_account _ _ _). destruct c; cbn [act_after reset_of].
  - intros [= <-]. exists m0. split; [auto | apply lazy_settled].
  - destruct (m_features m0) as [f|] eqn:F; [|intros [= <-]; exists m0; split; [auto | now apply settled_unguarded]].
    destruct (drop_vlan_deep f =? 0); intros [= <-]; [exists (on_stats (count_nonip len) m0) | exists m0]; (split; [auto|]); [constructor | now apply settled_drop].
  - intros [= <-]. exists (on_stats (count_nonip len) m0). split; [auto | constructor].
  - intros [= <-]. exists (on_stats (count_nontcp len) m0). split; [auto | constructor].
  - destruct (m_features m0) as [f|] eqn:F; [|intros [= <-]; exists m0; split; [auto | now apply settled_unguarded]].
    destruct (drop_frags f =? 0); intros [= <-]; exists m0; (split; [auto|]); [constructor | now apply settled_drop].
  - apply tcp_settled.
  - apply udp_settled.
  - apply udp_settled.
  - apply udp_settled.
Qed.
End Settle.

(** ** Properties of every frame *)

(** The two outcomes of a drop. *)
Lemma do_drop_inv i f vs reason len p m v p' m' : do_drop i f vs reason len p m = (v, p', m') ->
  p' = p /\
  ((mode f = MODE_ENFORCE /\ v = XDP_DROP /\ m_stats m' = count_drop len <$> m_stats m) \/
   (mode f <> MODE_ENFORCE /\ v = Redirected (PEER_IDX i) /\ m_stats m' = count_redir len <$> m_stats m)).
Proof.
  unfold do_drop. destruct (Z.eqb_spec (mode f) MODE_ENFORCE) as [M|M]; intros [= <- <- <-]; (split; [done|]); [left | right]; done.
Qed.

Lemma filter_settled i kn p m v p' m' : xdp_filter i kn p m = Some (v, p', m') ->
  exists c m1, classify (ROLE_TRUSTED i) p = Some c /\
    prelude (rx_account (class_vlan c) (frame_len i kn p) m) m1 /\ settled i (frame_len i kn p) p (reset_of p c) m1 (v, p', m').
Proof.
  rewrite xdp_filter_act. destruct (classify_ok p (ROLE_TRUSTED i)) as (c & -> & _). cbn [mbind option_bind]. intros H.
  apply act_settled in H as (m1 & Hp & Hs). eauto.
Qed.

Lemma xdp_filter_runs i kn p m : exists v p' m', xdp_filter i kn p m = Some (v, p', m').
Proof.
  rewrite xdp_filter_act. destruct (classify_ok p (ROLE_TRUSTED i)) as (c & E & Hc). rewrite E. cbn [mbind option_bind].
  destruct (act_ok i kn p c m Hc) as [[[v p'] m'] Ea]. eauto.
Qed.

(** C6. Memory safety.  Whatever the bytes of the frame, the configuration of
    the program and the contents of its maps, the program ends with a verdict:
    no load and no store is ever outside the frame, not even while a reset is
    written into it. *)
Theorem frame_in_bounds i kn p m : exists v p' m', xdp_filter i kn p m = Some (v, p', m') /\ size p' = size p.
Proof.
  rewrite xdp_filter_act. destruct (classify_ok p (ROLE_TRUSTED i)) as (c & E & Hc). rewrite E. cbn [mbind option_bind].
  destruct (act_ok i kn p c m Hc) as [[[v p'] m'] Ea]. exists v, p', m'. split; [done|].
  pose proof (act_settled i kn p c m _ Ea) as (m1 & _ & Hs). cbv zeta in Hs.
  revert Ea. inversion Hs; subst; clear Hs; intros Ea; try reflexivity.
  - match goal with H : do_drop _ _ _ _ _ _ _ = _ |- _ => apply do_drop_inv in H as [-> _] end. done.
  - destruct c as [| | | | |vs sg| | |]; try done. destruct Hc as [(C1 & C2 & C3) _]. cbn [reset_of] in *.
    destruct (rst_ok 0 (sg_ip sg) (sg_tcp sg) p) as (r & Er & Hr); [lia..|].
    destruct Hr as (q & -> & Hq); [unfold tcp_size; lia | congruence].
Qed.

(** C7. The fate of a frame.  Only a policy that enforces stops a frame: without
    a policy, or while it monitors, every frame goes on to the other port.  A
    frame that goes on or is dropped is byte for byte the frame that came; only
    a TCP segment from the internet side can be answered, and only when the
    policy asks for resets. *)
Theorem frame_fate i kn p m v p' m' : xdp_filter i kn p m = Some (v, p', m') ->
  match v with
  | Redirected peer => peer = PEER_IDX i /\ p' = p
  | XDP_DROP => p' = p /\ exists f, m_features m = Some f /\ mode f = MODE_ENFORCE
  | XDP_TX => ROLE_TRUSTED i = false /\ (exists vs sg, classify false p = Some (Tcp vs sg)) /\
              exists f, m_features m = Some f /\ mode f = MODE_ENFORCE /\ reject_with_rst f <> 0
  end.
Proof.
  intros (c & m1 & Ec & [Hf _] & Hs)%filter_settled. cbn in Hf. inversion Hs; subst; clear Hs; try done.
  - match goal with H : do_drop _ _ _ _ _ _ _ = _ |- _ => apply do_drop_inv in H as [-> [(M & -> & _)|(M & -> & _)]] end; [|done].
    split; [done|]. exists f. split; [congruence | done].
  - split; [done|]. split; [|exists f; split; [congruence | done]].
    destruct c as [| | | | |vs sg| | |]; try done. match goal with H : ROLE_TRUSTED i = false |- _ => rewrite H in Ec end. eauto.
Qed.

(** C16. Every frame is counted once on the way in and, under a policy, once on
    the way out: as forwarded, as dropped or as answered, with its length. *)
Theorem frame_counted i kn p m v p' m' f g : xdp_filter i kn p m = Some (v, p', m') -> m_features m = Some f -> m_stats m = Some g ->
  let len := frame_len i kn p in
  let exit (b : bool) (n bytes : Z) := if b then (inc n, add_len len bytes) else (n, bytes) in
  exists g', m_stats m' = Some g' /\
    (rx_pkts g', rx_bytes g') = (inc (rx_pkts g), add_len len (rx_bytes g)) /\
    (redir_pkts g', redir_bytes g') = exit (match v with Redirected _ => true | _ => false end) (redir_pkts g) (redir_bytes g) /\
    (drop_pkts g', drop_bytes g') = exit (match v with XDP_DROP => true | _ => false end) (drop_pkts g) (drop_bytes g) /\
    (rst_pkts g', rst_bytes g') = exit (match v with XDP_TX => true | _ => false end) (rst_pkts g) (rst_bytes g).
Proof.
  intros (c & m1 & _ & [Hf Hst] & Hs)%filter_settled Hm Hg. cbn in Hf. cbv zeta.
  cbn [rx_account on_vlan on_stats m_stats] in Hst. rewrite Hg in Hst. cbn [fmap option_fmap option_map] in Hst.
  destruct (m_stats m1) as [g1|] eqn:E1; [|done]. destruct Hst as (R1 & R2 & R3 & R4 & R5 & R6 & R7 & R8). cbn in R1, R2, R3, R4, R5, R6, R7, R8.
  inversion Hs; subst; clear Hs.
  - eexists. cbn. rewrite E1. cbn. split; [done|]. cbn. rewrite R1, R2, R3, R4, R5, R6, R7, R8. done.
  - congruence.
  - match goal with H : do_drop _ _ _ _ _ _ _ = _ |- _ => apply do_drop_inv in H as [_ [(_ & -> & Es)|(_ & -> & Es)]] end;
      rewrite E1 in Es; eexists; (split; [exact Es|]); cbn; rewrite R1, R2, R3, R4, R5, R6, R7, R8; done.
  - eexists. cbn. rewrite E1. cbn. split; [done|]. cbn. rewrite R1, R2, R3, R4, R5, R6, R7, R8. done.
Qed.
