(* ===== verification/Traffic.v ===== *)
(** * Traffic: what frames get through

    Frames arrive at the two ports, on any CPU, in any order, while entries are
    evicted and the policy changes; each CPU has its own cache in front of the
    shared tables.  A frame from the internet side that an enforcing policy
    lets through has an opener among the frames seen before: this carries the
    safety of the flow logic (FlowSafety.v) through the parser and the cache
    down to the bytes on the wire.  Packets are handled one at a time. *)

From Stdlib Require Import ZArith Lia Bool.
From stdpp Require Import prelude gmap.
From S2P Require Import Prelude Filter FlowSafety Packet PacketRef PacketSpec.

Local Open Scope Z_scope.

(** ** What the flow logic did with a frame *)

(** Nothing; the cache answered; or the handler of the direction ran. *)
Inductive cause := CNone | CHit | CRan (r : Z).

Definition idx_of (i : instance) (k : flow_key) : Z := l1_index k (L1_MASK i).

(** The cache after a forward that may be cached. *)
Definition put_if (b : bool) (i : instance) (kn : kernel) (k : flow_key) (st : Z) (d : dp) : dp :=
  if b then l1_put (idx_of i k) k st (now_tick (k_ns kn)) d else d.

Definition udp_handle (i : instance) (kn : kernel) (f : features) (k : flow_key) (d : dp) : Z * Z * dp :=
  if ROLE_TRUSTED i then handle_outbound_udp (k_helpers kn) k (now_tick (k_ns kn)) d
  else handle_inbound_udp f k (now_tick (k_ns kn)) d.

Inductive effect (i : instance) (kn : kernel) (fo : option features) (d : dp) : fclass -> cause -> dp -> Prop :=
  | effect_none c : effect i kn fo d c CNone d
  | effect_hit vs sg : l1_eligible (L1_MASK i) (sg_flags sg) = true -> l1_hit (idx_of i (sg_key sg)) (sg_key sg) ST_EST (now_tick (k_ns kn)) d = true -> effect i kn fo d (Tcp vs sg) CHit d
  | effect_run vs sg f r st d' put : fo = Some f -> tcp_handle i kn f sg d = (r, st, d') ->
      (put = true -> r = ACT_FORWARD /\ st = ST_EST) -> effect i kn fo d (Tcp vs sg) (CRan r) (put_if put i kn (sg_key sg) ST_EST d')
  | effect_hit_udp vs k : l1_hit (idx_of i k) k ST_UDP (now_tick (k_ns kn)) d = true -> effect i kn fo d (Udp vs k) CHit d
  | effect_run_udp vs k f r st d' put : fo = Some f -> udp_handle i kn f k d = (r, st, d') ->
      (put = true -> r = ACT_FORWARD /\ st = ST_UDP) -> effect i kn fo d (Udp vs k) (CRan r) (put_if put i kn k ST_UDP d').

(** Equal up to the drop counters. *)
Definition same_tables (d d' : dp) : Prop :=
  flows d' = flows d /\ udp_flows d' = udp_flows d /\ l1cache d' = l1cache d /\ server_allow d' = server_allow d /\ synbkt d' = synbkt d.

Lemma same_tables_refl d : same_tables d d.
Proof. unfold same_tables; tauto. Qed.

Lemma same_tables_reason r d : same_tables d (stat_reason r d).
Proof. unfold stat_reason. case_match; unfold same_tables; tauto. Qed.

#[local] Hint Resolve same_tables_refl same_tables_reason : core.

(** What is known of a verdict from its cause: under an enforcing policy a TCP
    segment, and a UDP datagram when UDP is filtered, goes on only by the cache
    or by the handler's leave. *)
Definition caused (i : instance) (fo : option features) (c : fclass) (by_ : cause) (v : verdict) : Prop :=
  (by_ = CRan ACT_FORWARD -> v = Redirected (PEER_IDX i)) /\
  (forall f n, fo = Some f -> mode f = MODE_ENFORCE -> v = Redirected n ->
     match c with Tcp _ _ => True | Udp _ _ => filter_udp f <> 0 | _ => False end -> by_ = CHit \/ by_ = CRan ACT_FORWARD).

Section Flow.
Context (i : instance) (kn : kernel) (p : frame).

Lemma do_drop_same f vs reason len m v p' m' : do_drop i f vs reason len p m = (v, p', m') ->
  same_tables (m_dp m) (m_dp m') /\ m_features m' = m_features m /\ (mode f = MODE_ENFORCE -> v = XDP_DROP).
Proof.
  unfold do_drop. destruct (Z.eqb_spec (mode f) MODE_ENFORCE); intros [= <- <- <-]; cbn; auto. split_and!; [auto..|done].
Qed.

Lemma do_drop_tcp_same f vs reason len ip tcp m v p' m' : do_drop_tcp i f vs reason len 0 ip tcp p m = Some (v, p', m') ->
  same_tables (m_dp m) (m_dp m') /\ (mode f = MODE_ENFORCE -> v = XDP_DROP \/ v = XDP_TX).
Proof.
  unfold do_drop_tcp. destruct (_ && _).
  - intros (x & _ & H)%bind_Some. destruct x; simplify_eq; cbn; [auto|].
    match goal with H : do_drop _ _ _ _ _ _ _ = _ |- _ => apply do_drop_same in H as (? & _ & ?) end; auto.
  - intros H; simplify_eq. match goal with H : do_drop _ _ _ _ _ _ _ = _ |- _ => apply do_drop_same in H as (? & _ & ?) end; auto.
Qed.

Lemma lazy_same vs reason len m v p' m' : do_drop_lazy i vs reason len p m = (v, p', m') -> same_tables (m_dp m) (m_dp m').
Proof.
  unfold do_drop_lazy. destruct (m_features m); [now intros (? & _ & _)%do_drop_same | intros [= <- <- <-]; auto].
Qed.

Definition flow_of (c : fclass) (m : machine) (v : verdict) (m' : machine) : Prop :=
  exists by_ d1, effect i kn (m_features m) (m_dp m) c by_ d1 /\ same_tables d1 (m_dp m') /\ caused i (m_features m) c by_ v.

Lemma tcp_flow vs len sg m v p' m' : act_tcp i kn vs len sg p m = Some (v, p', m') -> flow_of (Tcp vs sg) m v m'.
Proof.
  unfold act_tcp, flow_of. set (w := monitored i kn (sg_key sg) IPPROTO_TCP len m).
  destruct (monitored_fields i kn (sg_key sg) IPPROTO_TCP len m) as (Ed & _). fold w in Ed.
  destruct (l1_eligible _ _ && l1_hit _ _ _ _ _) eqn:Hh.
  { apply andb_true_iff in Hh as [He Hh]. intros [= <- <- <-]. exists CHit, (m_dp m). split; [now constructor|]. cbn. rewrite Ed. split; [auto|]. split; [done | auto]. }
  destruct (m_features m) as [f|] eqn:F.
  2: { intros [= <- <- <-]. exists CNone, (m_dp m). split; [constructor|]. split; [now case_match; rewrite ?Ed | split; [done | congruence]]. }
  destruct (negb _ && negb _ && bad_flags _).
  { intros [H1 H2]%do_drop_tcp_same. exists CNone, (m_dp m). split; [constructor|]. rewrite Ed in H1. split; [done|]. split; [done|].
    intros f' n [= <-] Hm ->. destruct (H2 Hm); congruence. }
  unfold act_tcp_state. rewrite Ed. destruct (tcp_handle i kn f sg (m_dp m)) as [[r st] d] eqn:Hr. destruct (Z.eqb_spec r ACT_FORWARD) as [->|Hne].
  - intros [= <- <- <-]. set (b := l1_eligible _ _ && (st =? ST_EST)).
    exists (CRan ACT_FORWARD), (put_if b i kn (sg_key sg) ST_EST d). split; [|split; [|split; auto]].
    + eapply effect_run; [done | exact Hr|]. subst b. intros [_ Hs%Z.eqb_eq]%andb_true_iff. done.
    + destruct b; cbn; auto.
  - intros [H1 H2]%do_drop_tcp_same. cbn in H1. exists (CRan r), (put_if false i kn (sg_key sg) ST_EST d). split; [eapply effect_run; [done | exact Hr | done]|].
    split; [done|]. split; [congruence|]. intros f' n [= <-] Hm ->. destruct (H2 Hm); congruence.
Qed.

Lemma udp_flow vs k len m v p' m' : act_udp i kn (Udp vs k) len p m = Some (v, p', m') -> flow_of (Udp vs k) m v m'.
Proof.
  unfold act_udp, flow_of. destruct (m_features m) as [f|] eqn:F.
  2: { intros [= <- <- <-]. exists CNone, (m_dp m). split; [constructor|]. split; [auto | split; [done | congruence]]. }
  set (w := monitored i kn k IPPROTO_UDP len m). destruct (monitored_fields i kn k IPPROTO_UDP len m) as (Ed & _). fold w in Ed.
  destruct (Z.eqb_spec (filter_udp f) 0) as [Hu|Hu].
  { intros [= <- <- <-]. exists CNone, (m_dp m). split; [constructor|]. cbn. rewrite Ed. split; [auto|]. split; [done|]. intros ? ? [= <-]; done. }
  unfold udp_state. rewrite Ed. destruct (_ && l1_hit _ _ _ _ _) eqn:Hh.
  { apply andb_true_iff in Hh as [_ Hh]. intros [= <- <- <-]. exists CHit, (m_dp m). split; [now constructor|]. cbn. rewrite Ed. split; [auto|]. split; [done | auto]. }
  destruct (if ROLE_TRUSTED i then _ else _) as [[r st] d] eqn:Hr. destruct (Z.eqb_spec r ACT_FORWARD) as [->|Hne].
  - intros [= <- <- <-]. set (b := negb _ && (st =? ST_UDP)).
    exists (CRan ACT_FORWARD), (put_if b i kn k ST_UDP d). split; [|split; [|split; auto]].
    + eapply effect_run_udp; [done | exact Hr|]. subst b. intros [_ Hs%Z.eqb_eq]%andb_true_iff. done.
    + destruct b; cbn; auto.
  - intros [= H]. apply do_drop_same in H as (H1 & _ & H2). cbn in H1. exists (CRan r), (put_if false i kn k ST_UDP d).
    split; [eapply effect_run_udp; [done | exact Hr | done]|]. split; [done|]. split; [congruence|].
    intros f' n [= <-] Hm ->. now specialize (H2 Hm).
Qed.
End Flow.

(** Every other frame leaves the tables and the cache alone. *)
Lemma other_flow i kn c p m v p' m' : act i kn c p m = Some (v, p', m') ->
  match c with Tcp _ _ | Udp _ _ => True | _ => same_tables (m_dp m) (m_dp m') end.
Proof.
  intros H. unfold act in H.
  assert (Hd : forall f vs r len m0, m_dp m0 = m_dp m -> do_drop i f vs r len p m0 = (v, p', m') -> same_tables (m_dp m) (m_dp m'))
    by (intros ? ? ? ? ? <- (? & _ & _)%do_drop_same; done).
  destruct c; cbn [act_after] in H; try exact I.
  1: { injection H as H. now apply lazy_same in H. }
  all: unfold act_udp, nontcp, do_forward, no_policy in H; repeat case_match; simplify_eq; cbn; auto;
    match goal with H : do_drop _ _ _ _ _ _ ?m0 = _ |- _ => exact (Hd _ _ _ _ m0 eq_refl H) end.
Qed.

(** ** Histories *)

Record seen := Seen { sn_inst : instance; sn_frame : frame; sn_policy : option features; sn_verdict : verdict }.

(** The machine is shared, the cache is each CPU's. *)
Record system := System { y_machine : machine; y_caches : nat -> gmap Z l1_entry }.

Definition on_cpu (n : nat) (y : system) : machine := on_dp (set_l1cache (y_caches y n)) (y_machine y).
Definition back (n : nat) (m : machine) (y : system) : system :=
  System m (fun k => if decide (k = n) then l1cache (m_dp m) else y_caches y k).

(** Newest first.  Between frames entries are evicted or swept, and the policy,
    the allowlist, the token buckets and the statistics may become anything. *)
Inductive traffic : list seen -> system -> Prop :=
  | traffic_start y : flows (m_dp (y_machine y)) = ∅ -> udp_flows (m_dp (y_machine y)) = ∅ ->
      (forall n idx e, y_caches y n !! idx = Some e -> l1_state e = ST_NONE) -> traffic [] y
  | traffic_frame h y n i kn p v p' m' : traffic h y -> HelperLaws (k_helpers kn) ->
      xdp_filter i kn p (on_cpu n y) = Some (v, p', m') ->
      traffic (Seen i p (m_features (y_machine y)) v :: h) (back n m' y)
  | traffic_control h y m' : traffic h y -> flows (m_dp m') ⊆ flows (m_dp (y_machine y)) ->
      udp_flows (m_dp m') ⊆ udp_flows (m_dp (y_machine y)) -> traffic h (System m' (y_caches y)).

(** The frames that open a key. *)
Definition tcp_of (sn : seen) : option segment :=
  match classify (ROLE_TRUSTED (sn_inst sn)) (sn_frame sn) with Some (Tcp _ sg) => Some sg | _ => None end.
Definition udp_of (sn : seen) : option flow_key :=
  match classify (ROLE_TRUSTED (sn_inst sn)) (sn_frame sn) with Some (Udp _ k) => Some k | _ => None end.

(** A segment the protected side sent. *)
Definition sent (k : flow_key) (sn : seen) : Prop :=
  ROLE_TRUSTED (sn_inst sn) = true /\ exists sg, tcp_of sn = Some sg /\ sg_key sg = k.

(** A connection request from the internet side that a server policy let through. *)
Definition let_in (k : flow_key) (sn : seen) : Prop :=
  ROLE_TRUSTED (sn_inst sn) = false /\ sn_verdict sn = Redirected (PEER_IDX (sn_inst sn)) /\
  (exists sg, tcp_of sn = Some sg /\ sg_key sg = k /\ lone_syn (sg_flags sg) = true) /\
  exists f, sn_policy sn = Some f /\ (allow_inbound_syn f <> 0 \/ allow_inbound_servers f <> 0).

(** A connection request of the protected side. *)
Definition asked (k : flow_key) (isn : Z) (sn : seen) : Prop :=
  ROLE_TRUSTED (sn_inst sn) = true /\
  exists sg, tcp_of sn = Some sg /\ sg_key sg = k /\ lone_syn (sg_flags sg) = true /\ sg_seq sg = isn.

(** A datagram the protected side sent. *)
Definition sent_udp (k : flow_key) (sn : seen) : Prop := ROLE_TRUSTED (sn_inst sn) = true /\ udp_of sn = Some k.

(** ** The invariant: the history explains the tables and the caches *)

(** Each step of the flow logic comes from a frame of the history. *)
Definition witnessed (h : list seen) (x : step) : Prop :=
  match st_event x with
  | EvOut k fl seq _ => Exists (fun sn => ROLE_TRUSTED (sn_inst sn) = true /\
      exists sg, tcp_of sn = Some sg /\ sg_key sg = k /\ sg_flags sg = fl /\ sg_seq sg = seq) h
  | EvIn k fl _ _ _ _ => st_act x = ACT_FORWARD -> Exists (fun sn => ROLE_TRUSTED (sn_inst sn) = false /\
      sn_verdict sn = Redirected (PEER_IDX (sn_inst sn)) /\ sn_policy sn = Some (st_policy x) /\
      exists sg, tcp_of sn = Some sg /\ sg_key sg = k /\ sg_flags sg = fl) h
  | EvOutUdp k _ => Exists (sent_udp k) h
  | _ => True
  end.

Definition cache_ok (tr : list step) (c : gmap Z l1_entry) : Prop :=
  forall idx e, c !! idx = Some e ->
    (l1_state e = ST_EST -> Exists (opens (l1_key e)) tr) /\ (l1_state e = ST_UDP -> Exists (opens_udp (l1_key e)) tr).

Definition explained (h : list seen) (y : system) : Prop :=
  exists tr, table_inv tr (m_dp (y_machine y)) /\ Forall (witnessed h) tr /\ forall n, cache_ok tr (y_caches y n).

Lemma witnessed_more h sn x : witnessed h x -> witnessed (sn :: h) x.
Proof. unfold witnessed. destruct (st_event x); try done; intros H; [|intros Ha; specialize (H Ha)|]; now right. Qed.

Lemma cache_more tr x c : cache_ok tr c -> cache_ok (x :: tr) c.
Proof. intros H idx e He. destruct (H idx e He) as [H1 H2]. split; intros Hs; right; auto. Qed.

(** Only the tables matter to the invariant. *)
Lemma table_inv_sub tr d d' : table_inv tr d -> flows d' ⊆ flows d -> udp_flows d' ⊆ udp_flows d -> table_inv tr d'.
Proof.
  intros [H1 H2] S1 S2. split; intros k v Hv; [apply H1, (lookup_weaken _ _ _ _ Hv S1) | apply H2, (lookup_weaken _ _ _ _ Hv S2)].
Qed.

Lemma table_inv_same tr d d' : table_inv tr d -> same_tables d d' -> table_inv tr d'.
Proof. intros Hi (E1 & E2 & _). apply (table_inv_sub tr d); [done | now rewrite E1 | now rewrite E2]. Qed.

Lemma l1_put_tables idx k st now d : flows (l1_put idx k st now d) = flows d /\ udp_flows (l1_put idx k st now d) = udp_flows d.
Proof. unfold l1_put. repeat case_match; done. Qed.

(** A write into the cache adds at most the key written. *)
Lemma l1_put_cache tr idx k st now d : cache_ok tr (l1cache d) ->
  (st = ST_EST -> Exists (opens k) tr) -> (st = ST_UDP -> Exists (opens_udp k) tr) ->
  cache_ok tr (l1cache (l1_put idx k st now d)).
Proof.
  intros Hc H1 H2. unfold l1_put. destruct (l1cache d !! idx) as [e|] eqn:He; [|done].
  destruct (_ && _) eqn:Hs.
  - destruct (l1_last_seen e =? now); [exact Hc|]. cbn. intros j e' Hj. destruct (decide (j = idx)) as [->|Hn].
    + rewrite lookup_insert_eq in Hj. simplify_eq. cbn. exact (Hc idx e He).
    + rewrite lookup_insert_ne in Hj by done. exact (Hc j e' Hj).
  - cbn. intros j e' Hj. destruct (decide (j = idx)) as [->|Hn].
    + rewrite lookup_insert_eq in Hj. simplify_eq. cbn. auto.
    + rewrite lookup_insert_ne in Hj by done. exact (Hc j e' Hj).
Qed.

(** ** The invariant holds *)

Lemma stat_reason_cache r s : l1cache (stat_reason r s) = l1cache s.
Proof. apply same_tables_reason. Qed.

Lemma tbkt_charge_cache h key rate t s ok s' : tbkt_charge h key rate t s = (ok, s') -> l1cache s' = l1cache s.
Proof. unfold tbkt_charge. intros H. repeat case_match; simplify_eq; done. Qed.

(** The handlers do not touch the cache. *)
Lemma run_cache h f e s r c s' : run h f e s = (r, c, s') -> l1cache s' = l1cache s.
Proof.
  destruct e as [k fl seq now|k fl ack now t1 t2|k now|k now|tcp udp|al]; cbn [run]; intros H.
  - unfold handle_outbound, adopt_outbound in H. repeat case_match; simplify_eq; cbn; rewrite ?stat_reason_cache; done.
  - unfold handle_inbound, inbound_synack, inbound_rst, inbound_data in H.
    destruct (syn_ack fl); [repeat case_match; simplify_eq; done|].
    destruct (lone_syn fl); [|repeat case_match; simplify_eq; done].
    unfold inbound_lone_syn, syn_token_ok, syn_global_ok in H. destruct (negb (syn_policy_ok f k s)); [now simplify_eq|].
    destruct (tbkt_charge h (inet_ip k) 50 t1 s) as [ok1 s1] eqn:E1. apply tbkt_charge_cache in E1. destruct (negb ok1); [now simplify_eq|].
    destruct (tbkt_charge h 0 (50 * 64) t2 s1) as [ok2 s2] eqn:E2. apply tbkt_charge_cache in E2. rewrite <- E1, <- E2.
    repeat case_match; simplify_eq; cbn; rewrite ?stat_reason_cache; done.
  - unfold handle_outbound_udp in H. repeat case_match; simplify_eq; cbn; rewrite ?stat_reason_cache; done.
  - unfold handle_inbound_udp in H. repeat case_match; simplify_eq; done.
  - now simplify_eq.
  - now simplify_eq.
Qed.

(** An inbound segment or datagram is cacheable only on a key in the table. *)
Lemma inbound_cacheable h f k fl ack now t1 t2 s r s' : handle_inbound h f k fl ack now t1 t2 s = (r, ST_EST, s') -> is_Some (flows s !! k).
Proof.
  unfold handle_inbound, inbound_synack, inbound_rst, inbound_data, live_flow. intros H.
  destruct (flows s !! k) as [w|]; [eauto|]. exfalso. unfold inbound_lone_syn in H. repeat case_match; simplify_eq.
Qed.

Lemma inbound_udp_cacheable f k now s r s' : handle_inbound_udp f k now s = (r, ST_UDP, s') -> is_Some (udp_flows s !! k).
Proof. unfold handle_inbound_udp. intros H. destruct (udp_flows s !! k); [eauto|]. repeat case_match; simplify_eq. Qed.

(** The step of the flow logic a handler run is. *)
Definition tcp_event (i : instance) (kn : kernel) (sg : segment) : event :=
  let now := now_tick (k_ns kn) in
  if ROLE_TRUSTED i then EvOut (sg_key sg) (sg_flags sg) (sg_seq sg) now
  else EvIn (sg_key sg) (sg_flags sg) (sg_ack sg) now (k_t_src kn) (k_t_glob kn).
Definition udp_event (i : instance) (kn : kernel) (k : flow_key) : event :=
  if ROLE_TRUSTED i then EvOutUdp k (now_tick (k_ns kn)) else EvInUdp k (now_tick (k_ns kn)).

Lemma tcp_handle_run i kn f sg d : tcp_handle i kn f sg d = run (k_helpers kn) f (tcp_event i kn sg) d.
Proof. unfold tcp_handle, tcp_event. now destruct (ROLE_TRUSTED i). Qed.
Lemma udp_handle_run i kn f k d : udp_handle i kn f k d = run (k_helpers kn) f (udp_event i kn k) d.
Proof. unfold udp_handle, udp_event. now destruct (ROLE_TRUSTED i). Qed.

(** [tr'] explains more than [tr] does: by at most one step. *)
Definition grows (tr tr' : list step) : Prop := tr' = tr \/ exists x, tr' = x :: tr.

Lemma cache_grows tr tr' c : grows tr tr' -> cache_ok tr c -> cache_ok tr' c.
Proof. intros [->|[x ->]]; [done | apply cache_more]. Qed.

(** The step, and the key it makes cacheable. *)
Lemma run_inv tr h f e d r st d' sn hist : HelperLaws h -> table_inv tr d -> cache_ok tr (l1cache d) -> Forall (witnessed hist) tr ->
  run h f e d = (r, st, d') -> witnessed (sn :: hist) (Step f e r) ->
  let tr' := Step f e r :: tr in
  table_inv tr' d' /\ cache_ok tr' (l1cache d') /\ Forall (witnessed (sn :: hist)) tr'.
Proof.
  intros Hh Hi Hc Hw Hr Hx. cbv zeta. split_and!.
  - exact (table_inv_step tr d h f e r st d' Hi Hr).
  - apply run_cache in Hr. rewrite Hr. now apply cache_more.
  - constructor; [done|]. eapply Forall_impl; [exact Hw|]. intros x. apply witnessed_more.
Qed.

Lemma put_inv tr b i kn k st d : table_inv tr d -> cache_ok tr (l1cache d) ->
  (b = true -> (st = ST_EST -> Exists (opens k) tr) /\ (st = ST_UDP -> Exists (opens_udp k) tr)) ->
  table_inv tr (put_if b i kn k st d) /\ cache_ok tr (l1cache (put_if b i kn k st d)).
Proof.
  intros Hi Hc Hb. destruct b; [|done]. cbn [put_if]. destruct (Hb eq_refl) as [H1 H2]. split.
  - destruct (l1_put_tables (idx_of i k) k st (now_tick (k_ns kn)) d) as [E1 E2]. eapply table_inv_sub; [exact Hi | now rewrite E1 | now rewrite E2].
  - now apply l1_put_cache.
Qed.

(** Whatever the flow logic did with a frame, a history that ends with the
    frame explains it. *)
Lemma effect_inv tr h sn kn d c by_ d1 : HelperLaws (k_helpers kn) -> table_inv tr d -> cache_ok tr (l1cache d) -> Forall (witnessed h) tr ->
  classify (ROLE_TRUSTED (sn_inst sn)) (sn_frame sn) = Some c ->
  effect (sn_inst sn) kn (sn_policy sn) d c by_ d1 -> caused (sn_inst sn) (sn_policy sn) c by_ (sn_verdict sn) ->
  exists tr', grows tr tr' /\ table_inv tr' d1 /\ cache_ok tr' (l1cache d1) /\ Forall (witnessed (sn :: h)) tr'.
Proof.
  intros Hh Hi Hc Hw Ec He [Hv _].
  assert (Hsame : Forall (witnessed (sn :: h)) tr) by (eapply Forall_impl; [exact Hw | intros x; apply witnessed_more]).
  inversion He as [c'|vs sg Hel Hhit|vs sg f r st d' put Hf Hrun Hput|vs k Hhit|vs k f r st d' put Hf Hrun Hput]; subst.
  1,2,4: exists tr; split; [now left | done].
  - rewrite tcp_handle_run in Hrun. set (e := tcp_event (sn_inst sn) kn sg) in *.
    assert (Ht : tcp_of sn = Some sg) by (unfold tcp_of; now rewrite Ec).
    assert (Hx : witnessed (sn :: h) (Step f e r)).
    { unfold e, tcp_event, witnessed. destruct (ROLE_TRUSTED (sn_inst sn)) eqn:T; cbn [st_event st_act].
      - left. eauto 8.
      - intros ->. left. split_and!; [done | now apply Hv | done | eauto 8]. }
    destruct (run_inv tr _ f e d r st d' sn h Hh Hi Hc Hw Hrun Hx) as (Hi' & Hc' & Hw').
    exists (Step f e r :: tr). split; [right; eauto|].
    destruct (put_inv _ put (sn_inst sn) kn (sg_key sg) ST_EST d' Hi' Hc') as [Hi2 Hc2]; [|done].
    intros Hp. destruct (Hput Hp) as [-> ->]. split; [intros _|done]. unfold e, tcp_event in *. destruct (ROLE_TRUSTED (sn_inst sn)); [now left|].
    apply inbound_cacheable in Hrun as [w Hk]. right. now apply (proj1 Hi _ w).
  - rewrite udp_handle_run in Hrun. set (e := udp_event (sn_inst sn) kn k) in *.
    assert (Hx : witnessed (sn :: h) (Step f e r)).
    { unfold e, udp_event, witnessed. destruct (ROLE_TRUSTED (sn_inst sn)) eqn:T; cbn [st_event]; [|done].
      left. split; [done|]. unfold udp_of. now rewrite T, Ec. }
    destruct (run_inv tr _ f e d r st d' sn h Hh Hi Hc Hw Hrun Hx) as (Hi' & Hc' & Hw').
    exists (Step f e r :: tr). split; [right; eauto|].
    destruct (put_inv _ put (sn_inst sn) kn k ST_UDP d' Hi' Hc') as [Hi2 Hc2]; [|done].
    intros Hp. destruct (Hput Hp) as [-> ->]. split; [done|intros _]. unfold e, udp_event in *. destruct (ROLE_TRUSTED (sn_inst sn)); [now left|].
    apply inbound_udp_cacheable in Hrun as [w Hk]. right. now apply (proj2 Hi _ w).
Qed.

(** What the flow logic did with any frame. *)
Lemma frame_flow i kn p m v p' m' : xdp_filter i kn p m = Some (v, p', m') ->
  exists c by_ d1, classify (ROLE_TRUSTED i) p = Some c /\ effect i kn (m_features m) (m_dp m) c by_ d1 /\
    same_tables d1 (m_dp m') /\ caused i (m_features m) c by_ v.
Proof.
  rewrite xdp_filter_act. destruct (classify_ok p (ROLE_TRUSTED i)) as (c & -> & _). cbn [mbind option_bind]. intros H.
  pose proof (other_flow _ _ _ _ _ _ _ _ H) as Ho. exists c.
  destruct c as [vs|vs|vs|vs|vs|vs sg|vs|vs|vs k].
  6: { unfold act in H. cbn [act_after] in H. apply tcp_flow in H as (b & d1 & H). exists b, d1. split; [done | exact H]. }
  8: { unfold act in H. cbn [act_after] in H. apply udp_flow in H as (b & d1 & H). exists b, d1. split; [done | exact H]. }
  all: exists CNone, (m_dp m); split; [done|]; split; [constructor|]; split; [exact Ho|]; split; done.
Qed.

Lemma explained_frame h y n i kn p v p' m' : explained h y -> HelperLaws (k_helpers kn) ->
  xdp_filter i kn p (on_cpu n y) = Some (v, p', m') ->
  explained (Seen i p (m_features (y_machine y)) v :: h) (back n m' y).
Proof.
  intros (tr & Hi & Hw & Hc) Hh H. apply frame_flow in H as (c & by_ & d1 & Ec & He & Hs & Hv).
  set (sn := Seen i p _ v). assert (Hi0 : table_inv tr (m_dp (on_cpu n y))) by (eapply table_inv_sub; [exact Hi | done..]).
  destruct (effect_inv tr h sn kn _ c by_ d1 Hh Hi0 (Hc n) Hw Ec He Hv) as (tr' & Hg & Hi' & Hc' & Hw').
  exists tr'. split_and!; [now apply (table_inv_same _ d1) | done|]. intros j. cbn. destruct (decide (j = n)).
  - destruct Hs as (_ & _ & -> & _). done.
  - eapply cache_grows; [exact Hg | apply Hc].
Qed.

Lemma traffic_explained h y : traffic h y -> explained h y.
Proof.
  induction 1 as [y Hf Hu Hc|h y n i kn p v p' m' _ IH Hh Hx|h y m' _ IH Hf Hu].
  - exists []. split_and!; [|constructor|].
    + split; intros k v; rewrite ?Hf, ?Hu, lookup_empty; done.
    + intros n idx e He. apply Hc in He. rewrite He. done.
  - exact (explained_frame h y n i kn p v p' m' IH Hh Hx).
  - destruct IH as (tr & Hi & Hw & Hc). exists tr. split_and!; [exact (table_inv_sub _ _ _ Hi Hf Hu) | done | done].
Qed.

(** ** From the steps back to the frames *)

Lemma opens_seen h tr k : Forall (witnessed h) tr -> Exists (opens k) tr -> Exists (fun sn => sent k sn \/ let_in k sn) h.
Proof.
  intros Hw (x & Hx & Ho)%Exists_exists. apply (proj1 (Forall_forall _ _) Hw) in Hx. unfold witnessed in Hx. unfold opens in Ho.
  destruct x as [f e r]. cbn [st_event st_act st_policy] in *. destruct e; try done.
  - subst. eapply Exists_impl; [exact Hx|]. intros sn (T & sg & H1 & H2 & _ & _). left. split; eauto.
  - destruct Ho as (-> & Hs & -> & Hp). eapply Exists_impl; [exact (Hx eq_refl)|].
    intros sn (T & V & P & sg & H1 & H2 & H3). right. split_and!; [done..| |eauto]. exists sg. split_and!; [done..|congruence].
Qed.

Lemma opens_udp_seen h tr k : Forall (witnessed h) tr -> Exists (opens_udp k) tr -> Exists (sent_udp k) h.
Proof.
  intros Hw (x & Hx & Ho)%Exists_exists. apply (proj1 (Forall_forall _ _) Hw) in Hx. unfold witnessed in Hx. unfold opens_udp in Ho.
  destruct x as [f e r]. cbn [st_event] in *. destruct e; try done. now subst.
Qed.

Lemma last_syn_seen h tr k isn : Forall (witnessed h) tr -> last_syn k tr = Some isn -> Exists (asked k isn) h.
Proof.
  induction 1 as [|x tr Hx _ IH]; cbn [last_syn]; [done|]. unfold witnessed in Hx. destruct (st_event x) as [k' fl seq now| | | | |]; auto.
  destruct (bool_decide (k' = k) && lone_syn fl) eqn:E; [|exact IH]. intros [= <-].
  apply andb_true_iff in E as [->%bool_decide_eq_true E]. eapply Exists_impl; [exact Hx|].
  intros sn (T & sg & H1 & H2 & H3 & H4). split; [done|]. exists sg. split_and!; [done..|congruence|done].
Qed.

(** A segment other than a connection request that the handler lets through has
    an entry; a SYN-ACK matches the number it carries. *)
Lemma forwarded_live h f k fl ack now t1 t2 s c s' : handle_inbound h f k fl ack now t1 t2 s = (ACT_FORWARD, c, s') -> lone_syn fl = false ->
  exists v, flows s !! k = Some v /\ (syn_ack fl = true -> tst (Filter.flags v) FL_ISN_VALID = true -> ack = u32 (client_isn v + 1)).
Proof.
  unfold handle_inbound, inbound_synack, inbound_rst, inbound_data. intros H Hs. rewrite Hs in H.
  destruct (live_flow f k now s) as [v|] eqn:L; [|repeat case_match; simplify_eq].
  apply live_flow_Some in L as [L _]. exists v. split; [done|]. intros Hsa Hi. rewrite Hsa, Hi in H.
  destruct (Z.eqb_spec ack (u32 (client_isn v + 1))); [done | simplify_eq].
Qed.

Lemma l1_hit_entry idx k st now d : l1_hit idx k st now d = true -> exists e, l1cache d !! idx = Some e /\ l1_key e = k /\ l1_state e = st.
Proof.
  unfold l1_hit. destruct (l1cache d !! idx) as [e|]; [|done].
  intros [[_ H2%Z.eqb_eq]%andb_true_iff H3%bool_decide_eq_true]%andb_true_iff. eauto.
Qed.

Lemma eligible_not_syn mask fl : l1_eligible mask fl = true -> syn_ack fl = false.
Proof.
  unfold l1_eligible, syn_ack. intros [[_ H%negb_true_iff]%andb_true_iff _]%andb_true_iff.
  unfold tst in H. apply negb_false_iff, Z.eqb_eq in H. apply Z.eqb_neq. intros E.
  assert (Hb : Z.testbit (Z.land fl (Z.lor TCP_SYN TCP_ACK)) 1 = true) by (rewrite E; reflexivity).
  assert (Hc : Z.testbit (Z.land fl (Z.lor TCP_SYN (Z.lor TCP_FIN TCP_RST))) 1 = true).
  { rewrite Z.land_spec in *. apply andb_true_iff in Hb as [-> _]. reflexivity. }
  rewrite H in Hc. discriminate.
Qed.

Lemma lone_not_both fl : lone_syn fl = true -> syn_ack fl = false.
Proof. unfold lone_syn, syn_ack. intros ->%Z.eqb_eq. reflexivity. Qed.

Lemma lone_not_eligible mask fl : lone_syn fl = true -> l1_eligible mask fl = false.
Proof.
  intros Hl. unfold l1_eligible. destruct (tst fl (Z.lor TCP_SYN (Z.lor TCP_FIN TCP_RST))) eqn:E; [now rewrite !andb_false_r|]. exfalso.
  unfold tst in E. apply negb_false_iff, Z.eqb_eq in E. unfold lone_syn in Hl. apply Z.eqb_eq in Hl.
  apply (f_equal (fun z => Z.testbit z 1)) in E, Hl. rewrite Z.land_spec, andb_comm in E, Hl.
  change (Z.testbit fl 1 = false) in E. change (Z.testbit fl 1 = true) in Hl. congruence.
Qed.

(** A connection request that is handed on was admitted by the server policy. *)
Lemma forwarded_request y n i kn p f vs sg peer p' m' :
  ROLE_TRUSTED i = false -> m_features (y_machine y) = Some f -> mode f = MODE_ENFORCE ->
  classify false p = Some (Tcp vs sg) -> lone_syn (sg_flags sg) = true ->
  xdp_filter i kn p (on_cpu n y) = Some (Redirected peer, p', m') ->
  syn_policy_ok f (sg_key sg) (m_dp (y_machine y)) = true.
Proof.
  intros Hr Hf Hm Hc Hs Hx.
  apply frame_flow in Hx as (c & by_ & d1 & Ec & He & _ & _ & Hv). rewrite Hr, Hc in Ec. injection Ec as <-.
  specialize (Hv f peer Hf Hm eq_refl I). inversion He as [c'|vs' sg' Hel Hhit|vs' sg' f' r st d' put Hf' Hrun Hput| |]; subst; [now destruct Hv| |].
  - now rewrite (lone_not_eligible _ _ Hs) in Hel.
  - destruct Hv as [Hv|[= ->]]; [done|]. assert (f' = f) as -> by (cbn in Hf'; congruence). unfold tcp_handle in Hrun. rewrite Hr in Hrun.
    unfold handle_inbound in Hrun. rewrite (lone_not_both _ Hs), Hs in Hrun. unfold inbound_lone_syn in Hrun. cbn [on_cpu on_dp m_dp] in Hrun.
    change (syn_policy_ok f (sg_key sg) (set_l1cache _ _)) with (syn_policy_ok f (sg_key sg) (m_dp (y_machine y))) in Hrun.
    destruct (syn_policy_ok _ _ _); [done | cbn in Hrun; simplify_eq].
Qed.

(** ** Theorems *)

Lemma forwarded_has_opener h y n i kn p f vs sg peer p' m' :
  traffic h y -> ROLE_TRUSTED i = false -> m_features (y_machine y) = Some f -> mode f = MODE_ENFORCE ->
  classify false p = Some (Tcp vs sg) -> lone_syn (sg_flags sg) = false ->
  xdp_filter i kn p (on_cpu n y) = Some (Redirected peer, p', m') ->
  Exists (fun sn => sent (sg_key sg) sn \/ let_in (sg_key sg) sn) h /\
  (syn_ack (sg_flags sg) = true ->
   Exists (fun sn => exists isn, asked (sg_key sg) isn sn /\ sg_ack sg = u32 (isn + 1)) h \/
   exists v, flows (m_dp (y_machine y)) !! sg_key sg = Some v /\ tst (Filter.flags v) FL_ISN_VALID = false).
Proof.
  intros Ht Hr Hf Hm Hc Hs Hx. apply traffic_explained in Ht as (tr & Hi & Hw & Hca).
  apply frame_flow in Hx as (c & by_ & d1 & Ec & He & _ & _ & Hv). rewrite Hr, Hc in Ec. injection Ec as <-.
  specialize (Hv f peer Hf Hm eq_refl I). inversion He as [c'|vs' sg' Hel Hhit|vs' sg' f' r st d' put Hf' Hrun Hput| |]; subst; [now destruct Hv| |].
  - apply l1_hit_entry in Hhit as (e & H1 & H2 & H3). destruct (Hca n _ e H1) as [Ho _]. rewrite H2 in Ho.
    split; [now eapply opens_seen, Ho|]. intros Hsa. now rewrite (eligible_not_syn _ _ Hel) in Hsa.
  - destruct Hv as [Hv|[= ->]]; [done|]. unfold tcp_handle in Hrun. rewrite Hr in Hrun.
    apply forwarded_live in Hrun as (v & Hv & Hsa); [|done]. destruct (proj1 Hi _ v Hv) as (_ & Ho & Hl). split; [exact (opens_seen h tr _ Hw Ho)|].
    intros Hsy. destruct (tst (Filter.flags v) FL_ISN_VALID) eqn:Fl; [|right; eauto].
    left. eapply Exists_impl; [exact (last_syn_seen _ _ _ _ Hw (Hl eq_refl))|]. intros sn Ha. exists (client_isn v). auto.
Qed.

(** C5. Spoofed TCP does not get through.  After any traffic of frames on the
    two ports, on any CPUs, with evictions and policy changes in between, under
    an enforcing policy a TCP frame from the internet side other than a
    connection request is handed on only if the protected side sent a frame on
    the same connection before, or a server policy let a connection request on
    it through; and a SYN-ACK only if it acknowledges a connection request the
    protected side sent, or the connection was adopted or opened from outside. *)
Theorem spoofed_tcp_stopped h y n i kn p f vs sg peer p' m' :
  traffic h y -> ROLE_TRUSTED i = false -> m_features (y_machine y) = Some f -> mode f = MODE_ENFORCE ->
  classify false p = Some (Tcp vs sg) -> lone_syn (sg_flags sg) = false ->
  xdp_filter i kn p (on_cpu n y) = Some (Redirected peer, p', m') ->
  Exists (fun sn => sent (sg_key sg) sn \/ let_in (sg_key sg) sn) h /\
  (syn_ack (sg_flags sg) = true ->
   Exists (fun sn => exists isn, asked (sg_key sg) isn sn /\ sg_ack sg = u32 (isn + 1)) h \/
   exists v, flows (m_dp (y_machine y)) !! sg_key sg = Some v /\ tst (Filter.flags v) FL_ISN_VALID = false).
Proof. apply forwarded_has_opener. Qed.

(** Spoofed UDP does not get through: while UDP is filtered and the policy
    enforces, an inbound datagram is handed on only if the protected side sent
    one on the same ports and addresses before, or it is for a listed server
    while servers are allowed. *)
Theorem spoofed_udp_stopped h y n i kn p f vs k peer p' m' :
  traffic h y -> ROLE_TRUSTED i = false -> m_features (y_machine y) = Some f -> mode f = MODE_ENFORCE -> filter_udp f <> 0 ->
  classify false p = Some (Udp vs k) ->
  xdp_filter i kn p (on_cpu n y) = Some (Redirected peer, p', m') ->
  Exists (sent_udp k) h \/ (allow_inbound_servers f <> 0 /\ (host_ip k, host_port k) ∈ server_allow (m_dp (y_machine y))).
Proof.
  intros Ht Hr Hf Hm Hu Hc Hx. apply traffic_explained in Ht as (tr & Hi & Hw & Hca).
  apply frame_flow in Hx as (c & by_ & d1 & Ec & He & _ & _ & Hv). rewrite Hr, Hc in Ec. injection Ec as <-.
  specialize (Hv f peer Hf Hm eq_refl Hu). inversion He as [c'| | |vs' k' Hhit|vs' k' f' r st d' put Hf' Hrun Hput]; subst; [now destruct Hv| |].
  - apply l1_hit_entry in Hhit as (e & H1 & H2 & H3). destruct (Hca n _ e H1) as [_ Ho]. rewrite H2 in Ho. left. now eapply opens_udp_seen, Ho.
  - destruct Hv as [Hv|[= ->]]; [done|]. assert (f' = f) as -> by (cbn in Hf'; congruence).
    unfold udp_handle in Hrun. rewrite Hr in Hrun. unfold handle_inbound_udp in Hrun. cbn [on_cpu on_dp m_dp set_l1cache udp_flows] in Hrun.
    destruct (udp_flows (m_dp (y_machine y)) !! k) as [v|] eqn:Hk; [left; eapply opens_udp_seen; [exact Hw | now apply (proj2 Hi _ v)]|].
    right. destruct (Z.eqb_spec (allow_inbound_servers f) 0); cbn in Hrun; [simplify_eq|]. split; [done|].
    unfold server_listed in Hrun. destruct (bool_decide _) eqn:Hb; [now apply bool_decide_eq_true in Hb | simplify_eq].
Qed.
