(* ===== verification/PacketRst.v ===== *)
(** * PacketRst: the TCP reset written in place

    What [build_and_send_rst] leaves in the frame, byte by byte: the reply of
    RFC 793 with the addresses exchanged, and checksums a receiver accepts
    (RFC 1071), the one of the IP header whenever the header that came was
    itself correct. *)

From Stdlib Require Import ZArith Lia Bool.
From stdpp Require Import prelude gmap.
From S2P Require Import Prelude Filter Packet PacketRef PacketSpec.

Local Open Scope Z_scope.

(** ** Bytes after a store *)

Definition byte (j : Z) (p : frame) : Z := default 0 (load8 j p).
(** A field in network byte order. *)
Definition be16 (j : Z) (p : frame) : Z := 256 * byte j p + byte (j + 1) p.
Definition be32 (j : Z) (p : frame) : Z := 65536 * be16 j p + be16 (j + 2) p.

Definition octets (p : frame) : Prop := Forall is_u8 p.

Lemma byte_range j p : octets p -> 0 <= byte j p < 256.
Proof.
  intros Hp. unfold byte, load8. destruct (0 <=? j); [|cbn; lia]. destruct (p !! Z.to_nat j) as [x|] eqn:E; [|cbn; lia].
  exact (proj1 (Forall_lookup _ _) Hp _ _ E).
Qed.

Lemma load8_byte j p x : load8 j p = Some x -> x = byte j p.
Proof. unfold byte. now intros ->. Qed.

Lemma load16_byte j p x : load16 j p = Some x -> x = byte j p + 256 * byte (j + 1) p.
Proof.
  unfold load16. intros (a & Ea & H)%bind_Some. apply bind_Some in H as (b & Eb & [= <-]).
  now rewrite (load8_byte _ _ _ Ea), (load8_byte _ _ _ Eb).
Qed.

Lemma load32_byte j p x : load32 j p = Some x ->
  x = byte j p + 256 * byte (j + 1) p + 65536 * byte (j + 2) p + 16777216 * byte (j + 3) p.
Proof.
  unfold load32. intros (a & Ea & H)%bind_Some. apply bind_Some in H as (b & Eb & [= <-]).
  rewrite (load16_byte _ _ _ Ea), (load16_byte _ _ _ Eb). replace (j + 2 + 1) with (j + 3) by lia. lia.
Qed.

Lemma store_size o bs p p' : store o bs p = Some p' -> size p' = size p /\ 0 <= o /\ o + size bs <= size p.
Proof.
  unfold store. destruct (_ && _) eqn:E; [|done]. intros [= <-]. apply andb_true_iff in E as [H1%Z.leb_le H2%Z.leb_le].
  unfold size in *. rewrite !length_app, length_take, length_drop. lia.
Qed.

Lemma byte_store_in o bs p p' j : store o bs p = Some p' -> o <= j < o + size bs -> byte j p' = default 0 (bs !! Z.to_nat (j - o)).
Proof.
  intros H Hj. pose proof (store_size _ _ _ _ H) as (_ & H1 & H2). unfold store in H. destruct (_ && _); [|done]. injection H as <-.
  unfold byte, load8, size in *. rewrite (proj2 (Z.leb_le 0 j)) by lia. f_equal.
  rewrite lookup_app_r, lookup_app_l; rewrite length_take; [|lia..]. f_equal. lia.
Qed.

Lemma byte_store_out o bs p p' j : store o bs p = Some p' -> j < o \/ o + size bs <= j -> byte j p' = byte j p.
Proof.
  intros H Hj. pose proof (store_size _ _ _ _ H) as (_ & H1 & H2). unfold store in H. destruct (_ && _); [|done]. injection H as <-.
  unfold byte, load8, size in *. destruct (Z.leb_spec 0 j); [|done]. f_equal. destruct Hj as [Hj|Hj].
  - rewrite lookup_app_l by (rewrite length_take; lia). apply lookup_take_lt. lia.
  - rewrite lookup_app_r by (rewrite length_take; lia). rewrite lookup_app_r by (rewrite length_take; lia).
    rewrite lookup_drop, length_take. f_equal. lia.
Qed.

Lemma load_bytes_byte n a p x j : load_bytes n a p = Some x -> 0 <= j < Z.of_nat n -> default 0 (x !! Z.to_nat j) = byte (a + j) p.
Proof.
  unfold load_bytes. destruct (_ && _) eqn:E; [|done]. intros [= <-] Hj. apply andb_true_iff in E as [H1%Z.leb_le H2%Z.leb_le].
  unfold byte, load8. rewrite (proj2 (Z.leb_le 0 (a + j))) by lia. rewrite lookup_take_lt by lia. rewrite lookup_drop. f_equal. f_equal. lia.
Qed.

Lemma octets_store o bs p p' : store o bs p = Some p' -> octets p -> octets bs -> octets p'.
Proof.
  unfold store. destruct (_ && _); [|done]. intros [= <-] Hp Hb. unfold octets in *.
  apply Forall_app; split; [now apply Forall_take|]. apply Forall_app; split; [done | now apply Forall_drop].
Qed.

Lemma octets_load n o p l : load_bytes n o p = Some l -> octets p -> octets l.
Proof. unfold load_bytes. destruct (_ && _); [|done]. intros [= <-] Hp. now apply Forall_take, Forall_drop. Qed.

Lemma swap_byte n a b p p' : swap_bytes n a b p = Some p' -> a + Z.of_nat n <= b \/ b + Z.of_nat n <= a ->
  size p' = size p /\
  (forall j, 0 <= j < Z.of_nat n -> byte (a + j) p' = byte (b + j) p /\ byte (b + j) p' = byte (a + j) p) /\
  (forall j, (j < a \/ a + Z.of_nat n <= j) -> (j < b \/ b + Z.of_nat n <= j) -> byte j p' = byte j p) /\
  (octets p -> octets p').
Proof.
  unfold swap_bytes. intros (x & Ex & H)%bind_Some. apply bind_Some in H as (y & Ey & H). apply bind_Some in H as (p1 & E1 & E2). intros Hd.
  assert (Lx : size x = Z.of_nat n) by (unfold load_bytes in Ex; destruct (_ && _) eqn:C; [|done]; injection Ex as <-;
    apply andb_true_iff in C as [C1%Z.leb_le C2%Z.leb_le]; unfold size in *; rewrite length_take, length_drop; lia).
  assert (Ly : size y = Z.of_nat n) by (unfold load_bytes in Ey; destruct (_ && _) eqn:C; [|done]; injection Ey as <-;
    apply andb_true_iff in C as [C1%Z.leb_le C2%Z.leb_le]; unfold size in *; rewrite length_take, length_drop; lia).
  split; [apply store_size in E1 as [? _], E2 as [? _]; congruence|]. split.
  - intros j Hj. split.
    + rewrite (byte_store_out _ _ _ _ _ E2), (byte_store_in _ _ _ _ _ E1) by lia. replace (a + j - a) with j by lia. now apply (load_bytes_byte n).
    + rewrite (byte_store_in _ _ _ _ _ E2) by lia. replace (b + j - b) with j by lia. now apply (load_bytes_byte n).
  - split.
    + intros j H1 H2. rewrite (byte_store_out _ _ _ _ _ E2), (byte_store_out _ _ _ _ _ E1) by lia. done.
    + intros Hp. apply (octets_store _ _ _ _ E2); [apply (octets_store _ _ _ _ E1)|]; eauto using octets_load.
Qed.

(** ** Byte orders *)

Lemma bswap16_bytes a b : 0 <= a < 256 -> 0 <= b < 256 -> bswap16 (a + 256 * b) = 256 * a + b.
Proof. intros Ha Hb. unfold bswap16. Z.to_euclidean_division_equations. lia. Qed.

Lemma bswap32_bytes a b c d : 0 <= a < 256 -> 0 <= b < 256 -> 0 <= c < 256 -> 0 <= d < 256 ->
  bswap32 (a + 256 * b + 65536 * c + 16777216 * d) = 65536 * (256 * a + b) + (256 * c + d).
Proof.
  intros Ha Hb Hc Hd. unfold bswap32.
  set (x := a + 256 * b + 65536 * c + 16777216 * d).
  assert (E1 : x mod 65536 = a + 256 * b) by (symmetry; apply (Z.mod_unique _ _ (c + 256 * d)); lia).
  assert (E2 : x / 65536 = c + 256 * d) by (symmetry; apply (Z.div_unique _ _ _ (a + 256 * b)); lia).
  rewrite E1, E2, (Z.mod_small (c + _)), !bswap16_bytes by lia. lia.
Qed.

Lemma load16_be j p x : octets p -> load16 j p = Some x -> bswap16 x = be16 j p.
Proof. intros Hp ->%load16_byte. apply bswap16_bytes; now apply byte_range. Qed.

Lemma load32_be j p x : octets p -> load32 j p = Some x -> bswap32 x = be32 j p.
Proof.
  intros Hp ->%load32_byte. unfold be32, be16. rewrite bswap32_bytes by now apply byte_range.
  replace (j + 2 + 1) with (j + 3) by lia. reflexivity.
Qed.

Lemma be16_range j p : octets p -> 0 <= be16 j p < 65536.
Proof. intros Hp. unfold be16. pose proof (byte_range j p Hp). pose proof (byte_range (j + 1) p Hp). lia. Qed.

Lemma be32_range j p : octets p -> 0 <= be32 j p < 4294967296.
Proof. intros Hp. unfold be32. pose proof (be16_range j p Hp). pose proof (be16_range (j + 2) p Hp). lia. Qed.

Lemma bswap16_range x : 0 <= bswap16 x < 65536.
Proof. unfold bswap16. Z.to_euclidean_division_equations. lia. Qed.

Lemma bswap32_range x : 0 <= bswap32 x < 4294967296.
Proof. unfold bswap32. pose proof (bswap16_range (x mod 65536)). pose proof (bswap16_range (x / 65536 mod 65536)). lia. Qed.

Lemma bswap32_twice x : 0 <= x < 4294967296 -> bswap32 (bswap32 x) = x.
Proof.
  intros Hx. set (a := x mod 256). set (b := x / 256 mod 256). set (c := x / 65536 mod 256). set (d := x / 16777216).
  assert (E : x = a + 256 * b + 65536 * c + 16777216 * d) by (unfold a, b, c, d; Z.to_euclidean_division_equations; lia).
  assert (Hd : 0 <= d < 256) by (unfold d; Z.to_euclidean_division_equations; lia).
  assert (Ha : 0 <= a < 256) by (unfold a; Z.to_euclidean_division_equations; lia).
  assert (Hb : 0 <= b < 256) by (unfold b; Z.to_euclidean_division_equations; lia).
  assert (Hc : 0 <= c < 256) by (unfold c; Z.to_euclidean_division_equations; lia).
  clearbody a b c d. rewrite E, bswap32_bytes by done.
  replace (65536 * (256 * a + b) + (256 * c + d)) with (d + 256 * c + 65536 * b + 16777216 * a) by lia.
  rewrite bswap32_bytes by done. lia.
Qed.

(** Stores in network order. *)
Lemma be16_stored o x p p' : store o (bytes16 (bswap16 x)) p = Some p' -> 0 <= x < 65536 -> be16 o p' = x.
Proof.
  intros H Hx. unfold be16.
  rewrite (byte_store_in _ _ _ _ o H), (byte_store_in _ _ _ _ (o + 1) H) by (change (size (bytes16 (bswap16 x))) with 2; lia).
  replace (o - o) with 0 by lia. replace (o + 1 - o) with 1 by lia.
  change (256 * (bswap16 x mod 256) + bswap16 x / 256 mod 256 = x). unfold bswap16. Z.to_euclidean_division_equations. lia.
Qed.

Lemma bytes32_split x : bytes32 x = [x mod 65536 mod 256; x mod 65536 / 256 mod 256; x / 65536 mod 65536 mod 256; x / 65536 mod 65536 / 256 mod 256].
Proof. reflexivity. Qed.

Lemma be32_stored o x p p' : store o (bytes32 x) p = Some p' -> 0 <= x < 4294967296 -> be32 o p' = bswap32 x.
Proof.
  intros H Hx. unfold be32, be16. rewrite bytes32_split in H.
  rewrite (byte_store_in _ _ _ _ o H), (byte_store_in _ _ _ _ (o + 1) H), (byte_store_in _ _ _ _ (o + 2) H), (byte_store_in _ _ _ _ (o + 2 + 1) H) by (unfold size; cbn [length]; lia).
  replace (o - o) with 0 by lia. replace (o + 1 - o) with 1 by lia. replace (o + 2 - o) with 2 by lia. replace (o + 2 + 1 - o) with 3 by lia.
  set (a := x mod 65536). set (b := x / 65536 mod 65536).
  change (65536 * (256 * (a mod 256) + a / 256 mod 256) + (256 * (b mod 256) + b / 256 mod 256) = bswap16 a * 65536 + bswap16 b).
  unfold bswap16. lia.
Qed.

Lemma octets16 x : octets (bytes16 x).
Proof. unfold octets, bytes16. repeat (apply Forall_cons; split); try (unfold is_u8; apply Z.mod_pos_bound; lia). now apply Forall_nil. Qed.

Lemma octets32 x : octets (bytes32 x).
Proof. unfold bytes32. apply Forall_app. split; apply octets16. Qed.

(** A field elsewhere is not changed. *)
Lemma be16_out j p p' (P : Z -> Prop) : (forall j, P j -> byte j p' = byte j p) -> P j -> P (j + 1) -> be16 j p' = be16 j p.
Proof. intros H H1 H2. unfold be16. now rewrite (H j), (H (j + 1)). Qed.

(** ** One's complement sums *)

(** The addition of RFC 1071, the sum of words, and what a receiver accepts. *)
Definition oc_add (a b : Z) : Z := if a + b <? 65536 then a + b else a + b - 65535.
Definition oc_sum (ws : list Z) : Z := fold_left oc_add ws 0.
Definition oc_ok (ws : list Z) : Prop := oc_sum ws = 65535.

Definition total (ws : list Z) : Z := fold_right Z.add 0 ws.

Lemma oc_fold ws : Forall is_u16 ws -> forall a, 0 <= a < 65536 ->
  let r := fold_left oc_add ws a in 0 <= r < 65536 /\ (exists q, 0 <= q /\ r = a + total ws - 65535 * q) /\ (0 < a + total ws -> 0 < r).
Proof.
  induction 1 as [|w ws Hw Hws IH]; intros a Ha; cbn [fold_left total fold_right]; [split; [lia | split; [exists 0; lia | lia]]|].
  unfold is_u16 in Hw. assert (Hn : 0 <= total ws) by (clear -Hws; induction Hws as [|x l Hx _ IH]; cbn; [lia | unfold is_u16 in Hx; fold (total l); lia]).
  assert (Hb : 0 <= oc_add a w < 65536) by (unfold oc_add; destruct (Z.ltb_spec (a + w) 65536); lia).
  destruct (IH _ Hb) as (H1 & (q & Hq & H2) & H3). fold (total ws). unfold oc_add in *. destruct (Z.ltb_spec (a + w) 65536).
  - split; [lia | split; [exists q; lia | intros; apply H3; lia]].
  - split; [lia | split; [exists (q + 1); lia | intros; apply H3; lia]].
Qed.

(** A sum is accepted exactly when it is a positive multiple of 65535. *)
Lemma oc_ok_iff ws : Forall is_u16 ws -> oc_ok ws <-> 0 < total ws /\ total ws mod 65535 = 0.
Proof.
  intros Hw. unfold oc_ok, oc_sum. destruct (oc_fold ws Hw 0 ltac:(lia)) as (H1 & (q & Hq & H2) & H3). cbv zeta in *. rewrite Z.add_0_l in *.
  assert (Hn : 0 <= total ws) by (clear -Hw; induction Hw as [|x l Hx _ IH]; cbn; [lia | unfold is_u16 in Hx; fold (total l); lia]).
  split.
  - intros E. rewrite E in H2. split; [destruct (Z.eq_dec (total ws) 0) as [Z|]; [|lia]; rewrite Z in H2; lia|].
    replace (total ws) with ((q + 1) * 65535) by lia. apply Z_mod_mult.
  - intros [Hp Hm]. specialize (H3 Hp). apply Z.mod_divide in Hm as [k Hk]; [|lia]. rewrite Hk in H2. lia.
Qed.

(** The fold of the program: the complement of the sum, modulo 65535. *)
Lemma csum_fold_spec s : 0 <= s < 4294967296 -> 0 <= csum_fold s < 65536 /\ exists q, csum_fold s + s = 65535 * q.
Proof.
  intros Hs. unfold csum_fold. change 65535 with (Z.ones 16). rewrite !Z.land_ones, !Z.shiftr_div_pow2 by lia.
  change (2 ^ 16) with 65536. change (Z.ones 16) with 65535. set (s1 := s mod 65536 + s / 65536).
  assert (H1 : 0 <= s1 <= 131070 /\ exists q, s = s1 + 65535 * q) by (unfold s1; split; [Z.to_euclidean_division_equations; lia | exists (s / 65536); Z.to_euclidean_division_equations; lia]).
  destruct H1 as [H1 [q Hq]]. set (s2 := s1 mod 65536 + s1 / 65536).
  assert (H2 : 0 <= s2 <= 65535 /\ exists q, s1 = s2 + 65535 * q) by (unfold s2; split; [Z.to_euclidean_division_equations; lia | exists (s1 / 65536); Z.to_euclidean_division_equations; lia]).
  destruct H2 as [H2 [r Hr]]. assert (E : u16 (Z.lnot s2) = 65535 - s2).
  { unfold u16, Z.lnot. symmetry. apply (Z.mod_unique _ _ (-1)); lia. }
  rewrite E. split; [lia|]. exists (1 + r + q). lia.
Qed.

(** ** Words of the frame *)

Definition le16 (j : Z) (p : frame) : Z := byte j p + 256 * byte (j + 1) p.

Fixpoint be_words (n : nat) (off : Z) (p : frame) : list Z :=
  match n with O => [] | S n => be16 off p :: be_words n (off + 2) p end.
Fixpoint le_sum (n : nat) (off : Z) (p : frame) : Z :=
  match n with O => 0 | S n => le16 off p + le_sum n (off + 2) p end.

Lemma be_words_u16 n off p : octets p -> Forall is_u16 (be_words n off p).
Proof. intros Hp. revert off. induction n; intros off; cbn [be_words]; constructor; [now apply be16_range | auto]. Qed.

(** The same words in the two byte orders agree modulo 65535. *)
Lemma be_le n : forall off p, exists q, total (be_words n off p) = 256 * le_sum n off p - 65535 * q.
Proof.
  induction n as [|n IH]; intros off p; cbn [be_words le_sum total fold_right]; [exists 0; lia|].
  destruct (IH (off + 2) p) as [q Hq]. fold (total (be_words n (off + 2) p)). rewrite Hq. unfold be16, le16. exists (byte (off + 1) p + q). lia.
Qed.

Lemma le_sum_app n m : forall off p, le_sum (n + m) off p = le_sum n off p + le_sum m (off + 2 * Z.of_nat n) p.
Proof.
  induction n as [|n IH]; intros off p; cbn [Nat.add le_sum]; [rewrite Z.add_0_r; lia|].
  rewrite IH. replace (off + 2 + 2 * Z.of_nat n) with (off + 2 * Z.of_nat (S n)) by lia. lia.
Qed.

Lemma le_sum_same n : forall off p p', (forall j, off <= j < off + 2 * Z.of_nat n -> byte j p' = byte j p) -> le_sum n off p' = le_sum n off p.
Proof.
  induction n as [|n IH]; intros off p p' H; cbn [le_sum]; [done|]. unfold le16. rewrite (H off), (H (off + 1)) by lia.
  f_equal. apply IH. intros j Hj. apply H. lia.
Qed.

Lemma le_sum_bound n : forall off p, octets p -> 0 <= le_sum n off p <= 65535 * Z.of_nat n.
Proof.
  induction n as [|n IH]; intros off p Hp; cbn [le_sum]; [lia|]. specialize (IH (off + 2) p Hp). unfold le16.
  pose proof (byte_range off p Hp). pose proof (byte_range (off + 1) p Hp). lia.
Qed.

Lemma be_words_app n m : forall off p, be_words (n + m) off p = (be_words n off p ++ be_words m (off + 2 * Z.of_nat n) p)%list.
Proof.
  induction n as [|n IH]; intros off p; cbn [Nat.add be_words app]; [f_equal; lia|].
  rewrite IH. replace (off + 2 + 2 * Z.of_nat n) with (off + 2 * Z.of_nat (S n)) by lia. done.
Qed.

Lemma be_words_same n : forall off p p', (forall j, off <= j < off + 2 * Z.of_nat n -> byte j p' = byte j p) -> be_words n off p' = be_words n off p.
Proof.
  induction n as [|n IH]; intros off p p' H; cbn [be_words]; [done|]. unfold be16. rewrite (H off), (H (off + 1)) by lia.
  f_equal. apply IH. intros j Hj. apply H. lia.
Qed.

Lemma sum_words_app a b : total (a ++ b) = total a + total b.
Proof. induction a as [|x a IH]; cbn; [done|]. fold (total (a ++ b)) (total a). lia. Qed.

Lemma sum_words_le n : forall off p s s', octets p -> 0 <= s -> s + 65535 * Z.of_nat n < 4294967296 ->
  sum_words n off p s = Some s' -> s' = s + le_sum n off p.
Proof.
  induction n as [|n IH]; intros off p s s' Hp H1 H2; cbn [sum_words le_sum]; [intros [= <-]; lia|].
  intros (w & Ew%load16_byte & H)%bind_Some. pose proof (byte_range off p Hp). pose proof (byte_range (off + 1) p Hp).
  assert (Hu : u32 (s + w) = s + w) by (apply u32_small; unfold is_u32; lia). rewrite Hu in H. apply IH in H; [|done|lia|lia].
  rewrite H. unfold le16. lia.
Qed.

(** ** The stages of the reset *)

(** Bytes outside [o, o + n) are those of [p]. *)
Definition kept (o n : Z) (p p' : frame) : Prop := forall j, j < o \/ o + n <= j -> byte j p' = byte j p.

Ltac out H := rewrite (byte_store_out _ _ _ _ _ H) by (unfold size; cbn [length bytes16 bytes32 app]; lia).

Lemma patch_ip_spec ip ihl tot p p' : octets p -> is_u16 tot -> 20 <= ihl <= 60 -> patch_ip ip ihl tot p = Some p' ->
  octets p' /\ be16 (ip + 2) p' = ihl + 20 /\ be16 (ip + 10) p' = csum_fold (65535 - be16 (ip + 10) p + (65535 - tot) + (ihl + 20)) /\
  (forall j, j < ip + 2 \/ ip + 4 <= j < ip + 10 \/ ip + 12 <= j -> byte j p' = byte j p).
Proof.
  intros Hp Ht Hi. unfold patch_ip. intros (check & Ec%load16_be & H)%bind_Some; [|done]. cbv zeta in H. apply bind_Some in H as (p1 & E1 & E2).
  unfold tcp_size in *. assert (Hn : u16 (ihl + 20) = ihl + 20) by (apply u16_small; unfold is_u16; lia). rewrite Hn in *.
  pose proof (be16_range (ip + 10) p Hp) as Hc. unfold is_u16 in Ht.
  assert (Hl : forall x, 0 <= x < 65536 -> u16 (Z.lnot x) = 65535 - x) by (intros x Hx; unfold u16, Z.lnot; symmetry; apply (Z.mod_unique _ _ (-1)); lia).
  rewrite Ec, !Hl in E2 by lia.
  rewrite (u32_small (_ + (65535 - tot))) in E2 by (unfold is_u32; lia). rewrite u32_small in E2 by (unfold is_u32; lia).
  set (s := 65535 - be16 (ip + 10) p + (65535 - tot) + (ihl + 20)) in *. destruct (csum_fold_spec s) as [Hs _]; [lia|].
  split; [eapply octets_store; [exact E2 | eapply octets_store; [exact E1 | done | apply octets16] | apply octets16]|].
  split; [|split].
  - unfold be16. rewrite (byte_store_out _ _ _ _ (ip + 2) E2), (byte_store_out _ _ _ _ (ip + 2 + 1) E2) by (unfold size; cbn [length bytes16]; lia).
    now apply (be16_stored _ _ _ _ E1); lia.
  - now apply (be16_stored _ _ _ _ E2).
  - intros j Hj. out E2. out E1. done.
Qed.

Lemma write_tcp_spec tcp sq ak fl p p' : octets p -> 0 <= sq < 4294967296 -> 0 <= ak < 4294967296 -> is_u8 fl ->
  write_tcp tcp sq ak fl p = Some p' ->
  octets p' /\ be32 (tcp + 4) p' = bswap32 sq /\ be32 (tcp + 8) p' = bswap32 ak /\ byte (tcp + 12) p' = 80 /\ byte (tcp + 13) p' = fl /\
  be16 (tcp + 14) p' = 0 /\ le16 (tcp + 16) p' = 0 /\ be16 (tcp + 18) p' = 0 /\ kept (tcp + 4) 16 p p'.
Proof.
  intros Hp Hs Ha Hf. unfold write_tcp.
  intros (p1 & E1 & H)%bind_Some. apply bind_Some in H as (p2 & E2 & H). apply bind_Some in H as (p3 & E3 & H). apply bind_Some in H as (p4 & E4 & H).
  apply bind_Some in H as (p5 & E5 & H). apply bind_Some in H as (p6 & E6 & E7).
  assert (Hz : octets [0; 0]) by (repeat constructor; unfold is_u8; lia).
  assert (Ho : octets p').
  { repeat (eapply octets_store; [eassumption | | first [apply octets32 | exact Hz | repeat constructor; unfold is_u8 in *; lia]]). done. }
  split; [exact Ho|]. unfold be32, be16, le16, kept. split_and!.
  - do 4 (out E7; out E6; out E5; out E4; out E3; out E2). exact (be32_stored _ _ _ _ E1 Hs).
  - do 4 (out E7; out E6; out E5; out E4; out E3). exact (be32_stored _ _ _ _ E2 Ha).
  - out E7; out E6; out E5; out E4. rewrite (byte_store_in _ _ _ _ _ E3) by (unfold size; cbn [length]; lia). now replace (tcp + 12 - (tcp + 12)) with 0 by lia.
  - out E7; out E6; out E5. rewrite (byte_store_in _ _ _ _ _ E4) by (unfold size; cbn [length]; lia). now replace (tcp + 13 - (tcp + 13)) with 0 by lia.
  - do 2 (out E7; out E6). rewrite !(byte_store_in _ _ _ _ _ E5) by (unfold size; cbn [length]; lia).
    replace (tcp + 14 - (tcp + 14)) with 0 by lia. now replace (tcp + 14 + 1 - (tcp + 14)) with 1 by lia.
  - rewrite !(byte_store_in _ _ _ _ _ E7) by (unfold size; cbn [length]; lia).
    replace (tcp + 16 - (tcp + 16)) with 0 by lia. now replace (tcp + 16 + 1 - (tcp + 16)) with 1 by lia.
  - do 2 (out E7). rewrite !(byte_store_in _ _ _ _ _ E6) by (unfold size; cbn [length]; lia).
    replace (tcp + 18 - (tcp + 18)) with 0 by lia. now replace (tcp + 18 + 1 - (tcp + 18)) with 1 by lia.
  - intros j Hj. out E7; out E6; out E5; out E4; out E3; out E2; out E1. done.
Qed.

(** The checksum makes the words of the pseudo-header and of the header a
    multiple of 65535. *)
Lemma write_check_spec ip tcp p p' : octets p -> le16 (tcp + 16) p = 0 -> write_tcp_check ip tcp p = Some p' ->
  octets p' /\ kept (tcp + 16) 2 p p' /\
  exists q, le_sum 4 (ip + 12) p + (1536 + 5120) + le_sum 10 tcp p' = 65535 * q.
Proof.
  intros Hp Hz. unfold write_tcp_check.
  intros (a & Ea%load16_byte & H)%bind_Some. apply bind_Some in H as (b & Eb%load16_byte & H). apply bind_Some in H as (c & Ec%load16_byte & H).
  apply bind_Some in H as (d & Ed%load16_byte & H). cbv zeta in H. apply bind_Some in H as (s & Es & E).
  assert (Hs4 : le_sum 4 (ip + 12) p = a + b + c + d).
  { subst. cbn [le_sum]. unfold le16. replace (ip + 12 + 2) with (ip + 14) by lia. replace (ip + 14 + 2) with (ip + 16) by lia. replace (ip + 16 + 2) with (ip + 18) by lia. lia. }
  pose proof (le_sum_bound 4 (ip + 12) p Hp) as B4. rewrite Hs4 in B4.
  change (bswap16 IPPROTO_TCP + bswap16 tcp_size) with 6656 in Es.
  rewrite (u32_small (a + b + c + d)) in Es by (unfold is_u32; lia). rewrite u32_small in Es by (unfold is_u32; lia).
  apply sum_words_le in Es; [|done|lia|lia]. pose proof (le_sum_bound 10 tcp p Hp) as B10.
  destruct (csum_fold_spec s) as (Hc & q & Hq); [lia|]. split; [eapply octets_store; [exact E | done | apply octets16]|].
  assert (Hk : kept (tcp + 16) 2 p p') by (intros j Hj; out E; done). split; [exact Hk|]. exists q.
  assert (L : le_sum 10 tcp p' = le_sum 10 tcp p + csum_fold s).
  { change 10%nat with (8 + 2)%nat. rewrite !(le_sum_app 8 2). rewrite (le_sum_same 8 tcp p p') by (intros j Hj; apply Hk; lia).
    replace (tcp + 2 * Z.of_nat 8) with (tcp + 16) by lia. cbn [le_sum]. rewrite Hz.
    assert (E18 : le16 (tcp + 16 + 2) p' = le16 (tcp + 16 + 2) p) by (unfold le16; rewrite (Hk (tcp + 16 + 2)), (Hk (tcp + 16 + 2 + 1)) by lia; done).
    assert (E16 : le16 (tcp + 16) p' = csum_fold s).
    { unfold le16. rewrite !(byte_store_in _ _ _ _ _ E) by (unfold size; cbn [length bytes16]; lia).
      replace (tcp + 16 - (tcp + 16)) with 0 by lia. replace (tcp + 16 + 1 - (tcp + 16)) with 1 by lia.
      change (csum_fold s mod 256 + 256 * (csum_fold s / 256 mod 256) = csum_fold s). Z.to_euclidean_division_equations. lia. }
    rewrite E18, E16. lia. }
  rewrite L, Hs4. lia.
Qed.

(** ** The reply *)

(** What a receiver checks: the IP header, and a TCP segment of even length. *)
Definition header_len (ip : Z) (p : frame) : Z := Z.land (byte ip p) 15 * 4.
Lemma header_len_bound ip p : 0 <= header_len ip p <= 60.
Proof. unfold header_len. change 15 with (Z.ones 4). rewrite Z.land_ones by lia. pose proof (Z.mod_pos_bound (byte ip p) (2 ^ 4)). lia. Qed.

Definition ip_ok (ip : Z) (p : frame) : Prop := oc_ok (be_words (Z.to_nat (header_len ip p / 2)) ip p).
Definition tcp_len (ip : Z) (p : frame) : Z := be16 (ip + 2) p - header_len ip p.
Definition tcp_ok (ip : Z) (p : frame) : Prop :=
  oc_ok (be_words 4 (ip + 12) p ++ [byte (ip + 9) p; tcp_len ip p] ++ be_words (Z.to_nat (tcp_len ip p / 2)) (ip + header_len ip p) p).

(** The payload of a segment as RFC 793 counts it. *)
Definition seg_len (ip tcp : Z) (p : frame) : Z :=
  be16 (ip + 2) p - (tcp - ip) - Z.shiftr (byte (tcp + 12) p) 4 * 4 +
  (if tst (byte (tcp + 13) p) TCP_SYN then 1 else 0) + (if tst (byte (tcp + 13) p) TCP_FIN then 1 else 0).

Lemma rst_header_spec fl sq ak tot ihl doff : 0 <= sq < 4294967296 -> 0 <= ak < 4294967296 ->
  let '(rs, ra, rf) := rst_header fl sq ak tot ihl doff in
  0 <= rs < 4294967296 /\ 0 <= ra < 4294967296 /\ is_u8 rf /\
  if tst fl TCP_ACK then rs = ak /\ ra = 0 /\ rf = TCP_RST
  else rs = 0 /\ rf = Z.lor TCP_RST TCP_ACK /\
    bswap32 ra = u32 (bswap32 sq + (tot - ihl - doff + (if tst fl TCP_SYN then 1 else 0) + (if tst fl TCP_FIN then 1 else 0))).
Proof.
  intros Hs Ha. unfold rst_header. destruct (tst fl TCP_ACK); [cbv beta iota; unfold is_u8, TCP_RST; lia|].
  assert (Hm : forall a b, u32 (u32 a + b) = u32 (a + b)) by (intros a b; unfold u32; now rewrite Z.add_mod_idemp_l by lia).
  assert (Hm' : forall a b, u32 (a + u32 b) = u32 (a + b)) by (intros a b; unfold u32; now rewrite Z.add_mod_idemp_r by lia).
  split; [lia|]. split; [apply bswap32_range|]. split; [unfold is_u8; change (Z.lor TCP_RST TCP_ACK) with 20; lia|]. split; [done|]. split; [done|].
  rewrite bswap32_twice by apply u32_range. destruct (tst fl TCP_SYN), (tst fl TCP_FIN); 
    repeat first [rewrite Hm | rewrite Hm' | rewrite <- (Z.add_assoc (u32 _)) | rewrite (Z.add_comm (bswap32 sq) (u32 _ + _)), <- (Z.add_assoc (u32 _))];
    apply (f_equal u32); lia.
Qed.

Record reply (ip tcp : Z) (p p' : frame) : Prop := {
  reply_macs : forall j, 0 <= j < 6 -> byte j p' = byte (6 + j) p /\ byte (6 + j) p' = byte j p;
  reply_addrs : be32 (ip + 12) p' = be32 (ip + 16) p /\ be32 (ip + 16) p' = be32 (ip + 12) p;
  reply_ports : be16 tcp p' = be16 (tcp + 2) p /\ be16 (tcp + 2) p' = be16 tcp p;
  reply_length : be16 (ip + 2) p' = tcp - ip + 20 /\ byte (tcp + 12) p' = 80;
  reply_segment :
    if tst (byte (tcp + 13) p) TCP_ACK
    then byte (tcp + 13) p' = TCP_RST /\ be32 (tcp + 4) p' = be32 (tcp + 8) p /\ be32 (tcp + 8) p' = 0
    else byte (tcp + 13) p' = Z.lor TCP_RST TCP_ACK /\ be32 (tcp + 4) p' = 0 /\
         be32 (tcp + 8) p' = u32 (be32 (tcp + 4) p + seg_len ip tcp p);
  reply_tcp_ok : tcp_ok ip p';
  reply_ip_ok : ip_ok ip p -> ip_ok ip p';
  reply_rest : forall j, (12 <= j < ip \/ ip + 20 <= j < tcp \/ tcp + 20 <= j) -> byte j p' = byte j p }.

Section Reply.
Context (ip tcp : Z) (p p' : frame).
Hypothesis Hp : octets p.
Hypothesis Hip : 14 <= ip.
Hypothesis Htcp : tcp = ip + header_len ip p.
Hypothesis Hopt : ip + 20 <= tcp.
Hypothesis Hproto : byte (ip + 9) p = IPPROTO_TCP.
Hypothesis Hver : Z.shiftr (byte ip p) 4 = 4.
Hypothesis Hrst : build_and_send_rst 0 ip tcp p = Some (Some p').

(** The frame once the TCP header is written, in terms of the frame [q] before. *)
Lemma tcp_stage q p4 p5 rs ra rf r : octets q -> is_u8 rf -> 0 <= rs < 4294967296 -> 0 <= ra < 4294967296 ->
  swap_bytes 2 tcp (tcp + 2) q = Some p4 -> write_tcp tcp rs ra rf p4 = Some p5 -> write_tcp_check ip tcp p5 = Some r ->
  octets r /\ (forall j, j < tcp \/ tcp + 20 <= j -> byte j r = byte j q) /\
  (be16 tcp r = be16 (tcp + 2) q /\ be16 (tcp + 2) r = be16 tcp q) /\
  be32 (tcp + 4) r = bswap32 rs /\ be32 (tcp + 8) r = bswap32 ra /\ byte (tcp + 12) r = 80 /\ byte (tcp + 13) r = rf /\
  exists c, le_sum 4 (ip + 12) r + (1536 + 5120) + le_sum 10 tcp r = 65535 * c.
Proof.
  intros Oq Hf Hs Ha E4 E5 E6. apply swap_byte in E4 as (_ & M4 & K4 & O4); [|lia].
  apply write_tcp_spec in E5 as (O5 & W4 & W8 & W12 & W13 & _ & W16 & _ & K5); [|auto|done..].
  apply write_check_spec in E6 as (O6 & K6 & c & Hc); [|done..]. unfold kept in K5, K6.
  assert (K : forall j, j < tcp \/ tcp + 20 <= j -> byte j r = byte j q) by (intros j Hj; rewrite K6, K5, K4 by lia; done).
  split; [exact O6|]. split; [exact K|]. split; [|split_and!].
  - destruct (M4 0) as [A B]; [lia|]. destruct (M4 1) as [C D]; [lia|]. rewrite !Z.add_0_r in A, B.
    unfold be16. rewrite !K6, !K5 by lia. rewrite A, B, C. replace (tcp + 2 + 1) with (tcp + 2 + 1) by done. now rewrite D.
  - rewrite <- W4. unfold be32, be16. now rewrite !K6 by lia.
  - rewrite <- W8. unfold be32, be16. now rewrite !K6 by lia.
  - now rewrite K6 by lia.
  - now rewrite K6 by lia.
  - exists c. rewrite <- Hc. f_equal. f_equal. apply le_sum_same. intros j Hj. apply K6. lia.
Qed.

(** The whole reset, field by field. *)
Lemma rst_fields : exists rs ra rf,
  octets p' /\
  (forall j, 0 <= j < 6 -> byte j p' = byte (6 + j) p /\ byte (6 + j) p' = byte j p) /\
  (forall j, 0 <= j < 4 -> byte (ip + 12 + j) p' = byte (ip + 16 + j) p /\ byte (ip + 16 + j) p' = byte (ip + 12 + j) p) /\
  be16 (ip + 2) p' = header_len ip p + 20 /\
  be16 (ip + 10) p' = csum_fold (65535 - be16 (ip + 10) p + (65535 - be16 (ip + 2) p) + (header_len ip p + 20)) /\
  (forall j, 12 <= j -> j < ip + 2 \/ ip + 4 <= j < ip + 10 \/ ip + 20 <= j < tcp \/ tcp + 20 <= j -> byte j p' = byte j p) /\
  (be16 tcp p' = be16 (tcp + 2) p /\ be16 (tcp + 2) p' = be16 tcp p) /\
  be32 (tcp + 4) p' = bswap32 rs /\ be32 (tcp + 8) p' = bswap32 ra /\ byte (tcp + 12) p' = 80 /\ byte (tcp + 13) p' = rf /\
  (exists c, le_sum 4 (ip + 12) p' + (1536 + 5120) + le_sum 10 tcp p' = 65535 * c) /\
  if tst (byte (tcp + 13) p) TCP_ACK then bswap32 rs = be32 (tcp + 8) p /\ ra = 0 /\ rf = TCP_RST
  else rs = 0 /\ rf = Z.lor TCP_RST TCP_ACK /\ bswap32 ra = u32 (be32 (tcp + 4) p + seg_len ip tcp p).
Proof.
  pose proof Hrst as H. unfold build_and_send_rst in H. destruct (_ <? _); [done|].
  apply bind_Some in H as (fl & ->%load8_byte & H). apply bind_Some in H as (sq & Esq & H). apply bind_Some in H as (ak & Eak & H).
  apply bind_Some in H as (ver & ->%load8_byte & H). apply bind_Some in H as (tot & Et%load16_be & H); [|done]. apply bind_Some in H as (doff & ->%load8_byte & H).
  cbv zeta in H. rewrite Et in H. fold (header_len ip p) in H. destruct (rst_header _ _ _ _ _ _) as [[rs ra] rf] eqn:Eh.
  apply bind_Some in H as (p1 & E1 & H). apply bind_Some in H as (p2 & E2 & H). apply bind_Some in H as (q & E3 & H).
  apply bind_Some in H as (p4 & E4 & H). apply bind_Some in H as (p5 & E5 & H). apply bind_Some in H as (r & E6 & [= Er]). rewrite <- Er. clear Er.
  apply swap_byte in E1 as (_ & M1 & K1 & O1); [|lia]. apply swap_byte in E2 as (_ & M2 & K2 & O2); [|lia].
  assert (Hl : 20 <= header_len ip p <= 60) by (pose proof (header_len_bound ip p); lia).
  apply patch_ip_spec in E3 as (O3 & L3 & C3 & K3); [|auto|now apply be16_range|exact Hl].
  assert (Rs : 0 <= sq < 4294967296 /\ 0 <= ak < 4294967296).
  { pose proof (load32_byte _ _ _ Esq). pose proof (load32_byte _ _ _ Eak). pose proof (fun j => byte_range j p Hp) as Hb.
    pose proof (Hb (tcp + 4)). pose proof (Hb (tcp + 4 + 1)). pose proof (Hb (tcp + 4 + 2)). pose proof (Hb (tcp + 4 + 3)).
    pose proof (Hb (tcp + 8)). pose proof (Hb (tcp + 8 + 1)). pose proof (Hb (tcp + 8 + 2)). pose proof (Hb (tcp + 8 + 3)). lia. }
  destruct Rs as [Rsq Rak].
  pose proof (rst_header_spec (byte (tcp + 13) p) sq ak (be16 (ip + 2) p) (header_len ip p) (Z.shiftr (byte (tcp + 12) p) 4 * 4) Rsq Rak) as Sp.
  rewrite Eh in Sp. destruct Sp as (Brs & Bra & Brf & Sp).
  destruct (tcp_stage q p4 p5 rs ra rf r O3 Brf Brs Bra E4 E5 E6) as (Or & Kr & [P0 P2] & W4 & W8 & W12 & W13 & Hc).
  assert (Kq : forall j, 12 <= j -> j < ip + 2 \/ ip + 4 <= j < ip + 10 \/ ip + 20 <= j -> byte j q = byte j p)
    by (intros j Hj Hr; rewrite K3, K2, K1 by lia; done).
  exists rs, ra, rf. split; [exact Or|]. split; [|split; [|split; [|split; [|split; [|split]]]]].
  - intros j Hj. rewrite !Kr, !K3, !K2 by lia. now apply (M1 j).
  - intros j Hj. rewrite !Kr, !K3 by lia. destruct (M2 j) as [-> ->]; [lia|]. rewrite !K1 by lia. done.
  - rewrite <- L3. unfold be16. now rewrite !Kr by lia.
  - transitivity (be16 (ip + 10) q); [unfold be16; now rewrite !Kr by lia|]. rewrite C3.
    assert (E10 : be16 (ip + 10) p2 = be16 (ip + 10) p) by (unfold be16; rewrite !K2, !K1 by lia; done). now rewrite E10.
  - intros j Hj Hr. destruct (Z.lt_ge_cases j tcp); (rewrite Kr by lia; apply Kq; lia).
  - rewrite P0, P2. unfold be16. rewrite !Kq by lia. done.
  - split_and!; try done. rewrite <- (load32_be _ _ _ Hp Eak). unfold seg_len. replace (tcp - ip) with (header_len ip p) by lia.
    rewrite <- (load32_be _ _ _ Hp Esq). destruct (tst (byte (tcp + 13) p) TCP_ACK); [|exact Sp].
    destruct Sp as (-> & -> & ->). done.
Qed.

Lemma sum_words_nonneg ws : Forall is_u16 ws -> 0 <= total ws.
Proof. induction 1 as [|x l Hx _ IH]; cbn; [lia|]. unfold is_u16 in Hx. fold (total l). lia. Qed.

Lemma be_words_ten off r : total (be_words 10 off r) =
  be16 off r + be16 (off + 2) r + be16 (off + 4) r + be16 (off + 6) r + be16 (off + 8) r + be16 (off + 10) r +
  (be16 (off + 12) r + be16 (off + 14) r + be16 (off + 16) r + be16 (off + 18) r).
Proof.
  cbn [be_words total fold_right]. replace (off + 2 + 2) with (off + 4) by lia. replace (off + 4 + 2) with (off + 6) by lia.
  replace (off + 6 + 2) with (off + 8) by lia. replace (off + 8 + 2) with (off + 10) by lia. replace (off + 10 + 2) with (off + 12) by lia.
  replace (off + 12 + 2) with (off + 14) by lia. replace (off + 14 + 2) with (off + 16) by lia. replace (off + 16 + 2) with (off + 18) by lia. lia.
Qed.

Lemma header_len_same r : byte ip r = byte ip p -> header_len ip r = header_len ip p.
Proof. unfold header_len. now intros ->. Qed.

(** The TCP checksum is right whatever was received. *)
Lemma tcp_ok_intro r : octets r -> header_len ip r = header_len ip p -> byte (ip + 9) r = IPPROTO_TCP -> be16 (ip + 2) r = header_len ip p + 20 ->
  (exists c, le_sum 4 (ip + 12) r + (1536 + 5120) + le_sum 10 tcp r = 65535 * c) -> tcp_ok ip r.
Proof.
  intros Or Hl H9 H2 [c Hc]. unfold tcp_ok, tcp_len. rewrite Hl, H2, H9, <- Htcp.
  replace (header_len ip p + 20 - header_len ip p) with 20 by lia. change (Z.to_nat (20 / 2)) with 10%nat.
  apply oc_ok_iff.
  - apply Forall_app; split; [now apply be_words_u16|]. apply Forall_app; split; [|now apply be_words_u16].
    repeat constructor; unfold is_u16, IPPROTO_TCP; lia.
  - rewrite !sum_words_app. change (total [IPPROTO_TCP; 20]) with 26.
    pose proof (sum_words_nonneg _ (be_words_u16 4 (ip + 12) r Or)). pose proof (sum_words_nonneg _ (be_words_u16 10 tcp r Or)). split; [lia|].
    destruct (be_le 4 (ip + 12) r) as [q1 ->]. destruct (be_le 10 tcp r) as [q2 ->].
    replace (_ + _) with ((256 * c - q1 - q2 - 26) * 65535) by lia. apply Z_mod_mult.
Qed.

(** The IP checksum is kept right by the patch. *)
Lemma ip_ok_kept r : octets r -> header_len ip r = header_len ip p ->
  (forall j, 0 <= j < 4 -> byte (ip + 12 + j) r = byte (ip + 16 + j) p /\ byte (ip + 16 + j) r = byte (ip + 12 + j) p) ->
  be16 (ip + 2) r = header_len ip p + 20 ->
  be16 (ip + 10) r = csum_fold (65535 - be16 (ip + 10) p + (65535 - be16 (ip + 2) p) + (header_len ip p + 20)) ->
  (forall j, 12 <= j -> j < ip + 2 \/ ip + 4 <= j < ip + 10 \/ ip + 20 <= j < tcp \/ tcp + 20 <= j -> byte j r = byte j p) ->
  ip_ok ip p -> ip_ok ip r.
Proof.
  intros Or Hl Hsw H2 H10 Hk. unfold ip_ok. rewrite Hl. set (n := Z.to_nat (header_len ip p / 2)).
  assert (Hn : exists k, n = (10 + k)%nat /\ ip + 20 + 2 * Z.of_nat k <= tcp).
  { exists (n - 10)%nat. unfold n. pose proof (Z.div_mod (header_len ip p) 2 ltac:(lia)). pose proof (Z.mod_pos_bound (header_len ip p) 2 ltac:(lia)). lia. }
  destruct Hn as (k & -> & Hn). rewrite !be_words_app, !oc_ok_iff, !sum_words_app by (rewrite <- be_words_app; now apply be_words_u16).
  change (2 * Z.of_nat 10) with 20. rewrite (be_words_same k (ip + 20) p r) by (intros j Hj; apply Hk; lia).
  pose proof (sum_words_nonneg _ (be_words_u16 k (ip + 20) p Hp)) as Hr. set (rest := total (be_words k (ip + 20) p)) in *. intros [Hpos Hmod].
  assert (Hw : 16384 <= be16 ip r).
  { unfold be16. rewrite !Hk by lia. pose proof (byte_range (ip + 1) p Hp). rewrite Z.shiftr_div_pow2 in Hver by lia. change (2 ^ 4) with 16 in Hver.
    pose proof (Z.div_mod (byte ip p) 16 ltac:(lia)). pose proof (Z.mod_pos_bound (byte ip p) 16 ltac:(lia)). lia. }
  split. { rewrite be_words_ten. pose proof (fun j => be16_range j r Or) as Hb.
    pose proof (Hb (ip + 2)); pose proof (Hb (ip + 4)); pose proof (Hb (ip + 6)); pose proof (Hb (ip + 8)); pose proof (Hb (ip + 10));
    pose proof (Hb (ip + 12)); pose proof (Hb (ip + 14)); pose proof (Hb (ip + 16)); pose proof (Hb (ip + 18)). lia. }
  destruct (csum_fold_spec (65535 - be16 (ip + 10) p + (65535 - be16 (ip + 2) p) + (header_len ip p + 20))) as (_ & q & Hq).
  { pose proof (be16_range (ip + 10) p Hp). pose proof (be16_range (ip + 2) p Hp). pose proof (header_len_bound ip p). lia. }
  rewrite <- H10 in Hq.
  assert (T : total (be_words 10 ip r) = total (be_words 10 ip p) + (q - 2) * 65535).
  { assert (A : forall j, j = 12 \/ j = 14 -> be16 (ip + j) r = be16 (ip + j + 4) p /\ be16 (ip + j + 4) r = be16 (ip + j) p).
    { intros j Hj. unfold be16. destruct (Hsw (j - 12)) as [X1 X2]; [lia|]. destruct (Hsw (j - 11)) as [X3 X4]; [lia|].
      replace (ip + 12 + (j - 12)) with (ip + j) in * by lia. replace (ip + 16 + (j - 12)) with (ip + j + 4) in * by lia.
      replace (ip + 12 + (j - 11)) with (ip + j + 1) in * by lia. replace (ip + 16 + (j - 11)) with (ip + j + 4 + 1) in * by lia. now rewrite X1, X2, X3, X4. }
    destruct (A 12) as [A1 A2]; [lia|]. destruct (A 14) as [A3 A4]; [lia|]. 
    replace (ip + 12 + 4) with (ip + 16) in * by lia. replace (ip + 14 + 4) with (ip + 18) in * by lia.
    assert (S : forall j, j = 0 \/ j = 4 \/ j = 6 \/ j = 8 -> be16 (ip + j) r = be16 (ip + j) p) by (intros j Hj; unfold be16; rewrite !Hk by lia; done).
    pose proof (S 0 ltac:(lia)) as S0. rewrite !Z.add_0_r in S0. pose proof (S 4 ltac:(lia)). pose proof (S 6 ltac:(lia)). pose proof (S 8 ltac:(lia)).
    rewrite !be_words_ten. lia. }
  rewrite T. replace (_ + _ + rest) with (total (be_words 10 ip p) + rest + (q - 2) * 65535) by lia. now rewrite Z_mod_plus_full.
Qed.

Lemma rst_reply : reply ip tcp p p'.
Proof.
  destruct rst_fields as (rs & ra & rf & Or & M & A & L & C & K & Po & W4 & W8 & W12 & W13 & Hc & Sp).
  assert (Hl : header_len ip p' = header_len ip p) by (apply header_len_same, K; lia).
  assert (E4 : forall a b, (forall j, 0 <= j < 4 -> byte (a + j) p' = byte (b + j) p) -> be32 a p' = be32 b p).
  { intros a b H. unfold be32, be16. pose proof (H 0 ltac:(lia)) as X0. rewrite !Z.add_0_r in X0.
    rewrite X0, (H 1), (H 2) by lia. replace (a + 2 + 1) with (a + 3) by lia. rewrite (H 3) by lia. replace (b + 2 + 1) with (b + 3) by lia. done. }
  constructor.
  - exact M.
  - split; apply E4; intros j Hj; now apply A.
  - exact Po.
  - split; [lia | exact W12].
  - destruct (tst (byte (tcp + 13) p) TCP_ACK); rewrite W13, W4, W8; [destruct Sp as (-> & -> & ->) | destruct Sp as (-> & -> & ->)]; done.
  - apply tcp_ok_intro; [done..| |done|done]. rewrite K by lia. done.
  - now apply ip_ok_kept.
  - intros j Hj. apply K; lia.
Qed.
End Reply.

(** C14. The reset.  When an inbound TCP segment is answered, the frame sent
    back is the reset RFC 793 asks for: Ethernet and IP addresses and ports
    exchanged, twenty bytes of TCP without options; for a segment with ACK its
    sequence number is that acknowledgement, otherwise it acknowledges the
    segment with its payload, SYN and FIN counted.  The TCP checksum is right,
    the IP checksum is right if it was, and every other byte of the frame is
    the one that came. *)
Theorem reset_reply i kn p m p' m' : octets p -> xdp_filter i kn p m = Some (XDP_TX, p', m') ->
  exists vs sg, classify false p = Some (Tcp vs sg) /\ reply (sg_ip sg) (sg_tcp sg) p p'.
Proof.
  intros Hp (c & m1 & Ec & _ & Hs)%filter_settled. inversion Hs as [| |f vs reason Hf E|f q reason Hf Hm Hj Hr Htx E]; subst.
  { apply do_drop_inv in E as [_ [(_ & E & _)|(_ & E & _)]]; done. }
  destruct c as [| | | | |vs sg| | |]; try done. rewrite Hr in Ec. exists vs, sg. split; [done|].
  destruct (classify_ok p false) as (c & Ec' & Hc). rewrite Ec in Ec'. injection Ec' as <-.
  destruct Hc as [(H1 & H2 & H3) (ver & tot & doff & seq & ack & Ev%load8_byte & Hv & Ht & Epr%load8_byte & _)]. subst ver.
  cbn [reset_of] in Htx. now apply rst_reply.
Qed.
