(* ===== verification/PacketWire.v ===== *)
(** * PacketWire: frames as they are sent

    A TCP frame written from its fields, with up to two VLAN tags and IP
    options, and what the program reads back from it; the reply of a peer has
    the key of the segment it answers.  The concrete frames of the examples
    are built the same way. *)

From Stdlib Require Import ZArith Lia Bool.
From stdpp Require Import prelude gmap.
From S2P Require Import Prelude Filter FlowSafety Packet PacketRef PacketSpec Traffic PacketRst.

Local Open Scope Z_scope.

(** ** Writing a frame *)

Definition b16 (x : Z) : list Z := [x / 256; x mod 256].
Definition b32 (x : Z) : list Z := (b16 (x / 65536) ++ b16 (x mod 65536))%list.

Record tcp_wire := TcpWire {
  w_dst : list Z; w_src : list Z; w_tags : list Z;
  w_tos : Z; w_id : Z; w_frag : Z; w_ttl : Z; w_ipck : Z; w_saddr : Z; w_daddr : Z; w_opts : list Z;
  w_sport : Z; w_dport : Z; w_seq : Z; w_ack : Z; w_doff : Z; w_flags : Z; w_win : Z; w_ck : Z; w_urg : Z; w_rest : list Z }.

Definition tag_bytes (tci : Z) : list Z := (b16 ETH_P_8021Q ++ b16 tci)%list.

Definition tot_len (w : tcp_wire) : Z := 40 + size (w_opts w) + size (w_rest w).

Definition front_of (w : tcp_wire) : list Z :=
  (w_dst w ++ w_src w ++ concat (map tag_bytes (w_tags w)) ++ b16 ETH_P_IP ++
   [64 + (5 + size (w_opts w) / 4); w_tos w] ++ b16 (tot_len w) ++ b16 (w_id w) ++ b16 (w_frag w) ++ [w_ttl w; IPPROTO_TCP] ++
   b16 (w_ipck w) ++ b32 (w_saddr w) ++ b32 (w_daddr w))%list.
Definition back_of (w : tcp_wire) : list Z :=
  (b16 (w_sport w) ++ b16 (w_dport w) ++ b32 (w_seq w) ++ b32 (w_ack w) ++ [16 * w_doff w; w_flags w] ++
   b16 (w_win w) ++ b16 (w_ck w) ++ b16 (w_urg w) ++ w_rest w)%list.

Definition wire (w : tcp_wire) : frame := (front_of w ++ w_opts w ++ back_of w)%list.

(** The fields have their widths, the lengths agree, and it is not a later fragment. *)
Record wire_ok (w : tcp_wire) : Prop := {
  ok_macs : length (w_dst w) = 6%nat /\ length (w_src w) = 6%nat;
  ok_tags : (length (w_tags w) <= 2)%nat /\ Forall is_u16 (w_tags w);
  ok_opts : exists n : nat, size (w_opts w) = 4 * Z.of_nat n /\ (n <= 10)%nat;
  ok_len : tot_len w < 65536;
  ok_frag : exists k, 0 <= k < 8 /\ w_frag w = 8192 * k;
  ok_addrs : is_u32 (w_saddr w) /\ is_u32 (w_daddr w);
  ok_ports : is_u16 (w_sport w) /\ is_u16 (w_dport w);
  ok_seq : is_u32 (w_seq w) /\ is_u32 (w_ack w);
  ok_doff : 5 <= w_doff w < 16 /\ 4 * w_doff w <= 20 + size (w_rest w) }.

(** What the program makes of it: fields loaded raw are byte-swapped. *)
Definition tag_vid (tags : list Z) (n : nat) : Z := default 0 (tags !! n) mod 4096.

Definition wire_key (trusted : bool) (w : tcp_wire) : flow_key :=
  let vl := Z.lor (u32 (Z.shiftl (tag_vid (w_tags w) 0) 12)) (tag_vid (w_tags w) 1) in
  if trusted then FlowKey (bswap32 (w_daddr w)) (bswap32 (w_saddr w)) (bswap16 (w_dport w)) (bswap16 (w_sport w)) vl
  else FlowKey (bswap32 (w_saddr w)) (bswap32 (w_daddr w)) (bswap16 (w_sport w)) (bswap16 (w_dport w)) vl.

Definition wire_segment (trusted : bool) (w : tcp_wire) : segment :=
  let ip := 14 + 4 * Z.of_nat (length (w_tags w)) in
  Segment (wire_key trusted w) (w_flags w) (w_seq w) (w_ack w) ip (ip + 20 + size (w_opts w)).

(** ** Loads from concatenations *)

Lemma load8_front j a b : 0 <= j < size a -> load8 j (a ++ b) = load8 j a.
Proof. intros H. unfold load8, size in *. destruct (0 <=? j); [|done]. apply lookup_app_l. lia. Qed.

Lemma load8_back j a b : 0 <= j -> load8 (size a + j) (a ++ b) = load8 j b.
Proof.
  intros H. unfold load8, size. rewrite !(proj2 (Z.leb_le 0 _)) by lia. rewrite lookup_app_r by lia. f_equal. lia.
Qed.

Lemma load16_front j a b : 0 <= j -> j + 2 <= size a -> load16 j (a ++ b) = load16 j a.
Proof. intros H1 H2. unfold load16. now rewrite !load8_front by lia. Qed.

Lemma load16_back j a b : 0 <= j -> load16 (size a + j) (a ++ b) = load16 j b.
Proof. intros H. unfold load16. rewrite <- Z.add_assoc. now rewrite !load8_back by lia. Qed.

Lemma load32_front j a b : 0 <= j -> j + 4 <= size a -> load32 j (a ++ b) = load32 j a.
Proof. intros H1 H2. unfold load32. now rewrite !load16_front by lia. Qed.

Lemma load32_back j a b : 0 <= j -> load32 (size a + j) (a ++ b) = load32 j b.
Proof. intros H. unfold load32. rewrite <- Z.add_assoc. now rewrite !load16_back by lia. Qed.

Lemma size_app a b : size (a ++ b) = size a + size b.
Proof. unfold size. rewrite length_app. lia. Qed.

(** A field of a list whose first bytes are known. *)
Lemma load8_cons n x l : load8 (Z.of_nat (S n)) (x :: l) = load8 (Z.of_nat n) l.
Proof. unfold load8. rewrite !(proj2 (Z.leb_le 0 _)) by lia. rewrite !Nat2Z.id. reflexivity. Qed.

Lemma b16_raw x : is_u16 x -> bswap16 (x / 256 + 256 * (x mod 256)) = x /\ x / 256 + 256 * (x mod 256) = bswap16 x.
Proof.
  unfold is_u16. intros Hx. rewrite bswap16_bytes by (Z.to_euclidean_division_equations; lia).
  unfold bswap16. split; Z.to_euclidean_division_equations; lia.
Qed.

Lemma b32_raw x : is_u32 x -> let h := x / 65536 in let l := x mod 65536 in
  let raw := h / 256 + 256 * (h mod 256) + 65536 * (l / 256 + 256 * (l mod 256)) in bswap32 raw = x /\ raw = bswap32 x.
Proof.
  unfold is_u32. intros Hx. cbv zeta. set (h := x / 65536). set (l := x mod 65536).
  assert (Hh : is_u16 h) by (unfold is_u16, h; Z.to_euclidean_division_equations; lia).
  assert (Hl : is_u16 l) by (unfold is_u16, l; apply Z.mod_pos_bound; lia).
  assert (E : x = 65536 * h + l) by (unfold h, l; Z.to_euclidean_division_equations; lia). clearbody h l.
  destruct (b16_raw h Hh) as [A1 A2], (b16_raw l Hl) as [B1 B2]. rewrite A2, B2. rewrite A2 in A1. rewrite B2 in B1.
  assert (R : bswap32 (bswap16 h + 65536 * bswap16 l) = x).
  { unfold bswap32. pose proof (bswap16_range h). pose proof (bswap16_range l).
    rewrite <- (Z.mod_unique _ 65536 (bswap16 l) (bswap16 h)) by lia. rewrite <- (Z.div_unique _ 65536 (bswap16 l) (bswap16 h)) by lia.
    rewrite (Z.mod_small (bswap16 l)), A1, B1 by lia. lia. }
  split; [exact R|]. rewrite <- R, bswap32_twice; [done|]. pose proof (bswap16_range h). pose proof (bswap16_range l). lia.
Qed.

(** ** Reading a frame back *)

Definition raw16 (x : Z) : Z := x / 256 + 256 * (x mod 256).
Definition raw32 (x : Z) : Z := raw16 (x / 65536) + 65536 * raw16 (x mod 65536).

Lemma six {A} (l : list A) : length l = 6%nat -> exists a b c d e f, l = [a; b; c; d; e; f].
Proof. intros H. destruct l as [|a [|b [|c [|d [|e [|f [|]]]]]]]; try discriminate. eauto 8. Qed.

Section Read.
Context (w : tcp_wire) (Hw : wire_ok w).

Local Abbreviation n_tags := (Z.of_nat (length (w_tags w))).
Local Abbreviation ip := (14 + 4 * n_tags).
Local Abbreviation l4 := (14 + 4 * n_tags + 20 + size (w_opts w)).

Lemma tags_cases : w_tags w = [] \/ (exists t, w_tags w = [t] /\ is_u16 t) \/ (exists t u, w_tags w = [t; u] /\ is_u16 t /\ is_u16 u).
Proof.
  destruct (ok_tags _ Hw) as [Hl Ht]. destruct (w_tags w) as [|t [|u [|]]]; cbn in Hl; [now left|right; left|right; right|lia].
  - apply Forall_cons in Ht as [? _]. eauto.
  - apply Forall_cons in Ht as [? Ht]. apply Forall_cons in Ht as [? _]. eauto 6.
Qed.

Lemma front_size : size (front_of w) = 34 + 4 * n_tags.
Proof.
  destruct (ok_macs _ Hw) as [H1 H2]. unfold front_of. rewrite !size_app. unfold size at 1 2. rewrite H1, H2.
  destruct tags_cases as [->|[(t & -> & _)|(t & u & -> & _)]]; reflexivity.
Qed.

Lemma wire_size : size (wire w) = 54 + 4 * n_tags + size (w_opts w) + size (w_rest w).
Proof.
  unfold wire. rewrite !size_app, front_size. unfold back_of. rewrite !size_app. cbn [size length b16 b32 app].
  unfold size. cbn [length b16 b32 app]. lia.
Qed.

Lemma front_reads : 
  load8 ip (front_of w) = Some (64 + (5 + size (w_opts w) / 4)) /\ load8 (ip + 9) (front_of w) = Some IPPROTO_TCP /\
  load16 (ip + 2) (front_of w) = Some (raw16 (tot_len w)) /\ load16 (ip + 6) (front_of w) = Some (raw16 (w_frag w)) /\
  load32 (ip + 12) (front_of w) = Some (raw32 (w_saddr w)) /\ load32 (ip + 16) (front_of w) = Some (raw32 (w_daddr w)).
Proof.
  destruct (ok_macs _ Hw) as [H1 H2]. apply six in H1 as (a & b & c & d & e & f & H1), H2 as (a' & b' & c' & d' & e' & f' & H2).
  unfold front_of. rewrite H1, H2. destruct tags_cases as [->|[(t & -> & _)|(t & u & -> & _)]]; repeat split.
Qed.

Lemma back_reads :
  load16 0 (back_of w) = Some (raw16 (w_sport w)) /\ load16 2 (back_of w) = Some (raw16 (w_dport w)) /\ load32 4 (back_of w) = Some (raw32 (w_seq w)) /\
  load32 8 (back_of w) = Some (raw32 (w_ack w)) /\ load8 12 (back_of w) = Some (16 * w_doff w) /\ load8 13 (back_of w) = Some (w_flags w).
Proof. repeat split. Qed.

Lemma tags_read : exists proto, load16 12 (front_of w) = Some proto /\
  vlan_tags MAX_VLAN_DEPTH true (Tags false proto eth_size 0 0) (wire w) =
  Some (Tags false (raw16 ETH_P_IP) ip (tag_vid (w_tags w) 0) (tag_vid (w_tags w) 1)).
Proof.
  pose proof front_size as Hf. pose proof wire_size as Hs. pose proof (Zle_0_nat (length (w_opts w))). pose proof (Zle_0_nat (length (w_rest w))).
  assert (L16 : forall j, 0 <= j -> j + 2 <= 34 + 4 * n_tags -> load16 j (wire w) = load16 j (front_of w)) by (intros j ? ?; apply load16_front; lia).
  destruct (ok_macs _ Hw) as [H1 H2]. apply six in H1 as (a & b & c & d & e & f & H1), H2 as (a' & b' & c' & d' & e' & f' & H2).
  assert (V : forall t, is_u16 t -> Z.land (bswap16 (raw16 t)) VLAN_VID_MASK = t mod 4096).
  { intros t Ht. unfold raw16. rewrite (proj1 (b16_raw t Ht)). change VLAN_VID_MASK with (Z.ones 12). now rewrite Z.land_ones by lia. }
  unfold size in *.
  destruct tags_cases as [Et|[(t & Et & Ht)|(t & u & Et & Ht & Hu)]]; unfold tag_vid; rewrite Et in *; cbn [length] in *.
  - exists (raw16 ETH_P_IP). split; [unfold front_of; rewrite H1, H2, Et; reflexivity | reflexivity].
  - exists (raw16 ETH_P_8021Q). split; [unfold front_of; rewrite H1, H2, Et; reflexivity|].
    cbn [vlan_tags MAX_VLAN_DEPTH t_proto t_cur t_outer t_inner]. change (negb (is_vlan (raw16 ETH_P_8021Q))) with false. cbv iota.
    unfold size. rewrite (proj2 (Z.ltb_ge _ _)) by (unfold eth_size, vlan_size; lia). rewrite !L16 by (unfold eth_size, vlan_size; lia).
    replace (load16 eth_size (front_of w)) with (Some (raw16 t)) by (unfold front_of; rewrite H1, H2, Et; reflexivity).
    replace (load16 (eth_size + 2) (front_of w)) with (Some (raw16 ETH_P_IP)) by (unfold front_of; rewrite H1, H2, Et; reflexivity).
    cbn [mbind option_bind vlan_tags t_proto]. rewrite V by done. reflexivity.
  - exists (raw16 ETH_P_8021Q). split; [unfold front_of; rewrite H1, H2, Et; reflexivity|].
    cbn [vlan_tags MAX_VLAN_DEPTH t_proto t_cur t_outer t_inner]. change (negb (is_vlan (raw16 ETH_P_8021Q))) with false. cbv iota.
    unfold size. rewrite (proj2 (Z.ltb_ge _ _)) by (unfold eth_size, vlan_size; lia). rewrite !L16 by (unfold eth_size, vlan_size; lia).
    replace (load16 eth_size (front_of w)) with (Some (raw16 t)) by (unfold front_of; rewrite H1, H2, Et; reflexivity).
    replace (load16 (eth_size + 2) (front_of w)) with (Some (raw16 ETH_P_8021Q)) by (unfold front_of; rewrite H1, H2, Et; reflexivity).
    cbn [mbind option_bind vlan_tags t_proto t_cur t_outer t_inner]. change (negb (is_vlan (raw16 ETH_P_8021Q))) with false. cbv iota.
    unfold size. rewrite (proj2 (Z.ltb_ge _ _)) by (unfold eth_size, vlan_size; lia). rewrite ?L16 by (unfold eth_size, vlan_size; lia).
    replace (load16 (eth_size + vlan_size) (front_of w)) with (Some (raw16 u)) by (unfold front_of; rewrite H1, H2, Et; reflexivity).
    replace (load16 (eth_size + vlan_size + 2) (front_of w)) with (Some (raw16 ETH_P_IP)) by (unfold front_of; rewrite H1, H2, Et; reflexivity).
    cbn [mbind option_bind]. rewrite !V by done. reflexivity.
Qed.

Lemma raw16_spec x : is_u16 x -> bswap16 (raw16 x) = x /\ raw16 x = bswap16 x.
Proof. apply b16_raw. Qed.

Lemma raw32_spec x : is_u32 x -> bswap32 (raw32 x) = x /\ raw32 x = bswap32 x.
Proof. apply b32_raw. Qed.

(** Before the options the frame is its front, after them its back. *)
Lemma wire_front j : 0 <= j ->
  (j < size (front_of w) -> load8 j (wire w) = load8 j (front_of w)) /\
  (j + 2 <= size (front_of w) -> load16 j (wire w) = load16 j (front_of w)) /\
  (j + 4 <= size (front_of w) -> load32 j (wire w) = load32 j (front_of w)).
Proof. intros Hj. split_and!; intros H; [apply load8_front | apply load16_front | apply load32_front]; lia. Qed.

Lemma wire_back j : 0 <= j -> load8 (l4 + j) (wire w) = load8 j (back_of w) /\
  load16 (l4 + j) (wire w) = load16 j (back_of w) /\ load32 (l4 + j) (wire w) = load32 j (back_of w).
Proof.
  intros Hj. pose proof front_size as Hf.
  assert (l4 + j = size (front_of w ++ w_opts w) + j) as -> by (rewrite size_app, Hf; lia).
  unfold wire. rewrite app_assoc. split_and!; [apply load8_back | apply load16_back | apply load32_back]; exact Hj.
Qed.

(** Version and header length share the first byte of the IP header. *)
Lemma version_byte n : 0 <= n <= 10 -> Z.shiftr (64 + (5 + n)) 4 = 4 /\ Z.land (64 + (5 + n)) 15 * 4 = 20 + 4 * n.
Proof.
  intros Hn. rewrite Z.shiftr_div_pow2 by lia. change 15 with (Z.ones 4). rewrite Z.land_ones by lia. change (2 ^ 4) with 16.
  rewrite <- (Z.div_unique (64 + (5 + n)) 16 4 (5 + n)), <- (Z.mod_unique (64 + (5 + n)) 16 4 (5 + n)) by lia. lia.
Qed.

(** The flag bits alone do not make a fragment. *)
Lemma flags_no_fragment k : 0 <= k < 8 -> tst (raw16 (8192 * k)) (bswap16 IP_FRAG_OFF_MASK) = false.
Proof. intros Hk. assert (k = 0 \/ k = 1 \/ k = 2 \/ k = 3 \/ k = 4 \/ k = 5 \/ k = 6 \/ k = 7) by lia. destruct_or!; subst; reflexivity. Qed.

(** The program reads from the frame the fields it was written from. *)
Lemma wire_reads trusted : classify trusted (wire w) =
  Some (Tcp (tag_vid (w_tags w) 0) (wire_segment trusted w)).
Proof.
  pose proof front_size as Hf. pose proof wire_size as Hs. destruct (ok_opts _ Hw) as (n & Hn & Hn10).
  destruct front_reads as (F0 & F9 & F2 & F6 & F12 & F16). destruct back_reads as (B0 & B2 & B4 & B8 & B12 & B13).
  destruct tags_read as (proto & Ep & Et). destruct (ok_frag _ Hw) as (kf & Hkf & Ef).
  destruct (ok_doff _ Hw) as [Hd1 Hd2]. pose proof (ok_len _ Hw) as Hlen.
  destruct (ok_addrs _ Hw) as [Ha1 Ha2], (ok_ports _ Hw) as [Hp1 Hp2], (ok_seq _ Hw) as [Hq1 Hq2].
  assert (Hr : 0 <= size (w_rest w)) by (unfold size; lia). pose proof (Zle_0_nat (length (w_tags w))) as Ht.
  assert (Hdiv : size (w_opts w) / 4 = Z.of_nat n) by (rewrite Hn, Z.mul_comm; now apply Z.div_mul).
  rewrite Hdiv in F0. unfold tot_len in Hlen.
  pose proof (fun j H => proj1 (wire_front j H)) as W8. pose proof (fun j H => proj1 (proj2 (wire_front j H))) as W16.
  pose proof (fun j H => proj2 (proj2 (wire_front j H))) as W32. pose proof (fun j H => proj1 (wire_back j H)) as X8.
  pose proof (fun j H => proj1 (proj2 (wire_back j H))) as X16. pose proof (fun j H => proj2 (proj2 (wire_back j H))) as X32.
  assert (X0 : load16 l4 (wire w) = load16 0 (back_of w)) by (rewrite <- (X16 0) by lia; now rewrite Z.add_0_r).
  unfold classify. rewrite (proj2 (Z.ltb_ge _ _)) by (unfold eth_size; lia).
  rewrite (W16 12), Ep by lia. cbn [mbind option_bind]. rewrite Et. cbn [mbind option_bind t_trunc t_proto t_cur t_outer t_inner].
  change (is_vlan (raw16 ETH_P_IP)) with false. change (negb (raw16 ETH_P_IP =? bswap16 ETH_P_IP)) with false. cbv iota zeta.
  assert (Hv : stat_vlan_ptr (tag_vid (w_tags w) 0) = tag_vid (w_tags w) 0).
  { unfold stat_vlan_ptr, tag_vid. rewrite (proj2 (Z.ltb_ge _ _)); [done|]. pose proof (Z.mod_pos_bound (default 0 (w_tags w !! 0%nat)) 4096 ltac:(lia)). lia. }
  rewrite Hv. unfold classify_ip. rewrite (proj2 (Z.ltb_ge _ _)) by (unfold ip_size; lia).
  rewrite (W8 ip), F0 by lia. cbn [mbind option_bind].
  destruct (version_byte (Z.of_nat n)) as [Hver Hihl]; [lia|]. rewrite <- Hn in Hihl.
  rewrite Hver, Hihl. change (negb (4 =? 4)) with false. rewrite (proj2 (Z.ltb_ge (20 + _) _)) by (unfold ip_size; lia).
  rewrite (proj2 (Z.ltb_ge (size (wire w)) _)) by lia. cbn [orb].
  rewrite (W8 (ip + 9)), F9 by lia. cbn [mbind option_bind]. change (IPPROTO_TCP =? IPPROTO_TCP) with true. cbv iota.
  replace (ip + (20 + size (w_opts w))) with l4 by lia. unfold classify_tcp.
  rewrite (W16 (ip + 6)), F6 by lia. cbn [mbind option_bind].
  assert (Hfr : tst (raw16 (w_frag w)) (bswap16 IP_FRAG_OFF_MASK) = false) by (rewrite Ef; apply flags_no_fragment; lia).
  rewrite Hfr, (proj2 (Z.ltb_ge _ _)) by (unfold tcp_size; lia).
  rewrite (X8 12), B12 by lia. cbn [mbind option_bind]. rewrite (W16 (ip + 2)), F2 by lia. cbn [mbind option_bind]. cbv zeta.
  assert (Htot : bswap16 (raw16 (tot_len w)) = tot_len w) by (apply raw16_spec; unfold is_u16, tot_len; lia).
  assert (Hdo : Z.shiftr (16 * w_doff w) 4 = w_doff w) by (rewrite Z.shiftr_div_pow2 by lia; change (2 ^ 4) with 16; rewrite Z.mul_comm; now apply Z.div_mul).
  rewrite Htot, Hdo. rewrite (proj2 (Z.ltb_ge _ tcp_size)), (proj2 (Z.ltb_ge (tot_len w) _)) by (unfold tcp_size, tot_len; lia). cbn [orb].
  rewrite (X8 13), B13 by lia. cbn [mbind option_bind]. unfold make_key.
  rewrite (W32 (ip + 12)), (W32 (ip + 16)), F12, F16 by lia. cbn [mbind option_bind]. rewrite X0, B0, (X16 2), B2 by lia. cbn [mbind option_bind].
  rewrite (X32 4), (X32 8), B4, B8 by lia. cbn [mbind option_bind].
  rewrite (proj2 (raw32_spec _ Ha1)), (proj2 (raw32_spec _ Ha2)), (proj2 (raw16_spec _ Hp1)), (proj2 (raw16_spec _ Hp2)),
    (proj1 (raw32_spec _ Hq1)), (proj1 (raw32_spec _ Hq2)).
  unfold wire_segment, wire_key. now destruct trusted.
Qed.
End Read.

(** Round trip.  A TCP frame written from its fields, with at most two VLAN
    tags and any IP options, is read back as a segment with those fields, from
    either port, whatever follows the header. *)
Theorem wire_roundtrip trusted w : wire_ok w -> classify trusted (wire w) = Some (Tcp (tag_vid (w_tags w) 0) (wire_segment trusted w)).
Proof. intros Hw. exact (wire_reads w Hw trusted). Qed.

(** The segment a peer answers with: same tags, addresses and ports exchanged. *)
Definition answers (w r : tcp_wire) : Prop :=
  w_tags r = w_tags w /\ w_saddr r = w_daddr w /\ w_daddr r = w_saddr w /\ w_sport r = w_dport w /\ w_dport r = w_sport w.

(** The key does not depend on the direction: the answer finds the flow. *)
Lemma answer_key w r : answers w r -> wire_key false r = wire_key true w.
Proof. intros (E1 & E2 & E3 & E4 & E5). unfold wire_key. now rewrite E1, E2, E3, E4, E5. Qed.

(** ** Examples: a handshake, a spoofed answer, resets *)

(** 10.0.0.2:40000 behind the filter, 203.0.113.5:443 on the internet, VLAN 7. *)
Definition e_wire (out : bool) (fl seq ack : Z) : tcp_wire :=
  let host := 167772162 in let inet := 3405803781 in
  let mac1 := [2; 0; 0; 0; 0; 1] in let mac2 := [2; 0; 0; 0; 0; 2] in
  TcpWire (if out then mac2 else mac1) (if out then mac1 else mac2) [7] 0 1 16384 64 0
    (if out then host else inet) (if out then inet else host) []
    (if out then 40000 else 443) (if out then 443 else 40000) seq ack 5 fl 64240 0 0 [].

Definition e_udp (out : bool) : frame :=
  ([2; 0; 0; 0; 0; 1; 2; 0; 0; 0; 0; 2; 8; 0; 69; 0; 0; 32; 0; 1; 0; 0; 64; 17; 0; 0] ++
   (if out then [10; 0; 0; 2; 203; 0; 113; 5; 156; 64; 0; 53] else [203; 0; 113; 5; 10; 0; 0; 2; 0; 53; 156; 64]) ++
   [0; 12; 0; 0; 1; 2; 3; 4])%list.

Definition e_policy (rst : Z) : features := Features MODE_ENFORCE 1 0 1 1 1 0 0 rst 0 10 280 10 28.
Definition e_machine (rst : Z) : machine :=
  Machine (Dp ∅ ∅ ∅ ∅ ∅ ∅) (Some (e_policy rst)) (Some (StatsGlobal 0 0 0 0 0 0 0 0 0 0 0 0 0)) ∅ ∅.
Definition e_start (rst : Z) : system := System (e_machine rst) (fun _ => ∅).
Definition e_inst (trusted : bool) : instance := Instance trusted (if trusted then 1 else 0) 0 false 0 63.
Definition e_kernel : kernel := Kernel ref_helpers 60000000000 60000000000 60000000000 1 0 (fun _ => false) (fun c k v => (false, <[k := v]> c)).

(** One frame on CPU 0. *)
Definition e_filter (trusted : bool) (p : frame) (y : system) : result := xdp_filter (e_inst trusted) e_kernel p (on_cpu 0%nat y).
Definition e_next (trusted : bool) (p : frame) (y : system) : system :=
  match e_filter trusted p y with Some (_, _, m') => back 0%nat m' y | None => y end.
Definition verdict_of (r : result) : option verdict := match r with Some (v, _, _) => Some v | None => None end.

Definition e_syn : frame := wire (e_wire true TCP_SYN 7000 0).
Definition e_synack (ack : Z) : frame := wire (e_wire false (TCP_SYN + TCP_ACK) 9000 ack).
Definition e_open : system := e_next true e_syn (e_start 0).

Lemma e_wire_ok out fl seq ack : is_u32 seq -> is_u32 ack -> wire_ok (e_wire out fl seq ack).
Proof.
  intros Hs Ha. constructor; cbn [e_wire w_dst w_src w_tags w_opts w_frag w_saddr w_daddr w_sport w_dport w_seq w_ack w_doff w_rest].
  - now destruct out.
  - split; [cbn; lia|]. repeat constructor; unfold is_u16; lia.
  - exists 0%nat. split; [reflexivity | lia].
  - vm_compute. reflexivity.
  - exists 2. lia.
  - destruct out; unfold is_u32; lia.
  - destruct out; unfold is_u16; lia.
  - done.
  - split; [lia|]. vm_compute. discriminate.
Qed.

(** The handshake goes through; an answer with another number does not, and
    without the request nothing does. *)
Example handshake :
  verdict_of (e_filter true e_syn (e_start 0)) = Some (Redirected 1) /\
  verdict_of (e_filter false (e_synack 7001) e_open) = Some (Redirected 0) /\
  verdict_of (e_filter false (e_synack 7002) e_open) = Some XDP_DROP /\
  verdict_of (e_filter false (e_synack 7001) (e_start 0)) = Some XDP_DROP.
Proof. split_and!; vm_compute; reflexivity. Qed.

(** A frame of a history. *)
Lemma traffic_next h y trusted p v : traffic h y -> verdict_of (e_filter trusted p y) = Some v ->
  traffic (Seen (e_inst trusted) p (m_features (y_machine y)) v :: h) (e_next trusted p y).
Proof.
  intros Ht Hv. unfold e_next, verdict_of in *. destruct (e_filter trusted p y) as [[[v' p'] m']|] eqn:E; [|done]. injection Hv as ->.
  exact (traffic_frame _ _ _ _ e_kernel _ _ p' _ Ht _ E).
Qed.

Lemma e_traffic rst : traffic [] (e_start rst).
Proof. constructor; [reflexivity..|]. intros n idx e. cbn. now rewrite lookup_empty. Qed.

(** A result whose verdict is known. *)
Lemma verdict_some r v : verdict_of r = Some v -> exists p' m', r = Some (v, p', m').
Proof. destruct r as [[[v' p'] m']|]; [|done]. intros [= ->]. eauto. Qed.

(** The answer to the request of the handshake. *)
Lemma spoofed_tcp_stopped_witness : exists p' m',
  e_filter false (e_synack 7001) e_open = Some (Redirected 0, p', m') /\
  let sg := wire_segment false (e_wire false (TCP_SYN + TCP_ACK) 9000 7001) in
  Exists (fun sn => sent (sg_key sg) sn \/ let_in (sg_key sg) sn) [Seen (e_inst true) e_syn (Some (e_policy 0)) (Redirected 1)].
Proof.
  destruct (verdict_some (e_filter false (e_synack 7001) e_open) (Redirected 0)) as (p' & m' & E); [vm_compute; reflexivity|].
  exists p', m'. split; [exact E|]. cbv zeta.
  assert (Ht : traffic [Seen (e_inst true) e_syn (Some (e_policy 0)) (Redirected 1)] e_open).
  { apply (traffic_next [] (e_start 0) true e_syn); [apply e_traffic | vm_compute; reflexivity]. }
  refine (proj1 (spoofed_tcp_stopped _ e_open 0%nat (e_inst false) e_kernel (e_synack 7001) (e_policy 0) 7 _ 0 p' m' Ht eq_refl _ eq_refl _ _ E)).
  - vm_compute. reflexivity.
  - apply (wire_reads (e_wire false (TCP_SYN + TCP_ACK) 9000 7001)). apply e_wire_ok; unfold is_u32; lia.
  - reflexivity.
Defined.

(** A datagram after the host's own. *)
Lemma spoofed_udp_stopped_witness : exists p' m', let y := e_next true (e_udp true) (e_start 0) in
  e_filter false (e_udp false) y = Some (Redirected 0, p', m') /\ exists k,
  Exists (sent_udp k) [Seen (e_inst true) (e_udp true) (Some (e_policy 0)) (Redirected 1)] \/
  (allow_inbound_servers (e_policy 0) <> 0 /\ (host_ip k, host_port k) ∈ server_allow (m_dp (y_machine y))).
Proof.
  set (y := e_next true (e_udp true) (e_start 0)).
  destruct (verdict_some (e_filter false (e_udp false) y) (Redirected 0)) as (p' & m' & E); [vm_compute; reflexivity|].
  exists p', m'. split; [exact E|].
  assert (Ht : traffic [Seen (e_inst true) (e_udp true) (Some (e_policy 0)) (Redirected 1)] y).
  { apply (traffic_next [] (e_start 0) true (e_udp true)); [apply e_traffic | vm_compute; reflexivity]. }
  eexists. refine (spoofed_udp_stopped _ y 0%nat (e_inst false) e_kernel (e_udp false) (e_policy 0) 0 _ 0 p' m' Ht eq_refl _ eq_refl _ _ E).
  - vm_compute. reflexivity.
  - discriminate.
  - vm_compute. reflexivity.
Defined.

(** A dropped answer, counted and unchanged. *)
Lemma frame_fate_witness : exists p' m', e_filter false (e_synack 1) (e_start 0) = Some (XDP_DROP, p', m') /\ p' = e_synack 1.
Proof.
  destruct (verdict_some (e_filter false (e_synack 1) (e_start 0)) XDP_DROP) as (p' & m' & E); [vm_compute; reflexivity|].
  exists p', m'. split; [exact E|]. exact (proj1 (frame_fate _ _ _ _ _ _ _ E)).
Defined.

Lemma frame_counted_witness : exists p' m' g', e_filter false (e_synack 1) (e_start 0) = Some (XDP_DROP, p', m') /\
  m_stats m' = Some g' /\ rx_pkts g' = 1 /\ redir_pkts g' = 0 /\ drop_pkts g' = 1 /\ drop_bytes g' = 58.
Proof.
  destruct (verdict_some (e_filter false (e_synack 1) (e_start 0)) XDP_DROP) as (p' & m' & E); [vm_compute; reflexivity|].
  destruct (frame_counted _ _ _ _ _ _ _ _ _ E eq_refl eq_refl) as (g' & Hg & H1 & H2 & H3 & _).
  exists p', m', g'. split; [exact E|]. split; [exact Hg|].
  apply pair_equal_spec in H1 as [-> _]. apply pair_equal_spec in H2 as [-> _]. apply pair_equal_spec in H3 as [-> ->]. split_and!; vm_compute; reflexivity.
Defined.

(** An unsolicited SYN-ACK answered by a reset. *)
Lemma reset_reply_witness : exists p' m', e_filter false (e_synack 1) (e_start 1) = Some (XDP_TX, p', m') /\
  exists vs sg, classify false (e_synack 1) = Some (Tcp vs sg) /\ reply (sg_ip sg) (sg_tcp sg) (e_synack 1) p'.
Proof.
  destruct (verdict_some (e_filter false (e_synack 1) (e_start 1)) XDP_TX) as (p' & m' & E); [vm_compute; reflexivity|].
  exists p', m'. split; [exact E|]. apply (reset_reply (e_inst false) e_kernel (e_synack 1) (on_cpu 0%nat (e_start 1)) p' m'); [|exact E].
  let l := eval vm_compute in (e_synack 1) in change (Forall is_u8 l). repeat constructor; unfold is_u8; lia.
Defined.

Lemma wire_roundtrip_witness : classify true e_syn = Some (Tcp 7 (wire_segment true (e_wire true TCP_SYN 7000 0))).
Proof. apply (wire_roundtrip true (e_wire true TCP_SYN 7000 0)), e_wire_ok; unfold is_u32; lia. Defined.

(** A reset that belongs to no flow is itself answered by a reset, which RFC
    793 excludes: two filters facing each other answer each other for ever. *)
Example reset_answers_reset :
  verdict_of (e_filter false (wire (e_wire false TCP_RST 5 0)) (e_start 1)) = Some XDP_TX.
Proof. vm_compute. reflexivity. Qed.
