(* ===== verification/TokenBucket.v ===== *)
(** The SYN token bucket of bpf/filter.bpf.c (tbkt_charge, as one CPU runs it):
    how many packets a bucket can admit over any stretch of time. *)
From stdpp Require Import prelude gmap.
From Stdlib Require Import ZArith Lia Bool.
From S2P Require Import Prelude Filter.
Local Open Scope Z_scope.

(** Charges against one key at the given clock readings: admitted, maps. *)
Fixpoint charge_run (h : helpers) (key rate : Z) (times : list Z) (s : dp) : Z * dp :=
  match times with
  | [] => (0, s)
  | t :: times =>
      let '(ok, s1) := tbkt_charge h key rate t s in
      let '(n, s2) := charge_run h key rate times s1 in
      (b2z ok + n, s2)
  end.

(** A bucket the program can hold at this rate, with its clock not ahead. *)
Definition bucket_ok (rate tmax : Z) (b : tbkt) : Prop :=
  0 <= tokens b <= rate * 2000 /\ 0 <= ts_ns b <= tmax.

Section Bucket.
Context (rate tmax : Z).
Context (Hrate : 0 < rate) (Hsmall : rate * 2000 < 2 ^ 64) (Hmax : tmax < 2 ^ 64).

Lemma burst_eq : tbkt_burst rate = rate * 2000.
Proof using Hrate Hsmall. unfold tbkt_burst. rewrite u64_small; unfold is_u64; lia. Qed.

(** A refill never exceeds the burst, never loses tokens, and credits at most
    [rate] thousandths per 2^20 ns of clock. *)
Lemma refill_bound b t :
  bucket_ok rate tmax b -> 0 <= t <= tmax ->
  let b' := tbkt_refill b rate t in
  bucket_ok rate tmax b' /\ ts_ns b <= ts_ns b' /\
  (tokens b' - tokens b) * 2 ^ 20 <= rate * (ts_ns b' - ts_ns b).
Proof using Hrate Hsmall Hmax.
  intros [Ht Hs] Hr. unfold tbkt_refill. rewrite burst_eq.
  destruct ((ts_ns b <? t) && _) eqn:Hdue; [|unfold bucket_ok; lia]. zbool.
  rewrite (u64_small (t - ts_ns b)) by (unfold is_u64; lia).
  destruct (tokens b <? rate * 2000) eqn:Hroom; [|unfold bucket_ok; cbn; nia].
  zbool. set (d := t - ts_ns b) in *. set (add := Z.shiftr (u64 (d * rate)) 20).
  assert (0 <= add /\ add * 2 ^ 20 <= rate * d) as [Ha Hb].
  { unfold add. rewrite Z.shiftr_div_pow2 by lia.
    pose proof (u64_range (d * rate)). pose proof (u64_le (d * rate)).
    pose proof (Z.mul_div_le (u64 (d * rate)) (2 ^ 20)).
    split; [apply Z.div_pos; unfold is_u64 in *; lia|nia]. }
  set (a := if _ <? add then _ else add).
  assert (0 <= a <= add /\ a <= rate * 2000 - tokens b) as [Ha1 Ha2]
    by (unfold a; case_ifs; zbool; lia).
  unfold bucket_ok; cbn. rewrite u64_small by (unfold is_u64; lia). nia.
Qed.

Lemma spend_eq b :
  let '(ok, b') := tbkt_spend b in
  tokens b' = tokens b - 1000 * b2z ok /\ ts_ns b' = ts_ns b /\
  (0 <= tokens b -> 0 <= tokens b').
Proof.
  unfold tbkt_spend. destruct (tokens b <? 1000) eqn:E; cbn; zbool; lia.
Qed.

(** Conservation over a run: admissions are paid by tokens or by elapsed time. *)
Lemma charge_run_bound h key times s b :
  synbkt s !! key = Some b -> bucket_ok rate tmax b ->
  Forall (fun t => 0 <= t <= tmax) times ->
  let '(n, s') := charge_run h key rate times s in
  exists b', synbkt s' !! key = Some b' /\ bucket_ok rate tmax b' /\ ts_ns b <= ts_ns b' /\
    (1000 * n + tokens b' - tokens b) * 2 ^ 20 <= rate * (ts_ns b' - ts_ns b).
Proof using Hrate Hsmall Hmax.
  revert s b. induction times as [|t times IH]; intros s b Hb Hok Ht; cbn.
  { exists b. split_and!; [done|done|lia|lia]. }
  inversion Ht; subst. unfold tbkt_charge. rewrite Hb.
  pose proof (refill_bound b t) as (Hok1 & Hts & Hcred); [done..|].
  pose proof (spend_eq (tbkt_refill b rate t)) as Hsp.
  destruct (tbkt_spend (tbkt_refill b rate t)) as [ok b1]. destruct Hsp as (Htok & Hts1 & Hnn).
  specialize (IH (set_synbkt (<[key := b1]> (synbkt s)) s) b1).
  destruct (charge_run h key rate times _) as [n s'].
  destruct IH as (b' & Hb' & Hok' & Hts' & Hbd); [cbn; apply lookup_insert_eq| |done|].
  { destruct Hok1, (b2z_01 ok); split; lia. }
  exists b'. split_and!; [done|done|lia|lia].
Qed.
End Bucket.

(** Over any sequence of charges up to time [tmax], a bucket admits at most
    its burst (two seconds' worth of packets) plus [rate] packets per 1000 * 2^20
    ns elapsed, whatever the arrival times. *)
Theorem admission_bound h key rate times s b tmax :
  0 < rate -> rate * 2000 < 2 ^ 64 -> tmax < 2 ^ 64 ->
  synbkt s !! key = Some b -> bucket_ok rate tmax b ->
  Forall (fun t => 0 <= t <= tmax) times ->
  1000 * 2 ^ 20 * fst (charge_run h key rate times s) <=
    2 ^ 20 * tbkt_burst rate + rate * (tmax - ts_ns b).
Proof.
  intros Hr Hs Hm Hb Hok Ht. rewrite burst_eq by done.
  pose proof (charge_run_bound rate tmax Hr Hs Hm h key times s b Hb Hok Ht) as H.
  destruct (charge_run h key rate times s) as [n s'].
  destruct H as (b' & _ & [Ht' Hs'] & Hle & Hbd). destruct Hok. cbn. nia.
Qed.

Lemma admission_bound_witness :
  let s := Dp ∅ ∅ ∅ ∅ {[7 := Tbkt 99000 1000]} ∅ in
  1000 * 2 ^ 20 * fst (charge_run ref_helpers 7 50 [2000; 3000; 4000] s) <=
    2 ^ 20 * tbkt_burst 50 + 50 * (4000 - 1000).
Proof.
  eapply (admission_bound ref_helpers 7 50 [2000; 3000; 4000] _ (Tbkt 99000 1000) 4000);
    [lia|lia|lia|reflexivity|split; cbn; lia|repeat constructor; lia].
Defined.
