(* ===== verification/BucketRace.v ===== *)
(** * BucketRace: the SYN token bucket charged by many CPUs at once

    [tbkt_charge] of bpf/filter.bpf.c on a bucket that exists, one atomic memory
    operation per step: the loads, the compare-and-swap on [ts_ns] that elects
    a refiller, the atomic addition, and the bounded compare-and-swap loop on
    [tokens].  The CPUs interleave in any order, with clocks of their own.  A
    CPU that runs alone does what Filter says; together they keep the limit up
    to the admissions that give up on contention, which are bounded too. *)

From stdpp Require Import prelude gmap relations.
From Stdlib Require Import ZArith Lia Bool.
From S2P Require Import Prelude Filter TokenBucket.
Local Open Scope Z_scope.

(** ** One CPU *)

(** Where a CPU is: its clock read, the election of a refiller, the load of
    [tokens] before a refill, the addition, and an attempt to spend. *)
Inductive pc :=
  | Idle
  | Read (tnow : Z)
  | Elect (tnow last : Z)
  | Room (tnow last : Z)
  | Credit (add : Z)
  | Attempt (i : Z)
  | Spend (i cur : Z).

(** A packet is admitted with a token spent, or with none on contention. *)
Inductive outcome := Paid | Open | Rejected.

Definition refill_due (tnow last : Z) : bool := (last <? tnow) && (Z.shiftl 1 20 <=? u64 (tnow - last)).
Definition refill_amount (rate tnow last : Z) : Z := Z.shiftr (u64 (u64 (tnow - last) * rate)) 20.

Definition cpu_step (rate clock : Z) (b : tbkt) (p : pc) : tbkt * pc * option outcome :=
  match p with
  | Idle => (b, Read clock, None)
  | Read tnow => (b, if refill_due tnow (ts_ns b) then Elect tnow (ts_ns b) else Attempt 0, None)
  | Elect tnow last =>
      if ts_ns b =? last then (Tbkt (tokens b) tnow, Room tnow last, None) else (b, Attempt 0, None)
  | Room tnow last =>
      let add := refill_amount rate tnow last in
      let cur := tokens b in
      if cur <? tbkt_burst rate then
        let room := tbkt_burst rate - cur in
        let add := if room <? add then room else add in
        (b, if add =? 0 then Attempt 0 else Credit add, None)
      else (b, Attempt 0, None)
  | Credit add => (Tbkt (u64 (tokens b + add)) (ts_ns b), Attempt 0, None)
  | Attempt i => if tokens b <? 1000 then (b, Idle, Some Rejected) else (b, Spend i (tokens b), None)
  | Spend i cur =>
      if tokens b =? cur then (Tbkt (cur - 1000) (ts_ns b), Idle, Some Paid)
      else if i =? 3 then (b, Idle, Some Open)
      else (b, Attempt (i + 1), None)
  end.

(** ** A CPU alone *)

(** Steps of one CPU until it has decided. *)
Fixpoint alone (fuel : nat) (rate clock : Z) (b : tbkt) (p : pc) : option (outcome * tbkt) :=
  match fuel with
  | O => None
  | S fuel => match cpu_step rate clock b p with
              | (b, _, Some v) => Some (v, b)
              | (b, p, None) => alone fuel rate clock b p
              end
  end.

Definition decided (r : bool * tbkt) : outcome * tbkt := (if fst r then Paid else Rejected, snd r).

Lemma alone_step n rate clock b p : alone (S n) rate clock b p =
  match cpu_step rate clock b p with (b, _, Some v) => Some (v, b) | (b, p, None) => alone n rate clock b p end.
Proof. done. Qed.

Lemma alone_spends rate clock b n : (2 <= n)%nat -> alone n rate clock b (Attempt 0) = Some (decided (tbkt_spend b)).
Proof.
  intros Hn. destruct n as [|[|n]]; [lia..|]. rewrite alone_step. unfold cpu_step, tbkt_spend.
  destruct (tokens b <? 1000); [done|]. rewrite alone_step. unfold cpu_step. now rewrite Z.eqb_refl.
Qed.

(** Without other CPUs the program is the refill and the spending of Filter. *)
Lemma alone_charges rate clock b : is_u64 (tokens b) ->
  alone 7 rate clock b Idle = Some (decided (tbkt_spend (tbkt_refill b rate clock))).
Proof.
  intros Hu. rewrite alone_step. cbn [cpu_step]. rewrite alone_step. cbn [cpu_step].
  unfold tbkt_refill. fold (refill_due clock (ts_ns b)).
  destruct (refill_due clock (ts_ns b)); [|apply alone_spends; lia].
  rewrite alone_step. cbn [cpu_step]. rewrite Z.eqb_refl. rewrite alone_step. cbn [cpu_step tokens].
  fold (refill_amount rate clock (ts_ns b)).
  destruct (tokens b <? tbkt_burst rate); [|apply alone_spends; lia]. cbv zeta.
  set (add := if _ <? refill_amount _ _ _ then _ else _). destruct (Z.eqb_spec add 0) as [E|E].
  - rewrite E, Z.add_0_r, u64_small by done. apply alone_spends; lia.
  - rewrite alone_step. cbn [cpu_step tokens ts_ns]. apply alone_spends; lia.
Qed.

(** ** Many CPUs *)

Record race := Race { rc_bucket : tbkt; rc_cpus : list pc; rc_paid : Z; rc_open : Z }.

Definition paid_by (v : option outcome) : Z := match v with Some Paid => 1 | _ => 0 end.
Definition opened_by (v : option outcome) : Z := match v with Some Open => 1 | _ => 0 end.

(** Any CPU takes its next step; its clock may be behind another's. *)
Inductive race_step (rate tmax : Z) : race -> race -> Prop :=
| race_move b l1 p l2 clock b' p' v paid opened : 0 <= clock <= tmax -> cpu_step rate clock b p = (b', p', v) ->
    race_step rate tmax (Race b (l1 ++ p :: l2) paid opened)
      (Race b' (l1 ++ p' :: l2) (paid + paid_by v) (opened + opened_by v)).

Definition admitted (r : race) : Z := rc_paid r + rc_open r.

(** *** What is in flight *)

(** Credit promised and not yet added, in thousandths of 2^20; refills under
    way; attempts that failed, or will because [tokens] has changed. *)
Definition promised (rate : Z) (p : pc) : Z :=
  match p with Room tnow last => rate * (tnow - last) | Credit add => 2 ^ 20 * add | _ => 0 end.
Definition refilling (p : pc) : Z := match p with Room _ _ | Credit _ => 1 | _ => 0 end.
Definition misses (tok : Z) (p : pc) : Z :=
  match p with Attempt i => i | Spend i cur => i + (if tok =? cur then 0 else 1) | _ => 0 end.

Definition pc_ok (tmax : Z) (p : pc) : Prop :=
  match p with
  | Idle => True
  | Read tnow => 0 <= tnow <= tmax
  | Elect tnow last | Room tnow last => 0 <= last /\ 2 ^ 20 <= tnow - last /\ tnow <= tmax
  | Credit add => 0 <= add
  | Attempt i => 0 <= i <= 3
  | Spend i cur => 0 <= i <= 3 /\ 1000 <= cur
  end.

Section Race.
Context (rate tmax : Z).
Context (Hrate : 0 < rate) (Hsmall : rate * 2000 < 2 ^ 64) (Hmax : tmax < 2 ^ 64).

Lemma refill_due_iff tnow last : 0 <= tnow < 2 ^ 64 -> 0 <= last < 2 ^ 64 ->
  refill_due tnow last = true <-> 2 ^ 20 <= tnow - last.
Proof.
  intros Ht Hl. unfold refill_due. rewrite Z.shiftl_1_l. split.
  - intros [H1 H2]%andb_true_iff. zbool. rewrite u64_small in H2 by (unfold is_u64; lia). lia.
  - intros H. rewrite u64_small by (unfold is_u64; lia). apply andb_true_iff. split; zbool; lia.
Qed.

Lemma refill_amount_bound tnow last : 0 <= tnow - last -> 0 <= refill_amount rate tnow last /\
  2 ^ 20 * refill_amount rate tnow last <= rate * (tnow - last).
Proof using Hrate.
  intros Hd. unfold refill_amount. rewrite Z.shiftr_div_pow2 by lia.
  pose proof (u64_range (tnow - last)) as [? _]. pose proof (u64_le (tnow - last) Hd).
  pose proof (u64_range (u64 (tnow - last) * rate)) as [? _]. pose proof (u64_le (u64 (tnow - last) * rate) ltac:(nia)).
  pose proof (Z.mul_div_le (u64 (u64 (tnow - last) * rate)) (2 ^ 20) ltac:(lia)).
  split; [apply Z.div_pos; lia | nia].
Qed.

(** What one step does to the bucket and to what its CPU has in flight:
    [credit] is added, [refills] is whether an addition was made. *)
Record effect (b : tbkt) (p : pc) (b' : tbkt) (p' : pc) (v : option outcome) (credit refills : Z) : Prop := {
  ef_ok : pc_ok tmax p';
  ef_tokens : 0 <= tokens b';
  ef_clock : ts_ns b <= ts_ns b' <= tmax;
  ef_sign : 0 <= credit /\ 0 <= refills;
  ef_paid : tokens b' + 1000 * paid_by v = tokens b + credit;
  ef_promised : 2 ^ 20 * credit + promised rate p' <= promised rate p + rate * (ts_ns b' - ts_ns b);
  ef_refilling : 2 ^ 20 * (refills + refilling p') <= 2 ^ 20 * refilling p + (ts_ns b' - ts_ns b);
  ef_misses : 4 * opened_by v + misses (tokens b') p' <= misses (tokens b) p;
  ef_changed : tokens b' <> tokens b -> 1 <= paid_by v + refills
}.

Lemma effect_local b p p' v : pc_ok tmax p' -> 0 <= tokens b -> ts_ns b <= tmax -> paid_by v = 0 ->
  promised rate p' <= promised rate p -> refilling p' <= refilling p ->
  4 * opened_by v + misses (tokens b) p' <= misses (tokens b) p -> effect b p b p' v 0 0.
Proof. intros. constructor; try done; lia. Qed.

Lemma cpu_effect clock b p b' p' v : 0 <= clock <= tmax -> pc_ok tmax p -> 0 <= tokens b -> 0 <= ts_ns b <= tmax ->
  (forall add, p = Credit add -> tokens b + add < 2 ^ 64) ->
  cpu_step rate clock b p = (b', p', v) -> exists credit refills, effect b p b' p' v credit refills.
Proof using Hrate Hmax.
  intros Hc Hp Ht Hts Hw. destruct p as [|tnow|tnow last|tnow last|add|i|i cur]; cbn [cpu_step pc_ok] in *.
  - intros [= <- <- <-]. exists 0, 0. apply effect_local; cbn; lia.
  - intros [= <- <- <-]. exists 0, 0. destruct (refill_due tnow (ts_ns b)) eqn:Hd; apply effect_local; cbn; try lia.
    apply refill_due_iff in Hd; lia.
  - destruct (Z.eqb_spec (ts_ns b) last) as [E|E]; intros [= <- <- <-]; exists 0, 0; [|apply effect_local; cbn; lia].
    constructor; cbn; lia.
  - destruct (refill_amount_bound tnow last) as [Ha Hb]; [lia|]. cbv zeta.
    destruct (Z.ltb_spec (tokens b) (tbkt_burst rate)); intros [= <- <- <-]; exists 0, 0; [|apply effect_local; cbn; lia].
    set (add := if _ <? refill_amount _ _ _ then _ else _).
    assert (0 <= add <= refill_amount rate tnow last) by (unfold add; case_ifs; zbool; lia).
    destruct (Z.eqb_spec add 0); apply effect_local; cbn; lia.
  - intros [= <- <- <-]. specialize (Hw add eq_refl). exists add, 1. constructor; cbn; rewrite ?u64_small by (unfold is_u64; lia); lia.
  - destruct (Z.ltb_spec (tokens b) 1000); intros [= <- <- <-]; exists 0, 0; apply effect_local; cbn; rewrite ?Z.eqb_refl; lia.
  - destruct (Z.eqb_spec (tokens b) cur) as [E|E].
    { intros [= <- <- <-]. exists 0, 0. constructor; cbn; rewrite ?E, ?Z.eqb_refl; lia. }
    apply Z.eqb_neq in E. destruct (Z.eqb_spec i 3); intros [= <- <- <-]; exists 0, 0; apply effect_local; cbn; rewrite ?E; lia.
Qed.

(** *** The invariant *)

Context (b0 : tbkt) (ncpu : Z).
Context (Hroom : 2 ^ 20 * tokens b0 + rate * tmax < 2 ^ 84) (Hb0 : 0 <= tokens b0) (Hts0 : 0 <= ts_ns b0 <= tmax).

Record race_inv (r : race) (credit refills : Z) : Prop := {
  ri_cpus : Z.of_nat (length (rc_cpus r)) = ncpu;
  ri_ok : Forall (pc_ok tmax) (rc_cpus r);
  ri_tokens : 0 <= tokens (rc_bucket r);
  ri_clock : ts_ns b0 <= ts_ns (rc_bucket r) <= tmax;
  ri_sign : 0 <= credit /\ 0 <= refills /\ 0 <= rc_paid r;
  ri_paid : tokens (rc_bucket r) + 1000 * rc_paid r = tokens b0 + credit;
  ri_credit : 2 ^ 20 * credit + total (promised rate) (rc_cpus r) <= rate * (ts_ns (rc_bucket r) - ts_ns b0);
  ri_refills : 2 ^ 20 * (refills + total refilling (rc_cpus r)) <= ts_ns (rc_bucket r) - ts_ns b0;
  ri_open : 4 * rc_open r + total (misses (tokens (rc_bucket r))) (rc_cpus r) <= (ncpu - 1) * (rc_paid r + refills)
}.

Lemma in_flight_nonneg l : Forall (pc_ok tmax) l -> 0 <= total (promised rate) l /\ 0 <= total refilling l /\
  forall tok, 0 <= total (misses tok) l.
Proof using Hrate.
  rewrite Forall_forall. intros Hl. split_and!; [| |intros tok]; apply total_nonneg; intros p Hp; specialize (Hl p Hp);
    destruct p; cbn in *; case_ifs; nia.
Qed.

(** When [tokens] changes each other CPU misses at most once more. *)
Lemma misses_change tok tok' l : total (misses tok') l <= total (misses tok) l + (if decide (tok' = tok) then 0 else Z.of_nat (length l)).
Proof.
  case_decide as E; [subst; lia|]. rewrite <- (Z.mul_1_l (Z.of_nat _)). apply total_le. intros p _. destruct p; cbn; case_ifs; lia.
Qed.

Lemma race_invariant r r' credit refills : race_step rate tmax r r' -> race_inv r credit refills ->
  exists credit' refills', race_inv r' credit' refills'.
Proof using Hrate Hmax Hroom Hts0.
  destruct 1 as [b l1 p l2 clock b' p' v paid opened Hc Hx]. intros [Hn Hok Ht Hk (Hs1 & Hs2 & Hs3) Hp Hcr Hre Ho]; cbn [rc_bucket rc_cpus rc_paid rc_open] in *.
  rewrite total_middle in Hcr, Hre, Ho. rewrite length_app in Hn. cbn [length] in Hn.
  pose proof Hok as [Ho1 [Hop Ho2]%Forall_cons]%Forall_app. assert (Hrest : Forall (pc_ok tmax) (l1 ++ l2)) by now apply Forall_app.
  destruct (in_flight_nonneg _ Hrest) as (Z1 & Z2 & Z3).
  destruct (cpu_effect clock b p b' p' v Hc Hop Ht ltac:(lia)) as (dc & dr & [E1 E2 E3 [E4 E5] E6 E7 E8 E9 E10]); [|exact Hx|].
  { intros add ->. cbn [promised] in Hcr. pose proof (Z.mul_le_mono_nonneg_l (ts_ns b - ts_ns b0) tmax rate ltac:(lia) ltac:(lia)). lia. }
  exists (credit + dc), (refills + dr). pose proof (misses_change (tokens b) (tokens b') (l1 ++ l2)) as Hm.
  rewrite length_app in Hm.
  assert (Hv : 0 <= paid_by v <= 1) by (destruct v as [[]|]; cbn; lia).
  constructor; cbn [rc_bucket rc_cpus rc_paid rc_open]; rewrite ?total_middle, ?length_app; cbn [length]; try lia.
  - apply Forall_app. split; [done|]. now apply Forall_cons.
  - set (w := ncpu - 1) in *. assert (Hw : w = Z.of_nat (length l1 + length l2)) by lia.
    replace (w * (paid + paid_by v + (refills + dr))) with (w * (paid + refills) + w * (paid_by v + dr)) by ring.
    assert (w * (if decide (tokens b' = tokens b) then 0 else 1) <= w * (paid_by v + dr)) by (apply Z.mul_le_mono_nonneg_l; [lia|]; case_decide; [lia | auto]).
    clear Hcr Hre E7 E8. case_decide; lia.
Qed.
End Race.

Lemma race_reachable rate tmax b0 n r : 0 < rate -> tmax < 2 ^ 64 -> 2 ^ 20 * tokens b0 + rate * tmax < 2 ^ 84 ->
  0 <= tokens b0 -> 0 <= ts_ns b0 <= tmax -> rtc (race_step rate tmax) (Race b0 (replicate n Idle) 0 0) r ->
  exists credit refills, race_inv rate tmax b0 (Z.of_nat n) r credit refills.
Proof.
  intros Hrate Hmax Hroom Hb0 Hts0 Hrun.
  assert (H0 : exists credit refills, race_inv rate tmax b0 (Z.of_nat n) (Race b0 (replicate n Idle) 0 0) credit refills).
  { exists 0, 0. constructor; cbn [rc_bucket rc_cpus rc_paid rc_open]; rewrite ?total_replicate, ?length_replicate by done; try lia.
    now apply Forall_replicate. }
  revert H0. induction Hrun as [|r r1 r2 Hs _ IH]; [done|]. intros (c & k & Hi). apply IH.
  exact (race_invariant rate tmax Hrate Hmax b0 (Z.of_nat n) Hroom Hts0 r r1 c k Hs Hi).
Qed.

(** C30. The limit under contention.  However [n] CPUs interleave while they charge
    one bucket, with clocks that need not agree, the packets that spend a token
    number at most the tokens at the start and [rate] for each 1000 * 2^20 ns
    of clock, so no refill is credited twice.  A packet can also be let through
    after four failed attempts without a token; each failed attempt is the work
    of another CPU's success, so all admissions together are at most [n + 3]
    quarters of that limit and [n - 1] quarters of the refills. *)
Theorem contended_admission rate tmax b0 n r :
  0 < rate -> tmax < 2 ^ 64 -> 2 ^ 20 * tokens b0 + rate * tmax < 2 ^ 84 ->
  0 <= tokens b0 -> 0 <= ts_ns b0 <= tmax -> (0 < n)%nat ->
  rtc (race_step rate tmax) (Race b0 (replicate n Idle) 0 0) r ->
  let limit := 2 ^ 20 * tokens b0 + rate * (tmax - ts_ns b0) in
  2 ^ 20 * 1000 * rc_paid r <= limit /\
  4 * (2 ^ 20 * 1000 * admitted r) <= (Z.of_nat n + 3) * limit + (Z.of_nat n - 1) * (1000 * (tmax - ts_ns b0)).
Proof.
  intros Hrate Hmax Hroom Hb0 Hts0 Hn Hrun limit.
  destruct (race_reachable _ _ _ _ _ Hrate Hmax Hroom Hb0 Hts0 Hrun) as (c & k & [_ Hok Ht Hk (Hs1 & Hs2 & Hs3) Hp Hcr Hre Ho]).
  destruct (in_flight_nonneg rate tmax Hrate _ Hok) as (Z1 & Z2 & Z3). specialize (Z3 (tokens (rc_bucket r))).
  assert (Hpaid : 2 ^ 20 * 1000 * rc_paid r <= limit).
  { pose proof (Z.mul_le_mono_nonneg_l (ts_ns (rc_bucket r) - ts_ns b0) (tmax - ts_ns b0) rate ltac:(lia) ltac:(lia)). unfold limit. lia. }
  split; [exact Hpaid|]. unfold admitted.
  assert (H1 : (Z.of_nat n + 3) * (2 ^ 20 * 1000 * rc_paid r) <= (Z.of_nat n + 3) * limit) by (apply Z.mul_le_mono_nonneg_l; lia).
  assert (H2 : (Z.of_nat n - 1) * (2 ^ 20 * k) <= (Z.of_nat n - 1) * (tmax - ts_ns b0)) by (apply Z.mul_le_mono_nonneg_l; lia).
  nia.
Qed.

(** ** Schedules *)

Definition race_exec (rate : Z) (r : race) (move : nat * Z) : race :=
  match rc_cpus r !! fst move with
  | None => r
  | Some p => let '(b, p', v) := cpu_step rate (snd move) (rc_bucket r) p in
              Race b (<[fst move := p']> (rc_cpus r)) (rc_paid r + paid_by v) (rc_open r + opened_by v)
  end.

Lemma race_exec_step rate tmax r i clock : 0 <= clock <= tmax -> is_Some (rc_cpus r !! i) -> race_step rate tmax r (race_exec rate r (i, clock)).
Proof.
  intros Hc [p Hp]. unfold race_exec. cbn [fst snd]. rewrite Hp. destruct (cpu_step rate clock (rc_bucket r) p) as [[b' p'] v] eqn:E.
  destruct r as [b l paid opened]. cbn [rc_bucket rc_cpus rc_paid rc_open] in *.
  rewrite <- (take_drop_middle l i p Hp) at 1. rewrite insert_take_drop by now apply lookup_lt_Some in Hp. now econstructor.
Qed.

Lemma race_exec_length rate r move : length (rc_cpus (race_exec rate r move)) = length (rc_cpus r).
Proof. unfold race_exec. case_match; [|done]. case_match; subst. case_match; subst. apply length_insert. Qed.

Lemma race_exec_run rate tmax moves : forall r,
  forallb (fun m => (fst m <? length (rc_cpus r))%nat && (0 <=? snd m) && (snd m <=? tmax)) moves = true ->
  rtc (race_step rate tmax) r (fold_left (race_exec rate) moves r).
Proof.
  induction moves as [|[i clock] moves IH]; intros r Hm; [reflexivity|]. cbn [forallb fst snd] in Hm. cbn [fold_left].
  apply andb_true_iff in Hm as [[[Hi Hc1]%andb_true_iff Hc2]%andb_true_iff Hm]. apply Nat.ltb_lt in Hi. apply Z.leb_le in Hc1, Hc2.
  apply (rtc_l _ _ (race_exec rate r (i, clock))); [apply race_exec_step; [lia | now apply lookup_lt_is_Some]|]. apply IH. now rewrite race_exec_length.
Qed.

(** Two CPUs at 50 tokens a second: the first is elected and computes its
    refill, the second is elected four seconds later and computes its own on the
    same reading of [tokens]; both are added. *)
Definition late : Z := 2 ^ 33.
Definition overlapping : list (nat * Z) :=
  [(0%nat, late); (0%nat, 0); (0%nat, 0); (0%nat, 0); (1%nat, 2 * late); (1%nat, 0); (1%nat, 0); (1%nat, 0); (0%nat, 0); (1%nat, 0)].
Definition two_cpus (tok : Z) : race := Race (Tbkt tok 0) (replicate 2 Idle) 0 0.
Definition overlapped : race := fold_left (race_exec 50) overlapping (two_cpus 0).

(** The refill is clamped to the room it sees, but two that overlap leave twice the burst. *)
Lemma refills_overshoot : tokens (rc_bucket overlapped) = 2 * tbkt_burst 50.
Proof. vm_compute. reflexivity. Qed.

(** One CPU loses four times to the other and lets its packet through: six
    packets on five tokens. *)
Definition losing : list (nat * Z) :=
  ([(1%nat, 0); (1%nat, 0)] ++ concat (replicate 4 [(1%nat, 0); (0%nat, 0); (0%nat, 0); (0%nat, 0); (0%nat, 0); (1%nat, 0)]) ++ [(0%nat, 0); (0%nat, 0); (0%nat, 0); (0%nat, 0)]).
Definition contended : race := fold_left (race_exec 50) losing (two_cpus 5000).

Lemma open_on_contention : rc_paid contended = 5 /\ rc_open contended = 1 /\ tokens (rc_bucket contended) = 0.
Proof. vm_compute. done. Qed.

Theorem contended_admission_witness : rtc (race_step 50 0) (two_cpus 5000) contended /\ admitted contended = 6 /\
  4 * (2 ^ 20 * 1000 * admitted contended) <= (2 + 3) * (2 ^ 20 * 5000) + (2 - 1) * (1000 * 0).
Proof.
  assert (Hr : rtc (race_step 50 0) (two_cpus 5000) contended) by (apply race_exec_run; reflexivity).
  split; [exact Hr|]. split; [vm_compute; reflexivity|].
  exact (proj2 (contended_admission 50 0 (Tbkt 5000 0) 2 contended ltac:(lia) ltac:(lia) ltac:(cbn; lia) ltac:(cbn; lia) ltac:(cbn; lia) ltac:(lia) Hr)).
Defined.
