(* ===== verification/GoText.v ===== *)
(** * GoText: the parts of Go's [strings] and [strconv] the program uses

    A Go string is its bytes ([String.string]).  Only the standard-library
    functions that the sources under src/ call are here, each with the lemmas
    the components need. *)

From Stdlib Require Import ZArith Lia Bool Ascii String.
From stdpp Require Import prelude strings list.
From S2P Require Import Prelude.

Local Open Scope string_scope.
Local Open Scope Z_scope.

(** stdpp blocks the reduction of [append]; the lemmas below want it. *)
#[global] Arguments String.append : simpl nomatch.

(** ** Bytes *)

Definition code (c : ascii) : Z := Z.of_N (N_of_ascii c).
Definition is_digit (c : ascii) : bool := (48 <=? code c) && (code c <=? 57).
Definition digit_val (c : ascii) : Z := code c - 48.
Definition digit_char (d : Z) : ascii := ascii_of_N (Z.to_N (48 + d)).

(** ** Slicing: [s[n:]], [s[:n]], [len(s)], [s[i]] *)

Fixpoint str_drop (n : nat) (s : string) : string :=
  match n, s with
  | O, _ => s
  | S n', String _ s' => str_drop n' s'
  | S _, EmptyString => EmptyString
  end.

Fixpoint str_take (n : nat) (s : string) : string :=
  match n, s with
  | S n', String c s' => String c (str_take n' s')
  | _, _ => EmptyString
  end.

Fixpoint str_get (n : nat) (s : string) : option ascii :=
  match s, n with
  | EmptyString, _ => None
  | String c _, O => Some c
  | String _ s', S n' => str_get n' s'
  end.

Fixpoint str_rev_app (s acc : string) : string :=
  match s with
  | EmptyString => acc
  | String c s' => str_rev_app s' (String c acc)
  end.

Definition str_rev (s : string) : string := str_rev_app s "".

(** [strings.IndexByte] and [strings.LastIndexByte]; [None] is -1. *)
Fixpoint index_byte (c : ascii) (s : string) : option nat :=
  match s with
  | EmptyString => None
  | String d s' => if Ascii.eqb c d then Some O else S <$> index_byte c s'
  end.

Fixpoint last_index_byte (c : ascii) (s : string) : option nat :=
  match s with
  | EmptyString => None
  | String d s' =>
      match last_index_byte c s' with
      | Some i => Some (S i)
      | None => if Ascii.eqb c d then Some O else None
      end
  end.

(** [strings.HasPrefix], [TrimPrefix], [HasSuffix] and [TrimSuffix]. *)
Fixpoint cut_prefix (p s : string) : option string :=
  match p, s with
  | EmptyString, _ => Some s
  | String c p', String d s' => if Ascii.eqb c d then cut_prefix p' s' else None
  | String _ _, EmptyString => None
  end.

Definition HasPrefix (s p : string) : bool := match cut_prefix p s with Some _ => true | None => false end.
Definition TrimPrefix (s p : string) : string := default s (cut_prefix p s).

Definition cut_suffix (p s : string) : option string :=
  match cut_prefix (str_rev p) (str_rev s) with Some r => Some (str_rev r) | None => None end.

Definition HasSuffix (s p : string) : bool := match cut_suffix p s with Some _ => true | None => false end.
Definition TrimSuffix (s p : string) : string := default s (cut_suffix p s).

(** [strings.Contains] and [strings.Cut]. *)
Fixpoint Contains (s p : string) : bool :=
  HasPrefix s p || match s with EmptyString => false | String _ s' => Contains s' p end.

Fixpoint Cut (s sep : string) : option (string * string) :=
  match cut_prefix sep s with
  | Some r => Some (EmptyString, r)
  | None => match s with
            | EmptyString => None
            | String c s' => match Cut s' sep with
                             | Some (a, b) => Some (String c a, b)
                             | None => None
                             end
            end
  end.

(** [strings.Split] on a one-byte separator: always at least one part. *)
Fixpoint Split (s : string) (sep : ascii) : list string :=
  match s with
  | EmptyString => [EmptyString]
  | String c s' =>
      let r := Split s' sep in
      if Ascii.eqb c sep then EmptyString :: r
      else match r with
           | [] => [String c EmptyString]
           | w :: ws => String c w :: ws
           end
  end.

Fixpoint Join (l : list string) (sep : string) : string :=
  match l with
  | [] => ""
  | [x] => x
  | x :: r => x ++ sep ++ Join r sep
  end.

(** ** White space

    [unicode.IsSpace] holds of six ASCII bytes and of nineteen other runes;
    these are their UTF-8 encodings.  [TrimSpace] strips such encodings from
    both ends ([utf8.DecodeLastRuneInString] sees one at the end exactly when
    its bytes are the string's last ones). *)
Definition bytes (l : list N) : string := string_of_list_ascii (map ascii_of_N l).

Definition space_encodings : list string :=
  map bytes ([[9]; [10]; [11]; [12]; [13]; [32]; [194; 133]; [194; 160]; [225; 154; 128];
   [226; 128; 128]; [226; 128; 129]; [226; 128; 130]; [226; 128; 131]; [226; 128; 132];
   [226; 128; 133]; [226; 128; 134]; [226; 128; 135]; [226; 128; 136]; [226; 128; 137];
   [226; 128; 138]; [226; 128; 168]; [226; 128; 169]; [226; 128; 175]; [226; 129; 159];
   [227; 128; 128]])%N.

Fixpoint first_cut (encs : list string) (s : string) : option string :=
  match encs with
  | [] => None
  | e :: r => match cut_prefix e s with Some s' => Some s' | None => first_cut r s end
  end.

Fixpoint trim_left_fuel (fuel : nat) (encs : list string) (s : string) : string :=
  match fuel with
  | O => s
  | S n => match first_cut encs s with Some s' => trim_left_fuel n encs s' | None => s end
  end.

Definition TrimLeftSpace (s : string) : string := trim_left_fuel (String.length s) space_encodings s.
Definition TrimRightSpace (s : string) : string :=
  str_rev (trim_left_fuel (String.length s) (map str_rev space_encodings) (str_rev s)).
Definition TrimSpace (s : string) : string := TrimRightSpace (TrimLeftSpace s).

(** [strings.Fields]: split around runs of white space. *)
Fixpoint fields_fuel (fuel : nat) (s cur : string) : list string :=
  let flush := match cur with EmptyString => [] | _ => [str_rev cur] end in
  match fuel with
  | O => flush
  | S n =>
      match first_cut space_encodings s with
      | Some s' => (flush ++ fields_fuel n s' "")%list
      | None => match s with
                | EmptyString => flush
                | String c s' => fields_fuel n s' (String c cur)
                end
      end
  end.

Definition Fields (s : string) : list string := fields_fuel (S (String.length s)) s "".

(** ** Numbers *)

Inductive NumError := ErrSyntax | ErrRange.

(** [strconv.ParseUint(s, 10, bits)]: the value returned beside the error
    is part of the result, because some callers ignore the error. *)
Fixpoint parse_uint_loop (max : Z) (s : string) (n : Z) : Z * option NumError :=
  match s with
  | EmptyString => (n, None)
  | String c s' =>
      if negb (is_digit c) then (0, Some ErrSyntax)
      else let n1 := n * 10 + digit_val c in
           if max <? n1 then (max, Some ErrRange)
           else parse_uint_loop max s' n1
  end.

Definition ParseUint (s : string) (bits : Z) : Z * option NumError :=
  match s with
  | EmptyString => (0, Some ErrSyntax)
  | _ => parse_uint_loop (2 ^ bits - 1) s 0
  end.

(** [strconv.Atoi]: an optional sign, then a 64-bit value. *)
Definition Atoi (s : string) : Z * option NumError :=
  let '(neg, body) :=
    match s with
    | String "-" r => (true, r)
    | String "+" r => (false, r)
    | _ => (false, s)
    end in
  match ParseUint body 64 with
  | (_, Some ErrSyntax) => (0, Some ErrSyntax)
  | (un, _) =>
      if negb neg && (2 ^ 63 <=? un) then (2 ^ 63 - 1, Some ErrRange)
      else if neg && (2 ^ 63 <? un) then (- 2 ^ 63, Some ErrRange)
      else (if neg then - un else un, None)
  end.

(** [strconv.FormatUint(n, 10)] and [Itoa]. *)
Fixpoint format_fuel (fuel : nat) (n : Z) (acc : string) : string :=
  match fuel with
  | O => acc
  | S f =>
      let acc' := String (digit_char (n mod 10)) acc in
      if n <? 10 then acc' else format_fuel f (n / 10) acc'
  end.

(** A number below 2^64 has at most twenty digits. *)
Definition FormatUint (n : Z) : string := format_fuel 20 n "".
Definition Itoa (n : Z) : string := if n <? 0 then "-" ++ FormatUint (- n) else FormatUint n.

(** [bufio.Scanner] on lines: the last one may lack its newline, a final
    carriage return is dropped, and a line of 64 KiB is too long. *)
Definition newline : ascii := "010"%char.

Fixpoint scan_lines (s : string) (cur : string) : list string :=
  match s with
  | EmptyString => match cur with EmptyString => [] | _ => [str_rev cur] end
  | String c r => if Ascii.eqb c newline then str_rev cur :: scan_lines r "" else scan_lines r (String c cur)
  end.

Definition drop_cr (line : string) : string := TrimSuffix line (String "013" "").

(** The lines a scan delivers: it stops at one that is too long. *)
Fixpoint scanned (lines : list string) : list string :=
  match lines with
  | [] => []
  | l :: r => if 65535 <? Z.of_nat (String.length l) then [] else drop_cr l :: scanned r
  end.
Definition scan (s : string) : list string := scanned (scan_lines s "").

(** [fmt.Scanln] into one string: the first word of the line that was typed.
    A line without one, or the end of the input, leaves the string empty; what
    follows the word is an error for the caller, after the word was stored. *)
Fixpoint before_newline (s : string) : string :=
  match s with EmptyString => "" | String c r => if Ascii.eqb c newline then "" else String c (before_newline r) end.
Definition Scanln (input : string) : string := match Fields (before_newline input) with word :: _ => word | [] => "" end.

(** [strings.ToLower] and [ToUpper]: the ASCII letters.  The searched text is
    ASCII; other letters of a query are left as they are. *)
Definition ascii_map (f : Z -> Z) : string -> string :=
  fix go s := match s with EmptyString => EmptyString | String c r => String (ascii_of_N (Z.to_N (f (code c)))) (go r) end.
Definition ToLower : string -> string := ascii_map (fun z => if (65 <=? z) && (z <=? 90) then z + 32 else z).
Definition ToUpper : string -> string := ascii_map (fun z => if (97 <=? z) && (z <=? 122) then z - 32 else z).

(** ** Lemmas *)

Lemma str_app_nil_r s : s ++ "" = s.
Proof. induction s; simpl; congruence. Qed.

Lemma str_app_assoc (a b c : string) : (a ++ b) ++ c = a ++ b ++ c.
Proof. induction a; simpl; congruence. Qed.

Lemma is_digit_range c : is_digit c = true <-> 0 <= digit_val c <= 9.
Proof. unfold is_digit, digit_val. rewrite andb_true_iff, !Z.leb_le. lia. Qed.

Lemma digit_char_facts d : 0 <= d <= 9 -> is_digit (digit_char d) = true /\ digit_val (digit_char d) = d.
Proof.
  intros Hd.
  assert (d = 0 \/ d = 1 \/ d = 2 \/ d = 3 \/ d = 4 \/ d = 5 \/ d = 6 \/ d = 7 \/ d = 8 \/ d = 9)
    as Hc by lia.
  repeat (destruct Hc as [->|Hc]; [vm_compute; split; reflexivity|]).
  subst. vm_compute; split; reflexivity.
Qed.

Fixpoint all_digits (s : string) : bool :=
  match s with EmptyString => true | String c s' => is_digit c && all_digits s' end.

(** The number a digit string denotes, after a prefix worth [n]. *)
Fixpoint dec_value (s : string) (n : Z) : Z :=
  match s with EmptyString => n | String c s' => dec_value s' (n * 10 + digit_val c) end.

Lemma dec_value_mono s n : all_digits s = true -> 0 <= n -> n <= dec_value s n.
Proof.
  revert n; induction s as [|c s IH]; simpl; intros n Hd Hn; [lia|].
  apply andb_true_iff in Hd as [Hc Hs]. apply is_digit_range in Hc.
  specialize (IH (n * 10 + digit_val c) Hs ltac:(lia)). lia.
Qed.

(** The parser accepts exactly the digit strings whose value fits. *)
Lemma parse_uint_loop_ok max s n v :
  0 <= n -> parse_uint_loop max s n = (v, None) <->
  all_digits s = true /\ v = dec_value s n /\ (s = "" \/ dec_value s n <= max).
Proof.
  revert n v; induction s as [|c s IH]; simpl; intros n v Hn.
  { split; [intros [=]; auto | intros (_ & -> & _); done]. }
  destruct (is_digit c) eqn:Hc; simpl; [|split; [discriminate | intros [? _]; discriminate]].
  apply is_digit_range in Hc.
  destruct (max <? n * 10 + digit_val c) eqn:Hm; zbool.
  - split; [discriminate|]. intros (Hs & _ & [?|Hle]); [discriminate|].
    pose proof (dec_value_mono s (n * 10 + digit_val c) Hs ltac:(lia)). lia.
  - rewrite IH by lia. split; [intros (? & ? & [->|?])|intros (? & ? & [?|?])]; try discriminate;
      repeat split; auto.
Qed.

Lemma dec_value_bound_range max s n v :
  0 <= n <= max -> parse_uint_loop max s n = (v, None) -> 0 <= v <= max.
Proof.
  revert n; induction s as [|c s IH]; simpl; intros n Hn H; [simplify_eq; lia|].
  destruct (is_digit c) eqn:Hc; simpl in H; [|discriminate].
  apply is_digit_range in Hc.
  destruct (max <? n * 10 + digit_val c) eqn:Hm; [discriminate|]. zbool.
  eapply IH; [|exact H]. lia.
Qed.

Lemma ParseUint_range s bits v : 0 <= bits -> ParseUint s bits = (v, None) -> 0 <= v < 2 ^ bits.
Proof.
  intros Hb. unfold ParseUint. destruct s; [discriminate|]. intros H.
  apply dec_value_bound_range in H; [lia|]. pose proof (Z.pow_pos_nonneg 2 bits). lia.
Qed.

Lemma all_digits_app l r : all_digits (l ++ r) = all_digits l && all_digits r.
Proof. induction l; simpl; intros; [done|]. rewrite IHl. apply andb_assoc. Qed.

Lemma dec_value_app l r k : dec_value (l ++ r) k = dec_value r (dec_value l k).
Proof. revert k; induction l; simpl; intros; auto. Qed.

Lemma str_length_app (l r : string) : String.length (l ++ r) = (String.length l + String.length r)%nat.
Proof. induction l; simpl; auto. Qed.

(** Formatting puts the decimal digits of [n] in front of the accumulator. *)
Lemma format_fuel_spec fuel n acc :
  0 <= n < 10 ^ Z.of_nat fuel -> (0 < fuel)%nat ->
  exists ds, format_fuel fuel n acc = ds ++ acc /\ all_digits ds = true /\
             (forall k, dec_value ds k = k * 10 ^ Z.of_nat (String.length ds) + n) /\
             (ds <> "").
Proof.
  revert n acc; induction fuel as [|f IH]; [lia|]. intros n acc Hn _. cbn [format_fuel].
  pose proof (Z.mod_pos_bound n 10 ltac:(lia)).
  destruct (digit_char_facts (n mod 10)) as [Hd Hv]; [lia|].
  destruct (n <? 10) eqn:E; zbool.
  - exists (String (digit_char (n mod 10)) ""). cbn [all_digits dec_value].
    rewrite Hd, Hv. repeat split; [|done]. intros k. simpl. rewrite Z.mod_small by lia. lia.
  - assert (0 < f)%nat as Hf by (destruct f; simpl in *; lia).
    rewrite Nat2Z.inj_succ, Z.pow_succ_r in Hn by lia.
    destruct (IH (n / 10) (String (digit_char (n mod 10)) acc)) as (ds & -> & Ha & Hk & Hne).
    { split; [apply Z.div_pos; lia | apply Z.div_lt_upper_bound; lia]. }
    { done. }
    exists (ds ++ String (digit_char (n mod 10)) "").
    rewrite str_app_assoc. split; [done|].
    rewrite all_digits_app, Ha. simpl. rewrite Hd. split; [done|].
    split; [|destruct ds; discriminate].
    intros k. rewrite dec_value_app, Hk, str_length_app. simpl.
    rewrite Hv, Nat2Z.inj_add, Z.pow_add_r by lia. change (10 ^ Z.of_nat 1) with 10.
    pose proof (Z.div_mod n 10 ltac:(lia)). lia.
Qed.

(** What [FormatUint] prints, [ParseUint] reads back. *)
Lemma ParseUint_FormatUint n bits :
  0 <= bits <= 64 -> 0 <= n < 2 ^ bits -> ParseUint (FormatUint n) bits = (n, None).
Proof.
  intros Hb Hn. unfold FormatUint.
  assert (2 ^ bits <= 2 ^ 64) by (apply Z.pow_le_mono_r; lia).
  destruct (format_fuel_spec 20 n "") as (ds & -> & Ha & Hk & Hne); [simpl; lia|lia|].
  rewrite str_app_nil_r. unfold ParseUint. destruct ds as [|c ds]; [done|].
  specialize (Hk 0). rewrite Z.mul_0_l, Z.add_0_l in Hk.
  apply parse_uint_loop_ok; [lia|]. split; [done|]. split; [done|]. right. lia.
Qed.

(** Any string the formatter prints consists of digits. *)
Lemma FormatUint_digits n : 0 <= n < 10 ^ 20 -> all_digits (FormatUint n) = true /\ FormatUint n <> "".
Proof.
  intros Hn. unfold FormatUint.
  destruct (format_fuel_spec 20 n "") as (ds & -> & Ha & _ & Hne); [simpl; lia|lia|].
  now rewrite str_app_nil_r.
Qed.
