(* ===== verification/TextLemmas.v ===== *)
(** * TextLemmas: facts about Go strings the components share

    Slicing, reversing, splitting and trimming. *)

From Stdlib Require Import ZArith Lia Bool Ascii String.
From stdpp Require Import prelude strings list.
From S2P Require Import Prelude GoText.

Local Open Scope string_scope.
Local Open Scope Z_scope.

(** ** Slices *)

Lemma str_take_drop n s : str_take n s ++ str_drop n s = s.
Proof. revert s. induction n; intros [|c s]; simpl; f_equal; auto. Qed.

Lemma str_take_length n s : (n <= String.length s)%nat -> String.length (str_take n s) = n.
Proof. revert s. induction n; intros [|c s]; simpl; intros; auto; [lia | f_equal; apply IHn; lia]. Qed.

Lemma str_drop_length n s : String.length (str_drop n s) = (String.length s - n)%nat.
Proof. revert s. induction n; intros [|c s]; simpl; auto. Qed.

Lemma concat_cons x l : String.concat "" (x :: l) = x ++ String.concat "" l.
Proof. destruct l; [symmetry; apply str_app_nil_r | reflexivity]. Qed.

Lemma str_take_app_short n a b : (n <= String.length a)%nat -> str_take n (a ++ b) = str_take n a.
Proof. revert a. induction n; intros [|c a]; simpl; intros; auto; [lia | f_equal; apply IHn; lia]. Qed.

Lemma str_drop_app_short n a b : (n <= String.length a)%nat -> str_drop n (a ++ b) = str_drop n a ++ b.
Proof. revert a. induction n; intros [|c a]; simpl; intros; auto; [lia | apply IHn; lia]. Qed.

Lemma str_drop_all n s : (String.length s <= n)%nat -> str_drop n s = "".
Proof. revert s. induction n; intros [|c s]; simpl; intros; auto; [lia | apply IHn; lia]. Qed.

Lemma str_take_all n s : (String.length s <= n)%nat -> str_take n s = s.
Proof. revert s. induction n; intros [|c s]; simpl; intros; auto; [lia | f_equal; apply IHn; lia]. Qed.

(** ** Splitting *)

Lemma Split_nonempty s c : Split s c <> [].
Proof. induction s; cbn; [done|]. destruct (Ascii.eqb _ _); [done|]. now destruct (Split s c). Qed.

Lemma Split_app s t c : Split (s ++ String c t) c = (Split s c ++ Split t c)%list.
Proof.
  induction s as [|d s IH]; cbn [append Split].
  - now rewrite Ascii.eqb_refl.
  - rewrite IH. pose proof (Split_nonempty s c). destruct (Ascii.eqb d c); [done|]. now destruct (Split s c).
Qed.

(** ** Trimming what has no space at its ends *)

Definition starts_digit (s : string) : bool := match s with String c _ => is_digit c | EmptyString => false end.

Definition no_digit_first (e : string) : bool := match e with String c _ => negb (is_digit c) | EmptyString => false end.

Lemma first_cut_digit encs s : forallb no_digit_first encs = true -> starts_digit s = true -> first_cut encs s = None.
Proof.
  destruct s as [|c s]; [done|]. simpl. induction encs as [|[|d e] encs IH]; [done..|].
  simpl. intros [Hd He]%andb_true_iff Hc. destruct (Ascii.eqb d c) eqn:E; [|now apply IH].
  apply Ascii.eqb_eq in E as ->. rewrite Hc in Hd. discriminate.
Qed.

Lemma trim_left_digit n encs s : forallb no_digit_first encs = true -> starts_digit s = true -> trim_left_fuel n encs s = s.
Proof. intros He Hs. destruct n; [done|]. simpl. now rewrite first_cut_digit. Qed.

Lemma str_rev_app_spec l acc : str_rev_app l acc = str_rev l ++ acc.
Proof.
  unfold str_rev. revert acc. induction l as [|c l IH]; intros acc; cbn [str_rev_app]; [done|].
  rewrite IH, (IH (String c "")), str_app_assoc. done.
Qed.

Lemma str_rev_cons c s : str_rev (String c s) = str_rev s ++ String c "".
Proof. unfold str_rev at 1. cbn [str_rev_app]. apply str_rev_app_spec. Qed.

Lemma str_rev_append a b : str_rev (a ++ b) = str_rev b ++ str_rev a.
Proof.
  induction a as [|c a IH]; cbn [append]; [now rewrite str_app_nil_r|]. now rewrite !str_rev_cons, IH, str_app_assoc.
Qed.

Lemma str_rev_rev s : str_rev (str_rev s) = s.
Proof. induction s as [|c s IH]; [done|]. rewrite str_rev_cons, str_rev_append, IH. done. Qed.

Lemma all_digits_rev s : all_digits (str_rev s) = all_digits s.
Proof. induction s as [|c s IH]; [done|]. rewrite str_rev_cons, all_digits_app, IH. cbn [all_digits]. now rewrite andb_true_r, andb_comm. Qed.

Lemma all_digits_starts s : all_digits s = true -> s <> "" -> starts_digit s = true.
Proof. destruct s; simpl; [done|]. now intros [? ?]%andb_true_iff. Qed.

Lemma starts_digit_app a b : starts_digit a = true -> starts_digit (a ++ b) = true.
Proof. now destruct a. Qed.

Lemma TrimSpace_digits s : starts_digit s = true -> starts_digit (str_rev s) = true -> TrimSpace s = s.
Proof.
  intros Hs Hr. unfold TrimSpace, TrimLeftSpace, TrimRightSpace.
  rewrite (trim_left_digit _ space_encodings s), trim_left_digit by (reflexivity || assumption). apply str_rev_rev.
Qed.

Lemma rev_ends_digits a b : all_digits b = true -> b <> "" -> starts_digit (str_rev (a ++ b)) = true.
Proof.
  intros Hb Hn. rewrite str_rev_append. apply starts_digit_app, all_digits_starts; [now rewrite all_digits_rev|].
  intros E. apply Hn. now rewrite <- (str_rev_rev b), E.
Qed.


(** ** Trimming twice trims once *)

Lemma cut_prefix_some p s r : cut_prefix p s = Some r <-> s = p ++ r.
Proof.
  revert s. induction p as [|c p IH]; intros s; cbn [cut_prefix append].
  - split; [now intros [= ->] | now intros ->].
  - destruct s as [|d s]; [done|]. destruct (Ascii.eqb_spec c d) as [->|Hn].
    + rewrite IH. split; [now intros -> | now intros [= ->]].
    + split; [done|]. now intros [= -> ->].
Qed.

Lemma first_cut_none encs s : first_cut encs s = None <-> Forall (fun e => cut_prefix e s = None) encs.
Proof.
  induction encs as [|e encs IH]; cbn [first_cut]; [done|]. rewrite Forall_cons.
  destruct (cut_prefix e s); [split; [done | now intros []] | tauto].
Qed.

Lemma first_cut_shorter encs s r : Forall (fun e => e <> "") encs -> first_cut encs s = Some r ->
  exists e, s = e ++ r /\ e <> "".
Proof.
  intros Hne. induction Hne as [|e encs He Hr IH]; cbn [first_cut]; [done|].
  destruct (cut_prefix e s) as [r'|] eqn:E; [|auto]. intros [= ->]. apply cut_prefix_some in E. eauto.
Qed.

Lemma trim_left_stops n encs s : Forall (fun e => e <> "") encs -> (String.length s <= n)%nat ->
  first_cut encs (trim_left_fuel n encs s) = None.
Proof.
  intros Henc. revert s. induction n as [|n IH]; intros s Hn; cbn [trim_left_fuel].
  - destruct (first_cut encs s) as [r|] eqn:E; [|done]. destruct (first_cut_shorter _ _ _ Henc E) as ([|c e] & -> & He); [done|].
    cbn [append String.length] in Hn. lia.
  - destruct (first_cut encs s) as [r|] eqn:E; [|done]. apply IH.
    destruct (first_cut_shorter _ _ _ Henc E) as ([|c e] & -> & He); [done|].
    cbn [append String.length] in Hn. rewrite str_length_app in Hn. lia.
Qed.

Lemma trim_left_id n encs s : first_cut encs s = None -> trim_left_fuel n encs s = s.
Proof. intros H. destruct n; cbn [trim_left_fuel]; [done | now rewrite H]. Qed.

Lemma trim_left_suffix n encs s : exists a, s = a ++ trim_left_fuel n encs s.
Proof.
  revert s. induction n as [|n IH]; intros s; cbn [trim_left_fuel]; [now exists ""|].
  destruct (first_cut encs s) as [r|] eqn:E; [|now exists ""].
  assert (Hs: exists e, s = e ++ r).
  { clear IH. induction encs as [|e encs IHe]; cbn [first_cut] in E; [done|].
    destruct (cut_prefix e s) eqn:C; [|auto]. injection E as ->. apply cut_prefix_some in C. eauto. }
  destruct Hs as [e ->]. destruct (IH r) as [a Ha]. exists (e ++ a). now rewrite str_app_assoc, <- Ha.
Qed.

Lemma first_cut_prefix encs a b : first_cut encs (a ++ b) = None -> first_cut encs a = None.
Proof.
  rewrite !first_cut_none. intros H. eapply Forall_impl; [exact H|]. intros e He. destruct (cut_prefix e a) as [r|] eqn:E; [|done].
  apply cut_prefix_some in E as ->. exfalso. revert He. rewrite str_app_assoc.
  now rewrite (proj2 (cut_prefix_some e (e ++ r ++ b) (r ++ b))).
Qed.

Lemma TrimSpace_idem s : TrimSpace (TrimSpace s) = TrimSpace s.
Proof.
  assert (Hne: Forall (fun e => e <> "") space_encodings) by (repeat constructor; discriminate).
  assert (Hne': Forall (fun e => e <> "") (map str_rev space_encodings)) by (repeat constructor; discriminate).
  unfold TrimSpace. set (l := TrimLeftSpace s).
  assert (Hl: first_cut space_encodings l = None) by now apply trim_left_stops.
  assert (Hlen: forall x, String.length (str_rev x) = String.length x) by (induction x as [|c x IH]; [done | rewrite str_rev_cons, str_length_app, IH; cbn [String.length]; lia]).
  assert (Hr: TrimLeftSpace (TrimRightSpace l) = TrimRightSpace l).
  { apply trim_left_id. unfold TrimRightSpace.
    destruct (trim_left_suffix (String.length l) (map str_rev space_encodings) (str_rev l)) as [a Ha].
    apply (first_cut_prefix _ _ (str_rev a)). now rewrite <- str_rev_append, <- Ha, str_rev_rev. }
  rewrite Hr. unfold TrimRightSpace at 1. rewrite trim_left_id; [apply str_rev_rev|].
  unfold TrimRightSpace. rewrite str_rev_rev. apply trim_left_stops; [done | now rewrite Hlen].
Qed.
