(* ===== verification/GoFlag.v ===== *)
(** * GoFlag: Go's [flag] package as the subcommands use it

    [FlagSet.Parse] of a set of string, bool and int flags, with the parsers of
    their values: [strconv.ParseBool] and [strconv.ParseInt] in base 0, which
    takes prefixes and underscores.  A set is a map from names to values; the
    sets of the program exit on an error. *)

From Stdlib Require Import ZArith Lia Bool Ascii String.
From stdpp Require Import prelude strings list gmap.
From S2P Require Import Prelude GoText TextLemmas.

Local Open Scope string_scope.
Local Open Scope Z_scope.

(** ** Values *)

Definition ParseBool (s : string) : option bool :=
  if existsb (String.eqb s) ["1"; "t"; "T"; "TRUE"; "true"; "True"] then Some true
  else if existsb (String.eqb s) ["0"; "f"; "F"; "FALSE"; "false"; "False"] then Some false
  else None.

(** [strconv.lower]: the letter in lower case, and other bytes changed too. *)
Definition lower (c : ascii) : Z := Z.lor (code c) 32.

(** The digit a byte stands for in some base up to 36. *)
Definition base_digit (c : ascii) : option Z :=
  if is_digit c then Some (digit_val c)
  else if (97 <=? lower c) && (lower c <=? 122) then Some (lower c - 97 + 10)
  else None.

(** The loop of [strconv.ParseUint] with base 0: the number, whether an
    underscore was seen; [None] is an error of either kind. *)
Fixpoint base0_loop (base : Z) (s : string) (n : Z) (underscores : bool) : option (Z * bool) :=
  match s with
  | EmptyString => Some (n, underscores)
  | String c r =>
      if Ascii.eqb c "_" then base0_loop base r n true
      else match base_digit c with
           | None => None
           | Some d =>
               if base <=? d then None
               else if 2 ^ 64 - 1 <? n * base + d then None
               else base0_loop base r (n * base + d) underscores
           end
  end.

(** The base and the digits: the prefix needs a third byte. *)
Definition base0_prefix (s : string) : Z * string :=
  match s with
  | String "0" (String p (String _ _ as r)) =>
      if lower p =? 98 then (2, r) else if lower p =? 111 then (8, r) else if lower p =? 120 then (16, r)
      else (8, String p r)
  | String "0" r => (8, r)
  | _ => (10, s)
  end.

(** [strconv.underscoreOK]: an underscore stands between two digits, the base
    prefix counting as one. *)
Inductive saw := SawStart | SawDigit | SawUnderscore | SawOther.

Fixpoint underscore_loop (hex : bool) (i : saw) (s : string) : bool :=
  match s with
  | EmptyString => match i with SawUnderscore => false | _ => true end
  | String c r =>
      if is_digit c || (hex && (97 <=? lower c) && (lower c <=? 102)) then underscore_loop hex SawDigit r
      else if Ascii.eqb c "_" then match i with SawDigit => underscore_loop hex SawUnderscore r | _ => false end
      else match i with SawUnderscore => false | _ => underscore_loop hex SawOther r end
  end.

Definition underscoreOK (s : string) : bool :=
  match s with
  | String "0" (String p r) =>
      if (lower p =? 98) || (lower p =? 111) || (lower p =? 120) then underscore_loop (lower p =? 120) SawDigit r
      else underscore_loop false SawStart s
  | _ => underscore_loop false SawStart s
  end.

Definition ParseUint0 (s : string) : option Z :=
  match s with
  | EmptyString => None
  | _ => let '(base, digits) := base0_prefix s in
         match base0_loop base digits 0 false with
         | None => None
         | Some (n, underscores) => if underscores && negb (underscoreOK s) then None else Some n
         end
  end.

(** [strconv.ParseInt(s, 0, 64)] *)
Definition ParseInt0 (s : string) : option Z :=
  let '(neg, body) := match s with
    | String "-" r => (true, r)
    | String "+" r => (false, r)
    | _ => (false, s)
    end in
  match ParseUint0 body with
  | None => None
  | Some un =>
      if negb neg && (2 ^ 63 <=? un) then None
      else if neg && (2 ^ 63 <? un) then None
      else Some (if neg then - un else un)
  end.

(** ** Flag sets *)

Inductive flag_value := VString (s : string) | VBool (b : bool) | VInt (z : Z).

Abbreviation FlagSet := (gmap string flag_value).

(** [flag.Value.Set]; a value keeps its kind. *)
Definition set_value (v : flag_value) (s : string) : option flag_value :=
  match v with
  | VString _ => Some (VString s)
  | VBool _ => VBool <$> ParseBool s
  | VInt _ => VInt <$> ParseInt0 s
  end.

Inductive FlagError := ErrHelp | EBadSyntax (arg : string) | EUndefined (name : string) | ENeedsArgument (name : string)
  | EInvalidValue (value name : string).

(** What an argument is to [parseOne]. *)
Inductive token := TPositional | TTerminator | TBad | TFlag (name : string) (value : option string).

(** The name and the value after an equals sign, which is not the first byte. *)
Definition split_value (name : string) : string * option string :=
  match name with
  | EmptyString => (name, None)
  | String c r => match index_byte "=" r with
                  | None => (name, None)
                  | Some i => (String c (str_take i r), Some (str_drop (S i) r))
                  end
  end.

Definition flag_token (name : string) : token :=
  match name with
  | EmptyString => TBad
  | String c _ => if Ascii.eqb c "-" || Ascii.eqb c "=" then TBad
                  else let '(n, v) := split_value name in TFlag n v
  end.

Definition classify (s : string) : token :=
  match s with
  | String "-" (String "-" EmptyString) => TTerminator
  | String "-" (String "-" name) => flag_token name
  | String "-" (String c r) => flag_token (String c r)
  | _ => TPositional
  end.

(** [FlagSet.Parse]: the flags and the arguments that are left.  A flag
    that is not boolean takes the next argument as its value. *)
Fixpoint Parse (fs : FlagSet) (args : list string) : (FlagSet * list string) + FlagError :=
  match args with
  | [] => inl (fs, [])
  | s :: rest =>
      match classify s with
      | TPositional => inl (fs, s :: rest)
      | TTerminator => inl (fs, rest)
      | TBad => inr (EBadSyntax s)
      | TFlag name value =>
          match fs !! name with
          | None => inr (if String.eqb name "help" || String.eqb name "h" then ErrHelp else EUndefined name)
          | Some v =>
              match value, v with
              | Some x, _ =>
                  match set_value v x with None => inr (EInvalidValue x name) | Some v' => Parse (<[name := v']> fs) rest end
              | None, VBool _ => Parse (<[name := VBool true]> fs) rest
              | None, _ =>
                  match rest with
                  | [] => inr (ENeedsArgument name)
                  | x :: rest' =>
                      match set_value v x with None => inr (EInvalidValue x name) | Some v' => Parse (<[name := v']> fs) rest' end
                  end
              end
          end
      end
  end.

(** [flag.ExitOnError] *)
Definition flag_exit (e : FlagError) : Z := match e with ErrHelp => 0 | _ => 2 end.

(** The variables behind the flags. *)
Definition string_flag (fs : FlagSet) (name : string) : string := match fs !! name with Some (VString s) => s | _ => "" end.
Definition bool_flag (fs : FlagSet) (name : string) : bool := match fs !! name with Some (VBool b) => b | _ => false end.
Definition int_flag (fs : FlagSet) (name : string) : Z := match fs !! name with Some (VInt z) => z | _ => 0 end.

Example parse_numbers : map ParseInt0 ["50"; "0"; "-1"; "0x1F"; "1_000"; "010"; "_1"; "1__0"; "0x"; "0x_f"; "9223372036854775808"; ""]
  = [Some 50; Some 0; Some (-1); Some 31; Some 1000; Some 8; None; None; None; Some 15; None; None].
Proof. vm_compute. reflexivity. Qed.

(** ** What is printed is read back *)

Lemma ParseBool_show (b : bool) : ParseBool (if b then "true" else "false") = Some b.
Proof. now destruct b. Qed.

Lemma digit_not_underscore c : is_digit c = true -> Ascii.eqb c "_" = false.
Proof. intros H. destruct (Ascii.eqb_spec c "_") as [->|]; [discriminate H | done]. Qed.

(** On digits in base 10 this is the loop of [ParseUint] in base 10. *)
Lemma base0_loop_digits s : forall n v, all_digits s = true -> parse_uint_loop (2 ^ 64 - 1) s n = (v, None) ->
  base0_loop 10 s n false = Some (v, false).
Proof.
  induction s as [|c s IH]; intros n v Hs Hp; cbn [all_digits parse_uint_loop base0_loop] in *; [congruence|].
  apply andb_true_iff in Hs as [Hc Hs]. rewrite Hc in Hp. cbn [negb] in Hp.
  rewrite (digit_not_underscore _ Hc). unfold base_digit. rewrite Hc. apply is_digit_range in Hc.
  destruct (Z.leb_spec 10 (digit_val c)); [lia|]. case_match; [discriminate|]. now apply IH.
Qed.

(** A positive number is printed without a leading zero. *)
Lemma format_fuel_head fuel : forall n acc, 0 < n < 10 ^ Z.of_nat fuel ->
  match format_fuel fuel n acc with String c _ => c <> "0"%char | EmptyString => False end.
Proof.
  induction fuel as [|f IH]; intros n acc Hn; [cbn in Hn; lia|]. cbn [format_fuel].
  destruct (Z.ltb_spec n 10).
  - rewrite Z.mod_small by lia. intros E. apply (f_equal digit_val) in E.
    destruct (digit_char_facts n) as [_ Hv]; [lia|]. rewrite Hv in E. change (digit_val "0") with 0 in E. lia.
  - apply IH. rewrite Nat2Z.inj_succ, Z.pow_succ_r in Hn by lia.
    split; [apply Z.div_str_pos; lia | apply Z.div_lt_upper_bound; lia].
Qed.

Lemma base0_prefix_digits s : match s with String c _ => c <> "0"%char | EmptyString => False end -> base0_prefix s = (10, s).
Proof.
  destruct s as [|c r]; [done|]. intros Hc. destruct c as [[] [] [] [] [] [] [] []]; try reflexivity. now destruct Hc.
Qed.

Lemma ParseUint0_FormatUint n : 0 <= n < 2 ^ 64 -> ParseUint0 (FormatUint n) = Some n.
Proof.
  intros Hn. destruct (decide (n = 0)) as [->|Hz]; [reflexivity|].
  pose proof (ParseUint_FormatUint n 64 ltac:(lia) Hn) as Hp.
  destruct (FormatUint_digits n) as [Hd Hne]; [lia|].
  pose proof (format_fuel_head 20 n "" ltac:(lia)) as Hh. fold (FormatUint n) in Hh.
  unfold ParseUint0, ParseUint in *. rewrite (base0_prefix_digits _ Hh).
  destruct (FormatUint n) as [|c r]; [done|]. now rewrite (base0_loop_digits _ _ _ Hd Hp).
Qed.

Lemma ParseInt0_unsigned s : all_digits s = true -> ParseInt0 s =
  match ParseUint0 s with Some un => if 2 ^ 63 <=? un then None else Some un | None => None end.
Proof.
  intros Hd. unfold ParseInt0. destruct s as [|c r]; [done|]. cbn [all_digits] in Hd. apply andb_true_iff in Hd as [Hc _].
  destruct c as [[] [] [] [] [] [] [] []]; try discriminate Hc; reflexivity.
Qed.

Lemma ParseInt0_Itoa z : - 2 ^ 63 <= z < 2 ^ 63 -> ParseInt0 (Itoa z) = Some z.
Proof.
  intros Hz. unfold Itoa. destruct (Z.ltb_spec z 0).
  - change ("-" ++ FormatUint (- z)) with (String "-" (FormatUint (- z))). unfold ParseInt0.
    rewrite ParseUint0_FormatUint by lia. cbn [negb andb].
    destruct (Z.ltb_spec (2 ^ 63) (- z)); [lia|]. f_equal. lia.
  - rewrite ParseInt0_unsigned by (apply FormatUint_digits; lia). rewrite ParseUint0_FormatUint by lia.
    now destruct (Z.leb_spec (2 ^ 63) z); [lia|].
Qed.

(** ** Settings written on a command line *)

(** A flag and a value, with one dash or two, the value in the same argument
    or in the next. *)
Record Setting := mkSetting { st_name : string; st_value : flag_value; st_double : bool; st_joined : bool }.

Definition show_value (v : flag_value) : string :=
  match v with VString s => s | VBool b => if b then "true" else "false" | VInt z => Itoa z end.

Definition dashes (st : Setting) : string := if st_double st then "--" else "-".

Definition written (st : Setting) : list string :=
  if st_joined st then [dashes st ++ st_name st ++ "=" ++ show_value (st_value st)]
  else match st_value st with
       | VBool _ => [dashes st ++ st_name st]
       | v => [dashes st ++ st_name st; show_value v]
       end.

Definition assign (fs : FlagSet) (sts : list Setting) : FlagSet :=
  fold_left (fun fs st => <[st_name st := st_value st]> fs) sts fs.

Definition flag_name (s : string) : bool :=
  match s with EmptyString => false | String c _ => negb (Ascii.eqb c "-") end && bool_decide (index_byte "=" s = None).

Definition same_kind (a b : flag_value) : bool :=
  match a, b with VString _, VString _ | VBool _, VBool _ | VInt _, VInt _ => true | _, _ => false end.

(** A setting the set takes: [-b] alone can only set a boolean flag. *)
Definition takes (fs : FlagSet) (st : Setting) : Prop :=
  flag_name (st_name st) = true /\ (exists v, fs !! st_name st = Some v /\ same_kind v (st_value st) = true) /\
  match st_value st with VInt z => - 2 ^ 63 <= z < 2 ^ 63 | VBool b => st_joined st = false -> b = true | VString _ => True end.

Lemma index_byte_app c s t : index_byte c s = None -> index_byte c (s ++ String c t) = Some (String.length s).
Proof.
  induction s as [|d s IH]; cbn; [now rewrite Ascii.eqb_refl|]. case_match; [discriminate|].
  destruct (index_byte c s); [discriminate|]. intros _. now rewrite IH.
Qed.

Lemma index_byte_cons c d s : index_byte c (String d s) = if Ascii.eqb c d then Some O else S <$> index_byte c s.
Proof. done. Qed.

Lemma split_value_alone n : flag_name n = true -> split_value n = (n, None).
Proof.
  unfold flag_name. intros [_ Hn]%andb_true_iff. apply bool_decide_eq_true in Hn. destruct n as [|c r]; [done|].
  rewrite index_byte_cons in Hn. unfold split_value. destruct (index_byte "=" r); [|done]. now destruct (Ascii.eqb "=" c).
Qed.

Lemma take_prefix (s t : string) : str_take (String.length s) (s ++ t) = s.
Proof. rewrite str_take_app_short by lia. apply str_take_all. lia. Qed.

Lemma drop_prefix (s t : string) : str_drop (String.length s) (s ++ t) = t.
Proof. rewrite str_drop_app_short, str_drop_all by lia. reflexivity. Qed.

Lemma split_value_joined n x : flag_name n = true -> split_value (n ++ "=" ++ x) = (n, Some x).
Proof.
  unfold flag_name. intros [Hh Hn]%andb_true_iff. apply bool_decide_eq_true in Hn. destruct n as [|c r]; [discriminate Hh|].
  assert (Hr : index_byte "=" r = None) by (revert Hn; rewrite index_byte_cons; now destruct (Ascii.eqb "=" c), (index_byte "=" r)).
  change (String c r ++ "=" ++ x) with (String c (r ++ String "=" x)). cbn [split_value].
  rewrite index_byte_app, take_prefix by done.
  change (String "=" x) with ("=" ++ x). rewrite <- str_app_assoc.
  replace (S (String.length r)) with (String.length (r ++ "=")) by (rewrite str_length_app; cbn; lia).
  now rewrite drop_prefix.
Qed.

Lemma flag_token_name n suffix : flag_name n = true ->
  flag_token (n ++ suffix) = let '(a, v) := split_value (n ++ suffix) in TFlag a v.
Proof.
  unfold flag_name. intros [Hh He]%andb_true_iff. apply bool_decide_eq_true in He. destruct n as [|c r]; [discriminate Hh|].
  change (String c r ++ suffix) with (String c (r ++ suffix)). unfold flag_token.
  rewrite (Ascii.eqb_sym c "="). rewrite index_byte_cons in He. destruct (Ascii.eqb c "-"); [discriminate Hh|].
  now destruct (Ascii.eqb "=" c).
Qed.

Lemma classify_dashes st suffix : flag_name (st_name st) = true ->
  classify (dashes st ++ st_name st ++ suffix) = flag_token (st_name st ++ suffix).
Proof.
  unfold flag_name. intros [Hh _]%andb_true_iff. unfold dashes.
  destruct (st_name st) as [|c r]; [discriminate Hh|]. destruct (st_double st); [reflexivity|].
  destruct c as [[] [] [] [] [] [] [] []]; try reflexivity; discriminate Hh.
Qed.

Lemma set_show v0 v : same_kind v0 v = true -> match v with VInt z => - 2 ^ 63 <= z < 2 ^ 63 | _ => True end ->
  set_value v0 (show_value v) = Some v.
Proof.
  destruct v0, v; cbn [same_kind set_value show_value]; intros Hk Hz; try discriminate Hk; [done | | ].
  - now rewrite ParseBool_show.
  - now rewrite ParseInt0_Itoa.
Qed.

(** One setting, however it is written. *)
Lemma Parse_setting fs st rest : takes fs st ->
  Parse fs (written st ++ rest) = Parse (<[st_name st := st_value st]> fs) rest.
Proof.
  intros (Hn & (v0 & Hv & Hk) & Hz). unfold written.
  assert (Hs : set_value v0 (show_value (st_value st)) = Some (st_value st)) by (apply set_show; [done | now destruct (st_value st)]).
  destruct (st_joined st).
  - cbn [app Parse]. rewrite classify_dashes, flag_token_name, split_value_joined by done. cbn beta iota. now rewrite Hv, Hs.
  - assert (Hc : classify (dashes st ++ st_name st) = TFlag (st_name st) None).
    { rewrite <- (str_app_nil_r (st_name st)), classify_dashes, flag_token_name, str_app_nil_r, split_value_alone by done. done. }
    destruct (st_value st) as [s|b|z] eqn:E, v0; try discriminate Hk; cbn [app Parse]; rewrite Hc; cbn beta iota; rewrite Hv; cbn beta iota.
    + now rewrite Hs.
    + now rewrite Hz.
    + now rewrite Hs.
Qed.

Lemma takes_insert fs st st' : takes fs st -> takes fs st' -> takes (<[st_name st := st_value st]> fs) st'.
Proof.
  intros (_ & (v & Hv & Hk) & _) (Hn & (v' & Hv' & Hk') & Hz). split; [done|]. split; [|done].
  destruct (decide (st_name st = st_name st')) as [E|E].
  - exists (st_value st). rewrite E, lookup_insert_eq. split; [done|]. rewrite E in Hv. simplify_eq.
    destruct v, (st_value st), (st_value st'); done.
  - exists v'. now rewrite lookup_insert_ne by done.
Qed.

(** Settings are read as written, in order, a later one over an earlier one. *)
Lemma Parse_written sts : forall fs rest, Forall (takes fs) sts ->
  Parse fs (concat (map written sts) ++ rest) = Parse (assign fs sts) rest.
Proof.
  induction sts as [|st sts IH]; intros fs rest Hs; [done|]. cbn [map concat assign fold_left]. rewrite <- (assoc_L (++)%list).
  apply Forall_cons in Hs as [Hst Hs]. rewrite Parse_setting by done. apply IH.
  apply (Forall_impl _ _ _ Hs). intros. now apply takes_insert.
Qed.

(** ** Flags that no argument names *)

Definition mentions (name arg : string) : bool := match classify arg with TFlag n _ => String.eqb n name | _ => false end.

(** Flags keep their kind, and one no argument names keeps its value. *)
Lemma Parse_untouched n name args : (length args <= n)%nat -> Forall (fun a => mentions name a = false) args ->
  forall fs fs' rest, Parse fs args = inl (fs', rest) -> fs' !! name = fs !! name.
Proof.
  revert args. induction n as [|n IH]; intros args Hn Ha fs fs' rest; (destruct args as [|a args]; [now intros [= <- <-]|]); cbn in Hn; [lia|].
  apply Forall_cons in Ha as [Hm Ha]. unfold mentions in Hm. cbn [Parse].
  destruct (classify a) as [| | |m value]; try (intros [=]; congruence). apply String.eqb_neq in Hm.
  assert (Hset : forall v fs', Parse (<[m := v]> fs) args = inl (fs', rest) -> fs' !! name = fs !! name).
  { intros v f Hp. rewrite (IH args ltac:(lia) Ha _ _ _ Hp). now apply lookup_insert_ne. }
  destruct (fs !! m) as [v|]; [|discriminate].
  destruct value as [x|].
  { destruct (set_value v x); [apply Hset | discriminate]. }
  destruct v; [| apply Hset |]; (destruct args as [|x args]; [discriminate|]); apply Forall_cons in Ha as [_ Ha]; cbn in Hn;
    (destruct (set_value _ x); [|discriminate]); intros Hp; rewrite (IH args ltac:(lia) Ha _ _ _ Hp); now apply lookup_insert_ne.
Qed.

Lemma Parse_unmentioned name args fs fs' rest : Parse fs args = inl (fs', rest) ->
  Forall (fun a => mentions name a = false) args -> fs' !! name = fs !! name.
Proof. intros Hp Ha. exact (Parse_untouched (length args) name args ltac:(lia) Ha _ _ _ Hp). Qed.

(** Parsing stops at the first argument that is no flag, or after [--]. *)
Definition ends_flags (rest : list string) : bool :=
  match rest with [] => true | a :: _ => match classify a with TPositional | TTerminator => true | _ => false end end.

Lemma Parse_ends fs sts rest : Forall (takes fs) sts -> ends_flags rest = true ->
  exists rest', Parse fs (concat (map written sts) ++ rest) = inl (assign fs sts, rest').
Proof.
  intros Hs He. rewrite Parse_written by done. destruct rest as [|a rest]; [eexists; reflexivity|].
  cbn [ends_flags Parse] in *. destruct (classify a); try discriminate He; eexists; reflexivity.
Qed.
