(* ===== verification/GoNet.v ===== *)
(** * GoNet: the parts of Go's [net] and [net/netip] the program uses

    [ParseIP], [To4], [SplitHostPort], [ParseCIDR], [IPNet.String] and
    [IPNet.Contains], IPv6 notation included, because the program calls the
    general parsers and then asks for the IPv4 form. *)

From Stdlib Require Import ZArith Lia Bool Ascii String.
From stdpp Require Import prelude strings list.
From S2P Require Import Prelude GoText.

Local Open Scope string_scope.
Local Open Scope Z_scope.

(** ** IP addresses: byte slices of length 4 or 16 *)

Definition v4InV6Prefix : list Z := [0; 0; 0; 0; 0; 0; 0; 0; 0; 0; 255; 255].
Definition IPv4 (a b c d : Z) : list Z := (v4InV6Prefix ++ [a; b; c; d])%list.

Definition To4 (ip : list Z) : option (list Z) :=
  if (length ip =? 4)%nat then Some ip
  else if (length ip =? 16)%nat && bool_decide (take 12 ip = v4InV6Prefix) then Some (drop 12 ip)
  else None.

Definition To16 (ip : list Z) : option (list Z) :=
  if (length ip =? 4)%nat then Some (v4InV6Prefix ++ ip)%list
  else if (length ip =? 16)%nat then Some ip else None.

(** ** Parsing (netip.ParseAddr) *)

(** [parseIPv4Fields]: [start] says that the byte is the first one or follows
    a dot. *)
Fixpoint parse4_loop (s : string) (start : bool) (val digLen pos : Z) (fields : list Z) : option (list Z) :=
  match s with
  | EmptyString => if pos <? 3 then None else Some (fields ++ [val])%list
  | String c r =>
      if is_digit c then
        if (digLen =? 1) && (val =? 0) then None
        else let v := val * 10 + digit_val c in
             if 255 <? v then None else parse4_loop r false v (digLen + 1) pos fields
      else if Ascii.eqb c "." then
        if start || match r with EmptyString => true | _ => false end then None
        else if pos =? 3 then None
        else parse4_loop r true 0 0 (pos + 1) (fields ++ [val])%list
      else None
  end.

Definition parseIPv4Fields (s : string) : option (list Z) := parse4_loop s true 0 0 0 [].

Definition hex_val (c : ascii) : option Z :=
  let z := code c in
  if (48 <=? z) && (z <=? 57) then Some (z - 48)
  else if (97 <=? z) && (z <=? 102) then Some (z - 97 + 10)
  else if (65 <=? z) && (z <=? 70) then Some (z - 65 + 10)
  else None.

(** One hex group: how many digits, its value, and what follows. *)
Fixpoint hex_group (s : string) (off : nat) (acc : Z) : option (nat * Z * string) :=
  match s with
  | EmptyString => Some (off, acc, s)
  | String c r =>
      match hex_val c with
      | None => Some (off, acc, s)
      | Some d =>
          let acc' := acc * 16 + d in
          if (3 <? off)%nat then None
          else if 65535 <? acc' then None
          else hex_group r (S off) acc'
      end
  end.

(** The group loop runs while fewer than 16 bytes are written, two per
    round: eight rounds at most. *)
Fixpoint parse6_loop (fuel : nat) (s : string) (ip : list Z) (ellipsis : option nat)
    : option (string * list Z * option nat) :=
  match fuel with
  | O => Some (s, ip, ellipsis)
  | S f =>
      match hex_group s 0 0 with
      | None | Some (O, _, _) => None
      | Some (_, acc, r) =>
          let ip' := (ip ++ [acc / 256; acc mod 256])%list in
          match r with
          | EmptyString => Some ("", ip', ellipsis)
          | String c s1 =>
              if Ascii.eqb c "." then
                if match ellipsis with None => negb (length ip =? 12)%nat | Some _ => false end then None
                else if (16 <? length ip + 4)%nat then None
                else match parseIPv4Fields s with
                     | None => None
                     | Some f4 => Some ("", (ip ++ f4)%list, ellipsis)
                     end
              else if negb (Ascii.eqb c ":") then None
              else match s1 with
                   | EmptyString => None
                   | String c1 s2 =>
                       if Ascii.eqb c1 ":" then
                         match ellipsis, s2 with
                         | Some _, _ => None
                         | None, EmptyString => Some ("", ip', Some (length ip'))
                         | None, _ => parse6_loop f s2 ip' (Some (length ip'))
                         end
                       else parse6_loop f s1 ip' ellipsis
                   end
          end
      end
  end.

Definition parse6_body (s : string) : option (list Z) :=
  let start := match cut_prefix "::" s with Some r => (r, Some O) | None => (s, None) end in
  match start with
  | (EmptyString, Some _) => Some (replicate 16 0)
  | (s0, ell0) =>
      match parse6_loop 8 s0 [] ell0 with
      | Some (EmptyString, ip, ell) =>
          if (length ip <? 16)%nat then
            match ell with
            | None => None
            | Some e => Some (take e ip ++ replicate (16 - length ip) 0 ++ drop e ip)%list
            end
          else match ell with Some _ => None | None => Some ip end
      | _ => None
      end
  end.

(** A parsed address: its family and its 16-byte form; a zone only makes
    callers reject it. *)
Record Addr := mkAddr { addr_is4 : bool; addr_16 : list Z; addr_zone : string }.

Definition parseIPv6 (s : string) : option Addr :=
  match index_byte "%" s with
  | None => (fun ip => mkAddr false ip "") <$> parse6_body s
  | Some i =>
      let zone := str_drop (S i) s in
      match zone with
      | EmptyString => None
      | _ => (fun ip => mkAddr false ip zone) <$> parse6_body (str_take i s)
      end
  end.

(** The first of '.', ':' and '%' decides the family. *)
Fixpoint addr_kind (s : string) : option ascii :=
  match s with
  | EmptyString => None
  | String c r => if Ascii.eqb c "." || Ascii.eqb c ":" || Ascii.eqb c "%" then Some c else addr_kind r
  end.

Definition ParseAddr (s : string) : option Addr :=
  match addr_kind s with
  | Some c =>
      if Ascii.eqb c "." then (fun f => mkAddr true (v4InV6Prefix ++ f)%list "") <$> parseIPv4Fields s
      else if Ascii.eqb c ":" then parseIPv6 s
      else None
  | None => None
  end.

(** [net.ParseIP]; the program always goes on with [.To4()], which is nil on nil. *)
Definition ParseIP (s : string) : option (list Z) :=
  match ParseAddr s with
  | Some a => match addr_zone a with EmptyString => Some (addr_16 a) | _ => None end
  | None => None
  end.

Definition parse_to4 (s : string) : option (list Z) :=
  match ParseIP s with Some ip => To4 ip | None => None end.

(** ** Printing *)

Definition ip4_string (f : list Z) : string := Join (map FormatUint f) ".".

Definition hex_digit (d : Z) : ascii := if d <? 10 then digit_char d else ascii_of_N (Z.to_N (87 + d)).

Definition hex16 (x : Z) : string :=
  let d3 := String (hex_digit (x mod 16)) "" in
  let d2 := String (hex_digit (x / 16 mod 16)) d3 in
  let d1 := String (hex_digit (x / 256 mod 16)) d2 in
  let d0 := String (hex_digit (x / 4096 mod 16)) d1 in
  if x <? 16 then d3 else if x <? 256 then d2 else if x <? 4096 then d1 else d0.

Definition v6u16 (ip : list Z) (i : nat) : Z := default 0 (ip !! (2 * i)%nat) * 256 + default 0 (ip !! (2 * i + 1)%nat).

Fixpoint zero_run (fuel : nat) (ip : list Z) (j : nat) : nat :=
  match fuel with
  | O => j
  | S f => if (j <? 8)%nat && (v6u16 ip j =? 0) then zero_run f ip (S j) else j
  end.

(** The longest run of at least two zero groups, the first one on a tie. *)
Definition zero_span (ip : list Z) : nat * nat :=
  fold_left (fun best i =>
    let j := zero_run 8 ip i in
    if (2 <=? j - i)%nat && (best.2 - best.1 <? j - i)%nat then (i, j) else best)
    (seq 0 8) (255%nat, 255%nat).

Fixpoint ip6_groups (fuel : nat) (ip : list Z) (span : nat * nat) (i : nat) : string :=
  match fuel with
  | O => ""
  | S f =>
      if (8 <=? i)%nat then ""
      else if (i =? span.1)%nat then
        if (8 <=? span.2)%nat then "::"
        else "::" ++ hex16 (v6u16 ip span.2) ++ ip6_groups f ip span (S span.2)
      else (if (0 <? i)%nat then ":" else "") ++ hex16 (v6u16 ip i) ++ ip6_groups f ip span (S i)
  end.

Definition ip6_string (ip : list Z) : string := ip6_groups 8 ip (zero_span ip) 0.

(** [IP.String] on the lengths the program produces. *)
Definition IP_String (ip : list Z) : string :=
  match To4 ip with
  | Some f => ip4_string f
  | None => ip6_string ip
  end.

(** ** Networks *)

Record IPNet := mkNet { net_ip : list Z; net_mask : list Z }.

Fixpoint CIDRMask_bytes (bytes : nat) (n : Z) : list Z :=
  match bytes with
  | O => []
  | S b => if 8 <=? n then 255 :: CIDRMask_bytes b (n - 8)
           else (255 - Z.shiftr 255 n) :: CIDRMask_bytes b 0
  end.

Definition CIDRMask (ones bits : Z) : list Z := CIDRMask_bytes (Z.to_nat (bits / 8)) ones.

(** [IP.Mask]. *)
Definition ip_and (a b : list Z) : list Z := zip_with Z.land a b.
Definition Mask (ip mask : list Z) : option (list Z) :=
  let mask := if (length mask =? 16)%nat && (length ip =? 4)%nat
                 && bool_decide (take 12 mask = replicate 12 255) then drop 12 mask else mask in
  let ip := if (length mask =? 4)%nat && (length ip =? 16)%nat
               && bool_decide (take 12 ip = v4InV6Prefix) then drop 12 ip else ip in
  if (length ip =? length mask)%nat then Some (ip_and ip mask) else None.

(** [dtoi]: value, and the rest of the string when no digit is left out. *)
Fixpoint dtoi_loop (s : string) (n : Z) : option (Z * string) :=
  match s with
  | EmptyString => Some (n, s)
  | String c r =>
      if is_digit c then
        let n' := n * 10 + digit_val c in
        if 16777215 <=? n' then None else dtoi_loop r n'
      else Some (n, s)
  end.

Definition dtoi (s : string) : option (Z * string) :=
  match s with
  | EmptyString => None
  | String c _ => if is_digit c then dtoi_loop s 0 else None
  end.

Definition ParseCIDR (s : string) : option (list Z * IPNet) :=
  match Cut s "/" with
  | None => None
  | Some (addr, mask) =>
      match ParseAddr addr, dtoi mask with
      | Some a, Some (n, EmptyString) =>
          let bits := if addr_is4 a then 32 else 128 in
          match addr_zone a with
          | EmptyString =>
              if (n <? 0) || (bits <? n) then None
              else let m := CIDRMask n bits in
                   match Mask (addr_16 a) m with
                   | Some nip => Some (addr_16 a, mkNet nip m)
                   | None => None
                   end
          | _ => None
          end
      | _, _ => None
      end
  end.

Definition networkNumberAndMask (n : IPNet) : option (list Z * list Z) :=
  let ip := default (net_ip n) (To4 (net_ip n)) in
  let m := net_mask n in
  if negb ((length ip =? 4)%nat || (length ip =? 16)%nat) then None
  else if (length m =? 4)%nat then (if (length ip =? 4)%nat then Some (ip, m) else None)
  else if (length m =? 16)%nat then (if (length ip =? 4)%nat then Some (ip, drop 12 m) else Some (ip, m))
  else None.

(** Leading one bits of a mask byte whose ones are all leading. *)
Definition byte_ones (v : Z) : option Z :=
  match list_find (fun k => v = 255 - Z.shiftr 255 (Z.of_nat k)) (seq 0 8) with
  | Some (_, k) => Some (Z.of_nat k)
  | None => None
  end.

Fixpoint simpleMaskLength (mask : list Z) : option Z :=
  match mask with
  | [] => Some 0
  | v :: r => if v =? 255 then Z.add 8 <$> simpleMaskLength r
              else if forallb (Z.eqb 0) r then byte_ones v else None
  end.

(** A mask that is not a prefix prints in hex. *)
Definition mask_hex (m : list Z) : string :=
  String.concat "" (map (fun b => String (hex_digit (b / 16)) (String (hex_digit (b mod 16)) "")) m).

Definition IPNet_String (n : IPNet) : string :=
  match networkNumberAndMask n with
  | None => "<nil>"
  | Some (nn, m) =>
      match simpleMaskLength m with
      | None => IP_String nn ++ "/" ++ mask_hex m
      | Some l => IP_String nn ++ "/" ++ FormatUint l
      end
  end.

Definition IPNet_Contains (n : IPNet) (ip : list Z) : bool :=
  match networkNumberAndMask n with
  | None => false
  | Some (nn, m) =>
      let x := default ip (To4 ip) in
      (length x =? length nn)%nat && bool_decide (ip_and nn m = ip_and x m)
  end.

(** [IPMask.Size]: the prefix length and the width. *)
Definition Mask_Size (m : list Z) : Z * Z :=
  match simpleMaskLength m with
  | Some l => (l, Z.of_nat (length m) * 8)
  | None => (0, 0)
  end.

(** ** Host and port *)

Definition has_byte (c : ascii) (s : string) : bool :=
  match index_byte c s with Some _ => true | None => false end.

Definition SplitHostPort (hp : string) : option (string * string) :=
  match last_index_byte ":" hp with
  | None => None
  | Some i =>
      let port := str_drop (S i) hp in
      if match hp with String c _ => Ascii.eqb "[" c | EmptyString => false end then
          match index_byte "]" hp with
          | None => None
          | Some e =>
              if (S e =? String.length hp)%nat then None
              else if negb (S e =? i)%nat then None
              else if has_byte "[" (str_drop 1 hp) then None
              else if has_byte "]" (str_drop (S e) hp) then None
              else Some (str_drop 1 (str_take e hp), port)
          end
      else
          let host := str_take i hp in
          if has_byte ":" host then None
          else if has_byte "[" hp then None
          else if has_byte "]" hp then None
          else Some (host, port)
  end.

Definition JoinHostPort (host port : string) : string :=
  if has_byte ":" host || has_byte "%" host then "[" ++ host ++ "]:" ++ port else host ++ ":" ++ port.

(** ** Lemmas *)

(** A statement about all integers of a range is checked by evaluation. *)
Lemma Z_range_ind (n : nat) (P : Z -> Prop) :
  Forall P (map Z.of_nat (seq 0 n)) -> forall v, 0 <= v < Z.of_nat n -> P v.
Proof.
  intros H v Hv. rewrite Forall_forall in H. apply H. apply list_elem_of_In, in_map_iff.
  exists (Z.to_nat v). split; [lia|]. apply in_seq. lia.
Qed.

Ltac by_range := repeat (constructor; [intros; vm_compute; intuition congruence|]); constructor.

Definition is_ip4 (f : list Z) : Prop := length f = 4%nat /\ Forall is_u8 f.

Lemma parse4_loop_inv s start val dl pos fields f :
  0 <= val <= 255 -> 0 <= pos <= 3 -> length fields = Z.to_nat pos -> Forall is_u8 fields ->
  parse4_loop s start val dl pos fields = Some f -> is_ip4 f.
Proof.
  revert start val dl pos fields.
  induction s as [|c r IH]; simpl; intros start val dl pos fields Hv Hp Hl Hf.
  - destruct (pos <? 3) eqn:E; [discriminate|]. zbool. intros [= <-].
    split; [rewrite length_app; simpl; lia|]. apply Forall_app; split; [done|].
    constructor; [unfold is_u8; lia | constructor].
  - case_ifs; try discriminate; intros H.
    + apply is_digit_range in E. zbool. eapply IH in H; eauto. lia.
    + zbool. eapply IH in H; [done|lia|lia| |].
      * rewrite length_app; simpl; lia.
      * apply Forall_app; split; [done|]. constructor; [unfold is_u8; lia | constructor].
Qed.

Lemma parseIPv4Fields_ip4 s f : parseIPv4Fields s = Some f -> is_ip4 f.
Proof. apply parse4_loop_inv; simpl; auto; lia. Qed.

(** One printed octet is read back, whatever follows it. *)
Lemma parse4_octet v : 0 <= v < 256 -> forall rest start pos fields,
  exists dl, parse4_loop (FormatUint v ++ rest) start 0 0 pos fields = parse4_loop rest false v dl pos fields.
Proof.
  revert v. refine (Z_range_ind 256 _ _). simpl.
  repeat (constructor; [intros; eexists; reflexivity|]). constructor.
Qed.

Lemma parse4_dot r v dl pos fields : r <> "" -> pos < 3 ->
  parse4_loop ("." ++ r) false v dl pos fields = parse4_loop r true 0 0 (pos + 1) (fields ++ [v])%list.
Proof. intros Hr Hp. simpl. destruct r; [done|]. simpl. destruct (pos =? 3) eqn:E; [zbool; lia|done]. Qed.

Lemma FormatUint_nonempty v rest : 0 <= v < 256 -> FormatUint v ++ rest <> "".
Proof. intros Hv. destruct (FormatUint_digits v) as [_ H]; [lia|]. destruct (FormatUint v); done. Qed.

Lemma is_ip4_inv f : is_ip4 f -> exists a b c d, f = [a; b; c; d] /\ is_u8 a /\ is_u8 b /\ is_u8 c /\ is_u8 d.
Proof.
  intros [Hl Hf]. destruct f as [|a [|b [|c [|d [|? ?]]]]]; try discriminate.
  rewrite !Forall_cons in Hf. exists a, b, c, d. tauto.
Qed.

(** An octet followed by a dot and more. *)
Lemma parse4_step v r pos fields : 0 <= v < 256 -> r <> "" -> pos < 3 ->
  parse4_loop (FormatUint v ++ "." ++ r) true 0 0 pos fields = parse4_loop r true 0 0 (pos + 1) (fields ++ [v])%list.
Proof.
  intros Hv Hr Hp. destruct (parse4_octet v Hv ("." ++ r) true pos fields) as [dl ->].
  now apply parse4_dot.
Qed.

Lemma parse4_last v pos fields : 0 <= v < 256 -> 3 <= pos ->
  parse4_loop (FormatUint v) true 0 0 pos fields = Some (fields ++ [v])%list.
Proof.
  intros Hv Hp. destruct (parse4_octet v Hv "" true pos fields) as [dl H].
  rewrite str_app_nil_r in H. rewrite H. simpl. destruct (pos <? 3) eqn:E; [zbool; lia|done].
Qed.

#[local] Opaque FormatUint.

Lemma parse_ip4_string f : is_ip4 f -> parseIPv4Fields (ip4_string f) = Some f.
Proof.
  intros (a & b & c & d & -> & Ha & Hb & Hc & Hd)%is_ip4_inv. unfold parseIPv4Fields, ip4_string.
  cbn [map Join]. pose proof (fun r => FormatUint_nonempty _ r Hb). pose proof (fun r => FormatUint_nonempty _ r Hc).
  assert (FormatUint d <> "") by (rewrite <- (str_app_nil_r (FormatUint d)); auto using FormatUint_nonempty).
  rewrite !parse4_step by (auto; lia). now rewrite parse4_last by (auto; lia).
Qed.

(** *** Canonical IPv4 networks *)

Fixpoint no_byte (c : ascii) (s : string) : bool :=
  match s with EmptyString => true | String d r => negb (Ascii.eqb c d) && no_byte c r end.

Lemma no_byte_app c l r : no_byte c (l ++ r) = no_byte c l && no_byte c r.
Proof. induction l; simpl; [done|]. rewrite IHl. apply andb_assoc. Qed.

Lemma Cut_byte c l r : no_byte c l = true -> Cut (l ++ String c r) (String c "") = Some (l, r).
Proof.
  induction l as [|d l IH]; simpl; intros H.
  - rewrite Ascii.eqb_refl. destruct r; done.
  - zbool. rewrite H. now rewrite IH.
Qed.

Lemma all_digits_no_byte c s : is_digit c = false -> all_digits s = true -> no_byte c s = true.
Proof.
  intros Hc. induction s as [|d s IH]; simpl; [done|]. intros H. zbool. rewrite IH by done.
  destruct (Ascii.eqb_spec c d) as [->|]; [congruence|done].
Qed.

Lemma digits_addr_kind s r : all_digits s = true -> addr_kind (s ++ r) = addr_kind r.
Proof.
  induction s as [|d s IH]; simpl; [done|]. intros H. zbool.
  destruct (Ascii.eqb_spec d ".") as [->|]; [done|]. destruct (Ascii.eqb_spec d ":") as [->|]; [done|].
  destruct (Ascii.eqb_spec d "%") as [->|]; [done|]. auto.
Qed.

Lemma octet_digits v : is_u8 v -> all_digits (FormatUint v) = true.
Proof. intros H. apply FormatUint_digits. unfold is_u8 in H. lia. Qed.

Lemma ip4_string_no_slash f : is_ip4 f -> no_byte "/" (ip4_string f) = true.
Proof.
  intros (a & b & c & d & -> & Ha & Hb & Hc & Hd)%is_ip4_inv. unfold ip4_string. cbn [map Join].
  assert (forall v, is_u8 v -> no_byte "/" (FormatUint v) = true) as Hv
    by (intros; apply all_digits_no_byte; [done | now apply octet_digits]).
  now rewrite !no_byte_app, !Hv by done.
Qed.

Lemma ip4_string_kind f : is_ip4 f -> addr_kind (ip4_string f) = Some "."%char.
Proof.
  intros (a & b & c & d & -> & Ha & Hb & Hc & Hd)%is_ip4_inv. unfold ip4_string. cbn [map Join].
  rewrite digits_addr_kind by auto using octet_digits. reflexivity.
Qed.

Lemma ParseAddr_ip4 f : is_ip4 f -> ParseAddr (ip4_string f) = Some (mkAddr true (v4InV6Prefix ++ f)%list "").
Proof. intros Hf. unfold ParseAddr. rewrite ip4_string_kind by done. simpl. now rewrite parse_ip4_string. Qed.

Lemma To4_mapped f : length f = 4%nat -> To4 (v4InV6Prefix ++ f)%list = Some f.
Proof. intros H. do 5 (destruct f as [|? f]; try done). Qed.

Lemma To4_inv ip f : To4 ip = Some f -> length f = 4%nat /\ (ip = f \/ ip = (v4InV6Prefix ++ f)%list).
Proof.
  unfold To4. case_ifs; try discriminate; intros [= <-].
  - split; [now apply Nat.eqb_eq | auto].
  - apply andb_true_iff in E0 as [E1 E2]. apply Nat.eqb_eq in E1. apply bool_decide_eq_true in E2.
    split; [rewrite length_drop; lia|]. right. rewrite <- E2. symmetry. apply take_drop.
Qed.

#[local] Transparent FormatUint.

Lemma mask32_facts n : 0 <= n < 33 ->
  exists a b c d, CIDRMask n 32 = [a; b; c; d] /\ is_u8 a /\ is_u8 b /\ is_u8 c /\ is_u8 d /\
    simpleMaskLength (CIDRMask n 32) = Some n /\ dtoi (FormatUint n) = Some (n, "").
Proof.
  revert n. refine (Z_range_ind 33 _ _). simpl.
  repeat (constructor; [do 4 eexists; repeat split; vm_compute; congruence|]). constructor.
Qed.

Lemma mask128_facts n : 0 <= n < 33 ->
  simpleMaskLength (drop 12 (CIDRMask (96 + n) 128)) = Some n /\
  length (CIDRMask (96 + n) 128) = 16%nat /\
  exists a b c d, CIDRMask (96 + n) 128 = (replicate 12 255 ++ [a; b; c; d])%list /\
    is_u8 a /\ is_u8 b /\ is_u8 c /\ is_u8 d.
Proof.
  revert n. refine (Z_range_ind 33 _ _). simpl.
  repeat (constructor; [split; [reflexivity|split; [reflexivity|do 4 eexists; repeat split; vm_compute; congruence]]|]).
  constructor.
Qed.

Lemma land_u8 x m : is_u8 m -> is_u8 (Z.land x m).
Proof.
  intros [H1 H2]. split.
  - apply Z.land_nonneg. auto.
  - destruct (Z.eq_dec (Z.land x m) 0) as [->|H0]; [lia|].
    assert (0 <= Z.land x m) by (apply Z.land_nonneg; auto).
    apply Z.log2_lt_pow2 with (b := 8); [lia|].
    destruct (Z.eq_dec m 0) as [->|]; [rewrite Z.land_0_r in *; lia|].
    assert (Z.log2 m < 8) by (apply Z.log2_lt_pow2; lia).
    destruct (Z_lt_le_dec x 0).
    + rewrite Z.land_comm in *. destruct (Z_lt_le_dec (Z.log2 (Z.land m x)) 8); [done|].
      exfalso. pose proof (Z.bit_log2 (Z.land m x) ltac:(lia)) as Hb.
      rewrite Z.land_spec, andb_true_iff in Hb. destruct Hb as [Hb _].
      rewrite Z.bits_above_log2 in Hb by lia. discriminate.
    + pose proof (Z.log2_land x m ltac:(lia) ltac:(lia)). lia.
Qed.

Lemma parse6_loop_length fuel s ip ell s' ip' ell' :
  (length ip + 2 * fuel <= 16)%nat -> parse6_loop fuel s ip ell = Some (s', ip', ell') -> (length ip' <= 16)%nat.
Proof.
  revert s ip ell. induction fuel as [|n IH]; simpl; intros s ip ell Hl H; [simplify_eq; lia|].
  destruct (hex_group s 0 0) as [[[[|off] acc] r]|]; try discriminate.
  assert (forall a b : Z, length (ip ++ [a; b])%list = (length ip + 2)%nat) as Hl' by (intros; rewrite length_app; simpl; lia).
  destruct r as [|c s1]; [injection H as <- <- <-; rewrite ?Hl'; lia|].
  destruct (Ascii.eqb c ".").
  - case_match; [discriminate|]. destruct (16 <? length ip + 4)%nat eqn:E; [discriminate|].
    apply Nat.ltb_ge in E. destruct (parseIPv4Fields s) as [f4|] eqn:E4; [|discriminate].
    apply parseIPv4Fields_ip4 in E4 as [E4 _]. injection H as <- <- <-. rewrite length_app. lia.
  - destruct (negb (Ascii.eqb c ":")); [discriminate|]. destruct s1 as [|c1 s2]; [discriminate|].
    destruct (Ascii.eqb c1 ":").
    + destruct ell; [discriminate|]. destruct s2; [injection H as <- <- <-; rewrite ?Hl'; lia|]. apply IH in H; [done|rewrite Hl'; lia].
    + apply IH in H; [done|rewrite Hl'; lia].
Qed.

Lemma parse6_body_length s ip : parse6_body s = Some ip -> length ip = 16%nat.
Proof.
  unfold parse6_body. intros H.
  assert (forall s0 ell0, match parse6_loop 8 s0 [] ell0 with
      | Some (EmptyString, ip, ell) =>
          if (length ip <? 16)%nat then
            match ell with
            | None => None
            | Some e => Some (take e ip ++ replicate (16 - length ip) 0 ++ drop e ip)%list
            end
          else match ell with Some _ => None | None => Some ip end
      | _ => None end = Some ip -> length ip = 16%nat) as Hloop.
  { clear H. intros s0 ell0. destruct (parse6_loop 8 s0 [] ell0) as [[[s' ip'] ell]|] eqn:E; [|discriminate].
    apply parse6_loop_length in E; [|simpl; lia]. destruct s'; [|discriminate].
    destruct (length ip' <? 16)%nat eqn:El; [apply Nat.ltb_lt in El | apply Nat.ltb_ge in El];
      destruct ell; try discriminate; intros [= <-]; [|lia].
    rewrite !length_app, length_replicate, length_take, length_drop. lia. }
  destruct (cut_prefix "::" s) as [r|]; [destruct r|destruct s]; eauto. now simplify_eq.
Qed.

(** The network a dotted quad and a prefix length denote. *)
Definition canonical_cidr (s : string) (f : list Z) (n : Z) : Prop :=
  is_ip4 f /\ 0 <= n <= 32 /\ ip_and f (CIDRMask n 32) = f /\ s = ip4_string f ++ "/" ++ FormatUint n.

Lemma ip_and_ip4 f n : length f = 4%nat -> 0 <= n <= 32 -> is_ip4 (ip_and f (CIDRMask n 32)).
Proof.
  intros Hf Hn. destruct (mask32_facts n) as (a & b & c & d & -> & Ha & Hb & Hc & Hd & _); [lia|].
  do 5 (destruct f as [|? f]; try done). unfold ip_and. simpl.
  split; [done|]. repeat constructor; now apply land_u8.
Qed.

Lemma ip_and_mapped f m : length f = 4%nat ->
  ip_and (v4InV6Prefix ++ f)%list (replicate 12 255 ++ m)%list = (v4InV6Prefix ++ ip_and f m)%list.
Proof. intros H. do 5 (destruct f as [|? f]; try done). Qed.

Lemma ParseCIDR_canonical f n : is_ip4 f -> 0 <= n <= 32 ->
  ParseCIDR (ip4_string f ++ "/" ++ FormatUint n)
  = Some ((v4InV6Prefix ++ f)%list, mkNet (ip_and f (CIDRMask n 32)) (CIDRMask n 32)).
Proof.
  intros Hf Hn. pose proof (ip_and_ip4 f n (proj1 Hf) Hn) as [Hg _].
  destruct (mask32_facts n) as (a & b & c & d & Hm & _ & _ & _ & _ & _ & Hd); [lia|].
  unfold ParseCIDR. change ("/" ++ FormatUint n) with (String "/" (FormatUint n)).
  rewrite Cut_byte by now apply ip4_string_no_slash.
  rewrite ParseAddr_ip4, Hd by done. cbn [addr_zone addr_is4 addr_16].
  destruct ((n <? 0) || (32 <? n)) eqn:E; [apply orb_true_iff in E as [E|E]; zbool; lia|].
  replace (Mask (v4InV6Prefix ++ f)%list (CIDRMask n 32)) with (Some (ip_and f (CIDRMask n 32))); [done|].
  rewrite Hm in *. destruct f as [|? [|? [|? [|? [|? ?]]]]]; try (destruct Hf; discriminate). done.
Qed.

Lemma IPNet_String_ip4 f n : is_ip4 f -> 0 <= n <= 32 ->
  IPNet_String (mkNet f (CIDRMask n 32)) = ip4_string f ++ "/" ++ FormatUint n.
Proof.
  intros [Hf _] Hn. destruct (mask32_facts n) as (a & b & c & d & Hm & _ & _ & _ & _ & Hs & _); [lia|].
  unfold IPNet_String, networkNumberAndMask. cbn [net_ip net_mask].
  assert (To4 f = Some f) as HT by (unfold To4; now rewrite Hf).
  rewrite HT. change (default f (Some f)) with f. rewrite Hf. cbn -[simpleMaskLength IP_String CIDRMask FormatUint].
  replace (length (CIDRMask n 32)) with 4%nat by (now rewrite Hm). cbn -[simpleMaskLength IP_String CIDRMask FormatUint].
  rewrite Hs. unfold IP_String. now rewrite HT.
Qed.

(** The strings that parse as the network they print are the canonical ones:
    an IPv6 spelling of an IPv4 address never prints itself. *)
Lemma canonical_cidr_complete f n : is_ip4 f -> 0 <= n <= 32 -> ip_and f (CIDRMask n 32) = f ->
  let s := ip4_string f ++ "/" ++ FormatUint n in
  ParseCIDR s = Some ((v4InV6Prefix ++ f)%list, mkNet f (CIDRMask n 32))
  /\ IPNet_String (mkNet f (CIDRMask n 32)) = s.
Proof.
  intros Hf Hn Hm s. split; [|now apply IPNet_String_ip4].
  unfold s. now rewrite ParseCIDR_canonical, Hm.
Qed.

(** The networks of IPv4-mapped addresses with a short prefix. *)
Lemma mapped_short f n : length f = 4%nat -> 0 <= n < 96 ->
  ip_and (v4InV6Prefix ++ f)%list (CIDRMask n 128) = ip_and (v4InV6Prefix ++ [0; 0; 0; 0])%list (CIDRMask n 128).
Proof.
  intros Hf. do 5 (destruct f as [|? f]; try done).
  revert n. refine (Z_range_ind 96 _ _). simpl.
  repeat (constructor; [unfold ip_and; simpl; now rewrite !Z.land_0_r|]). constructor.
Qed.

Definition not_v4 (r : option (list Z * IPNet)) : bool :=
  match r with
  | Some (ip, _) => match To4 ip with None => true | Some _ => false end
  | None => true
  end.

Lemma mapped_short_never n : 0 <= n < 96 -> forall s,
  IPNet_String (mkNet (ip_and (v4InV6Prefix ++ [0; 0; 0; 0])%list (CIDRMask n 128)) (CIDRMask n 128)) = s ->
  not_v4 (ParseCIDR s) = true.
Proof.
  revert n. refine (Z_range_ind 96 _ _). simpl.
  repeat (constructor; [intros s <-; vm_compute; reflexivity|]). constructor.
Qed.

Lemma ParseCIDR_inv s ip net : ParseCIDR s = Some (ip, net) ->
  exists a n, ip = addr_16 a /\ 0 <= n <= (if addr_is4 a then 32 else 128)
    /\ (exists l, ParseAddr l = Some a)
    /\ net_mask net = CIDRMask n (if addr_is4 a then 32 else 128)
    /\ Mask (addr_16 a) (net_mask net) = Some (net_ip net).
Proof.
  unfold ParseCIDR. destruct (Cut s "/") as [[l m]|]; [|discriminate].
  destruct (ParseAddr l) as [a|] eqn:Ea; [|discriminate].
  destruct (dtoi m) as [[n r]|]; [|discriminate]. destruct r; [|discriminate].
  destruct (addr_zone a); [|discriminate].
  destruct (_ || _) eqn:E; [discriminate|]. zbool.
  destruct (Mask _ _) as [nip|] eqn:EM; [|discriminate]. intros [= <- <-].
  exists a, n. cbn. repeat split; eauto.
Qed.

Lemma ParseAddr_inv l a : ParseAddr l = Some a ->
  (addr_is4 a = true /\ exists f, is_ip4 f /\ addr_16 a = (v4InV6Prefix ++ f)%list)
  \/ (addr_is4 a = false /\ length (addr_16 a) = 16%nat).
Proof.
  assert (forall s, parseIPv6 s = Some a -> addr_is4 a = false /\ length (addr_16 a) = 16%nat) as H6.
  { intros s. unfold parseIPv6. destruct (index_byte "%" s); [destruct (str_drop _ _); [discriminate|]|];
      intros (ip & ?%parse6_body_length & ->)%fmap_Some; done. }
  unfold ParseAddr. destruct (addr_kind l) as [c|]; [|discriminate].
  destruct (Ascii.eqb c "."); [|destruct (Ascii.eqb c ":"); [|discriminate]; right; eauto].
  intros H'. left. apply fmap_Some in H' as (f & Hf & ->). split; [done|]. exists f. eauto using parseIPv4Fields_ip4.
Qed.

Lemma length_mask128 n : 0 <= n <= 128 -> length (CIDRMask n 128) = 16%nat.
Proof.
  intros Hn. assert (0 <= n < 129) as H by lia. clear Hn. revert n H. refine (Z_range_ind 129 _ _). simpl.
  repeat (constructor; [reflexivity|]). constructor.
Qed.

Lemma Mask_16 ip m : length ip = 16%nat -> length m = 16%nat -> Mask ip m = Some (ip_and ip m).
Proof.
  intros Hi Hm. do 17 (destruct ip as [|? ip]; try done). do 17 (destruct m as [|? m]; try done).
Qed.

Lemma IPNet_String_mapped g m k : length g = 4%nat -> length m = 16%nat -> simpleMaskLength (drop 12 m) = Some k ->
  IPNet_String (mkNet (v4InV6Prefix ++ g)%list m) = ip4_string g ++ "/" ++ FormatUint k.
Proof.
  intros Hg Hm Hk. unfold IPNet_String, networkNumberAndMask. cbn [net_ip net_mask].
  rewrite To4_mapped by done. change (default _ (Some g)) with g.
  rewrite Hg, Hm. cbn -[simpleMaskLength IP_String FormatUint drop]. rewrite Hk.
  unfold IP_String. assert (To4 g = Some g) as -> by (unfold To4; now rewrite Hg). done.
Qed.

(** An IPv6 spelling of an IPv4 address never prints itself as a network. *)
Lemma mapped_short_contra s f0 n : length f0 = 4%nat -> 0 <= n < 96 ->
  let net := mkNet (ip_and (v4InV6Prefix ++ f0)%list (CIDRMask n 128)) (CIDRMask n 128) in
  IPNet_String net = s -> ParseCIDR s <> Some ((v4InV6Prefix ++ f0)%list, net).
Proof.
  intros Hf Hn net HS HP. unfold net in HS. rewrite mapped_short in HS by done.
  apply mapped_short_never in HS; [|done]. rewrite HP in HS. unfold not_v4 in HS.
  rewrite To4_mapped in HS by done. discriminate.
Qed.

Lemma mapped_long_contra s f0 k : length f0 = 4%nat -> 0 <= k <= 32 ->
  let net := mkNet (ip_and (v4InV6Prefix ++ f0)%list (CIDRMask (96 + k) 128)) (CIDRMask (96 + k) 128) in
  IPNet_String net = s -> ParseCIDR s <> Some ((v4InV6Prefix ++ f0)%list, net).
Proof.
  intros Hf Hk net HS HP. unfold net in HS.
  destruct (mask128_facts k) as (Hs & Hl & x & y & z & w & Hm & Hb); [lia|].
  set (m4 := [x; y; z; w]) in *.
  assert (is_ip4 (ip_and f0 m4)) as Hg.
  { unfold ip_and, m4. do 5 (destruct f0 as [|? f0]; try done). simpl.
    split; [done|]. repeat constructor; apply land_u8; tauto. }
  assert (ip_and (v4InV6Prefix ++ f0)%list (CIDRMask (96 + k) 128) = (v4InV6Prefix ++ ip_and f0 m4)%list) as HE.
  { rewrite Hm. now apply ip_and_mapped. }
  rewrite HE, (IPNet_String_mapped _ _ k) in HS; [|apply Hg|done|done].
  pose proof (ParseCIDR_canonical _ k Hg Hk) as HP'. rewrite HS, HP in HP'.
  apply (f_equal (fun o => match o with Some (_, net) => length (net_mask net) | None => 0%nat end)) in HP'.
  unfold net in HP'. cbn [net_mask] in HP'. rewrite Hl in HP'.
  destruct (mask32_facts k) as (? & ? & ? & ? & Hm4 & _); [lia|]. rewrite Hm4 in HP'. discriminate.
Qed.

Lemma canonical_cidr_sound s ip net f0 : ParseCIDR s = Some (ip, net) -> To4 ip = Some f0 -> IPNet_String net = s ->
  exists f n, canonical_cidr s f n /\ net = mkNet f (CIDRMask n 32) /\ ip = (v4InV6Prefix ++ f)%list.
Proof.
  intros HP H4 HS.
  destruct (ParseCIDR_inv _ _ _ HP) as (a & n & -> & Hn & (l & Hl) & Hm & HM).
  destruct net as [nip nm]; cbn in Hm, HM; subst nm.
  destruct (ParseAddr_inv _ _ Hl) as [(Ha & f & Hf & Hx)|[Ha Hx]]; rewrite Ha in *; cbn in Hn.
  - assert (nip = ip_and f (CIDRMask n 32)) as ->.
    { destruct (mask32_facts n) as (x & y & z & w & Hm & _); [lia|]. rewrite Hx, Hm in *.
      destruct f as [|? [|? [|? [|? [|? ?]]]]]; try (destruct Hf; discriminate). now injection HM as <-. }
    pose proof (ip_and_ip4 f n (proj1 Hf) ltac:(lia)) as Hg.
    rewrite IPNet_String_ip4 in HS by (auto; lia).
    pose proof (ParseCIDR_canonical _ n Hg ltac:(lia)) as HP'. rewrite HS, HP, Hx in HP'.
    injection HP' as Hfg _. cbn in Hfg. rewrite <- Hfg in HS.
    exists f, n. repeat split; try apply Hf; try lia; [now symmetry|done|now rewrite <- Hfg|done].
  - apply To4_inv in H4 as [Hf0 [H4|H4]]; [rewrite H4 in Hx; lia|]. exfalso.
    rewrite Mask_16 in HM by auto using length_mask128. injection HM as <-. rewrite H4 in *.
    destruct (Z_lt_le_dec n 96) as [Hlt|Hge]; [now eapply (mapped_short_contra s f0 n)|].
    replace n with (96 + (n - 96)) in HP, HS by lia.
    eapply (mapped_long_contra s f0 (n - 96)); eauto. lia.
Qed.

(** *** Every parsed address consists of bytes *)

Lemma hex_val_range c d : hex_val c = Some d -> 0 <= d < 16.
Proof. unfold hex_val. intros H. case_ifs_in H; injection H as <-; zlia. Qed.

Lemma hex_group_range s : forall off acc off' acc' r,
  0 <= acc < 65536 -> hex_group s off acc = Some (off', acc', r) -> 0 <= acc' < 65536.
Proof.
  induction s as [|c s IH]; simpl; intros off acc off' acc' r Ha H; [now simplify_eq|].
  destruct (hex_val c) as [d|] eqn:E; [|now simplify_eq]. apply hex_val_range in E.
  case_ifs_in H. zbool. eapply IH in H; [done|lia].
Qed.

Lemma parse6_loop_u8 fuel s ip ell s' ip' ell' :
  Forall is_u8 ip -> parse6_loop fuel s ip ell = Some (s', ip', ell') -> Forall is_u8 ip'.
Proof.
  revert s ip ell. induction fuel as [|n IH]; simpl; intros s ip ell Hl H; [now simplify_eq|].
  destruct (hex_group s 0 0) as [[[[|off] acc] r]|] eqn:Eg; try discriminate.
  apply hex_group_range in Eg; [|lia].
  assert (Forall is_u8 (ip ++ [acc / 256; acc mod 256])%list) as Hl'.
  { apply Forall_app; split; [done|]. repeat constructor; try apply Z.mod_pos_bound; try apply Z.div_pos; try lia.
    apply Z.div_lt_upper_bound; lia. }
  destruct r as [|c s1]; [now injection H as <- <- <-|].
  destruct (Ascii.eqb c ".").
  - case_match; [discriminate|]. case_ifs_in H.
    destruct (parseIPv4Fields s) as [f4|] eqn:E4; [|discriminate].
    apply parseIPv4Fields_ip4 in E4 as [_ E4]. injection H as <- <- <-. now apply Forall_app.
  - case_ifs_in H. destruct s1 as [|c1 s2]; [discriminate|].
    case_ifs_in H; [|now apply IH in H].
    destruct ell; [discriminate|]. destruct s2; [now injection H as <- <- <-|]. now apply IH in H.
Qed.

Lemma parse6_body_u8 s ip : parse6_body s = Some ip -> Forall is_u8 ip.
Proof.
  assert (forall n, Forall is_u8 (replicate n 0)) as H0.
  { intros n. apply Forall_replicate. unfold is_u8. lia. }
  unfold parse6_body. intros H.
  set (st := match cut_prefix "::" s with Some r => (r, Some 0%nat) | None => (s, None) end) in H.
  destruct st as [s0 ell0].
  assert (match parse6_loop 8 s0 [] ell0 with
      | Some (EmptyString, ip, ell) =>
          if (length ip <? 16)%nat then
            match ell with
            | None => None
            | Some e => Some (take e ip ++ replicate (16 - length ip) 0 ++ drop e ip)%list
            end
          else match ell with Some _ => None | None => Some ip end
      | _ => None end = Some ip -> Forall is_u8 ip) as Hloop.
  { clear H. destruct (parse6_loop 8 s0 [] ell0) as [[[s' ip'] ell]|] eqn:E; [|discriminate].
    apply parse6_loop_u8 in E; [|constructor]. destruct s'; [|discriminate].
    destruct (_ <? _)%nat; destruct ell; try discriminate; intros [= <-]; [|done].
    apply Forall_app; split; [now apply Forall_take|]. apply Forall_app; split; [apply H0|now apply Forall_drop]. }
  destruct s0, ell0; auto. injection H as <-. apply (H0 16%nat).
Qed.

Lemma parse_to4_ip4 s f : parse_to4 s = Some f -> is_ip4 f.
Proof.
  unfold parse_to4, ParseIP. destruct (ParseAddr s) as [a|] eqn:Ea; [|discriminate].
  destruct (addr_zone a); [|discriminate]. intros [H4 H]%To4_inv. split; [done|].
  assert (Forall is_u8 (addr_16 a)) as Hu.
  { unfold ParseAddr in Ea. destruct (addr_kind s); [|discriminate].
    assert (Forall is_u8 v4InV6Prefix) by (repeat constructor; unfold is_u8; lia).
    case_ifs_in Ea; [apply fmap_Some in Ea as (g & [_ Hg]%parseIPv4Fields_ip4 & ->); now apply Forall_app|].
    unfold parseIPv6 in Ea.
    destruct (index_byte "%" s); [destruct (str_drop _ _); [discriminate|]|];
      apply fmap_Some in Ea as (g & ?%parse6_body_u8 & ->); done. }
  destruct H as [<-|H]; [done|]. rewrite H in Hu. now apply Forall_app in Hu.
Qed.

Lemma parse_to4_string f : is_ip4 f -> parse_to4 (ip4_string f) = Some f.
Proof.
  intros Hf. unfold parse_to4, ParseIP. rewrite ParseAddr_ip4 by done. cbn [addr_zone addr_16].
  apply To4_mapped, Hf.
Qed.

(** ** Cutting at a byte *)

Lemma no_byte_text c s : no_byte c s = true -> (forall r, Split (s ++ String c r) c = s :: Split r c) /\ Split s c = [s].
Proof.
  induction s as [|d s IH]; intros Hs; cbn [append Split].
  - rewrite Ascii.eqb_refl. split; [done|]. done.
  - cbn [no_byte] in Hs. apply andb_true_iff in Hs as [Hd Hs]. apply negb_true_iff in Hd. destruct (IH Hs) as [I1 I2].
    rewrite Ascii.eqb_sym in Hd. rewrite Hd. split; [intros r; now rewrite I1 | now rewrite I2].
Qed.

Lemma Split_Join l c : l <> [] -> Forall (fun s => no_byte c s = true) l -> Split (Join l (String c "")) c = l.
Proof.
  intros Hl H. destruct l as [|x l]; [done|]. clear Hl. revert x H. induction l as [|y l IH]; intros x [Hx Hl]%Forall_cons.
  - now apply no_byte_text.
  - change (Join (x :: y :: l) (String c "")) with (x ++ String c (Join (y :: l) (String c ""))).
    rewrite (proj1 (no_byte_text c x Hx)), IH by done. done.
Qed.

Lemma last_index_app c l r : no_byte c r = true -> last_index_byte c (l ++ String c r) = Some (String.length l).
Proof.
  intros Hr. assert (last_index_byte c r = None) as Hn.
  { induction r as [|d r IH]; simpl in *; [done|]. zbool. rewrite IH by done. now rewrite H. }
  induction l as [|d l IH]; simpl; [now rewrite Hn, Ascii.eqb_refl | now rewrite IH].
Qed.

