(* ===== verification/GoFloat.v ===== *)
(** * GoFloat: Go's float64

    IEEE 754 binary64 with round to nearest even, executed by the Standard
    Library's specification floats (one NaN suffices: the program never
    looks at NaN payloads). *)

From Corelib Require Import SpecFloat.
From Stdlib Require Import ZArith Lia Bool.
From stdpp Require Import prelude.
From S2P Require Import Prelude.

Local Open Scope Z_scope.

Definition f64 : Type := spec_float.

Definition f64_of_Z (z : Z) : f64 := binary_normalize 53 1024 z 0 false.
Definition fmul : f64 -> f64 -> f64 := SFmul 53 1024.
Definition fdiv : f64 -> f64 -> f64 := SFdiv 53 1024.
Definition fadd : f64 -> f64 -> f64 := SFadd 53 1024.
Definition feqb : f64 -> f64 -> bool := SFeqb.
Definition fltb : f64 -> f64 -> bool := SFltb.
Definition fzero : f64 := S754_zero false.

(** [time.Duration]: nanoseconds, and the float readings of one. *)
Definition Second : Z := 1000000000.
Definition dur_in (unit d : Z) : f64 := fadd (f64_of_Z (Z.quot d unit)) (fdiv (f64_of_Z (Z.rem d unit)) (f64_of_Z unit)).
Definition Seconds : Z -> f64 := dur_in Second.
Definition Minutes : Z -> f64 := dur_in (60 * Second).
Definition Hours : Z -> f64 := dur_in (60 * 60 * Second).

(** The conversion [int(x)] of a float in range: towards zero. *)
Definition f64_trunc (x : f64) : Z :=
  match x with
  | S754_finite s m e => let v := if 0 <=? e then Zpos m * 2 ^ e else Zpos m / 2 ^ (- e) in if s then - v else v
  | _ => 0
  end.

Definition IsNaN (x : f64) : bool := match x with S754_nan => true | _ => false end.
Definition IsInf (x : f64) : bool := match x with S754_infinity _ => true | _ => false end.

(** Finite and not negative: what the configuration accepts as a rate. *)
Definition f64_rate (x : f64) : Prop :=
  match x with S754_zero _ => True | S754_finite s _ _ => s = false | _ => False end.

#[export] Instance f64_eq_dec : EqDecision f64.
Proof. intros x y. unfold Decision. decide equality; solve_decision. Defined.

(** Go's [==] on float64 identifies the two zeros and separates NaN from itself. *)
Definition feq (x y : f64) : Prop := feqb x y = true.

Lemma feqb_refl x : IsNaN x = false -> feqb x x = true.
Proof.
  destruct x as [s|s| |s m e]; try done; intros _; destruct s; unfold feqb, SFeqb, SFcompare; try done;
    rewrite ?Z.compare_refl, ?Pos.compare_cont_refl; done.
Qed.

Lemma feqb_eq x y : feqb x y = true -> x = y \/ (exists s t, x = S754_zero s /\ y = S754_zero t).
Proof.
  unfold feqb, SFeqb, SFcompare.
  destruct x as [s|s| |s m e], y as [t|t| |t m' e']; try discriminate;
    repeat match goal with s : bool |- _ => destruct s end; try discriminate;
    try (intros _; left; reflexivity); try (intros _; right; eauto; fail).
  - destruct (e ?= e') eqn:E; try discriminate. apply Z.compare_eq in E as ->.
    destruct (Pos.compare_cont Eq m m') eqn:Em; try discriminate.
    apply Pos.compare_eq in Em as ->. auto.
  - destruct (e ?= e') eqn:E; try discriminate. apply Z.compare_eq in E as ->.
    destruct (Pos.compare_cont Eq m m') eqn:Em; try discriminate.
    apply Pos.compare_eq in Em as ->. auto.
Qed.

(** The rate test of the configuration: not below zero, not NaN, not infinite. *)
Lemma rate_test x : (fltb x fzero || IsNaN x || IsInf x) = false <-> f64_rate x.
Proof. destruct x as [s|s| |s m e]; try destruct s; cbn; split; intros; try done. Qed.
