(* ===== verification/GoFmt.v ===== *)
(** * GoFmt: the formatting verbs the program prints with

    [fmt.Sprintf]'s widths, zero-padded integers, and [%.Nf], which prints
    the exact binary value rounded to even at the last digit. *)

From Corelib Require Import SpecFloat.
From Stdlib Require Import ZArith Lia Bool Ascii String.
From stdpp Require Import prelude strings list.
From S2P Require Import Prelude GoText GoFloat.

Local Open Scope string_scope.
Local Open Scope Z_scope.

Definition nl : string := String "010" "".

Fixpoint spaces (c : ascii) (n : nat) : string :=
  match n with O => "" | S m => String c (spaces c m) end.

(** [%Ns] and [%-Ns] of an ASCII string, [%0Nd]. *)
Definition padl (n : nat) (s : string) : string := spaces " " (n - String.length s) ++ s.
Definition padr (n : nat) (s : string) : string := s ++ spaces " " (n - String.length s).
Definition zpad (n : nat) (z : Z) : string := let s := FormatUint z in spaces "0" (n - String.length s) ++ s.

(** The digits of a number of any size. *)
Definition digits (n : Z) : string := format_fuel (S (Z.to_nat (Z.log2 n))) n "".

(** [a / b] to the nearest integer, ties to even. *)
Definition div_even (a b : Z) : Z :=
  let q := a / b in
  let r := a mod b in
  if 2 * r <? b then q else if b <? 2 * r then q + 1 else if Z.even q then q else q + 1.

Definition fixed_digits (prec : nat) (n : Z) : string :=
  match prec with
  | O => digits n
  | _ => let d := 10 ^ Z.of_nat prec in
         let frac := digits (n mod d) in
         digits (n / d) ++ "." ++ spaces "0" (prec - String.length frac) ++ frac
  end.

(** [%.Nf]. *)
Definition fmt_fixed (prec : nat) (x : f64) : string :=
  match x with
  | S754_nan => "NaN"
  | S754_infinity s => if s then "-Inf" else "+Inf"
  | S754_zero s => (if s then "-" else "") ++ fixed_digits prec 0
  | S754_finite s m e =>
      let scaled := Zpos m * 10 ^ Z.of_nat prec in
      (if s then "-" else "") ++
      fixed_digits prec (if 0 <=? e then scaled * 2 ^ e else div_even scaled (2 ^ (- e)))
  end.

(** ** Lemmas *)

Lemma length_spaces c n : String.length (spaces c n) = n.
Proof. induction n; simpl; auto. Qed.

Lemma length_padl n s : (String.length s <= n)%nat -> String.length (padl n s) = n.
Proof. intros. unfold padl. rewrite str_length_app, length_spaces. lia. Qed.

(** Rounding is to the nearest. *)
Lemma div_even_nearest a b : 0 < b -> Z.abs (2 * (a - b * div_even a b)) <= b.
Proof.
  intros. unfold div_even. pose proof (Z.div_mod a b) as E. pose proof (Z.mod_pos_bound a b).
  repeat case_match; zlia; nia.
Qed.
