(* ===== verification/Config.v ===== *)
(** * Config: internal/config/config.go

    The configuration record, its validation, the field-by-field diff with
    the impact of each change, the live update, and loading and saving
    (ConfigFile.v). *)

From Stdlib Require Import ZArith Lia Bool Ascii String.
From stdpp Require Import prelude strings list gmap.
From coqutil Require Import Datatypes.RecordSetters.
From S2P Require Import Prelude GoText GoNet GoFloat.
Import DoubleBraceUpdate.

Local Open Scope string_scope.
Local Open Scope Z_scope.

(** ** Go slices

    [reflect.DeepEqual] tells a nil slice from an empty one, so a slice is
    an optional list; [append([]T(nil), xs...)] is [slice_copy]. *)
Definition slice (A : Type) : Type := option (list A).
Definition elems {A} (s : slice A) : list A := default [] s.
Definition slice_copy {A} (s : slice A) : slice A :=
  match elems s with [] => None | l => Some l end.

Definition DefaultStatDir : string := "/var/lib/xdp_stats".
Definition DefaultPinDir : string := "/sys/fs/bpf/xdpfilter".

(** ** Data *)

Record FlowMonitorCIDR := mkRule {
  CIDR : string;
  PPSThreshold : Z;
  MbpsThreshold : f64
}.

Record FlowMonitoring := mkFM {
  Enabled : bool;
  SampleEvery : Z;
  MaxFlows : Z;
  CIDRs : slice FlowMonitorCIDR
}.

Record Tuning := mkTuning {
  RingSize : Z; Channels : Z;
  SymmetricRSS : option bool; CQECompress : option bool; DisableLRO : option bool;
  DisableVLANHW : option bool; DisableIRQBal : option bool;
  Governor : string; NetdevBacklog : Z; NetdevBudget : Z
}.

Record Config := mkConfig {
  TrustedIface : string; UntrustedIface : string;
  Mode : string;
  OosStrict : bool; AllowInboundServers : bool; AllowInboundSYN : bool;
  ServerAllow : slice string;
  DropFrags : bool; DropBadFlags : bool; FilterUDP : bool;
  DropVlanDeep : bool; DropUDPFrags : bool; RejectWithRST : bool;
  FlowMax : Z; UDPFlowMax : Z; L1Size : Z; LRUPerCPU : bool;
  TTLSyn : Z; TTLEst : Z; TTLClosing : Z; TTLUdp : Z;
  XDPMode : string; Tune : bool; StatsDir : string;
  StatsInterval : Z; GCInterval : Z; HousekeepingCore : Z; PinDir : string;
  FlowMon : FlowMonitoring;
  Tun : Tuning
}.

Definition Tuning_zero : Tuning := mkTuning 0 0 None None None None None "" 0 0.

Definition Default : Config := {|
  TrustedIface := ""; UntrustedIface := ""; Mode := "monitor";
  OosStrict := false; AllowInboundServers := false; AllowInboundSYN := false; ServerAllow := None;
  DropFrags := true; DropBadFlags := true; FilterUDP := true;
  DropVlanDeep := false; DropUDPFrags := false; RejectWithRST := false;
  FlowMax := 2 ^ 24; UDPFlowMax := 2 ^ 22; L1Size := 2 ^ 16; LRUPerCPU := false;
  TTLSyn := 10; TTLEst := 300; TTLClosing := 10; TTLUdp := 30;
  XDPMode := "native"; Tune := true; StatsDir := DefaultStatDir;
  StatsInterval := 10; GCInterval := 2; HousekeepingCore := -1; PinDir := DefaultPinDir;
  FlowMon := mkFM false 64 (2 ^ 18) (Some []);
  Tun := Tuning_zero |}.

(** ** Parsing a server entry *)

Inductive HostPortError :=
  | EBadHostPort
  | ENotIPv4 (host : string)
  | EBadPort (port : string) (e : NumError).

Definition ParseHostPort (s : string) : (list Z * Z) + HostPortError :=
  match SplitHostPort s with
  | None => inr EBadHostPort
  | Some (host, portStr) =>
      match parse_to4 host with
      | None => inr (ENotIPv4 host)
      | Some ip =>
          match ParseUint portStr 16 with
          | (p, None) => inl (ip, p)
          | (_, Some e) => inr (EBadPort portStr e)
          end
      end
  end.

(** ** Validation *)

Inductive ConfigError :=
  | EIfacesRequired | EIfacesEqual
  | EMode (m : string) | EXDPMode (m : string)
  | EFlowMax (n : Z) | EL1Size (n : Z)
  | EServerAllow (s : string) (e : HostPortError)
  | ESampleEvery (n : Z) | EMaxFlows (n : Z) | ETooManyCIDRs (n : Z)
  | ECIDRNotIPv4 (i : nat) (cidr : string)
  | ECIDRNotCanonical (i : nat) (canonical cidr : string)
  | ECIDRDuplicate (canonical : string)
  | ENoThreshold (i : nat) | EMbps (i : nat).

(** The body of the rule loop, for the rule with index [i]; [inl] is the
    network's canonical name. *)
Definition check_rule (i : nat) (seen : gset string) (r : FlowMonitorCIDR) : string + ConfigError :=
  match ParseCIDR (TrimSpace (CIDR r)) with
  | None => inr (ECIDRNotIPv4 i (CIDR r))
  | Some (ip, network) =>
      match To4 ip with
      | None => inr (ECIDRNotIPv4 i (CIDR r))
      | Some _ =>
          let canonical := IPNet_String network in
          if negb (TrimSpace (CIDR r) =? canonical)%string then inr (ECIDRNotCanonical i canonical (CIDR r))
          else if bool_decide (canonical ∈ seen) then inr (ECIDRDuplicate canonical)
          else if (PPSThreshold r =? 0) && feqb (MbpsThreshold r) fzero then inr (ENoThreshold i)
          else if fltb (MbpsThreshold r) fzero || IsNaN (MbpsThreshold r) || IsInf (MbpsThreshold r)
               then inr (EMbps i)
          else inl canonical
      end
  end.

Fixpoint check_rules (i : nat) (seen : gset string) (rs : list FlowMonitorCIDR) : option ConfigError :=
  match rs with
  | [] => None
  | r :: rest =>
      match check_rule i seen r with
      | inr e => Some e
      | inl canonical => check_rules (S i) ({[canonical]} ∪ seen) rest
      end
  end.

(** Validation fills in defaults as it goes, so it returns the record as
    well: on an error the fields set so far stay set. *)
Definition validateFlowMonitoring (f : FlowMonitoring) : FlowMonitoring * option ConfigError :=
  let f := f {{ SampleEvery := if SampleEvery f =? 0 then 64 else SampleEvery f }} in
  if (65536 <? SampleEvery f) || negb (Z.land (SampleEvery f) (u32 (SampleEvery f - 1)) =? 0)
  then (f, Some (ESampleEvery (SampleEvery f)))
  else
  let f := f {{ MaxFlows := if MaxFlows f =? 0 then 2 ^ 18 else MaxFlows f }} in
  if (MaxFlows f <? 1024) || (2 ^ 20 <? MaxFlows f)
  then (f, Some (EMaxFlows (MaxFlows f)))
  else if 4096 <? Z.of_nat (length (elems (CIDRs f)))
  then (f, Some (ETooManyCIDRs (Z.of_nat (length (elems (CIDRs f))))))
  else (f, check_rules 0 ∅ (elems (CIDRs f))).

Fixpoint check_server_allow (l : list string) : option ConfigError :=
  match l with
  | [] => None
  | s :: r => match ParseHostPort s with
              | inr e => Some (EServerAllow s e)
              | inl _ => check_server_allow r
              end
  end.

Definition Validate (c : Config) : Config * option ConfigError :=
  if (TrustedIface c =? "")%string || (UntrustedIface c =? "")%string then (c, Some EIfacesRequired)
  else if (TrustedIface c =? UntrustedIface c)%string then (c, Some EIfacesEqual)
  else if negb (Mode c =? "monitor")%string && negb (Mode c =? "enforce")%string then (c, Some (EMode (Mode c)))
  else if negb (XDPMode c =? "native")%string && negb (XDPMode c =? "generic")%string
          && negb (XDPMode c =? "auto")%string then (c, Some (EXDPMode (XDPMode c)))
  else if FlowMax c <? 1024 then (c, Some (EFlowMax (FlowMax c)))
  else
  let c := c {{ UDPFlowMax := if UDPFlowMax c <? 1024 then 2 ^ 22 else UDPFlowMax c }} in
  let c := c {{ L1Size := if negb (L1Size c =? 0) && (L1Size c <? 1024) then 1024 else L1Size c }} in
  if negb (L1Size c =? 0) && negb (Z.land (L1Size c) (u32 (L1Size c - 1)) =? 0)
  then (c, Some (EL1Size (L1Size c)))
  else
  let c := c {{ TTLUdp := if TTLUdp c =? 0 then 30 else TTLUdp c }} in
  match check_server_allow (elems (ServerAllow c)) with
  | Some e => (c, Some e)
  | None =>
      let c := c {{ StatsDir := if (StatsDir c =? "")%string then DefaultStatDir else StatsDir c }} in
      let c := c {{ PinDir := if (PinDir c =? "")%string then DefaultPinDir else PinDir c }} in
      let c := c {{ StatsInterval := if StatsInterval c <=? 0 then 10 else StatsInterval c }} in
      let c := c {{ GCInterval := if GCInterval c <=? 0 then 2 else GCInterval c }} in
      let '(f, e) := validateFlowMonitoring (FlowMon c) in
      (c {{ FlowMon := f }}, e)
  end.

(** ** Live updates, copies *)

Definition ApplyLiveFrom (c src : Config) : Config :=
  let fm := FlowMon c in
  c {{ Mode := Mode src }} {{ OosStrict := OosStrict src }}
    {{ AllowInboundServers := AllowInboundServers src }} {{ AllowInboundSYN := AllowInboundSYN src }}
    {{ DropFrags := DropFrags src }} {{ DropBadFlags := DropBadFlags src }}
    {{ FilterUDP := FilterUDP src }} {{ DropVlanDeep := DropVlanDeep src }}
    {{ DropUDPFrags := DropUDPFrags src }} {{ RejectWithRST := RejectWithRST src }}
    {{ ServerAllow := slice_copy (ServerAllow src) }}
    {{ TTLSyn := TTLSyn src }} {{ TTLEst := TTLEst src }}
    {{ TTLClosing := TTLClosing src }} {{ TTLUdp := TTLUdp src }}
    {{ FlowMon := mkFM (Enabled (FlowMon src)) (SampleEvery (FlowMon src)) (MaxFlows fm)
                       (slice_copy (CIDRs (FlowMon src))) }}.

(** [Clone]: the pointers of [Tuning] are copied by value. *)
Definition Clone (c : Config) : Config :=
  let fm := FlowMon c in
  c {{ ServerAllow := slice_copy (ServerAllow c) }}
    {{ FlowMon := mkFM (Enabled fm) (SampleEvery fm) (MaxFlows fm) (slice_copy (CIDRs fm)) }}.

(** ** Diff *)

Inductive ChangeImpact := ImpactNone | ImpactLive | ImpactRestart | ImpactReattach.

Definition impact_rank (i : ChangeImpact) : Z :=
  match i with ImpactNone => 0 | ImpactLive => 1 | ImpactRestart => 2 | ImpactReattach => 3 end.

Definition impact_String (i : ChangeImpact) : string :=
  match i with
  | ImpactLive => "live" | ImpactRestart => "restart" | ImpactReattach => "reattach"
  | ImpactNone => "none"
  end.

Record ChangeSet := mkCS { Impact : ChangeImpact; CSFields : list string }.

Definition ChangeSet_Empty (d : ChangeSet) : bool := (length (CSFields d) =? 0)%nat.

Definition Summary (d : ChangeSet) : string :=
  match CSFields d with
  | [] => ""
  | l => impact_String (Impact d) ++ " required: " ++ Join l ", "
  end.

(** [reflect.DeepEqual] on the types the diff compares. *)
Fixpoint list_eqb {A} (eq : A -> A -> bool) (l m : list A) : bool :=
  match l, m with
  | [], [] => true
  | x :: l', y :: m' => eq x y && list_eqb eq l' m'
  | _, _ => false
  end.

Definition slice_eqb {A} (eq : A -> A -> bool) (s t : slice A) : bool :=
  match s, t with
  | None, None => true
  | Some l, Some m => list_eqb eq l m
  | _, _ => false
  end.

Definition rule_eqb (r s : FlowMonitorCIDR) : bool :=
  (CIDR r =? CIDR s)%string && (PPSThreshold r =? PPSThreshold s) && feqb (MbpsThreshold r) (MbpsThreshold s).

Definition obool_eqb (a b : option bool) : bool :=
  match a, b with
  | None, None => true
  | Some x, Some y => Bool.eqb x y
  | _, _ => false
  end.

Definition tuning_eqb (a b : Tuning) : bool :=
  (RingSize a =? RingSize b) && (Channels a =? Channels b)
  && obool_eqb (SymmetricRSS a) (SymmetricRSS b) && obool_eqb (CQECompress a) (CQECompress b)
  && obool_eqb (DisableLRO a) (DisableLRO b) && obool_eqb (DisableVLANHW a) (DisableVLANHW b)
  && obool_eqb (DisableIRQBal a) (DisableIRQBal b) && (Governor a =? Governor b)%string
  && (NetdevBacklog a =? NetdevBacklog b) && (NetdevBudget a =? NetdevBudget b).

(** The closure [add] of [Diff]. *)
Definition cs_add (impact : ChangeImpact) (name : string) (changed : bool) (out : ChangeSet) : ChangeSet :=
  if negb changed then out
  else mkCS (if impact_rank (Impact out) <? impact_rank impact then impact else Impact out)
            (CSFields out ++ [name]).

(** The calls of [add], in their order. *)
Definition diff_rows (a b : Config) : list (ChangeImpact * string * bool) :=
  let str (f : Config -> string) := negb (f a =? f b)%string in
  let num (f : Config -> Z) := negb (f a =? f b) in
  let flag (f : Config -> bool) := negb (Bool.eqb (f a) (f b)) in
  [ (ImpactReattach, "trusted_iface", str TrustedIface);
    (ImpactReattach, "untrusted_iface", str UntrustedIface);
    (ImpactLive, "mode", str Mode);
    (ImpactLive, "oos_strict", flag OosStrict);
    (ImpactLive, "allow_inbound_servers", flag AllowInboundServers);
    (ImpactLive, "allow_inbound_syn", flag AllowInboundSYN);
    (ImpactLive, "server_allow", negb (slice_eqb String.eqb (ServerAllow a) (ServerAllow b)));
    (ImpactLive, "drop_frags", flag DropFrags);
    (ImpactLive, "drop_bad_flags", flag DropBadFlags);
    (ImpactLive, "filter_udp", flag FilterUDP);
    (ImpactLive, "drop_vlan_deep", flag DropVlanDeep);
    (ImpactLive, "drop_udp_frags", flag DropUDPFrags);
    (ImpactLive, "reject_with_rst", flag RejectWithRST);
    (ImpactRestart, "flow_max", num FlowMax);
    (ImpactRestart, "udp_flow_max", num UDPFlowMax);
    (ImpactRestart, "l1_size", num L1Size);
    (ImpactRestart, "lru_percpu", flag LRUPerCPU);
    (ImpactLive, "ttl_syn", num TTLSyn);
    (ImpactLive, "ttl_est", num TTLEst);
    (ImpactLive, "ttl_closing", num TTLClosing);
    (ImpactLive, "ttl_udp", num TTLUdp);
    (ImpactReattach, "xdp_mode", str XDPMode);
    (ImpactRestart, "tune", flag Tune);
    (ImpactRestart, "stats_dir", str StatsDir);
    (ImpactRestart, "stats_interval", num StatsInterval);
    (ImpactRestart, "gc_interval", num GCInterval);
    (ImpactRestart, "housekeeping_core", num HousekeepingCore);
    (ImpactReattach, "pin_dir", str PinDir);
    (ImpactLive, "flow_monitoring.enabled", negb (Bool.eqb (Enabled (FlowMon a)) (Enabled (FlowMon b))));
    (ImpactLive, "flow_monitoring.sample_every", negb (SampleEvery (FlowMon a) =? SampleEvery (FlowMon b)));
    (ImpactRestart, "flow_monitoring.max_flows", negb (MaxFlows (FlowMon a) =? MaxFlows (FlowMon b)));
    (ImpactLive, "flow_monitoring.cidrs", negb (slice_eqb rule_eqb (CIDRs (FlowMon a)) (CIDRs (FlowMon b))));
    (ImpactRestart, "tuning", negb (tuning_eqb (Tun a) (Tun b))) ].

Definition run_rows (rows : list (ChangeImpact * string * bool)) (out : ChangeSet) : ChangeSet :=
  fold_left (fun out '(impact, name, changed) => cs_add impact name changed out) rows out.

(** [None] is a nil pointer. *)
Definition Diff (a b : option Config) : ChangeSet :=
  match a, b with
  | Some a, Some b => run_rows (diff_rows a b) (mkCS ImpactNone [])
  | _, _ => mkCS ImpactReattach ["configuration"]
  end.

Definition StructuralDiff (c src : Config) : string :=
  let d := Diff (Some c) (Some src) in
  if impact_rank (Impact d) <? impact_rank ImpactRestart then "" else Summary d.
