(* ===== verification/ConfigSpec.v ===== *)
(** * ConfigSpec: what the configuration code promises

    The declarative notion of a valid configuration, against which the
    validator is proved sound and complete; the diff and the live update. *)

From Stdlib Require Import ZArith Lia Bool Ascii String.
From stdpp Require Import prelude strings list gmap.
From coqutil Require Import Datatypes.RecordSetters.
From S2P Require Import Prelude GoText GoNet GoFloat Config.
Import DoubleBraceUpdate.

Local Open Scope string_scope.
Local Open Scope Z_scope.

(** Reduce record updates and projections. *)
Ltac rsimpl := cbn -[u32 Z.pow Z.land Z.ltb Z.leb orb negb Z.sub Z.eqb] in *; unfold constant in *;
               cbn -[u32 Z.pow Z.land Z.ltb Z.leb orb negb Z.sub Z.eqb] in *.

(** ** The specification *)

(** A rule names an IPv4 network in canonical form, spaces around it apart,
    and has a positive threshold; a rate threshold is a finite number. *)
Record RuleOK (r : FlowMonitorCIDR) : Prop := {
  rule_canonical : exists f n, canonical_cidr (TrimSpace (CIDR r)) f n;
  rule_threshold : PPSThreshold r <> 0 \/ feqb (MbpsThreshold r) fzero = false;
  rule_rate : f64_rate (MbpsThreshold r)
}.

Definition rule_name (r : FlowMonitorCIDR) : string := TrimSpace (CIDR r).

Record FMValid (f : FlowMonitoring) : Prop := {
  fm_sample : is_pow2 (SampleEvery f) /\ 1 <= SampleEvery f <= 65536;
  fm_flows : 1024 <= MaxFlows f <= 2 ^ 20;
  fm_count : Z.of_nat (length (elems (CIDRs f))) <= 4096;
  fm_rules : Forall RuleOK (elems (CIDRs f));
  fm_distinct : NoDup (map rule_name (elems (CIDRs f)))
}.

Record Valid (c : Config) : Prop := {
  v_ifaces : TrustedIface c <> "" /\ UntrustedIface c <> "" /\ TrustedIface c <> UntrustedIface c;
  v_mode : Mode c = "monitor" \/ Mode c = "enforce";
  v_xdp : XDPMode c = "native" \/ XDPMode c = "generic" \/ XDPMode c = "auto";
  v_flows : 1024 <= FlowMax c /\ 1024 <= UDPFlowMax c;
  v_l1 : L1Size c = 0 \/ (1024 <= L1Size c /\ is_pow2 (L1Size c));
  v_udp : TTLUdp c <> 0;
  v_allow : Forall (fun s => exists ip p, ParseHostPort s = inl (ip, p)) (elems (ServerAllow c));
  v_dirs : StatsDir c <> "" /\ PinDir c <> "";
  v_intervals : 0 < StatsInterval c /\ 0 < GCInterval c;
  v_fm : FMValid (FlowMon c)
}.

(** The unsigned fields hold unsigned values. *)
Definition wt (c : Config) : Prop :=
  is_u32 (L1Size c) /\ is_u32 (SampleEvery (FlowMon c)) /\ is_u32 (FlowMax c) /\ is_u32 (UDPFlowMax c)
  /\ is_u32 (MaxFlows (FlowMon c)) /\ is_u32 (TTLUdp c).

(** The defaults validation fills in. *)
Definition fm_fill (f : FlowMonitoring) : FlowMonitoring :=
  mkFM (Enabled f) (if SampleEvery f =? 0 then 64 else SampleEvery f)
       (if MaxFlows f =? 0 then 2 ^ 18 else MaxFlows f) (CIDRs f).

Definition fill (c : Config) : Config :=
  c {{ UDPFlowMax := if UDPFlowMax c <? 1024 then 2 ^ 22 else UDPFlowMax c }}
    {{ L1Size := if negb (L1Size c =? 0) && (L1Size c <? 1024) then 1024 else L1Size c }}
    {{ TTLUdp := if TTLUdp c =? 0 then 30 else TTLUdp c }}
    {{ StatsDir := if (StatsDir c =? "")%string then DefaultStatDir else StatsDir c }}
    {{ PinDir := if (PinDir c =? "")%string then DefaultPinDir else PinDir c }}
    {{ StatsInterval := if StatsInterval c <=? 0 then 10 else StatsInterval c }}
    {{ GCInterval := if GCInterval c <=? 0 then 2 else GCInterval c }}
    {{ FlowMon := fm_fill (FlowMon c) }}.

(** ** Validation lemmas *)

Lemma pow2_check x : 0 < x < 2 ^ 32 -> (Z.land x (u32 (x - 1)) =? 0) = true <-> is_pow2 x.
Proof. intros Hx. rewrite u32_small by (unfold is_u32; lia). apply pow2_test. lia. Qed.

Lemma check_rule_ok i seen r s :
  check_rule i seen r = inl s <-> RuleOK r /\ s = rule_name r /\ s ∉ seen.
Proof.
  unfold check_rule, rule_name. split.
  - destruct (ParseCIDR _) as [[ip net]|] eqn:EP; [|discriminate].
    destruct (To4 ip) as [f0|] eqn:E4; [|discriminate].
    destruct (negb _) eqn:EC; [discriminate|]. apply negb_false_iff, String.eqb_eq in EC.
    destruct (bool_decide _) eqn:ES; [discriminate|]. apply bool_decide_eq_false in ES.
    destruct (_ && _) eqn:ET; [discriminate|].
    destruct (fltb _ _ || _ || _) eqn:ER; [discriminate|]. apply rate_test in ER. intros [= <-].
    destruct (canonical_cidr_sound _ _ _ _ EP E4 (eq_sym EC)) as (f & n & Hc & _).
    split; [|auto]. constructor; [eauto| |done].
    apply andb_false_iff in ET as [ET|ET]; zbool; auto.
  - intros ([(f & n & Hf & Hn & Hm & HE) HT HR] & -> & Hs).
    destruct (canonical_cidr_complete f n Hf Hn Hm) as [HP HS]. rewrite <- HE in HP, HS.
    rewrite HP, To4_mapped by apply Hf. rewrite HS, String.eqb_refl. cbn [negb].
    rewrite bool_decide_eq_false_2 by done.
    assert ((PPSThreshold r =? 0) && feqb (MbpsThreshold r) fzero = false) as ->.
    { apply andb_false_iff. destruct HT; [left; now apply Z.eqb_neq | now right]. }
    apply rate_test in HR. now rewrite HR.
Qed.

Lemma seen_cons rs s (seen : gset string) :
  Forall (fun x => ~ (x ∈ ({[s]} ∪ seen))) (map rule_name rs)
  <-> (s ∉ map rule_name rs) /\ Forall (fun x => x ∉ seen) (map rule_name rs).
Proof.
  induction (map rule_name rs) as [|x l IH]; [split; [intros _; split; [apply not_elem_of_nil|constructor]|constructor]|].
  rewrite !Forall_cons, IH, not_elem_of_cons, not_elem_of_union, not_elem_of_singleton.
  split; [intros ((? & ?) & ? & ?) | intros ((? & ?) & ? & ?)]; repeat split; auto.
Qed.

Lemma check_rules_ok rs : forall i seen, check_rules i seen rs = None <->
  Forall RuleOK rs /\ NoDup (map rule_name rs) /\ Forall (fun s => s ∉ seen) (map rule_name rs).
Proof.
  induction rs as [|r rs IH]; intros i seen; cbn [check_rules map].
  { split; [intros _; repeat constructor|done]. }
  rewrite !Forall_cons, NoDup_cons.
  destruct (check_rule i seen r) as [s|e] eqn:E.
  - apply check_rule_ok in E as (Hr & -> & Hs). rewrite IH.
    rewrite (seen_cons rs (rule_name r)). tauto.
  - split; [discriminate|]. intros ((Hr & _) & _ & Hs & _).
    assert (check_rule i seen r = inl (rule_name r)) as E' by (apply check_rule_ok; auto). congruence.
Qed.

Lemma check_server_allow_ok l :
  check_server_allow l = None <-> Forall (fun s => exists ip p, ParseHostPort s = inl (ip, p)) l.
Proof.
  induction l as [|s l IH]; cbn; [split; auto|]. rewrite Forall_cons.
  destruct (ParseHostPort s) as [[ip p]|e]; [rewrite IH; split; [eauto|intros [_ ?]; done]|].
  split; [discriminate | intros [(? & ? & ?) _]; discriminate].
Qed.

(** The checks on the filled-in record; the errors carry any record. *)
Lemma fm_checks_ok g1 g2 g3 e1 e2 e3 f f' : 1 <= SampleEvery f < 2 ^ 32 ->
  (if (65536 <? SampleEvery f) || negb (Z.land (SampleEvery f) (u32 (SampleEvery f - 1)) =? 0) then (g1, Some e1)
   else if (MaxFlows f <? 1024) || (2 ^ 20 <? MaxFlows f) then (g2, Some e2)
   else if 4096 <? Z.of_nat (length (elems (CIDRs f))) then (g3, Some e3)
   else (f, check_rules 0 ∅ (elems (CIDRs f)))) = (f', None) <-> f' = f /\ FMValid f'.
Proof.
  intros Hse. pose proof (pow2_check (SampleEvery f) ltac:(lia)) as H1.
  pose proof (check_rules_ok (elems (CIDRs f)) 0 ∅) as H4.
  assert (Forall (fun s => s ∉ (∅ : gset string)) (map rule_name (elems (CIDRs f)))) as H0
    by (apply Forall_forall; intros; apply not_elem_of_empty).
  split.
  - intros H. case_ifs_in H. destruct (check_rules 0 ∅ _); [discriminate|]. injection H as <-. zbool. destruct H4 as [(Hr & Hd & _) _]; [done|].
    split; [done|]. constructor; try done; try lia. split; [apply H1; now apply Z.eqb_eq|lia].
  - intros [-> [Ha Hb Hc Hd He]].
    rewrite (proj2 H1) by apply Ha.
    rewrite !(proj2 (Z.ltb_ge _ _)) by lia. cbn. f_equal. apply H4. auto.
Qed.

Lemma validateFlowMonitoring_ok f f' : is_u32 (SampleEvery f) ->
  validateFlowMonitoring f = (f', None) <-> f' = fm_fill f /\ FMValid f'.
Proof.
  intros Hu. unfold validateFlowMonitoring, fm_fill. destruct f as [en se mf cs]; cbn in *.
  rsimpl. set (se' := if se =? 0 then 64 else se). set (mf' := if mf =? 0 then 2 ^ 18 else mf).
  apply (fm_checks_ok _ _ _ _ _ _ (mkFM en se' mf' cs)). cbn. unfold se'. case_ifs; zlia.
Qed.

(** A guard that returns an error is passed exactly when its condition fails. *)
Lemma guard_iff {A E} (b : bool) (g : A) (e : E) x c :
  (if b then (g, Some e) else x) = (c, None) <-> b = false /\ x = (c, None).
Proof. destruct b; split; [discriminate|intros [? _]; discriminate|auto|tauto]. Qed.

Lemma str_neq_iff s t : (s =? t)%string = false <-> s <> t.
Proof. apply String.eqb_neq. Qed.

Lemma neither_iff s a b : negb (s =? a)%string && negb (s =? b)%string = false <-> s = a \/ s = b.
Proof. rewrite andb_false_iff, !negb_false_iff, !String.eqb_eq. tauto. Qed.

Lemma none_of3_iff s a b c :
  negb (s =? a)%string && negb (s =? b)%string && negb (s =? c)%string = false <-> s = a \/ s = b \/ s = c.
Proof. rewrite !andb_false_iff, !negb_false_iff, !String.eqb_eq. tauto. Qed.

Lemma l1_check_iff l1 : is_u32 l1 ->
  let l1' := if negb (l1 =? 0) && (l1 <? 1024) then 1024 else l1 in
  negb (l1' =? 0) && negb (Z.land l1' (u32 (l1' - 1)) =? 0) = false
  <-> l1' = 0 \/ (1024 <= l1' /\ is_pow2 l1').
Proof.
  intros Hl l1'. assert (l1' = 0 \/ 1024 <= l1' < 2 ^ 32) as Hr
    by (unfold l1'; destruct (l1 =? 0) eqn:E0; cbn; case_ifs; zlia).
  destruct Hr as [->|Hr]; [cbn; tauto|]. pose proof (pow2_check l1' ltac:(lia)) as Hp.
  rewrite andb_false_iff, !negb_false_iff, Hp, Z.eqb_eq. intuition lia.
Qed.

Lemma guard_opt_iff {A E} (o : option E) (g : A) x c :
  match o with Some e => (g, Some e) | None => x end = (c, None) <-> o = None /\ x = (c, None).
Proof. destruct o; split; [discriminate|intros [? _]; discriminate|auto|tauto]. Qed.

Lemma pair_iff {A B E} (p : A * option E) (F : A -> B) c :
  (let '(f, e) := p in (F f, e)) = (c, None) <-> exists f, p = (f, None) /\ c = F f.
Proof.
  destruct p as [f e]. split; [intros [= <- ->]; eauto|]. intros (f' & [= -> ->] & ->). done.
Qed.

(** ** Validation *)

Lemma Validate_ok c c' : wt c -> Validate c = (c', None) <-> c' = fill c /\ Valid c'.
Proof.
  intros (Hl1 & Hse & _). unfold Validate, fill. destruct c; rsimpl.
  rewrite !guard_iff, guard_opt_iff.
  rewrite (pair_iff _ (fun f => mkConfig _ _ _ _ _ _ _ _ _ _ _ _ _ _ _ _ _ _ _ _ _ _ _ _ _ _ _ _ f _)).
  rewrite orb_false_iff, !str_neq_iff, none_of3_iff, neither_iff, Z.ltb_ge, l1_check_iff, check_server_allow_ok by done.
  split.
  - intros ([] & ? & ? & ? & ? & ? & ? & f & [-> ?]%validateFlowMonitoring_ok & ->); [|done].
    split; [done|]. constructor; rsimpl; auto; repeat split; try done;
      case_ifs; zbool; try lia; now apply String.eqb_neq.
  - intros [-> [(? & ? & ?) ? ? [] ? ? ? ? ? ?]]; rsimpl. repeat split; auto.
    exists (fm_fill FlowMon). split; [|done]. now apply validateFlowMonitoring_ok.
Qed.

Lemma valid_fill c : Valid c -> fill c = c.
Proof.
  intros [? ? ? [_ Hu] Hl Ht _ [Hs Hp] [Hi Hg] [[Hse Hse'] Hmf _ _ _]].
  unfold fill. destruct c as [????????????????????????????[en se mf cs] ?]; unfold fm_fill; rsimpl.
  rewrite (proj2 (Z.ltb_ge _ _) Hu), (proj2 (Z.eqb_neq _ _) Ht), (proj2 (String.eqb_neq _ _) Hs),
    (proj2 (String.eqb_neq _ _) Hp), !(proj2 (Z.leb_gt _ _)),
    (proj2 (Z.eqb_neq se 0)), (proj2 (Z.eqb_neq mf 0)) by lia.
  replace (negb (L1Size =? 0) && (L1Size <? 1024)) with false; [done|].
  symmetry. apply andb_false_iff. destruct Hl as [->|[Hl _]]; [auto|right; apply Z.ltb_ge; lia].
Qed.

(** C18. Validation is sound and complete: [Validate] succeeds exactly when the configuration with the missing
    settings filled in is valid, and the record it leaves behind is that one; a valid configuration is left alone.  Validity is the declarative notion:
    two distinct interfaces, known modes, table sizes and cache size the datapath can use (a power of two for the
    masks), parsable server entries, and flow-monitoring rules that name distinct canonical IPv4 networks. *)
Theorem validate_iff c c' : wt c ->
  (Validate c = (c', None) <-> c' = fill c /\ Valid c') /\ (Valid c -> Validate c = (c, None)).
Proof.
  intros Hw. split; [now apply Validate_ok|]. intros Hv. apply Validate_ok; [done|].
  now rewrite valid_fill.
Qed.

Definition sample_rule : FlowMonitorCIDR := mkRule " 10.1.0.0/16" 1000 fzero.

Definition sample : Config :=
  Default {{ TrustedIface := "lan0" }} {{ UntrustedIface := "wan0" }}
    {{ ServerAllow := Some ["192.0.2.7:443"] }} {{ TTLUdp := 0 }}
    {{ FlowMon := mkFM true 0 4096 (Some [sample_rule]) }}.

Theorem validate_iff_witness : wt sample /\ Valid (fill sample).
Proof.
  assert (wt sample) as Hw by (vm_compute; intuition congruence). split; [exact Hw|].
  refine (proj2 (proj1 (proj1 (validate_iff sample (fill sample) Hw)) _)). vm_compute. reflexivity.
Defined.

(** ** Server entries *)

Lemma has_byte_app c l r : has_byte c (l ++ r) = has_byte c l || has_byte c r.
Proof.
  unfold has_byte. induction l as [|d l IH]; simpl; [done|]. destruct (Ascii.eqb c d); [done|].
  destruct (index_byte c (l ++ r)), (index_byte c l); cbn in *; congruence.
Qed.

Lemma no_byte_has c s : no_byte c s = true -> has_byte c s = false.
Proof.
  unfold has_byte. induction s as [|d s IH]; simpl; [done|]. intros H. zbool. rewrite H.
  specialize (IH H0). destruct (index_byte c s); done.
Qed.

Lemma str_take_app l r : str_take (String.length l) (l ++ r) = l.
Proof. induction l; simpl; congruence || now destruct r. Qed.

Lemma str_drop_app l c r : str_drop (S (String.length l)) (l ++ String c r) = r.
Proof. induction l; simpl in *; auto. Qed.

(** Bytes of a dotted quad: digits and dots. *)
Lemma ip4_string_bytes c f : is_ip4 f -> is_digit c = false -> Ascii.eqb c "." = false ->
  no_byte c (ip4_string f) = true.
Proof.
  intros (a & b & d & e & -> & Ha & Hb & Hc & Hd)%is_ip4_inv Hdig Hdot. unfold ip4_string. cbn [map Join].
  assert (forall v, is_u8 v -> no_byte c (FormatUint v) = true) as Hv
    by (intros; apply all_digits_no_byte; [done | now apply octet_digits]).
  rewrite !no_byte_app, !Hv by done. cbn. now rewrite Hdot.
Qed.

Lemma SplitHostPort_plain l r :
  no_byte ":" l = true -> no_byte "[" l = true -> no_byte "]" l = true ->
  no_byte ":" r = true -> no_byte "[" r = true -> no_byte "]" r = true ->
  SplitHostPort (l ++ ":" ++ r) = Some (l, r).
Proof.
  intros Hlc Hlo Hlx Hrc Hro Hrx. unfold SplitHostPort.
  change (":" ++ r) with (String ":" r). rewrite last_index_app by done.
  replace (match l ++ String ":" r with String c _ => Ascii.eqb "[" c | EmptyString => false end) with false.
  2:{ destruct l as [|c l]; [done|]. cbn [append no_byte] in *. now destruct (Ascii.eqb "[" c). }
  rewrite str_take_app, str_drop_app. rewrite !has_byte_app. cbn [has_byte index_byte].
  change (String ":" r) with (":" ++ r). rewrite !has_byte_app, !no_byte_has by done. done.
Qed.

Lemma ParseHostPort_range s ip p : ParseHostPort s = inl (ip, p) -> is_ip4 ip /\ is_u16 p.
Proof.
  unfold ParseHostPort. destruct (SplitHostPort s) as [[h ps]|]; [|discriminate].
  destruct (parse_to4 h) as [ip'|] eqn:E; [|discriminate]. apply parse_to4_ip4 in E.
  destruct (ParseUint ps 16) as [q [e|]] eqn:EP; [discriminate|]. intros [= <- <-].
  split; [done|]. apply ParseUint_range in EP; [|lia]. unfold is_u16. lia.
Qed.

Lemma ParseHostPort_printed f p : is_ip4 f -> is_u16 p -> ParseHostPort (ip4_string f ++ ":" ++ FormatUint p) = inl (f, p).
Proof.
  intros Hf Hp. unfold is_u16 in Hp. unfold ParseHostPort.
  destruct (FormatUint_digits p) as [Hd _]; [lia|].
  rewrite SplitHostPort_plain by (try apply ip4_string_bytes; try apply all_digits_no_byte; done).
  rewrite parse_to4_string by done. now rewrite ParseUint_FormatUint by lia.
Qed.

(** Server allowlist entries: whatever [ParseHostPort] accepts is an IPv4 address of four bytes and a 16-bit
    port, and it reads back every address and port in dotted notation, port 0 included. *)
Theorem host_port_roundtrip :
  (forall s ip p, ParseHostPort s = inl (ip, p) -> is_ip4 ip /\ is_u16 p) /\
  (forall f p, is_ip4 f -> is_u16 p -> ParseHostPort (ip4_string f ++ ":" ++ FormatUint p) = inl (f, p)).
Proof. split; [exact ParseHostPort_range | exact ParseHostPort_printed]. Qed.
