(* ===== verification/ConfigDiff.v ===== *)
(** * ConfigDiff: the diff of two configurations and the live update *)

From Stdlib Require Import ZArith Lia Bool Ascii String.
From stdpp Require Import prelude strings list gmap.
From coqutil Require Import Datatypes.RecordSetters.
From S2P Require Import Prelude GoText GoNet GoFloat Config ConfigSpec.
Import DoubleBraceUpdate.

Local Open Scope string_scope.
Local Open Scope Z_scope.

(** ** What the diff should mean *)

(** Fields that need the datapath to be detached and attached again. *)
Definition identity (c : Config) := (TrustedIface c, UntrustedIface c, XDPMode c, PinDir c).

(** Fields read once when the daemon starts. *)
Definition structure (c : Config) :=
  (FlowMax c, UDPFlowMax c, L1Size c, LRUPerCPU c, Tune c, StatsDir c,
   StatsInterval c, GCInterval c, HousekeepingCore c, MaxFlows (FlowMon c), Tun c).

Definition rule_same (r s : FlowMonitorCIDR) : Prop :=
  CIDR r = CIDR s /\ PPSThreshold r = PPSThreshold s /\ feq (MbpsThreshold r) (MbpsThreshold s).

Definition slice_rel {A} (R : A -> A -> Prop) (s t : slice A) : Prop :=
  match s, t with
  | None, None => True
  | Some l, Some m => Forall2 R l m
  | _, _ => False
  end.

(** Equality of every field, rates compared as Go compares floats. *)
Definition without_rules (c : Config) : Config :=
  let fm := FlowMon c in c {{ FlowMon := mkFM (Enabled fm) (SampleEvery fm) (MaxFlows fm) None }}.

Definition same (a b : Config) : Prop :=
  without_rules a = without_rules b /\ slice_rel rule_same (CIDRs (FlowMon a)) (CIDRs (FlowMon b)).

(** A slice that is nil when it is empty; no rate is NaN. *)
Definition slice_normal {A} (s : slice A) : Prop := s <> Some [].
Definition no_nan (c : Config) : Prop :=
  Forall (fun r => IsNaN (MbpsThreshold r) = false) (elems (CIDRs (FlowMon c))).

(** ** Lemmas on rows *)

Definition row_changed (r : ChangeImpact * string * bool) : bool := snd r.
Definition row_impact (r : ChangeImpact * string * bool) : Z := impact_rank (fst (fst r)).
Definition row_name (r : ChangeImpact * string * bool) : string := snd (fst r).

Lemma run_rows_fields rows out :
  CSFields (run_rows rows out) = (CSFields out ++ map row_name (List.filter row_changed rows))%list.
Proof.
  revert out. induction rows as [|[[i n] ch] rows IH]; intros out; [symmetry; apply app_nil_r|].
  unfold run_rows in *. cbn [fold_left]. rewrite IH. unfold cs_add.
  destruct ch; cbn; [now rewrite <- app_assoc | done].
Qed.

Definition rows_within (k : Z) (rows : list (ChangeImpact * string * bool)) : bool :=
  forallb (fun r => negb (row_changed r) || (row_impact r <=? k)) rows.

Lemma run_rows_impact k rows out :
  impact_rank (Impact (run_rows rows out)) <= k <-> impact_rank (Impact out) <= k /\ rows_within k rows = true.
Proof.
  revert out. induction rows as [|[[i n] ch] rows IH]; intros out; [cbn; tauto|].
  unfold run_rows in *. cbn [fold_left rows_within forallb]. rewrite IH. unfold cs_add, row_changed, row_impact. cbn.
  rewrite andb_true_iff. destruct ch; cbn; [|tauto]. rewrite Z.leb_le.
  destruct (_ <? _) eqn:E; cbn; zbool; intuition lia.
Qed.

Lemma Diff_impact a b k : 0 <= k ->
  impact_rank (Impact (Diff (Some a) (Some b))) <= k <-> rows_within k (diff_rows a b) = true.
Proof. intros Hk. unfold Diff. rewrite run_rows_impact. cbn. intuition lia. Qed.

Lemma Diff_fields a b :
  CSFields (Diff (Some a) (Some b)) = map row_name (List.filter row_changed (diff_rows a b)).
Proof. unfold Diff. now rewrite run_rows_fields. Qed.

Lemma list_eqb_iff {A} (eq : A -> A -> bool) (R : A -> A -> Prop) l m :
  (forall x y, eq x y = true <-> R x y) -> list_eqb eq l m = true <-> Forall2 R l m.
Proof.
  intros H. revert m. induction l as [|x l IH]; intros [|y m]; cbn.
  - split; [constructor|done].
  - split; [discriminate|inversion 1].
  - split; [discriminate|inversion 1].
  - rewrite andb_true_iff, H, IH. split; [intros []; now constructor|inversion 1; auto].
Qed.

Lemma slice_eqb_iff {A} (eq : A -> A -> bool) (R : A -> A -> Prop) s t :
  (forall x y, eq x y = true <-> R x y) -> slice_eqb eq s t = true <-> slice_rel R s t.
Proof. intros H. destruct s, t; cbn; try (split; [discriminate|done]); [now apply list_eqb_iff|tauto]. Qed.

Lemma rule_eqb_iff r s : rule_eqb r s = true <-> rule_same r s.
Proof. unfold rule_eqb, rule_same. rewrite !andb_true_iff, String.eqb_eq, Z.eqb_eq. unfold feq. tauto. Qed.

Lemma strings_eqb_iff s t : slice_eqb String.eqb s t = true <-> s = t.
Proof.
  rewrite (slice_eqb_iff _ eq) by apply String.eqb_eq.
  destruct s, t; cbn; try (split; [done|discriminate]); [|tauto].
  rewrite <- list_eq_Forall2. split; congruence.
Qed.

Lemma obool_eqb_iff a b : obool_eqb a b = true <-> a = b.
Proof. destruct a as [[]|], b as [[]|]; cbn; split; congruence. Qed.

Lemma tuning_eqb_iff a b : tuning_eqb a b = true <-> a = b.
Proof.
  unfold tuning_eqb. rewrite !andb_true_iff, !Z.eqb_eq, !obool_eqb_iff, String.eqb_eq.
  destruct a, b; cbn; split; [intuition congruence|]. intros [=]; subst; tauto.
Qed.

Create Rewrite HintDb diff.
#[export] Hint Rewrite negb_involutive orb_false_r orb_true_r andb_true_iff andb_true_r String.eqb_eq Z.eqb_eq
  eqb_true_iff strings_eqb_iff tuning_eqb_iff : diff.

(** Which fields a bound on the impact leaves equal. *)
Lemma within_restart a b : rows_within 2 (diff_rows a b) = true <-> identity a = identity b.
Proof.
  unfold rows_within, diff_rows, row_changed, row_impact, identity. cbn -[slice_eqb tuning_eqb String.eqb Z.eqb Bool.eqb].
  autorewrite with diff. split; [intuition congruence|]. intros [=]; tauto.
Qed.

Lemma within_live a b :
  rows_within 1 (diff_rows a b) = true <-> identity a = identity b /\ structure a = structure b.
Proof.
  unfold rows_within, diff_rows, row_changed, row_impact, identity, structure.
  cbn -[slice_eqb tuning_eqb String.eqb Z.eqb Bool.eqb].
  autorewrite with diff. split; [intuition congruence|]. intros [[=] [=]]; tauto.
Qed.

Lemma within_none a b : rows_within 0 (diff_rows a b) = true <-> same a b.
Proof.
  unfold rows_within, diff_rows, row_changed, row_impact, same.
  cbn -[slice_eqb tuning_eqb String.eqb Z.eqb Bool.eqb].
  autorewrite with diff. rewrite (slice_eqb_iff _ rule_same) by apply rule_eqb_iff.
  destruct a, b; unfold without_rules; rsimpl.
  destruct FlowMon, FlowMon0; rsimpl. split.
  - intros H. destruct_and! H. subst. done.
  - intros [[=] ?]; subst; tauto.
Qed.

Lemma rows_empty rows : forallb (fun r => 1 <=? row_impact r) rows = true ->
  map row_name (List.filter row_changed rows) = [] <-> rows_within 0 rows = true.
Proof.
  induction rows as [|r rows IH]; cbn; [tauto|]. intros [H1 H2]%andb_true_iff. specialize (IH H2).
  destruct (row_changed r); cbn; [|done]. split; [discriminate|].
  intros [H3 _]%andb_true_iff. zbool. lia.
Qed.

Lemma diff_rows_positive a b : forallb (fun r => 1 <=? row_impact r) (diff_rows a b) = true.
Proof. reflexivity. Qed.

Lemma impact_rank_inj i j : impact_rank i = impact_rank j -> i = j.
Proof. destruct i, j; cbn; congruence. Qed.

(** The diff classifies exactly: it lists no field when the two configurations agree on every field, its
    impact is at most live exactly when the interfaces, attach mode, pin directory and all start-time settings
    agree, and a reattach is asked for exactly when one of the former four differs. *)
Theorem diff_impact a b :
  let d := Diff (Some a) (Some b) in
  (CSFields d = [] <-> same a b) /\ (Impact d = ImpactNone <-> same a b) /\
  (impact_rank (Impact d) <= 1 <-> identity a = identity b /\ structure a = structure b) /\
  (Impact d = ImpactReattach <-> identity a <> identity b).
Proof.
  intros d. unfold d. rewrite Diff_fields, rows_empty by apply diff_rows_positive.
  rewrite within_none, Diff_impact, within_live, <- within_restart, <- (Diff_impact a b 2) by lia.
  split; [done|]. split.
  - rewrite <- within_none, <- (Diff_impact a b 0) by lia.
    destruct (Impact _); cbn; split; try discriminate; try lia; done.
  - split; [done|]. destruct (Impact _); cbn; split; try discriminate; try lia; done.
Qed.

(** ** The live update *)

Lemma list_eqb_refl {A} (eq : A -> A -> bool) l : Forall (fun x => eq x x = true) l -> list_eqb eq l l = true.
Proof. induction 1; cbn; [done|]. now rewrite H. Qed.

Lemma slice_copy_normal {A} (s : slice A) : slice_normal s -> slice_copy s = s.
Proof. destruct s as [[|]|]; cbn; done. Qed.

Lemma slice_eqb_copy {A} (eq : A -> A -> bool) (s : slice A) :
  slice_normal s -> Forall (fun x => eq x x = true) (elems s) -> slice_eqb eq (slice_copy s) s = true.
Proof. intros Hn H. rewrite slice_copy_normal by done. destruct s; [now apply list_eqb_refl|done]. Qed.

Lemma rules_refl c : no_nan c -> Forall (fun r => rule_eqb r r = true) (elems (CIDRs (FlowMon c))).
Proof.
  intros H. eapply Forall_impl; [exact H|]. cbn. intros r Hr. apply rule_eqb_iff.
  split; [done|]. split; [done|]. now apply feqb_refl.
Qed.

Definition keep_structural (r : ChangeImpact * string * bool) : ChangeImpact * string * bool :=
  (fst r, row_changed r && (2 <=? row_impact r)).

Lemma live_update_rows c src :
  slice_normal (ServerAllow src) -> slice_normal (CIDRs (FlowMon src)) -> no_nan src ->
  diff_rows (ApplyLiveFrom c src) src = map keep_structural (diff_rows c src).
Proof.
  intros Hs Hc Hn. unfold diff_rows, keep_structural, row_impact, row_changed.
  pose proof (slice_eqb_copy rule_eqb _ Hc (rules_refl _ Hn)) as HR.
  assert (slice_eqb String.eqb (slice_copy (ServerAllow src)) (ServerAllow src) = true) as HS
    by (rewrite slice_copy_normal by done; now apply strings_eqb_iff).
  unfold ApplyLiveFrom. destruct c, src; rsimpl.
  rewrite HS, HR, !String.eqb_refl, !Z.eqb_refl, !eqb_reflx, !andb_true_r, !andb_false_r. reflexivity.
Qed.

(** C19. A live update is exact: afterwards the configuration differs from its source in precisely the fields that
    need a restart or a reattach and already differed, and it differs from its former self in live fields only.
    The source must hold no NaN rate and no empty non-nil slice (which the copy would turn into a nil one). *)
Theorem live_update_exact c src :
  slice_normal (ServerAllow src) -> slice_normal (CIDRs (FlowMon src)) -> no_nan src ->
  let c' := ApplyLiveFrom c src in
  CSFields (Diff (Some c') (Some src))
    = map row_name (List.filter (fun r => row_changed r && (2 <=? row_impact r)) (diff_rows c src))
  /\ impact_rank (Impact (Diff (Some c) (Some c'))) <= 1
  /\ (StructuralDiff c src = "" -> CSFields (Diff (Some c') (Some src)) = []).
Proof.
  intros Hs Hc Hn c'.
  assert (CSFields (Diff (Some c') (Some src))
    = map row_name (List.filter (fun r => row_changed r && (2 <=? row_impact r)) (diff_rows c src))) as HF.
  { unfold c'. rewrite Diff_fields, live_update_rows by done. clear.
    induction (diff_rows c src) as [|r rows IH]; cbn; [done|].
    destruct (row_changed r && _); cbn; now rewrite IH. }
  split; [done|]. split; [apply Diff_impact; [lia|]; apply within_live; unfold c'; destruct c; done|].
  intros HD. rewrite HF. clear HF.
  assert (rows_within 1 (diff_rows c src) = true) as HW.
  { apply Diff_impact; [lia|]. unfold StructuralDiff in HD.
    change (impact_rank ImpactRestart) with 2 in HD.
    destruct (impact_rank (Impact _) <? 2) eqn:E; [zbool; lia|].
    unfold Summary in HD. destruct (CSFields _) eqn:EF.
    - rewrite Diff_fields in EF. apply rows_empty in EF; [|apply diff_rows_positive].
      apply (Diff_impact c src 0) in EF; lia.
    - destruct (Impact _); discriminate. }
  revert HW. induction (diff_rows c src) as [|r rows IH]; cbn; [done|].
  intros [H1 H2]%andb_true_iff. destruct (row_changed r); cbn in *; [|now apply IH].
  replace (2 <=? row_impact r) with false by (symmetry; apply Z.leb_gt; zbool; lia). now apply IH.
Qed.

Theorem live_update_exact_witness :
  StructuralDiff Default sample <> "" /\
  CSFields (Diff (Some (ApplyLiveFrom Default sample)) (Some sample))
  = ["trusted_iface"; "untrusted_iface"; "flow_monitoring.max_flows"].
Proof.
  split; [discriminate|].
  refine (eq_trans (proj1 (live_update_exact Default sample _ _ _)) _); vm_compute; try discriminate; try reflexivity.
  repeat constructor.
Defined.

(** Copying an empty, non-nil slice makes it nil, and the comparison tells the two apart: a clone of the
    default configuration already differs from it. *)
Theorem clone_default_differs :
  Diff (Some (Clone Default)) (Some Default) = mkCS ImpactLive ["flow_monitoring.cidrs"].
Proof. reflexivity. Qed.
