(* ===== verification/ConfigFile.v ===== *)
(** * ConfigFile: loading and saving the configuration

    [Load] and [Save] of internal/config/config.go over a small file system.
    The YAML library is a parameter; the operating system's answers (each
    call may fail, a write may leave a partial file) are an argument. *)

From Stdlib Require Import ZArith Lia Bool Ascii String.
From stdpp Require Import prelude strings list gmap.
From coqutil Require Import Datatypes.RecordSetters.
From S2P Require Import Prelude GoText GoNet GoFloat Config ConfigSpec.
Import DoubleBraceUpdate.

Local Open Scope string_scope.

(** ** Files *)

(** File contents by path; directories are not tracked. *)
Abbreviation FS := (gmap string string).

(** [os.WriteFile]: it truncates or creates the file, then writes; a failure
    may leave the file as it was, or with part of the data. *)
Inductive WriteOutcome := WOk | WErr (left : option string).

Definition WriteFile (w : WriteOutcome) (path b : string) (fs : FS) : list FS * FS * bool :=
  match w with
  | WOk => ([<[path := ""]> fs], <[path := b]> fs, true)
  | WErr None => ([], fs, false)
  | WErr (Some part) => ([<[path := ""]> fs], <[path := part]> fs, false)
  end.

(** [os.Rename] replaces the destination in one step. *)
Definition Rename (ok : bool) (src dst : string) (fs : FS) : FS * bool :=
  if ok then match fs !! src with
             | Some b => (<[dst := b]> (delete src fs), true)
             | None => (fs, false)
             end
  else (fs, false).

Record Env := mkEnv { env_mkdir : bool; env_write : WriteOutcome; env_rename : bool }.

(** Write to a temporary name, then rename: the way the program publishes
    the configuration and the alert snapshot.  The result lists every state
    the files go through, the last one first, and says whether it succeeded. *)
Definition publish (e : Env) (path b : string) (fs : FS) : list FS * bool :=
  let tmp := path ++ ".tmp" in
  let '(mid, fs1, ok) := WriteFile (env_write e) tmp b fs in
  if negb ok then ((fs1 :: mid ++ [fs])%list, false)
  else let '(fs2, ok) := Rename (env_rename e) tmp path fs1 in ((fs2 :: fs1 :: mid ++ [fs])%list, ok).

Inductive LoadError := ERead | EParse | EInvalid (e : ConfigError).
Inductive SaveError := EMkdir | EMarshal | EWrite.

Section File.
Context (yaml_marshal : Config -> option string).
Context (yaml_unmarshal : string -> Config -> option Config).

Definition Load (path : string) (fs : FS) : Config + LoadError :=
  match fs !! path with
  | None => inr ERead
  | Some b =>
      match yaml_unmarshal b Default with
      | None => inr EParse
      | Some c => match Validate c with
                  | (_, Some e) => inr (EInvalid e)
                  | (c', None) => inl c'
                  end
      end
  end.

(** [Save]: the states passed through, and the error. *)
Definition Save (e : Env) (c : Config) (path : string) (fs : FS) : list FS * option SaveError :=
  if negb (env_mkdir e) then ([fs], Some EMkdir)
  else match yaml_marshal c with
       | None => ([fs], Some EMarshal)
       | Some b => let '(states, ok) := publish e path b fs in (states, if ok then None else Some EWrite)
       end.

Definition final (states : list FS) (fs : FS) : FS := match states with s :: _ => s | [] => fs end.

(** What decoding makes of a record: an absent list is written as an empty
    one and comes back non-nil. *)
Definition as_decoded (c : Config) : Config :=
  let fm := FlowMon c in
  c {{ ServerAllow := Some (elems (ServerAllow c)) }}
    {{ FlowMon := mkFM (Enabled fm) (SampleEvery fm) (MaxFlows fm) (Some (elems (CIDRs fm))) }}.
End File.

(** ** Atomic publication *)

Lemma tmp_neq (path : string) : path ++ ".tmp" <> path.
Proof.
  intros H. apply (f_equal String.length) in H. rewrite str_length_app in H. simpl in H. lia.
Qed.

Lemma publish_states e path b (fs : FS) s :
  In s (fst (publish e path b fs)) ->
  (s !! path = fs !! path \/ s !! path = Some b) /\
  forall p, p <> path -> p <> path ++ ".tmp" -> s !! p = fs !! p.
Proof.
  pose proof (tmp_neq path) as Hne.
  unfold publish, WriteFile, Rename. destruct e as [mk w rn]. destruct w as [|[part|]]; simpl.
  - rewrite lookup_insert_eq. destruct rn; simpl; intros Hs; repeat destruct Hs as [<-|Hs]; try done;
      split; intros; rewrite ?lookup_insert_ne, ?lookup_delete_ne, ?lookup_insert_ne, ?lookup_insert_eq by congruence; auto.
  - intros Hs; repeat destruct Hs as [<-|Hs]; try done;
      split; intros; rewrite ?lookup_insert_ne by congruence; auto.
  - intros Hs; repeat destruct Hs as [<-|Hs]; try done; auto.
Qed.

Lemma publish_ok e path b (fs : FS) : snd (publish e path b fs) = true ->
  final (fst (publish e path b fs)) fs = <[path := b]> (delete (path ++ ".tmp") fs).
Proof.
  pose proof (tmp_neq path) as Hne.
  unfold publish, WriteFile, Rename. destruct e as [mk w rn]. destruct w as [|[part|]]; simpl; try done.
  rewrite lookup_insert_eq. destruct rn; simpl; [|done]. intros _. now rewrite delete_insert_eq.
Qed.

Lemma publish_fail e path b (fs : FS) : snd (publish e path b fs) = false ->
  final (fst (publish e path b fs)) fs !! path = fs !! path.
Proof.
  pose proof (tmp_neq path) as Hne.
  unfold publish, WriteFile, Rename. destruct e as [mk w rn]. destruct w as [|[part|]]; simpl.
  - rewrite lookup_insert_eq. destruct rn; simpl; [done|]. intros _. now rewrite lookup_insert_ne.
  - intros _. now rewrite lookup_insert_ne.
  - done.
Qed.

(** ** Theorems *)

Section Theorems.
Context (yaml_marshal : Config -> option string).
Context (yaml_unmarshal : string -> Config -> option Config).
Abbreviation Save := (Save yaml_marshal).
Abbreviation Load := (Load yaml_unmarshal).

(** C25. Saving is atomic: whatever the operating system answers and wherever the run is cut off, the
    configuration file holds its old contents or the complete new ones; an error leaves the old ones; success
    installs the new ones and removes the temporary file; no third file changes. *)
Theorem save_atomic e c path (fs : FS) :
  let r := Save e c path fs in
  (forall s, In s (fst r) ->
     (s !! path = fs !! path \/ exists b, yaml_marshal c = Some b /\ s !! path = Some b)
     /\ forall p, p <> path -> p <> path ++ ".tmp" -> s !! p = fs !! p)
  /\ match snd r with
     | Some _ => final (fst r) fs !! path = fs !! path
     | None => exists b, yaml_marshal c = Some b /\ final (fst r) fs = <[path := b]> (delete (path ++ ".tmp") fs)
     end.
Proof.
  unfold ConfigFile.Save. destruct (negb (env_mkdir e)) eqn:Ek; cbn; [split; [intros s [<-|[]]; auto|done]|].
  destruct (yaml_marshal c) as [b|]; cbn; [|split; [intros s [<-|[]]; auto|done]].
  destruct (publish e path b fs) as [states ok] eqn:Ep. cbn.
  split.
  - intros s Hs. assert (In s (fst (publish e path b fs))) as Hs' by now rewrite Ep.
    apply publish_states in Hs' as [[H|H] H']; split; eauto.
  - destruct ok; [exists b; split; [done|] | ];
      [pose proof (publish_ok e path b fs) as H | pose proof (publish_fail e path b fs) as H]; rewrite Ep in H; auto.
Qed.

Context (yaml_roundtrip : forall c b base, yaml_marshal c = Some b -> yaml_unmarshal b base = Some (as_decoded c)).

Lemma Valid_as_decoded c : Valid c -> Valid (as_decoded c).
Proof. intros [? ? ? ? ? ? ? ? ? []]. destruct c; constructor; rsimpl; auto. constructor; done. Qed.

Lemma wt_as_decoded c : wt c -> wt (as_decoded c).
Proof. now destruct c. Qed.

Lemma saved_loads e c path (fs : FS) states :
  wt c -> Valid c -> Save e c path fs = (states, None) ->
  Load path (final states fs) = inl (as_decoded c).
Proof.
  intros Hw Hv. unfold ConfigFile.Save, ConfigFile.Load.
  destruct (negb (env_mkdir e)); [discriminate|]. destruct (yaml_marshal c) as [b|] eqn:Em; [|discriminate].
  destruct (publish e path b fs) as [st ok] eqn:Ep. destruct ok; [|discriminate]. intros [= <-].
  pose proof (publish_ok e path b fs) as H. rewrite Ep in H. cbn in H. rewrite H by done.
  rewrite lookup_insert_eq, (yaml_roundtrip _ _ _ Em).
  assert (Validate (as_decoded c) = (as_decoded c, None)) as ->; [|done].
  apply Validate_ok; [now apply wt_as_decoded|]. apply Valid_as_decoded in Hv.
  now rewrite valid_fill.
Qed.
(** A valid configuration that was saved is loaded back: reading the file after a successful save succeeds
    and gives the same settings, up to nil lists coming back empty. *)
Theorem save_load e c path (fs : FS) states :
  wt c -> Valid c -> Save e c path fs = (states, None) ->
  Load path (final states fs) = inl (as_decoded c).
Proof. now apply saved_loads. Qed.
End Theorems.

#[export] Instance Rule_eq_dec : EqDecision FlowMonitorCIDR.
Proof. solve_decision. Defined.
#[export] Instance FM_eq_dec : EqDecision FlowMonitoring.
Proof. solve_decision. Defined.
#[export] Instance Tuning_eq_dec : EqDecision Tuning.
Proof. solve_decision. Defined.
#[export] Instance Config_eq_dec : EqDecision Config.
Proof. solve_decision. Defined.

(** A marshaller that knows one configuration. *)
Definition one_marshal (c : Config) : option string := if decide (c = fill sample) then Some "sample" else None.
Definition one_unmarshal (b : string) (_ : Config) : option Config :=
  if (b =? "sample")%string then Some (as_decoded (fill sample)) else None.

Lemma one_roundtrip c b base : one_marshal c = Some b -> one_unmarshal b base = Some (as_decoded c).
Proof. unfold one_marshal. case_decide; [|discriminate]. intros [= <-]. now subst. Qed.

Lemma sample_valid : Valid (fill sample).
Proof. apply (Validate_ok sample); [vm_compute; intuition congruence|reflexivity]. Qed.

Theorem save_load_witness :
  let states := fst (Save one_marshal (mkEnv true WOk true) (fill sample) "/etc/c.yaml" ∅) in
  Load one_unmarshal "/etc/c.yaml" (final states ∅) = inl (as_decoded (fill sample)).
Proof.
  intros states. apply (save_load one_marshal one_unmarshal one_roundtrip (mkEnv true WOk true) _ _ _ states);
    [vm_compute; intuition congruence | exact sample_valid | reflexivity].
Defined.
