(* ===== verification/Resources.v ===== *)
(** * Resources: internal/config/resources.go

    What the host offers (memory, cgroup limits, CPUs) and the table sizes
    recommended for it. *)

From Stdlib Require Import ZArith Lia Bool Ascii String.
From stdpp Require Import prelude strings list.
From S2P Require Import Prelude GoText.

Local Open Scope string_scope.
Local Open Scope Z_scope.

Definition flowEntryEstimate : Z := 128.
Definition l1EntryBytes : Z := 24.
Definition fixedMapBytes : Z := Z.shiftl 10 20.
Definition statsBytesPerCPU : Z := 98512.

Record HostResources := mkHost {
  MemoryTotal : Z; MemoryAvailable : Z; EffectiveMemory : Z; MemoryHeadroom : Z;
  CgroupLimit : Z; CgroupCurrent : Z;
  PossibleCPUs : Z; OnlineCPUs : Z; LimitedByCgroup : bool
}.

Record ResourceRecommendation := mkRec {
  R_FlowMax : Z; R_UDPFlowMax : Z; R_L1Size : Z;
  MapBudgetBytes : Z; EstimatedBytes : Z; L1Bytes : Z; FixedBytes : Z
}.

(** ** Small arithmetic *)

Definition min64 (a b : Z) : Z := if a <? b then a else b.
Definition clamp64 (v lo hi : Z) : Z := if v <? lo then lo else if hi <? v then hi else v.
Definition roundDown1024 (v : Z) : Z := Z.ldiff v 1023.

(** [for p <= v/2 { p <<= 1 }]: on 64-bit words at most 63 rounds. *)
Fixpoint pow2_loop (fuel : nat) (v p : Z) : Z :=
  match fuel with
  | O => p
  | S f => if p <=? v / 2 then pow2_loop f v (u64 (Z.shiftl p 1)) else p
  end.

Definition floorPowerOfTwo (v : Z) : Z := if v =? 0 then 0 else pow2_loop 64 v 1.

(** ** The recommendation *)

Definition RecommendDedicated (r : HostResources) : ResourceRecommendation :=
  let p := if PossibleCPUs r <? 1 then 1 else PossibleCPUs r in
  let effective := if EffectiveMemory r =? 0 then MemoryTotal r else EffectiveMemory r in
  let headroom := if MemoryHeadroom r =? 0 then effective else MemoryHeadroom r in
  let rawBudget := min64 (effective / 3) headroom in
  let budget := u64 (rawBudget * 4) / 5 in
  let fixed := u64 (fixedMapBytes + u64 (statsBytesPerCPU * u64 p)) in
  let l1Budget := effective / 100 in
  let slots := floorPowerOfTwo (l1Budget / u64 (l1EntryBytes * u64 p)) in
  let slots := if Z.shiftl 1 16 <? slots then Z.shiftl 1 16 else slots in
  let slots := if slots <? Z.shiftl 1 12 then 0 else slots in
  let l1Bytes := u64 (u64 (slots * l1EntryBytes) * u64 p) in
  let '(slots, l1Bytes) := if budget <=? u64 (fixed + l1Bytes) then (0, 0) else (slots, l1Bytes) in
  let flowBudget := if u64 (fixed + l1Bytes) <? budget then u64 (budget - fixed - l1Bytes) else 0 in
  let tcpEntries := roundDown1024 (u64 (flowBudget * 4) / 5 / flowEntryEstimate) in
  let udpEntries := roundDown1024 (flowBudget / 5 / flowEntryEstimate) in
  let tcpEntries := clamp64 tcpEntries 1024 (Z.shiftl 1 26) in
  let udpEntries := clamp64 udpEntries 1024 (Z.shiftl 1 24) in
  let estimated := u64 (u64 (fixed + l1Bytes) + u64 (flowEntryEstimate * u64 (tcpEntries + udpEntries))) in
  mkRec (u32 tcpEntries) (u32 udpEntries) (u32 slots) budget estimated l1Bytes fixed.

(** ** Reading the host *)

(** A reader's answer: the bytes and how the read ended. *)
Inductive ReadEnd := ReadOk | NotExist | ReadFailed.
Definition fileReader : Type := string -> string * ReadEnd.

Definition readFileOrEmpty (read : fileReader) (path : string) : string :=
  match read path with
  | (b, ReadOk) | (b, NotExist) => b
  | (_, ReadFailed) => ""
  end.


Definition containsWord (csv want : string) : bool := existsb (fun v => (v =? want)%string) (Split csv ",").

Definition parseMeminfo_line (acc : Z * Z) (line : string) : Z * Z :=
  let '(total, available) := acc in
  match Fields line with
  | f0 :: f1 :: _ =>
      let v := fst (ParseUint f1 64) in
      let key := TrimSuffix f0 ":" in
      if (key =? "MemTotal")%string then (u64 (Z.shiftl v 10), available)
      else if (key =? "MemAvailable")%string then (total, u64 (Z.shiftl v 10))
      else (total, available)
  | _ => (total, available)
  end.

Definition parseMeminfo (b : string) : Z * Z := fold_left parseMeminfo_line (Split b newline) (0, 0).

Definition parseMemoryValue (b : string) (hostTotal : Z) : Z :=
  let s := TrimSpace b in
  if (s =? "")%string || (s =? "max")%string then 0
  else match ParseUint s 64 with
       | (_, Some _) => 0
       | (v, None) => if (Z.shiftl 1 60 <=? v) || ((0 <? hostTotal) && (u64 (hostTotal * 1024) <? v)) then 0 else v
       end.

Definition count_part (part : string) : Z :=
  let part := TrimSpace part in
  if (part =? "")%string then 0
  else match Cut part "-" with
       | Some (lo, hi) =>
           match Atoi lo, Atoi hi with
           | (a, None), (b, None) => if a <=? b then s64 (b - a + 1) else 0
           | _, _ => 0
           end
       | None => match Atoi part with (_, None) => 1 | _ => 0 end
       end.

Definition countCPUList (s : string) : Z := fold_left (fun n part => s64 (n + count_part part)) (Split s ",") 0.

(** *** Paths: filepath.Clean, Join and Dir on Unix *)

Definition clean_step (rooted : bool) (stack : list string) (c : string) : list string :=
  if (c =? "")%string || (c =? ".")%string then stack
  else if (c =? "..")%string then
    match stack with
    | top :: rest => if (top =? "..")%string then ".." :: stack else rest
    | [] => if rooted then [] else [".."]
    end
  else c :: stack.

Definition is_rooted (path : string) : bool :=
  match path with String c _ => Ascii.eqb c "/" | EmptyString => false end.

Definition Clean (path : string) : string :=
  let rooted := is_rooted path in
  let comps := rev (fold_left (clean_step rooted) (Split path "/") []) in
  if rooted then "/" ++ Join comps "/"
  else match comps with [] => "." | _ => Join comps "/" end.

Fixpoint PathJoin (elem : list string) : string :=
  match elem with
  | [] => ""
  | e :: r => if (e =? "")%string then PathJoin r else Clean (Join elem "/")
  end.

Definition Dir (path : string) : string :=
  match last_index_byte "/" path with
  | Some i => Clean (str_take (S i) path)
  | None => Clean ""
  end.

(** *** The memory cgroup *)

(** [strings.SplitN(line, ":", 3)] when it gives three parts. *)
Definition SplitN3 (line : string) : option (string * string * string) :=
  match Cut line ":" with
  | Some (a, r) => match Cut r ":" with Some (b, c) => Some (a, b, c) | None => None end
  | None => None
  end.

(** The scan of /proc/self/cgroup: a unified hierarchy ends it. *)
Fixpoint cgroup_root (lines : list string) (root rel : string) : string * string :=
  match lines with
  | [] => (root, rel)
  | line :: rest =>
      match SplitN3 line with
      | None => cgroup_root rest root rel
      | Some (id, ctrl, path) =>
          if (id =? "0")%string then ("/sys/fs/cgroup", path)
          else if containsWord ctrl "memory" then cgroup_root rest "/sys/fs/cgroup/memory" path
          else cgroup_root rest root rel
      end
  end.

Record CgMem := mkCg { cg_limit : Z; cg_current : Z; cg_headroom : Z }.

(** One directory's limit and usage. *)
Definition cg_step (max cur : Z) (m : CgMem) : CgMem :=
  if 0 <? max then
    let '(limit, current) := if (cg_limit m =? 0) || (max <? cg_limit m) then (max, cur)
                             else (cg_limit m, cg_current m) in
    let headroom :=
      if cur <? max then
        let h := max - cur in
        if (cg_headroom m =? 0) || (h <? cg_headroom m) then h else cg_headroom m
      else cg_headroom m in
    mkCg limit current headroom
  else m.

(** The directories the walk visits, innermost first; each parent is
    shorter, so the length of the path bounds the walk. *)
Fixpoint cg_dirs (fuel : nat) (root dir : string) : list string :=
  dir :: match fuel with
         | O => []
         | S f =>
             if (dir =? root)%string then []
             else let parent := Dir dir in
                  if (parent =? dir)%string || negb (HasPrefix parent root) then []
                  else cg_dirs f root parent
         end.

Definition cg_read (read : fileReader) (root dir : string) (hostTotal : Z) : Z * Z :=
  let v1 := HasSuffix root "/memory" in
  let maxName := if v1 then "memory.limit_in_bytes" else "memory.max" in
  let curName := if v1 then "memory.usage_in_bytes" else "memory.current" in
  (parseMemoryValue (readFileOrEmpty read (PathJoin [dir; maxName])) hostTotal,
   parseMemoryValue (readFileOrEmpty read (PathJoin [dir; curName])) 0).

Definition detectCgroupMemory (read : fileReader) (hostTotal : Z) : CgMem :=
  let cgroup := readFileOrEmpty read "/proc/self/cgroup" in
  let '(root, rel) := cgroup_root (Split cgroup newline) "" "" in
  if (root =? "")%string then mkCg 0 0 0
  else
    let dir := PathJoin [root; TrimPrefix (Clean rel) "/"] in
    fold_left (fun m d => let '(max, cur) := cg_read read root d hostTotal in cg_step max cur m)
      (cg_dirs (String.length dir) root dir) (mkCg 0 0 0).

Definition detectHostResources (read : fileReader) : HostResources :=
  let '(memTotal, memAvailable) := parseMeminfo (readFileOrEmpty read "/proc/meminfo") in
  let possible := countCPUList (TrimSpace (readFileOrEmpty read "/sys/devices/system/cpu/possible")) in
  let online := countCPUList (TrimSpace (readFileOrEmpty read "/sys/devices/system/cpu/online")) in
  let possible := if possible =? 0 then online else possible in
  let possible := if possible =? 0 then 1 else possible in
  let online := if online =? 0 then possible else online in
  let cg := detectCgroupMemory read memTotal in
  let limit := cg_limit cg in
  let limited := (0 <? limit) && ((memTotal =? 0) || (limit <? memTotal)) in
  let effective := if limited then limit else memTotal in
  let headroom := if (0 <? cg_headroom cg) && ((memAvailable =? 0) || (cg_headroom cg <? memAvailable))
                  then cg_headroom cg else memAvailable in
  let headroom := if headroom =? 0 then effective else headroom in
  mkHost memTotal memAvailable effective headroom limit (cg_current cg) possible online limited.

(** ** Lemmas *)

Lemma pow2_loop_spec fuel v p : 0 < v < 2 ^ 64 ->
  (exists k, 0 <= k /\ p = 2 ^ k /\ 64 - k <= Z.of_nat fuel) -> p <= v ->
  exists k, 0 <= k /\ pow2_loop fuel v p = 2 ^ k /\ 2 ^ k <= v < 2 ^ (k + 1).
Proof.
  intros Hv. revert p. induction fuel as [|f IH]; intros p (k & Hk & -> & Hf) Hp; cbn [pow2_loop].
  - exfalso. assert (2 ^ 64 <= 2 ^ k) by (apply Z.pow_le_mono_r; lia). lia.
  - destruct (2 ^ k <=? v / 2) eqn:E; zbool.
    + assert (2 ^ (k + 1) <= v) as Hle by (rewrite Z.pow_add_r by lia; pose proof (Z.mul_div_le v 2); lia).
      replace (u64 (Z.shiftl (2 ^ k) 1)) with (2 ^ (k + 1)).
      { apply IH; [|done]. exists (k + 1). lia. }
      rewrite Z.shiftl_mul_pow2, <- Z.pow_add_r by lia. symmetry. apply u64_small.
      unfold is_u64. pose proof (Z.pow_pos_nonneg 2 (k + 1)). lia.
    + exists k. split; [done|]. split; [done|]. rewrite Z.pow_add_r by lia.
      pose proof (Z.div_mod v 2). pose proof (Z.mod_pos_bound v 2). lia.
Qed.

Lemma floorPowerOfTwo_range v : 0 < v < 2 ^ 64 ->
  exists k, 0 <= k /\ floorPowerOfTwo v = 2 ^ k /\ 2 ^ k <= v < 2 ^ (k + 1).
Proof.
  intros Hv. unfold floorPowerOfTwo. rewrite (proj2 (Z.eqb_neq v 0)) by lia.
  apply pow2_loop_spec; [done| |lia]. exists 0. split; [lia|]. split; [done|lia].
Qed.

Lemma roundDown1024_spec v : exists k, roundDown1024 v = 1024 * k /\ 1024 * k <= v < 1024 * k + 1024.
Proof.
  unfold roundDown1024. change 1023 with (Z.ones 10). rewrite Z.ldiff_ones_r by lia.
  rewrite Z.shiftl_mul_pow2, Z.shiftr_div_pow2 by lia. change (2 ^ 10) with 1024.
  exists (v / 1024). pose proof (Z.div_mod v 1024). pose proof (Z.mod_pos_bound v 1024). lia.
Qed.

Lemma clamp64_range v lo hi : lo <= hi -> lo <= clamp64 v lo hi <= hi.
Proof. intros H. unfold clamp64. case_ifs; zlia. Qed.

(** A table size: a multiple of 1024 within its clamp. *)
Lemma entries_spec v hi : 1024 <= hi -> (exists j, hi = 1024 * j) ->
  let e := clamp64 (roundDown1024 v) 1024 hi in
  1024 <= e <= hi /\ (exists k, e = 1024 * k) /\ (1024 <= v -> e <= v).
Proof.
  intros Hhi [j Hj] e. destruct (roundDown1024_spec v) as (k & Hk & Hr).
  unfold e, clamp64. rewrite Hk. case_ifs; zbool.
  - split; [lia|]. split; [exists 1; lia|]. lia.
  - split; [lia|]. split; [exists j; lia|]. lia.
  - split; [lia|]. split; [exists k; lia|]. lia.
Qed.

(** Hosts with less than an exbibyte of memory and a million CPUs. *)
Definition host_ok (r : HostResources) : Prop :=
  0 <= MemoryTotal r < 2 ^ 60 /\ 0 <= EffectiveMemory r < 2 ^ 60 /\ 0 <= MemoryHeadroom r /\ PossibleCPUs r < 2 ^ 20.

Definition cpus (r : HostResources) : Z := Z.max 1 (PossibleCPUs r).
Definition effective_of (r : HostResources) : Z :=
  if EffectiveMemory r =? 0 then MemoryTotal r else EffectiveMemory r.
Definition headroom_of (r : HostResources) : Z :=
  if MemoryHeadroom r =? 0 then effective_of r else MemoryHeadroom r.

(** The slot count before the budget check: nothing, or 2^12 to 2^16 slots
    that fit the cache's share of memory. *)
Definition l1_slots (effective p : Z) : Z :=
  let slots := floorPowerOfTwo (effective / 100 / u64 (l1EntryBytes * u64 p)) in
  let slots := if Z.shiftl 1 16 <? slots then Z.shiftl 1 16 else slots in
  if slots <? Z.shiftl 1 12 then 0 else slots.

Lemma l1_slots_spec effective p : 0 <= effective < 2 ^ 60 -> 1 <= p < 2 ^ 20 ->
  let s := l1_slots effective p in
  (s = 0 \/ exists k, 12 <= k <= 16 /\ s = 2 ^ k) /\ s * (24 * p) <= effective / 100.
Proof.
  intros He Hp s. unfold s, l1_slots, l1EntryBytes.
  rewrite (u64_small p), (u64_small (24 * p)) by (unfold is_u64; lia).
  change (Z.shiftl 1 16) with (2 ^ 16). change (Z.shiftl 1 12) with (2 ^ 12).
  set (q := effective / 100 / (24 * p)).
  assert (0 <= effective / 100 < 2 ^ 60) as Heff by (split; [apply Z.div_pos|apply Z.div_lt_upper_bound]; lia).
  assert (0 <= q) as Hq0 by (apply Z.div_pos; lia).
  assert (q * (24 * p) <= effective / 100) as Hq by (unfold q; rewrite Z.mul_comm; apply Z.mul_div_le; lia).
  assert (q <= effective / 100) as Hqe by nia.
  clearbody q. destruct (Z.eq_dec q 0) as [->|Hne].
  { split; [left; reflexivity|]. change (0 * (24 * p) <= effective / 100). lia. }
  destruct (floorPowerOfTwo_range q) as (k & Hk & -> & Hlo & Hhi); [lia|].
  destruct (2 ^ 16 <? 2 ^ k) eqn:E1; zbool; cbn [Z.ltb].
  - change (2 ^ 16 <? 2 ^ 12) with false. cbn iota. split; [right; exists 16; lia|nia].
  - destruct (2 ^ k <? 2 ^ 12) eqn:E2; zbool; [split; [auto|lia]|].
    split; [|nia]. right. exists k. split; [|done].
    split; [apply Z.pow_le_mono_r_iff with 2|apply Z.pow_le_mono_r_iff with 2]; lia.
Qed.

(** Neither the memory, nor the headroom, nor the budget leaves its word. *)
Lemma budget_range r : host_ok r ->
  let raw := Z.min (effective_of r / 3) (headroom_of r) in let budget := raw * 4 / 5 in
  0 <= effective_of r < 2 ^ 60 /\ 0 <= headroom_of r /\ 0 <= raw < 2 ^ 60 /\ 0 <= budget < 2 ^ 62 /\ budget <= effective_of r.
Proof.
  intros (Ht & He & Hh & _) raw budget.
  assert (0 <= effective_of r < 2 ^ 60) as Heff by (unfold effective_of; case_ifs; lia).
  assert (0 <= headroom_of r) as Hhead by (unfold headroom_of; case_ifs; zbool; lia).
  assert (0 <= raw < 2 ^ 60) as Hraw.
  { split; [apply Z.min_glb; [apply Z.div_pos; lia|done]|].
    apply Z.le_lt_trans with (effective_of r / 3); [lia|]. apply Z.div_lt_upper_bound; lia. }
  split_and!; try lia; try apply Hraw.
  - apply Z.div_pos; lia.
  - apply Z.div_lt_upper_bound; lia.
  - pose proof (Z.mul_div_le (raw * 4) 5). pose proof (Z.mul_div_le (effective_of r) 3). unfold budget, raw in *. lia.
Qed.

Lemma slots_range s : (s = 0 \/ exists k, 12 <= k <= 16 /\ s = 2 ^ k) -> 0 <= s <= 2 ^ 16.
Proof. intros [->|(k & Hk & ->)]; [lia|]. split; [apply Z.pow_nonneg; lia | apply Z.pow_le_mono_r; lia]. Qed.

(** What the recommendation computes, with no word of it wrapping. *)
Lemma recommend_eq r : host_ok r ->
  let p := cpus r in
  let budget := Z.min (effective_of r / 3) (headroom_of r) * 4 / 5 in
  let fixed := fixedMapBytes + statsBytesPerCPU * p in
  let s0 := l1_slots (effective_of r) p in
  let slots := if budget <=? fixed + s0 * (24 * p) then 0 else s0 in
  let l1 := slots * (24 * p) in
  let flow := Z.max 0 (budget - fixed - l1) in
  let tcp := clamp64 (roundDown1024 (flow * 4 / 5 / 128)) 1024 (2 ^ 26) in
  let udp := clamp64 (roundDown1024 (flow / 5 / 128)) 1024 (2 ^ 24) in
  RecommendDedicated r = mkRec tcp udp slots budget (fixed + l1 + 128 * (tcp + udp)) l1 fixed.
Proof.
  intros Hr p budget fixed s0 slots l1 flow tcp udp. pose proof (budget_range r Hr) as (Heff & Hhead & Hraw & Hb & Hbe). fold budget in Hb, Hbe.
  destruct Hr as (_ & _ & _ & Hp). assert (1 <= p < 2 ^ 20) as Hp' by (unfold p, cpus; lia).
  destruct (l1_slots_spec (effective_of r) p Heff Hp') as [Hs0 Hfit]. fold s0 in Hs0, Hfit. apply slots_range in Hs0.
  assert (0 <= effective_of r / 100 < 2 ^ 60) as He100 by (split; [apply Z.div_pos|apply Z.div_lt_upper_bound]; lia).
  assert (fixed = 10485760 + 98512 * p) as Hfix by reflexivity.
  assert (p = cpus r) as Hpe by reflexivity. clearbody p.
  assert (is_u64 p /\ is_u64 fixed) as [Hpu Hfu] by (unfold is_u64; lia).
  assert (0 <= s0 * (24 * p) < 2 ^ 60) as Hl0 by nia.
  unfold RecommendDedicated.
  replace (if PossibleCPUs r <? 1 then 1 else PossibleCPUs r) with p
    by (rewrite Hpe; unfold cpus; case_ifs; zbool; lia).
  fold (effective_of r) (headroom_of r). fold (l1_slots (effective_of r) p). fold s0.
  replace (min64 (effective_of r / 3) (headroom_of r)) with (Z.min (effective_of r / 3) (headroom_of r))
    by (unfold min64; case_ifs; zbool; lia).
  rewrite (u64_small p), (u64_small (Z.min _ _ * 4)), (u64_small (statsBytesPerCPU * p)), (u64_small (fixedMapBytes + _))
    by (auto; unfold is_u64, statsBytesPerCPU, fixedMapBytes; change (Z.shiftl 10 20) with 10485760; lia).
  fold budget fixed. unfold l1EntryBytes. rewrite (u64_small (s0 * 24)), (u64_small (s0 * 24 * p)) by (unfold is_u64; nia).
  replace (s0 * 24 * p) with (s0 * (24 * p)) by lia.
  rewrite (u64_small (fixed + s0 * (24 * p))) by (unfold is_u64 in *; lia).
  replace (if budget <=? fixed + s0 * (24 * p) then (0, 0) else (s0, s0 * (24 * p))) with (slots, l1)
    by (unfold slots, l1; now destruct (_ <=? _)).
  assert (0 <= l1 < 2 ^ 60) as Hl1 by (unfold l1, slots; case_ifs; lia).
  assert (u32 slots = slots) as Hsu by (apply u32_small; unfold slots, is_u32; case_ifs; lia).
  assert (fixed < 2 ^ 38) as Hfb by lia.
  rewrite (u64_small (fixed + l1)) by (unfold is_u64 in *; lia).
  replace (if fixed + l1 <? budget then u64 (budget - fixed - l1) else 0) with flow.
  2:{ unfold flow. destruct (fixed + l1 <? budget) eqn:E; zbool; [|lia].
      rewrite u64_small by (unfold is_u64 in *; lia). lia. }
  assert (0 <= flow < 2 ^ 60) as Hflow by (unfold flow, is_u64 in *; lia).
  rewrite (u64_small (flow * 4)) by (unfold is_u64; lia).
  unfold flowEntryEstimate. change (Z.shiftl 1 26) with (2 ^ 26). change (Z.shiftl 1 24) with (2 ^ 24).
  fold tcp udp.
  pose proof (clamp64_range (roundDown1024 (flow * 4 / 5 / 128)) 1024 (2 ^ 26) ltac:(lia)) as Htcp. fold tcp in Htcp.
  pose proof (clamp64_range (roundDown1024 (flow / 5 / 128)) 1024 (2 ^ 24) ltac:(lia)) as Hudp. fold udp in Hudp.
  rewrite Hsu, (u32_small tcp), (u32_small udp) by (unfold is_u32; lia). rewrite (u64_small (tcp + udp)), (u64_small (128 * _)), u64_small
    by (unfold is_u64 in *; lia).
  reflexivity.
Qed.

(** ** Theorems *)

(** The rounding loop terminates on every 64-bit word and returns the largest power of two not above it. *)
Theorem floorPowerOfTwo_spec v : 0 < v < 2 ^ 64 ->
  exists k, 0 <= k < 64 /\ floorPowerOfTwo v = 2 ^ k /\ 2 ^ k <= v < 2 ^ (k + 1).
Proof.
  intros Hv. destruct (floorPowerOfTwo_range v Hv) as (k & Hk & He & Hlo & Hhi). exists k.
  split; [|done]. split; [done|]. apply Z.pow_lt_mono_r_iff with 2; lia.
Qed.

Theorem floorPowerOfTwo_spec_witness : 0 < 1000 < 2 ^ 64 /\
  exists k, 0 <= k < 64 /\ floorPowerOfTwo 1000 = 2 ^ k /\ 2 ^ k <= 1000 < 2 ^ (k + 1).
Proof. split; [lia|]. apply (floorPowerOfTwo_spec 1000). lia. Defined.

Lemma recommend_spec r : host_ok r ->
  let c := RecommendDedicated r in
  (1024 <= R_FlowMax c <= 2 ^ 26 /\ exists k, R_FlowMax c = 1024 * k) /\
  (1024 <= R_UDPFlowMax c <= 2 ^ 24 /\ exists k, R_UDPFlowMax c = 1024 * k) /\
  ((R_L1Size c = 0 \/ exists k, 12 <= k <= 16 /\ R_L1Size c = 2 ^ k) /\
   L1Bytes c = R_L1Size c * 24 * cpus r /\ L1Bytes c <= effective_of r / 100) /\
  (15 * MapBudgetBytes c <= 4 * effective_of r /\ 5 * MapBudgetBytes c <= 4 * headroom_of r) /\
  (FixedBytes c + L1Bytes c + 655360 <= MapBudgetBytes c -> EstimatedBytes c <= MapBudgetBytes c).
Proof.
  intros Hr c. unfold c. rewrite recommend_eq by done. cbn [R_FlowMax R_UDPFlowMax R_L1Size L1Bytes MapBudgetBytes FixedBytes EstimatedBytes].
  destruct Hr as (Ht & He & Hh & Hp).
  assert (0 <= effective_of r < 2 ^ 60) as Heff by (unfold effective_of; case_ifs; lia).
  destruct (l1_slots_spec (effective_of r) (cpus r) Heff) as [Hs Hfit]; [unfold cpus; lia|].
  set (s0 := l1_slots (effective_of r) (cpus r)) in *. set (fixed := fixedMapBytes + _).
  set (budget := Z.min (effective_of r / 3) (headroom_of r) * 4 / 5). set (slots := if _ <=? _ then 0 else s0).
  set (flow := Z.max 0 _).
  destruct (entries_spec (flow * 4 / 5 / 128) (2 ^ 26)) as (Htr & Htm & Hte); [lia|exists (2 ^ 16); lia|].
  destruct (entries_spec (flow / 5 / 128) (2 ^ 24)) as (Hur & Hum & Hue); [lia|exists (2 ^ 14); lia|].
  assert (0 <= effective_of r / 100) by (apply Z.div_pos; lia).
  split; [done|]. split; [done|]. split; [|split].
  - unfold slots. split; [case_ifs; auto|]. split; [lia|]. case_ifs; lia.
  - unfold budget. pose proof (Z.mul_div_le (Z.min (effective_of r / 3) (headroom_of r) * 4) 5).
    pose proof (Z.mul_div_le (effective_of r) 3). lia.
  - intros Hroom. assert (flow = budget - fixed - slots * (24 * cpus r)) as Hflow by (unfold flow; lia).
    pose proof (Z.mul_div_le (flow * 4 / 5) 128). pose proof (Z.mul_div_le (flow / 5) 128).
    pose proof (Z.mul_div_le (flow * 4) 5). pose proof (Z.mul_div_le flow 5).
    assert (1024 <= flow / 5 / 128) by (apply Z.div_le_lower_bound; [lia|]; apply Z.div_le_lower_bound; lia).
    assert (1024 <= flow * 4 / 5 / 128) by (apply Z.div_le_lower_bound; [lia|]; apply Z.div_le_lower_bound; lia).
    lia.
Qed.

(** C32. The recommended sizes are ones the datapath and the validator take: flow tables of a multiple of 1024
    entries within their limits, a cache of no slots or a power of two from 4096 to 65536 whose bytes are within
    one hundredth of memory, and a budget within four fifths of a third of memory and of the headroom; when the
    budget has room for the two smallest tables the estimate stays within it. *)
Theorem recommend_fits r : host_ok r ->
  let c := RecommendDedicated r in
  (1024 <= R_FlowMax c <= 2 ^ 26 /\ exists k, R_FlowMax c = 1024 * k) /\
  (1024 <= R_UDPFlowMax c <= 2 ^ 24 /\ exists k, R_UDPFlowMax c = 1024 * k) /\
  ((R_L1Size c = 0 \/ exists k, 12 <= k <= 16 /\ R_L1Size c = 2 ^ k) /\
   L1Bytes c = R_L1Size c * 24 * cpus r /\ L1Bytes c <= effective_of r / 100) /\
  (15 * MapBudgetBytes c <= 4 * effective_of r /\ 5 * MapBudgetBytes c <= 4 * headroom_of r) /\
  (FixedBytes c + L1Bytes c + 655360 <= MapBudgetBytes c -> EstimatedBytes c <= MapBudgetBytes c).
Proof. exact (recommend_spec r). Qed.

Definition sample_host : HostResources := mkHost (2 ^ 35) (2 ^ 34) (2 ^ 35) (2 ^ 34) 0 0 16 16 false.

Theorem recommend_fits_witness : host_ok sample_host /\
  EstimatedBytes (RecommendDedicated sample_host) <= MapBudgetBytes (RecommendDedicated sample_host).
Proof.
  assert (host_ok sample_host) as H by (vm_compute; intuition congruence). split; [exact H|].
  apply (recommend_fits sample_host H). vm_compute. discriminate.
Defined.
