(* ===== verification/CgroupWalk.v ===== *)
(** * CgroupWalk: the cgroup walk of resources.go terminates and finds the tightest limits *)

From Stdlib Require Import ZArith Lia Bool Ascii String.
From stdpp Require Import prelude strings list.
From S2P Require Import Prelude GoText TextLemmas GoNet Resources.

Local Open Scope string_scope.
Local Open Scope Z_scope.

(** ** Paths get no longer *)

(** The bytes a list of components takes, a separator before each. *)
Fixpoint comps_len (l : list string) : nat :=
  match l with [] => 0 | x :: r => S (String.length x) + comps_len r end.

(** The same for the parts of a path that are not empty. *)
Fixpoint parts_len (l : list string) : nat :=
  match l with
  | [] => 0
  | x :: r => (if (x =? "")%string then 0 else S (String.length x)) + parts_len r
  end.

Lemma comps_len_app l r : comps_len (l ++ r) = (comps_len l + comps_len r)%nat.
Proof. induction l as [|x l IH]; [done|]. cbn [app comps_len]. rewrite IH. lia. Qed.

Lemma parts_len_app l r : parts_len (l ++ r) = (parts_len l + parts_len r)%nat.
Proof. induction l as [|x l IH]; [done|]. cbn [app parts_len]. rewrite IH. lia. Qed.

Lemma comps_len_rev l : comps_len (rev l) = comps_len l.
Proof. induction l as [|x l IH]; [done|]. cbn [rev]. rewrite comps_len_app, IH. cbn [comps_len]. lia. Qed.

Lemma clean_step_len r st c : (comps_len (clean_step r st c) <= comps_len st + parts_len [c])%nat.
Proof.
  unfold clean_step. cbn [parts_len]. destruct (c =? "")%string eqn:E0; cbn [orb]; [lia|].
  destruct (c =? ".")%string eqn:E1; [lia|].
  destruct (c =? "..")%string eqn:E2; [|cbn [comps_len]; lia].
  apply String.eqb_eq in E2 as ->. destruct st as [|top st]; [destruct r; cbn; lia|].
  destruct (top =? "..")%string; cbn [comps_len String.length]; lia.
Qed.

Lemma clean_fold_len r parts st :
  (comps_len (fold_left (clean_step r) parts st) <= comps_len st + parts_len parts)%nat.
Proof.
  revert st. induction parts as [|c parts IH]; intros st; cbn [fold_left]; [lia|].
  specialize (IH (clean_step r st c)). pose proof (clean_step_len r st c). cbn [parts_len] in *. lia.
Qed.

Lemma Join_len l : (String.length (Join l "/") <= comps_len l - 1)%nat.
Proof.
  induction l as [|x l IH]; [done|]. cbn [Join comps_len]. destruct l as [|y l]; [lia|].
  rewrite !str_length_app. cbn [String.length comps_len] in *. lia.
Qed.

Lemma comps_len_Split s c : comps_len (Split s c) = S (String.length s).
Proof.
  induction s as [|d s IH]; [done|]. cbn [Split String.length].
  destruct (Ascii.eqb d c); [cbn [comps_len String.length]; lia|].
  destruct (Split s c) as [|w ws] eqn:E; [now apply Split_nonempty in E|]. cbn [comps_len String.length] in *. lia.
Qed.

Lemma parts_le_comps l : (parts_len l <= comps_len l)%nat.
Proof. induction l as [|x l IH]; [done|]. cbn [parts_len comps_len]. case_match; lia. Qed.

(** A leading separator leaves an empty part, which costs nothing. *)
Lemma Split_len_rooted s : is_rooted s = true -> (parts_len (Split s "/") <= String.length s)%nat.
Proof.
  destruct s as [|c s]; [done|]. intros ->%Ascii.eqb_eq. cbn [Split]. rewrite Ascii.eqb_refl. cbn [parts_len].
  change ("" =? "")%string with true. pose proof (parts_le_comps (Split s "/")). rewrite comps_len_Split in *.
  cbn [String.length]. lia.
Qed.

(** The directory part of a path, [t] followed by the last slash, cleans to at most the length of [t]. *)
Lemma Clean_dir_len t : t <> "" -> (String.length (Clean (t ++ "/")) <= String.length t)%nat.
Proof.
  intros Ht. unfold Clean. rewrite (Split_app t "" "/").
  set (rooted := is_rooted (t ++ "/")). set (stack := fold_left _ _ _).
  assert (comps_len stack <= parts_len (Split t "/"))%nat as Hs.
  { unfold stack. pose proof (clean_fold_len rooted (Split t "/" ++ Split "" "/") []) as H.
    rewrite parts_len_app in H. cbn in *. lia. }
  pose proof (Join_len (rev stack)) as HJ. rewrite comps_len_rev in HJ.
  destruct t as [|c t]; [done|].
  destruct rooted eqn:Er.
  - pose proof (Split_len_rooted (String c t) Er). rewrite str_length_app. cbn [String.length] in *. lia.
  - pose proof (parts_le_comps (Split (String c t) "/")). rewrite comps_len_Split in *.
    destruct (rev stack); cbn [String.length] in *; lia.
Qed.

Lemma is_rooted_inv s : is_rooted s = true -> exists t, s = String "/" t.
Proof. destruct s as [|c t]; [done|]. intros ->%Ascii.eqb_eq. eauto. Qed.

Lemma last_index_take c s i : last_index_byte c s = Some i -> exists t, str_take (S i) s = t ++ String c "" /\
  (String.length t < String.length s)%nat.
Proof.
  revert i. induction s as [|d s IH]; intros i H; [done|]. cbn [last_index_byte] in H.
  destruct (last_index_byte c s) as [j|] eqn:E.
  - injection H as <-. destruct (IH j eq_refl) as (t & Ht & Hl). exists (String d t).
    cbn [str_take append String.length] in *. rewrite Ht. split; [done|lia].
  - destruct (Ascii.eqb_spec c d) as [->|]; [|done]. injection H as <-. exists "". cbn. split; [done|lia].
Qed.


(** The parent of a path is ".", the path itself, or shorter. *)
Lemma Dir_shorter d : Dir d = "." \/ Dir d = d \/ (String.length (Dir d) < String.length d)%nat.
Proof.
  unfold Dir. destruct (last_index_byte "/" d) as [i|] eqn:E; [|left; reflexivity]. right.
  destruct (last_index_take _ _ _ E) as (t & Ht & Hl). rewrite Ht.
  destruct t as [|c t]; [|right; pose proof (Clean_dir_len (String c t) ltac:(done)); cbn [append] in *; lia].
  change (Clean ("" ++ "/")) with "/". destruct d as [|c [|c' d]]; [done| |right; cbn; lia].
  left. cbn [last_index_byte] in E. destruct (Ascii.eqb_spec "/" c) as [->|]; done.
Qed.

(** ** The walk *)

Lemma cg_dirs_enough root n : forall dir fuel, is_rooted root = true ->
  (String.length dir <= n)%nat -> (n <= fuel)%nat -> cg_dirs fuel root dir = cg_dirs n root dir.
Proof.
  induction n as [|n IH]; intros dir fuel Hr Hl Hf.
  - destruct dir; [|cbn in Hl; lia]. destruct fuel; [done|].
    apply is_rooted_inv in Hr as [t ->]. cbn. reflexivity.
  - destruct fuel as [|fuel]; [lia|]. cbn [cg_dirs]. f_equal.
    destruct (dir =? root)%string; [done|].
    destruct (Dir dir =? dir)%string eqn:Ed; [done|]. cbn [orb].
    destruct (HasPrefix (Dir dir) root) eqn:Eh; cbn [negb]; [|done].
    apply IH; [done| |lia].
    destruct (Dir_shorter dir) as [H|[H|H]]; [|now rewrite H, String.eqb_refl in Ed|lia].
    rewrite H in Eh. apply is_rooted_inv in Hr as [t ->]. done.
Qed.

(** *** The directories above a cgroup *)

(** A name of a directory, and the absolute path of some names. *)
Definition plain (s : string) : Prop := s <> "" /\ s <> "." /\ s <> ".." /\ no_byte "/" s = true.
Definition path_of (names : list string) : string := "/" ++ Join names "/".

Lemma plain_no_slash l : Forall plain l -> Forall (fun s => no_byte "/" s = true) l.
Proof. intros H. eapply Forall_impl; [exact H|]. unfold plain. tauto. Qed.

Lemma clean_plain r l st : Forall plain l -> fold_left (clean_step r) l st = (rev l ++ st)%list.
Proof.
  revert st. induction l as [|x l IH]; intros st H; [done|]. apply Forall_cons in H as [(H0 & H1 & H2 & _) Hl]. cbn [fold_left rev].
  rewrite IH by done. unfold clean_step. rewrite !(proj2 (String.eqb_neq _ _)) by done. cbn [orb]. now rewrite <- app_assoc.
Qed.

Lemma Split_path l : l <> [] -> Forall plain l -> Split (path_of l) "/" = "" :: l.
Proof. intros Hl H. unfold path_of. cbn [append Split]. rewrite Ascii.eqb_refl, Split_Join; [done | done | now apply plain_no_slash]. Qed.

(** A clean path stays as it is, also behind a last slash. *)
Lemma Clean_path l : Forall plain l -> Clean (path_of l) = path_of l.
Proof.
  intros H. destruct (decide (l = [])) as [->|Hl]; [reflexivity|]. unfold Clean. rewrite Split_path by done. cbn [fold_left is_rooted path_of append].
  change (clean_step (Ascii.eqb "/" "/") [] "") with (@nil string). rewrite clean_plain, app_nil_r, rev_involutive by done. reflexivity.
Qed.

Lemma Clean_slash l : Forall plain l -> Clean (path_of l ++ "/") = path_of l.
Proof.
  intros H. destruct (decide (l = [])) as [->|Hl]; [reflexivity|]. unfold Clean. rewrite (Split_app _ "" "/"), Split_path by done.
  cbn [app fold_left is_rooted path_of append Split]. change (clean_step (Ascii.eqb "/" "/") [] "") with (@nil string).
  rewrite fold_left_app, (clean_plain _ l) by done. cbn [fold_left]. rewrite app_nil_r.
  change (clean_step (Ascii.eqb "/" "/") (rev l) "") with (rev l). now rewrite rev_involutive.
Qed.

Lemma Join_app l r sep : l <> [] -> r <> [] -> Join (l ++ r) sep = Join l sep ++ sep ++ Join r sep.
Proof.
  intros Hl Hr. induction l as [|x l IH]; [done|]. destruct l as [|y l]; [destruct r; [done | reflexivity]|].
  change (Join ((x :: y :: l) ++ r) sep) with (x ++ sep ++ Join ((y :: l) ++ r) sep). rewrite IH by done.
  change (Join (x :: y :: l) sep) with (x ++ sep ++ Join (y :: l) sep). now rewrite !str_app_assoc.
Qed.

Lemma path_of_app l r : l <> [] -> r <> [] -> path_of (l ++ r) = path_of l ++ "/" ++ Join r "/".
Proof. intros Hl Hr. unfold path_of. now rewrite Join_app, !str_app_assoc. Qed.

Lemma Dir_path l x : l <> [] -> Forall plain (l ++ [x]) -> Dir (path_of (l ++ [x])) = path_of l.
Proof.
  intros Hl [Hpl (_ & _ & _ & Hx)%Forall_singleton]%Forall_app. rewrite path_of_app by done. unfold Dir.
  change ("/" ++ Join [x] "/") with (String "/" x). rewrite last_index_app by done.
  assert (Ht : forall a b : string, str_take (S (String.length a)) (a ++ String "/" b) = a ++ "/").
  { intros a b. induction a as [|d a IH]; [cbn; now destruct b|]. cbn [append String.length str_take] in *. now rewrite IH. }
  rewrite Ht. now apply Clean_slash.
Qed.

Lemma path_of_longer l r : l <> [] -> r <> [] -> (String.length (path_of l) < String.length (path_of (l ++ r)))%nat.
Proof. intros Hl Hr. rewrite path_of_app, !str_length_app by done. cbn [String.length]. lia. Qed.

Lemma HasPrefix_app p r : HasPrefix (p ++ r) p = true.
Proof. unfold HasPrefix. now rewrite (proj2 (cut_prefix_some p (p ++ r) r)). Qed.

(** The directory of a cgroup and all those above it, up to the root. *)
Definition ancestors (root : string) (names : list string) : list string :=
  map (fun k => Join (root :: take k names) "/") (rev (seq 0 (S (length names)))).

Lemma ancestors_snoc root names x : ancestors root (names ++ [x]) = Join (root :: names ++ [x]) "/" :: ancestors root names.
Proof.
  unfold ancestors. rewrite length_app, Nat.add_1_r, (seq_S (S (length names))), rev_app_distr. cbn [rev app map Nat.add].
  rewrite take_ge by (rewrite length_app; cbn; lia). f_equal. apply map_ext_in. intros k Hk%in_rev%in_seq. rewrite take_app_le by lia. done.
Qed.

Lemma Join_root rl names : rl <> [] -> Join (path_of rl :: names) "/" = path_of (rl ++ names).
Proof.
  intros Hl. destruct names as [|x names]; [now rewrite app_nil_r|]. rewrite path_of_app by done. reflexivity.
Qed.

Lemma cg_dirs_path rl names : rl <> [] -> Forall plain (rl ++ names) -> forall fuel, (length names <= fuel)%nat ->
  cg_dirs fuel (path_of rl) (path_of (rl ++ names)) = ancestors (path_of rl) names.
Proof.
  intros Hl. induction names as [|x names IH] using rev_ind; intros Hp fuel Hf.
  - rewrite app_nil_r. destruct fuel as [|fuel]; cbn [cg_dirs]; [done|]. now rewrite String.eqb_refl.
  - rewrite length_app in Hf. destruct fuel as [|fuel]; [cbn in Hf; lia|]. rewrite ancestors_snoc, Join_root by done. cbn [cg_dirs]. f_equal.
    assert (Hlen := path_of_longer rl (names ++ [x]) Hl ltac:(now destruct names)).
    rewrite (proj2 (String.eqb_neq _ _)) by (intros E; rewrite E in Hlen; lia). rewrite app_assoc in Hp |- *.
    assert (Hn : (rl ++ names)%list <> []) by now destruct rl. rewrite Dir_path by done.
    assert (Hlen' := path_of_longer (rl ++ names) [x] Hn ltac:(done)).
    rewrite (proj2 (String.eqb_neq _ _)) by (intros E; rewrite <- E in Hlen'; lia). apply Forall_app in Hp as [Hp _].
    rewrite IH; [| done | cbn in Hf; lia].
    destruct (decide (names = [])) as [->|Hne]; [rewrite app_nil_r; rewrite <- (str_app_nil_r (path_of rl)) at 1; now rewrite HasPrefix_app|].
    rewrite path_of_app by done. now rewrite HasPrefix_app.
Qed.

Lemma Split_no_sep s c : Forall (fun p => no_byte c p = true) (Split s c).
Proof.
  induction s as [|d s IH]; [now repeat constructor|]. cbn [Split]. destruct (Ascii.eqb_spec d c) as [->|Hn]; [now constructor|].
  destruct (Split s c) as [|w ws] eqn:E; [now apply Split_nonempty in E|]. apply Forall_cons in IH as [Hw Hws]. constructor; [|done].
  cbn [no_byte]. rewrite Hw, andb_true_r. apply negb_true_iff, Ascii.eqb_neq. congruence.
Qed.

(** Cleaning an absolute path leaves the names of directories. *)
Lemma Clean_rooted rel : is_rooted rel = true -> exists names, Forall plain names /\ Clean rel = path_of names.
Proof.
  intros Hr. unfold Clean. rewrite Hr. eexists. split; [|reflexivity]. apply Forall_rev.
  assert (Hg : forall parts st, Forall (fun p => no_byte "/" p = true) parts -> Forall plain st -> Forall plain (fold_left (clean_step true) parts st)).
  { induction parts as [|c parts IH]; intros st Hp Hs; [done|]. apply Forall_cons in Hp as [Hc Hp]. cbn [fold_left]. apply IH; [done|].
    unfold clean_step. destruct (String.eqb_spec c ""); [done|]. destruct (String.eqb_spec c "."); [done|]. cbn [orb].
    destruct (String.eqb_spec c ".."); [|now constructor]. destruct st as [|top st]; [done|]. apply Forall_cons in Hs as [(_ & _ & Ht & _) Hs].
    now rewrite (proj2 (String.eqb_neq _ _)). }
  apply Hg; [apply Split_no_sep | constructor].
Qed.

(** The mount points the scan can find. *)
Lemma cgroup_root_mounts lines root rel root' rel' : cgroup_root lines root rel = (root', rel') ->
  (root = "" \/ exists rl, rl <> [] /\ Forall plain rl /\ root = path_of rl) -> root' = "" \/ exists rl, rl <> [] /\ Forall plain rl /\ root' = path_of rl.
Proof.
  revert root rel. induction lines as [|l lines IH]; intros root rel; cbn [cgroup_root]; [now intros [= <- <-]|].
  assert (Hmem : exists rl, rl <> [] /\ Forall plain rl /\ "/sys/fs/cgroup/memory" = path_of rl) by (exists ["sys"; "fs"; "cgroup"; "memory"]; repeat constructor; done).
  assert (Huni : exists rl, rl <> [] /\ Forall plain rl /\ "/sys/fs/cgroup" = path_of rl) by (exists ["sys"; "fs"; "cgroup"]; repeat constructor; done).
  destruct (SplitN3 l) as [[[id ctrl] path]|]; [|apply IH].
  destruct (id =? "0")%string; [intros [= <- <-]; now right|]. destruct (containsWord ctrl "memory"); [|apply IH]. intros H _. apply (IH _ _ H). now right.
Qed.

Lemma walk_visits root rel rl : rl <> [] -> Forall plain rl -> root = path_of rl -> is_rooted rel = true ->
  let dir := PathJoin [root; TrimPrefix (Clean rel) "/"] in
  exists names, Forall plain names /\ Clean rel = path_of names /\ cg_dirs (String.length dir) root dir = ancestors root names.
Proof.
  intros Hl Hp -> Hr dir. destruct (Clean_rooted rel Hr) as (names & Hn & Hc). exists names. split; [done|]. split; [done|].
  assert (Hall : Forall plain (rl ++ names)) by now apply Forall_app.
  assert (Hdir : dir = path_of (rl ++ names)).
  { unfold dir. rewrite Hc. change (TrimPrefix (path_of names) "/") with (Join names "/"). cbn [PathJoin].
    rewrite (proj2 (String.eqb_neq (path_of rl) "")) by done. change (Join [path_of rl; Join names "/"] "/") with (path_of rl ++ "/" ++ Join names "/").
    destruct (decide (names = [])) as [->|Hne]; [rewrite app_nil_r; now apply Clean_slash|]. rewrite <- path_of_app by done. now apply Clean_path. }
  rewrite Hdir. apply cg_dirs_path; [done | done|]. unfold path_of. rewrite str_length_app.
  enough (length names <= S (String.length (Join (rl ++ names) "/")))%nat by (cbn [String.length]; lia).
  pose proof (comps_len_Split (Join (rl ++ names) "/") "/") as Hs. rewrite Split_Join in Hs; [|now destruct rl | now apply plain_no_slash].
  rewrite comps_len_app in Hs. assert (length names <= comps_len names)%nat by (clear; induction names; cbn; lia). lia.
Qed.

(** *** What it reports *)

Definition cg_inv (seen : list (Z * Z)) (m : CgMem) : Prop :=
  0 <= cg_limit m /\ 0 <= cg_headroom m /\
  (forall max cur, In (max, cur) seen -> 0 < max ->
     0 < cg_limit m <= max /\ (cur < max -> 0 < cg_headroom m <= max - cur)) /\
  (cg_limit m = 0 \/ In (cg_limit m, cg_current m) seen) /\
  (cg_headroom m = 0 \/ exists max cur, In (max, cur) seen /\ cg_headroom m = max - cur).

Lemma cg_step_inv seen m max cur : cg_inv seen m -> cg_inv (seen ++ [(max, cur)]) (cg_step max cur m).
Proof.
  intros (Hl & Hh & Hall & Hli & Hhi). unfold cg_step.
  assert (forall x, In x seen -> In x (seen ++ [(max, cur)])%list) as Hin by (intros; apply in_app_iff; auto).
  assert (In (max, cur) (seen ++ [(max, cur)])%list) as Hnew by (apply in_app_iff; right; now left).
  destruct (0 <? max) eqn:E0; zbool.
  - set (lim := (cg_limit m =? 0) || (max <? cg_limit m)).
    set (hd := if cur <? max then if (cg_headroom m =? 0) || (max - cur <? cg_headroom m) then max - cur else cg_headroom m
               else cg_headroom m).
    assert (hd = max - cur /\ cur < max \/ hd = cg_headroom m) as Hhd by (unfold hd; case_ifs; zbool; auto).
    assert (0 <= hd /\ (cur < max -> 0 < hd <= max - cur) /\ (0 < cg_headroom m -> 0 < hd <= cg_headroom m)) as Hhr.
    { unfold hd. destruct (cur <? max) eqn:E1; zbool; [|lia].
      destruct (cg_headroom m =? 0) eqn:E2, (max - cur <? cg_headroom m) eqn:E3; cbn; zbool; lia. }
    assert (let l := if lim then max else cg_limit m in 0 < l <= max /\ (0 < cg_limit m -> l <= cg_limit m)) as Hlr.
    { unfold lim. destruct (cg_limit m =? 0) eqn:E2, (max <? cg_limit m) eqn:E3; cbn; zbool; lia. }
    cbv zeta in Hlr.
    assert (cg_inv (seen ++ [(max, cur)]) (mkCg (if lim then max else cg_limit m) (if lim then cur else cg_current m) hd)) as H.
    { unfold cg_inv. cbn [cg_limit cg_current cg_headroom]. split; [lia|]. split; [lia|]. split; [|split].
      - intros a b Hab Ha. apply in_app_iff in Hab as [Hab|[Hab|[]]]; [|injection Hab as <- <-; lia].
        destruct (Hall _ _ Hab Ha) as [H1 H2]. split; [lia|]. intros H3. specialize (H2 H3). lia.
      - destruct lim; [auto|]. destruct Hli as [->|]; auto.
      - destruct Hhd as [[-> _]| -> ]; [right; eauto|]. destruct Hhi as [|(a & b & ? & ?)]; [auto|right; eauto]. }
    destruct lim; exact H.
  - split; [done|]. split; [done|]. split; [|split].
    + intros a b Hab Ha. apply in_app_iff in Hab as [Hab|[Hab|[]]]; [now apply Hall|]. injection Hab. lia.
    + destruct Hli; auto.
    + destruct Hhi as [|(a & b & ? & ?)]; [auto|right; eauto].
Qed.

Lemma cg_fold_inv {A} (f : A -> Z * Z) l seen m : cg_inv seen m ->
  cg_inv (seen ++ map f l) (fold_left (fun m d => let '(max, cur) := f d in cg_step max cur m) l m).
Proof.
  revert seen m. induction l as [|d l IH]; intros seen m H; cbn [fold_left map]; [now rewrite app_nil_r|].
  destruct (f d) as [max cur] eqn:E. replace (seen ++ (max, cur) :: map f l)%list
    with ((seen ++ [(max, cur)]) ++ map f l)%list by now rewrite <- app_assoc.
  apply IH, cg_step_inv, H.
Qed.

(** C33. The cgroup walk visits the process's cgroup and every directory above it
    up to the hierarchy's root, whatever dots and slashes the absolute path in
    /proc/self/cgroup has, and then stops (more fuel would visit no more).  It
    reports the tightest limit among them with the usage of the directory that
    sets it, and the smallest positive headroom; zero stands for no limit
    anywhere. *)
Theorem cgroup_tightest read hostTotal root rel :
  cgroup_root (Split (readFileOrEmpty read "/proc/self/cgroup") newline) "" "" = (root, rel) -> root <> "" ->
  let dir := PathJoin [root; TrimPrefix (Clean rel) "/"] in
  let dirs := cg_dirs (String.length dir) root dir in
  let m := detectCgroupMemory read hostTotal in
  (is_rooted rel = true -> exists names, Forall plain names /\ Clean rel = "/" ++ Join names "/" /\ dirs = ancestors root names) /\
  (forall fuel, (String.length dir <= fuel)%nat -> cg_dirs fuel root dir = dirs) /\
  cg_inv (map (fun d => cg_read read root d hostTotal) dirs) m.
Proof.
  intros Hroot Hne dir dirs m. destruct (cgroup_root_mounts _ _ _ _ _ Hroot (or_introl eq_refl)) as [|(rl & Hl & Hp & Erl)]; [done|].
  split; [|split].
  - intros Hr. exact (walk_visits root rel rl Hl Hp Erl Hr).
  - intros fuel Hf. apply cg_dirs_enough; [|done|done].
    now rewrite Erl.
  - unfold m, detectCgroupMemory. rewrite Hroot.
    rewrite (proj2 (String.eqb_neq root "")) by done. fold dir. fold dirs.
    apply (cg_fold_inv (fun d => cg_read read root d hostTotal) dirs [] (mkCg 0 0 0)).
    unfold cg_inv; cbn. split; [lia|]. split; [lia|]. split; [intros ? ? []|auto].
Qed.

(** A container two levels deep: the outer limit is the tighter one. *)
Definition sample_read : fileReader := fun path =>
  if (path =? "/proc/self/cgroup")%string then ("0::/a/b", ReadOk)
  else if (path =? "/sys/fs/cgroup/a/b/memory.max")%string then ("4194304", ReadOk)
  else if (path =? "/sys/fs/cgroup/a/memory.max")%string then ("1048576", ReadOk)
  else if (path =? "/sys/fs/cgroup/a/memory.current")%string then ("524288", ReadOk)
  else ("", NotExist).

Theorem cgroup_tightest_witness :
  cg_inv (map (fun d => cg_read sample_read "/sys/fs/cgroup" d 0) ["/sys/fs/cgroup/a/b"; "/sys/fs/cgroup/a"; "/sys/fs/cgroup"]) (detectCgroupMemory sample_read 0) /\
  detectCgroupMemory sample_read 0 = mkCg 1048576 524288 524288.
Proof.
  split; [|vm_compute; reflexivity].
  destruct (cgroup_tightest sample_read 0 "/sys/fs/cgroup" "/a/b") as (Hv & _ & Hm); [vm_compute; reflexivity | discriminate |].
  destruct (Hv eq_refl) as (names & Hp & Hn & Hd). rewrite Hd in Hm.
  assert (names = ["a"; "b"]) as ->; [|exact Hm].
  assert (Hs : Split (path_of names) "/" = Split "/a/b" "/") by (unfold path_of; rewrite <- Hn; reflexivity).
  destruct names as [|x names]; [discriminate Hs|]. rewrite Split_path in Hs by done.
  change (Split "/a/b" "/") with [""; "a"; "b"] in Hs. now injection Hs as -> ->.
Defined.
