(* ===== verification/Ebpf.v ===== *)
(** * Ebpf: the interface of a kernel map, as the daemon uses it

    The cilium/ebpf library and the kernel are not part of the repository.
    The class [EbpfMap] has the operations the daemon calls on a map, and
    [EbpfLaws] what it relies on: an operation that succeeds has its effect,
    one that fails changes nothing, a complete iteration yields every entry.
    The components are verified against the class; [FMap] is an instance
    whose operations fail as a schedule says. *)

From Stdlib Require Import ZArith Lia Bool.
From stdpp Require Import prelude gmap.
From S2P Require Import Prelude.

Class EbpfMap (M : Type -> Type -> Type) := {
  em_view : forall {K V} `{Countable K}, M K V -> gmap K V;
  em_put : forall {K V} `{Countable K}, K -> V -> M K V -> bool * M K V;
  em_delete : forall {K V} `{Countable K}, K -> M K V -> bool * M K V;
  em_lookup : forall {K V} `{Countable K}, K -> M K V -> option V;
  em_iterate : forall {K V} `{Countable K}, M K V -> list (K * V) * bool
}.

Class EbpfLaws (M : Type -> Type -> Type) `{EbpfMap M} : Prop := {
  put_ok : forall {K V} `{Countable K} (k : K) (v : V) m m',
    em_put k v m = (true, m') -> em_view m' = <[k := v]> (em_view m);
  put_err : forall {K V} `{Countable K} (k : K) (v : V) m m',
    em_put k v m = (false, m') -> em_view m' = em_view m;
  delete_ok : forall {K V} `{Countable K} (k : K) (m m' : M K V),
    em_delete k m = (true, m') -> em_view m' = delete k (em_view m);
  delete_err : forall {K V} `{Countable K} (k : K) (m m' : M K V),
    em_delete k m = (false, m') -> em_view m' = em_view m;
  lookup_ok : forall {K V} `{Countable K} (k : K) (v : V) m,
    em_lookup k m = Some v -> em_view m !! k = Some v;
  iterate_ok : forall {K V} `{Countable K} (m : M K V) l,
    em_iterate m = (l, true) -> l ≡ₚ map_to_list (em_view m);
  iterate_err : forall {K V} `{Countable K} (m : M K V) l,
    em_iterate m = (l, false) -> forall k v, (k, v) ∈ l -> em_view m !! k = Some v
}.

(** ** Consequences *)

Section Laws.
Context {M : Type -> Type -> Type} `{EbpfLaws M} {K V : Type} `{Countable K}.

Lemma iterate_elem (m : M K V) l k v :
  em_iterate m = (l, true) -> (k, v) ∈ l <-> em_view m !! k = Some v.
Proof. intros Hl. apply iterate_ok in Hl. rewrite Hl. apply elem_of_map_to_list. Qed.

Lemma iterate_sound (m : M K V) l b k v : em_iterate m = (l, b) -> (k, v) ∈ l -> em_view m !! k = Some v.
Proof. destruct b; intros Hl Hk; [now apply (iterate_elem m l) | eapply iterate_err; eauto]. Qed.

Lemma iterate_NoDup (m : M K V) l : em_iterate m = (l, true) -> NoDup l.*1.
Proof. intros Hl. apply iterate_ok in Hl. rewrite Hl. apply NoDup_fst_map_to_list. Qed.
End Laws.

(** ** An instance: entries and a schedule of failures

    Each write takes the next answer of the schedule, and succeeds when the
    schedule has run out; reads fail when the map is marked broken. *)
Record FMap (K V : Type) := mkFMap { fm_entries : list (K * V); fm_faults : list bool; fm_broken : bool }.
Arguments mkFMap {K V}. Arguments fm_entries {K V}. Arguments fm_faults {K V}. Arguments fm_broken {K V}.

(** The next answer, and the map with the rest of the schedule. *)
Definition fm_answer {K V} (m : FMap K V) : bool * FMap K V :=
  match fm_faults m with
  | [] => (true, m)
  | a :: rest => (a, mkFMap (fm_entries m) rest (fm_broken m))
  end.

Definition fm_view {K V} `{Countable K} (m : FMap K V) : gmap K V := list_to_map (fm_entries m).

Definition fm_set {K V} (l : list (K * V)) (m : FMap K V) : FMap K V := mkFMap l (fm_faults m) (fm_broken m).

#[export] Instance fm_map : EbpfMap FMap := {|
  em_view K V _ _ m := fm_view m;
  em_put K V _ _ k v m :=
    let '(ok, m) := fm_answer m in (ok, if ok then fm_set ((k, v) :: fm_entries m) m else m);
  em_delete K V _ _ k m :=
    match fm_view m !! k with
    | None => (false, m)
    | Some _ =>
        let '(ok, m) := fm_answer m in
        (ok, if ok then fm_set (map_to_list (delete k (fm_view m))) m else m)
    end;
  em_lookup K V _ _ k m := if fm_broken m then None else fm_view m !! k;
  em_iterate K V _ _ m := (map_to_list (fm_view m), negb (fm_broken m)) |}.

Lemma fm_answer_view {K V} `{Countable K} (m m' : FMap K V) ok : fm_answer m = (ok, m') -> fm_entries m' = fm_entries m.
Proof. unfold fm_answer. destruct (fm_faults m); intros [= <- <-]; done. Qed.

#[export] Instance fm_laws : EbpfLaws FMap.
Proof.
  split; intros K V ? ?; cbn.
  - intros k v m m'. destruct (fm_answer m) as [ok m1] eqn:E. apply fm_answer_view in E. intros [= -> <-].
    unfold fm_view. cbn. now rewrite E.
  - intros k v m m'. destruct (fm_answer m) as [ok m1] eqn:E. apply fm_answer_view in E. intros [= -> <-].
    unfold fm_view. now rewrite E.
  - intros k m m'. case_match; [|done]. destruct (fm_answer m) as [ok m1] eqn:E. apply fm_answer_view in E.
    intros [= -> <-]. unfold fm_view, fm_set in *. cbn. rewrite list_to_map_to_list. now rewrite E.
  - intros k m m'. case_match; [|now intros [= <-]]. destruct (fm_answer m) as [ok m1] eqn:E.
    apply fm_answer_view in E. intros [= -> <-]. unfold fm_view. now rewrite E.
  - intros k v m. destruct (fm_broken m); [done|auto].
  - intros m l [= <- Hb]. done.
  - intros m l [= <- Hb] k v. apply elem_of_map_to_list.
Qed.
