(* ===== verification/Policy.v ===== *)
(** * Policy: the live policy of internal/dataplane/loader.go

    Writing the feature switches, the server allowlist and the monitored
    networks into the kernel maps of a running datapath, and reading them
    back. *)

From Stdlib Require Import ZArith Lia Bool Ascii String.
From stdpp Require Import prelude strings list gmap.
From S2P Require Import Prelude GoText GoNet GoFloat Config Ebpf.

Local Open Scope string_scope.
Local Open Scope Z_scope.

Definition nowShift : Z := 30.

(** ** Time *)

(** A positive TTL rounds up: it never collapses to zero. *)
Definition secToTicks (sec : Z) : Z :=
  if sec =? 0 then 0
  else let ns := u64 (sec * 1000000000) in
       u32 (Z.shiftr (u64 (u64 (ns + Z.shiftl 1 nowShift) - 1)) nowShift).

Definition ticksToSec (ticks : Z) : Z := u32 (u64 (Z.shiftl ticks nowShift) / 1000000000).

(** ** Data *)

Record featuresValue := mkFV {
  FV_Mode : Z; FV_OosStrict : Z; FV_AllowInboundServers : Z; FV_DropFrags : Z; FV_DropBadFlags : Z;
  FV_FilterUDP : Z; FV_DropVlanDeep : Z; FV_DropUDPFrags : Z; FV_RejectWithRST : Z; FV_AllowInboundSYN : Z;
  FV_TTLSyn : Z; FV_TTLEst : Z; FV_TTLClosing : Z; FV_TTLUdp : Z
}.

Record LivePolicy := mkLive {
  L_Mode : string; L_OosStrict : bool; L_AllowInboundServers : bool; L_AllowInboundSYN : bool;
  L_DropFrags : bool; L_DropBadFlags : bool; L_FilterUDP : bool;
  L_DropVlanDeep : bool; L_DropUDPFrags : bool; L_RejectWithRST : bool;
  L_TTLSyn : Z; L_TTLEst : Z; L_TTLClosing : Z; L_TTLUdp : Z
}.

Record RuntimeState := mkRT { TCPLive : Z; UDPLive : Z; LastGCUnixNano : Z; DaemonStartUnixNano : Z }.

(** A flow-table value and a flow counter, as the maps hold them. *)
Record flowVal := mkFlowVal { F_ClientISN : Z; F_LastSeen : Z; F_State : Z; F_Flags : Z }.
Record counter := mkCounter { Packets : Z; Bytes : Z }.

(** Map keys are byte strings of fixed length. *)
Definition key : Type := list Z.

(** The maps of a running instance that the control plane uses. *)
Record SharedMaps (M : Type -> Type -> Type) := mkMaps {
  Flows : M key flowVal;
  UDPFlows : M key flowVal;
  FlowMonitorCIDRs : M key Z;
  FlowMonitorCounters : M key counter;
  TxPorts : M Z Z;
  Features : M Z featuresValue;
  ServerAllowMap : M key Z;
  Runtime : option (M Z RuntimeState)
}.
Arguments mkMaps {M}. Arguments Flows {M}. Arguments UDPFlows {M}. Arguments FlowMonitorCIDRs {M}.
Arguments FlowMonitorCounters {M}. Arguments TxPorts {M}. Arguments Features {M}. Arguments ServerAllowMap {M}.
Arguments Runtime {M}.

Inductive PolicyError :=
  | EWriteFeatures | EReadFeatures
  | EServerEntry (e : HostPortError) | EMonitorCIDR (cidr : string)
  | EIterate | EDelete | EPut.

(** ** Keys *)

Definition featuresFrom (cfg : Config) : featuresValue :=
  mkFV (if (Mode cfg =? "enforce")%string then 1 else 0) (b2z (OosStrict cfg)) (b2z (AllowInboundServers cfg))
    (b2z (DropFrags cfg)) (b2z (DropBadFlags cfg)) (b2z (FilterUDP cfg)) (b2z (DropVlanDeep cfg))
    (b2z (DropUDPFrags cfg)) (b2z (RejectWithRST cfg)) (b2z (AllowInboundSYN cfg))
    (secToTicks (TTLSyn cfg)) (secToTicks (TTLEst cfg)) (secToTicks (TTLClosing cfg)) (secToTicks (TTLUdp cfg)).

Definition be16_bytes (x : Z) : list Z := [x / 256; x mod 256].
Definition be16 (l : list Z) : Z := default 0 (l !! 0%nat) * 256 + default 0 (l !! 1%nat).

(** The native (little-endian) bytes of a 32-bit word. *)
Definition le32_bytes (x : Z) : list Z := [x mod 256; x / 256 mod 256; x / 65536 mod 256; x / 16777216 mod 256].
Definition le32 (l : list Z) : Z :=
  default 0 (l !! 0%nat) + default 0 (l !! 1%nat) * 256 + default 0 (l !! 2%nat) * 65536
  + default 0 (l !! 3%nat) * 16777216.

Definition srvKeyBytes (ip : list Z) (port : Z) : key := (ip ++ be16_bytes port ++ [0; 0])%list.

Definition cidrKeyBytes (network : IPNet) : key :=
  (le32_bytes (u32 (fst (Mask_Size (net_mask network)))) ++ take 4 (default [] (To4 (net_ip network)) ++ [0; 0; 0; 0]))%list.

(** The desired key sets: the first unusable entry is the error. *)
Fixpoint server_keys (l : list string) (acc : gset key) : gset key + PolicyError :=
  match l with
  | [] => inl acc
  | entry :: r =>
      match ParseHostPort entry with
      | inr e => inr (EServerEntry e)
      | inl (ip, port) => server_keys r ({[srvKeyBytes ip port]} ∪ acc)
      end
  end.

Fixpoint cidr_keys (l : list FlowMonitorCIDR) (acc : gset key) : gset key + PolicyError :=
  match l with
  | [] => inl acc
  | rule :: r =>
      match ParseCIDR (CIDR rule) with
      | None => inr (EMonitorCIDR (CIDR rule))
      | Some (ip, network) =>
          match To4 ip with
          | None => inr (EMonitorCIDR (CIDR rule))
          | Some _ => cidr_keys r ({[cidrKeyBytes network]} ∪ acc)
          end
      end
  end.

(** ** Operations *)

Section Ops.
Context {M : Type -> Type -> Type} `{EbpfMap M}.

(** Go visits a map in no particular order: [rng] is the order taken. *)
Context (rng : gset key -> list key).

(** The loops of the two reconciliations.  Each returns the maps it went
    through, the last one first, and the error that stopped it. *)
Fixpoint delete_all (ks : list key) (m : M key Z) (seen : list (M key Z)) : list (M key Z) * M key Z * option PolicyError :=
  match ks with
  | [] => (seen, m, None)
  | k :: r => match em_delete k m with
              | (true, m') => delete_all r m' (m' :: seen)
              | (false, m') => (m' :: seen, m', Some EDelete)
              end
  end.

Fixpoint put_all (ks : list key) (m : M key Z) (seen : list (M key Z)) : list (M key Z) * M key Z * option PolicyError :=
  match ks with
  | [] => (seen, m, None)
  | k :: r => match em_put k 1 m with
              | (true, m') => put_all r m' (m' :: seen)
              | (false, m') => (m' :: seen, m', Some EPut)
              end
  end.

(** Delete what is no longer wanted, then add what is. *)
Definition sync_set (desired : gset key) (m : M key Z) : list (M key Z) * M key Z * option PolicyError :=
  let '(l, ok) := em_iterate m in
  let stale := List.filter (fun k => negb (bool_decide (k ∈ desired))) l.*1 in
  if negb ok then ([], m, Some EIterate)
  else match delete_all stale m [] with
       | (seen, m1, Some e) => (seen, m1, Some e)
       | (seen, m1, None) => put_all (rng desired) m1 seen
       end.

Definition with_server_allow (s : SharedMaps M) (m : M key Z) : SharedMaps M :=
  mkMaps (Flows s) (UDPFlows s) (FlowMonitorCIDRs s) (FlowMonitorCounters s) (TxPorts s) (Features s) m (Runtime s).
Definition with_cidrs (s : SharedMaps M) (m : M key Z) : SharedMaps M :=
  mkMaps (Flows s) (UDPFlows s) m (FlowMonitorCounters s) (TxPorts s) (Features s) (ServerAllowMap s) (Runtime s).
Definition with_features (s : SharedMaps M) (m : M Z featuresValue) : SharedMaps M :=
  mkMaps (Flows s) (UDPFlows s) (FlowMonitorCIDRs s) (FlowMonitorCounters s) (TxPorts s) m (ServerAllowMap s) (Runtime s).

Definition with_txports (s : SharedMaps M) (m : M Z Z) : SharedMaps M :=
  mkMaps (Flows s) (UDPFlows s) (FlowMonitorCIDRs s) (FlowMonitorCounters s) m (Features s) (ServerAllowMap s) (Runtime s).

Definition ApplyFeatures (s : SharedMaps M) (cfg : Config) : SharedMaps M * option PolicyError :=
  let '(ok, m) := em_put 0 (featuresFrom cfg) (Features s) in
  (with_features s m, if ok then None else Some EWriteFeatures).

Definition SyncServerAllow (s : SharedMaps M) (cfg : Config) : SharedMaps M * option PolicyError :=
  match server_keys (elems (ServerAllow cfg)) ∅ with
  | inr e => (s, Some e)
  | inl desired => let '(_, m, e) := sync_set desired (ServerAllowMap s) in (with_server_allow s m, e)
  end.

Definition SyncFlowMonitorCIDRs (s : SharedMaps M) (cfg : Config) : SharedMaps M * option PolicyError :=
  match cidr_keys (elems (CIDRs (FlowMon cfg))) ∅ with
  | inr e => (s, Some e)
  | inl desired => let '(_, m, e) := sync_set desired (FlowMonitorCIDRs s) in (with_cidrs s m, e)
  end.

Definition ReloadPolicy (s : SharedMaps M) (cfg : Config) : SharedMaps M * option PolicyError :=
  match ApplyFeatures s cfg with
  | (s, Some e) => (s, Some e)
  | (s, None) =>
      match SyncServerAllow s cfg with
      | (s, Some e) => (s, Some e)
      | (s, None) => SyncFlowMonitorCIDRs s cfg
      end
  end.

Definition live_of (fv : featuresValue) : LivePolicy :=
  let b v := negb (v =? 0) in
  mkLive (if FV_Mode fv =? 1 then "enforce" else "monitor") (b (FV_OosStrict fv))
    (b (FV_AllowInboundServers fv)) (b (FV_AllowInboundSYN fv)) (b (FV_DropFrags fv)) (b (FV_DropBadFlags fv))
    (b (FV_FilterUDP fv)) (b (FV_DropVlanDeep fv)) (b (FV_DropUDPFrags fv)) (b (FV_RejectWithRST fv))
    (ticksToSec (FV_TTLSyn fv)) (ticksToSec (FV_TTLEst fv)) (ticksToSec (FV_TTLClosing fv)) (ticksToSec (FV_TTLUdp fv)).

Definition ReadLivePolicy (s : SharedMaps M) : LivePolicy + PolicyError :=
  match em_lookup 0 (Features s) with
  | None => inr EReadFeatures
  | Some fv => inl (live_of fv)
  end.

Definition Mode_of (s : SharedMaps M) : string :=
  match ReadLivePolicy s with inr _ => "unknown" | inl p => L_Mode p end.

(** [SetModePinned], once the pinned maps are open: only the mode byte changes. *)
Definition SetMode (s : SharedMaps M) (enforce : bool) : SharedMaps M * option PolicyError :=
  match em_lookup 0 (Features s) with
  | None => (s, Some EReadFeatures)
  | Some fv =>
      let fv := mkFV (b2z enforce) (FV_OosStrict fv) (FV_AllowInboundServers fv) (FV_DropFrags fv)
        (FV_DropBadFlags fv) (FV_FilterUDP fv) (FV_DropVlanDeep fv) (FV_DropUDPFrags fv) (FV_RejectWithRST fv)
        (FV_AllowInboundSYN fv) (FV_TTLSyn fv) (FV_TTLEst fv) (FV_TTLClosing fv) (FV_TTLUdp fv) in
      let '(ok, m) := em_put 0 fv (Features s) in
      (with_features s m, if ok then None else Some EWriteFeatures)
  end.

Definition PublishRuntimeState (s : SharedMaps M) (st : RuntimeState) : SharedMaps M * bool :=
  match Runtime s with
  | None => (s, true)
  | Some m => let '(ok, m) := em_put 0 st m in
      (mkMaps (Flows s) (UDPFlows s) (FlowMonitorCIDRs s) (FlowMonitorCounters s) (TxPorts s) (Features s)
         (ServerAllowMap s) (Some m), ok)
  end.

Definition ReadRuntimeState (s : SharedMaps M) : option RuntimeState :=
  match Runtime s with None => None | Some m => em_lookup 0 m end.
End Ops.

(** ** Flow-monitor control of the loaded program

    [ApplyFlowMonitorControl] sets two variables of the untrusted program;
    [None] stands for a variable the program lacks.  [can] says whether each
    write succeeds. *)
Record MonVars := mkMon { mon_enabled : option Z; mon_mask : option Z }.

Definition set_enabled (ok : bool) (x : Z) (v : MonVars) : MonVars * bool :=
  match mon_enabled v with
  | None => (v, false)
  | Some _ => if ok then (mkMon (Some x) (mon_mask v), true) else (v, false)
  end.

Definition set_mask (ok : bool) (x : Z) (v : MonVars) : MonVars * bool :=
  match mon_mask v with
  | None => (v, false)
  | Some _ => if ok then (mkMon (mon_enabled v) (Some x), true) else (v, false)
  end.

(** The states the program's variables go through, first one first, and
    success.  [ok1], [ok2], [ok3]: the outcomes of the three writes. *)
Definition ApplyFlowMonitorControl (ok1 ok2 ok3 : bool) (cfg : Config) (v : MonVars) : list MonVars * bool :=
  let enabled := b2z (Enabled (FlowMon cfg)) in
  let '(v1, r1) := if enabled =? 0 then set_enabled ok1 0 v else (v, true) in
  if negb r1 then ([v; v1], false)
  else
    let '(v2, r2) := set_mask ok2 (u32 (SampleEvery (FlowMon cfg) - 1)) v1 in
    if negb r2 then ([v; v1; v2], false)
    else
      let '(v3, r3) := if negb (enabled =? 0) then set_enabled ok3 enabled v2 else (v2, true) in
      ([v; v1; v2; v3], r3).
