(* ===== verification/PolicySpec.v ===== *)
(** * PolicySpec: writing the live policy, against any map that keeps its laws *)

From Stdlib Require Import ZArith Lia Bool Ascii String.
From stdpp Require Import prelude strings list gmap.
From coqutil Require Import Datatypes.RecordSetters.
From S2P Require Import Prelude GoText GoNet GoFloat Config ConfigSpec Ebpf Policy.
Import DoubleBraceUpdate.

Local Open Scope string_scope.
Local Open Scope Z_scope.

(** ** Ticks *)

Lemma secToTicks_eq sec : 0 <= sec < 2 ^ 32 -> secToTicks sec = (sec * 1000000000 + 2 ^ 30 - 1) / 2 ^ 30.
Proof.
  intros Hs. unfold secToTicks, nowShift. destruct (sec =? 0) eqn:E; zbool; [subst; done|].
  change (Z.shiftl 1 30) with (2 ^ 30).
  rewrite (u64_small (sec * 1000000000)), (u64_small (_ + 2 ^ 30)), u64_small by (unfold is_u64; lia).
  rewrite Z.shiftr_div_pow2 by lia. apply u32_small. unfold is_u32.
  split; [apply Z.div_pos; lia|]. apply Z.div_lt_upper_bound; lia.
Qed.

Lemma ticks_cover sec : 0 <= sec < 2 ^ 32 ->
  sec * 1000000000 <= secToTicks sec * 2 ^ 30 < sec * 1000000000 + 2 ^ 30.
Proof.
  intros Hs. rewrite secToTicks_eq by lia.
  pose proof (Z.div_mod (sec * 1000000000 + 2 ^ 30 - 1) (2 ^ 30)).
  pose proof (Z.mod_pos_bound (sec * 1000000000 + 2 ^ 30 - 1) (2 ^ 30)). lia.
Qed.

Lemma ticks_bounds sec : 0 <= sec < 2 ^ 32 - 1 -> sec <= ticksToSec (secToTicks sec) <= sec + 1.
Proof.
  intros Hs. pose proof (ticks_cover sec ltac:(lia)) as Ht. set (t := secToTicks sec) in *. clearbody t.
  unfold ticksToSec, nowShift. rewrite Z.shiftl_mul_pow2, u64_small by (unfold is_u64; lia).
  assert (sec <= t * 2 ^ 30 / 1000000000 <= sec + 1)
    by (split; [apply Z.div_le_lower_bound; lia | apply Z.lt_succ_r, Z.div_lt_upper_bound; lia]).
  rewrite u32_small; [done|]. unfold is_u32. lia.
Qed.

(** Timeouts survive the unit change: a timeout of at least a second never becomes zero ticks, the ticks cover
    the seconds and less than one tick more, and the seconds shown for them are the configured ones or one more. *)
Theorem ttl_roundtrip sec : 0 <= sec < 2 ^ 32 - 1 ->
  let t := secToTicks sec in
  (0 < sec -> 0 < t) /\ sec * 1000000000 <= t * 2 ^ 30 < sec * 1000000000 + 2 ^ 30 /\
  sec <= ticksToSec t <= sec + 1.
Proof.
  intros Hs. cbv zeta. pose proof (ticks_cover sec ltac:(lia)). pose proof (ticks_bounds sec Hs). lia.
Qed.

Theorem ttl_roundtrip_witness : 0 <= 14 < 2 ^ 32 - 1 /\ 14 <= ticksToSec (secToTicks 14) <= 15 /\ ticksToSec (secToTicks 14) = 15.
Proof. split; [lia|]. split; [apply (ttl_roundtrip 14); lia|reflexivity]. Defined.

(** ** Reconciliation *)

Section Sync.
Context {M : Type -> Type -> Type} `{EbpfLaws M}.
Context (rng : gset key -> list key) (rng_perm : forall X, rng X ≡ₚ elements X).

(** Between the old entries and the wanted ones: what every state of the
    reconciliation satisfies. *)
Definition between (desired : gset key) (old now : gmap key Z) : Prop :=
  dom now ⊆ dom old ∪ desired /\ (forall k, k ∈ desired -> k ∈ dom old -> k ∈ dom now).

Lemma delete_all_spec (desired : gset key) old ks : forall (m : M key Z) seen,
  (forall k, k ∈ ks -> k ∉ desired) -> between desired old (em_view m) ->
  (forall x, In x seen -> between desired old (em_view x)) ->
  let '(seen', m', e) := delete_all ks m seen in
  (forall x, In x (m' :: seen') -> between desired old (em_view x)) /\
  (e = None -> em_view m' = foldl (fun (v : gmap key Z) k => delete k v) (em_view m) ks).
Proof.
  induction ks as [|k ks IH]; intros m seen Hks Hm Hseen; cbn [delete_all].
  { split; [|done]. intros x [<-|Hx]; auto. }
  destruct (em_delete k m) as [[|] m'] eqn:E.
  - apply delete_ok in E.
    assert (between desired old (em_view m')) as Hm'.
    { rewrite E. destruct Hm as [Hsub Hkeep]. unfold between. rewrite dom_delete_L.
      split; [etrans; [apply subseteq_difference_l, Hsub|done]|].
      intros k' Hd Ho. apply elem_of_difference. split; [now apply Hkeep|].
      intros ->%elem_of_singleton. now apply (Hks k ltac:(left)). }
    specialize (IH m' (m' :: seen)). destruct (delete_all ks m' (m' :: seen)) as [[seen' m''] e].
    destruct IH as [IH1 IH2]; [intros; apply Hks; now right|done|intros x [<-|Hx]; auto|].
    split; [done|]. intros He. rewrite IH2, E by done. done.
  - apply delete_err in E. split; [|done]. intros x [<-|[<-|Hx]]; [now rewrite E..|auto].
Qed.

Lemma put_all_spec (desired : gset key) old ks : forall (m : M key Z) seen,
  (forall k, k ∈ ks -> k ∈ desired) -> between desired old (em_view m) ->
  (forall x, In x seen -> between desired old (em_view x)) ->
  let '(seen', m', e) := put_all ks m seen in
  (forall x, In x (m' :: seen') -> between desired old (em_view x)) /\
  (e = None -> em_view m' = foldl (fun (v : gmap key Z) k => <[k := 1]> v) (em_view m) ks).
Proof.
  induction ks as [|k ks IH]; intros m seen Hks Hm Hseen; cbn [put_all].
  { split; [|done]. intros x [<-|Hx]; auto. }
  destruct (em_put k 1 m) as [[|] m'] eqn:E.
  - apply put_ok in E.
    assert (between desired old (em_view m')) as Hm'.
    { rewrite E. destruct Hm as [Hsub Hkeep]. unfold between. rewrite dom_insert_L. split.
      - apply union_subseteq; split; [|done]. apply singleton_subseteq_l, elem_of_union_r, Hks. left.
      - intros k' Hd Ho. apply elem_of_union_r. auto. }
    specialize (IH m' (m' :: seen)). destruct (put_all ks m' (m' :: seen)) as [[seen' m''] e].
    destruct IH as [IH1 IH2]; [intros; apply Hks; now right|done|intros x [<-|Hx]; auto|].
    split; [done|]. intros He. rewrite IH2, E by done. done.
  - apply put_err in E. split; [|done]. intros x [<-|[<-|Hx]]; [now rewrite E..|auto].
Qed.

Lemma foldl_delete_lookup ks : forall (m : gmap key Z) k,
  foldl (fun (v : gmap key Z) k => delete k v) m ks !! k = if decide (k ∈ ks) then None else m !! k.
Proof.
  induction ks as [|k0 ks IH]; intros m k; cbn [foldl]; [now rewrite decide_False by apply not_elem_of_nil|].
  rewrite IH. destruct (decide (k = k0)) as [->|Hne].
  - rewrite (decide_True (P := k0 ∈ k0 :: ks)) by left. case_decide; [done|]. apply lookup_delete_eq.
  - destruct (decide (k ∈ ks)).
    + now rewrite decide_True by (now right).
    + rewrite decide_False by (intros [->|?]%elem_of_cons; done). now rewrite lookup_delete_ne.
Qed.

Lemma foldl_insert_lookup ks : forall (m : gmap key Z) k,
  foldl (fun (v : gmap key Z) k => <[k := 1]> v) m ks !! k = if decide (k ∈ ks) then Some 1 else m !! k.
Proof.
  induction ks as [|k0 ks IH]; intros m k; cbn [foldl]; [now rewrite decide_False by apply not_elem_of_nil|].
  rewrite IH. destruct (decide (k = k0)) as [->|Hne].
  - rewrite (decide_True (P := k0 ∈ k0 :: ks)) by left. case_decide; [done|]. apply lookup_insert_eq.
  - destruct (decide (k ∈ ks)).
    + now rewrite decide_True by (now right).
    + rewrite decide_False by (intros [->|?]%elem_of_cons; done). now rewrite lookup_insert_ne.
Qed.

Lemma sync_set_spec (desired : gset key) (m : M key Z) :
  let '(seen, m', e) := sync_set rng desired m in
  (forall x, In x (m' :: seen) -> between desired (em_view m) (em_view x)) /\
  (e = None -> em_view m' = gset_to_gmap 1 desired).
Proof.
  assert (between desired (em_view m) (em_view m)) as Hrefl by (split; [apply union_subseteq_l|done]).
  unfold sync_set. destruct (em_iterate m) as [l [|]] eqn:El; cbn [negb]; [|split; [intros x [<-|[]]; done|done]].
  set (stale := List.filter _ _).
  assert (forall k, k ∈ stale <-> k ∈ dom (em_view m) /\ k ∉ desired) as Hst.
  { intros k. unfold stale. rewrite list_elem_of_In, filter_In, <- list_elem_of_In, negb_true_iff, bool_decide_eq_false.
    rewrite elem_of_dom. rewrite list_elem_of_fmap. split.
    - intros [([k' v] & -> & Hk) Hd]. split; [|done]. apply (iterate_elem m l) in Hk; eauto.
    - intros [[v Hv] Hd]. split; [|done]. exists (k, v). split; [done|]. now apply (iterate_elem m l). }
  pose proof (delete_all_spec desired (em_view m) stale m []) as Hdel.
  destruct (delete_all stale m []) as [[seen m1] e].
  destruct Hdel as [Hd1 Hd2]; [intros k Hk; now apply Hst in Hk|done|done|].
  destruct e as [e|]; [split; [done|done]|].
  pose proof (put_all_spec desired (em_view m) (rng desired) m1 seen) as Hput.
  destruct (put_all (rng desired) m1 seen) as [[seen' m2] e2].
  assert (forall k, k ∈ rng desired <-> k ∈ desired) as Hr by (intros k; rewrite rng_perm; apply elem_of_elements).
  destruct Hput as [Hp1 Hp2]; [intros k; apply Hr|apply Hd1; now left|intros x Hx; apply Hd1; now right|].
  split; [done|]. intros He. rewrite Hp2, Hd2 by done. apply map_eq. intros k.
  rewrite foldl_insert_lookup, foldl_delete_lookup.
  destruct (decide (k ∈ rng desired)) as [Hk|Hk]; rewrite Hr in Hk.
  - symmetry. now apply lookup_gset_to_gmap_Some.
  - assert (gset_to_gmap 1 desired !! k = None) as -> by now apply lookup_gset_to_gmap_None.
    case_decide as Hs; [done|]. apply not_elem_of_dom. rewrite Hst in Hs. tauto.
Qed.
End Sync.

(** ** The wanted keys *)

Definition wants_server (cfg : Config) (k : key) : Prop :=
  exists entry ip port, entry ∈ elems (ServerAllow cfg) /\ ParseHostPort entry = inl (ip, port) /\ k = srvKeyBytes ip port.

Definition wants_cidr (cfg : Config) (k : key) : Prop :=
  exists rule ip network, rule ∈ elems (CIDRs (FlowMon cfg)) /\ ParseCIDR (CIDR rule) = Some (ip, network)
    /\ k = cidrKeyBytes network.

Lemma server_keys_spec l : forall acc X, server_keys l acc = inl X -> forall k, k ∈ X <->
  k ∈ acc \/ exists entry ip port, entry ∈ l /\ ParseHostPort entry = inl (ip, port) /\ k = srvKeyBytes ip port.
Proof.
  induction l as [|e l IH]; cbn [server_keys]; intros acc X HX k.
  - injection HX as <-. split; [auto|]. intros [?|(? & ? & ? & H & _)]; [done|]. now apply not_elem_of_nil in H.
  - destruct (ParseHostPort e) as [[ip port]|] eqn:E; [|done]. rewrite (IH _ _ HX k), elem_of_union, elem_of_singleton.
    split.
    + intros [[->|?]|(x & ? & ? & ? & ?)]; [right; exists e; eauto using list_elem_of_here|auto|].
      right. exists x. eauto using list_elem_of_further.
    + intros [?|(x & ip' & p' & [->|Hx]%elem_of_cons & Hp & ->)]; [auto| |].
      * rewrite E in Hp. injection Hp as <- <-. auto.
      * right. exists x. eauto.
Qed.

Lemma cidr_keys_spec l : forall acc X, cidr_keys l acc = inl X -> forall k, k ∈ X <->
  k ∈ acc \/ exists rule ip network, rule ∈ l /\ ParseCIDR (CIDR rule) = Some (ip, network) /\ k = cidrKeyBytes network.
Proof.
  induction l as [|e l IH]; cbn [cidr_keys]; intros acc X HX k.
  - injection HX as <-. split; [auto|]. intros [?|(? & ? & ? & H & _)]; [done|]. now apply not_elem_of_nil in H.
  - destruct (ParseCIDR (CIDR e)) as [[ip net]|] eqn:E; [|done]. destruct (To4 ip); [|done].
    rewrite (IH _ _ HX k), elem_of_union, elem_of_singleton. split.
    + intros [[->|?]|(x & ? & ? & ? & ?)]; [right; exists e; eauto using list_elem_of_here|auto|].
      right. exists x. eauto using list_elem_of_further.
    + intros [?|(x & ip' & p' & [->|Hx]%elem_of_cons & Hp & ->)]; [auto| |].
      * rewrite E in Hp. injection Hp as <- <-. auto.
      * right. exists x. eauto.
Qed.

Lemma server_keys_valid l : forall acc e,
  Forall (fun s => exists ip p, ParseHostPort s = inl (ip, p)) l -> server_keys l acc <> inr e.
Proof.
  induction l as [|s l IH]; cbn [server_keys]; intros acc e Hl; [done|].
  apply Forall_cons in Hl as [(ip & p & ->) Hl]. now apply IH.
Qed.

(** A rule whose name carries no spaces around it. *)
Definition trimmed (r : FlowMonitorCIDR) : Prop := TrimSpace (CIDR r) = CIDR r.

Lemma cidr_keys_valid l : forall acc e, Forall RuleOK l -> Forall trimmed l -> cidr_keys l acc <> inr e.
Proof.
  induction l as [|r l IH]; cbn [cidr_keys]; intros acc e Hl Ht; [done|].
  apply Forall_cons in Hl as [[(f & n & Hf & Hn & Hm & HE) _ _] Hl]. apply Forall_cons in Ht as [Htr Ht].
  rewrite <- Htr, HE, ParseCIDR_canonical, To4_mapped by (try done; apply Hf). now apply IH.
Qed.

(** ** The policy as a whole *)

(** What an operator reads back for a configuration. *)
Definition shows (cfg : Config) (p : LivePolicy) : Prop :=
  L_Mode p = Mode cfg /\
  (L_OosStrict p, L_AllowInboundServers p, L_AllowInboundSYN p, L_DropFrags p, L_DropBadFlags p, L_FilterUDP p,
   L_DropVlanDeep p, L_DropUDPFrags p, L_RejectWithRST p)
  = (OosStrict cfg, AllowInboundServers cfg, AllowInboundSYN cfg, DropFrags cfg, DropBadFlags cfg, FilterUDP cfg,
     DropVlanDeep cfg, DropUDPFrags cfg, RejectWithRST cfg) /\
  (TTLSyn cfg <= L_TTLSyn p <= TTLSyn cfg + 1 /\ TTLEst cfg <= L_TTLEst p <= TTLEst cfg + 1 /\
   TTLClosing cfg <= L_TTLClosing p <= TTLClosing cfg + 1 /\ TTLUdp cfg <= L_TTLUdp p <= TTLUdp cfg + 1).

Definition ttls_ok (cfg : Config) : Prop :=
  Forall (fun t => 0 <= t < 2 ^ 32 - 1) [TTLSyn cfg; TTLEst cfg; TTLClosing cfg; TTLUdp cfg].

Lemma live_of_shows cfg : Mode cfg = "monitor" \/ Mode cfg = "enforce" -> ttls_ok cfg -> shows cfg (live_of (featuresFrom cfg)).
Proof.
  intros Hm Ht. unfold ttls_ok in Ht. rewrite !Forall_cons in Ht. unfold shows, live_of, featuresFrom. cbn.
  rewrite !b2z_nonzero. split; [destruct Hm as [-> | ->]; reflexivity|]. split; [done|].
  split_and!; apply ticks_bounds; tauto.
Qed.

Section Reload.
Context {M : Type -> Type -> Type} `{EbpfLaws M}.
Context (rng : gset key -> list key) (rng_perm : forall X, rng X ≡ₚ elements X).

Lemma ApplyFeatures_ok (s s' : SharedMaps M) cfg : ApplyFeatures s cfg = (s', None) ->
  em_view (Features s') = <[0 := featuresFrom cfg]> (em_view (Features s)) /\
  s' = with_features s (Features s').
Proof.
  unfold ApplyFeatures. destruct (em_put 0 (featuresFrom cfg) (Features s)) as [[|] m] eqn:E; [|done].
  intros [= <-]. apply put_ok in E. split; [exact E|]. now destruct s.
Qed.

Lemma SyncServerAllow_ok (s s' : SharedMaps M) cfg : SyncServerAllow rng s cfg = (s', None) ->
  (exists X, em_view (ServerAllowMap s') = gset_to_gmap 1 X /\ forall k, k ∈ X <-> wants_server cfg k) /\
  s' = with_server_allow s (ServerAllowMap s').
Proof.
  unfold SyncServerAllow. destruct (server_keys _ _) as [X|] eqn:EX; [|done].
  pose proof (sync_set_spec rng rng_perm X (ServerAllowMap s)) as Hs.
  destruct (sync_set rng X (ServerAllowMap s)) as [[seen m] e]. intros [= <- ->].
  split; [|now destruct s]. exists X. split; [now apply Hs|]. intros k.
  rewrite (server_keys_spec _ _ _ EX). unfold wants_server. pose proof (not_elem_of_empty (C := gset key) k). tauto.
Qed.

Lemma SyncFlowMonitorCIDRs_ok (s s' : SharedMaps M) cfg : SyncFlowMonitorCIDRs rng s cfg = (s', None) ->
  (exists X, em_view (FlowMonitorCIDRs s') = gset_to_gmap 1 X /\ forall k, k ∈ X <-> wants_cidr cfg k) /\
  s' = with_cidrs s (FlowMonitorCIDRs s').
Proof.
  unfold SyncFlowMonitorCIDRs. destruct (cidr_keys _ _) as [X|] eqn:EX; [|done].
  pose proof (sync_set_spec rng rng_perm X (FlowMonitorCIDRs s)) as Hs.
  destruct (sync_set rng X (FlowMonitorCIDRs s)) as [[seen m] e]. intros [= <- ->].
  split; [|now destruct s]. exists X. split; [now apply Hs|]. intros k.
  rewrite (cidr_keys_spec _ _ _ EX). unfold wants_cidr. pose proof (not_elem_of_empty (C := gset key) k). tauto.
Qed.

(** Reconciling a key set is hitless and exact: in every state the map goes through, and whatever fails, no
    wanted entry that was present is missing and no foreign entry appears; on success the map holds exactly the
    wanted keys. *)
Theorem sync_exact (desired : gset key) (m m' : M key Z) seen e :
  sync_set rng desired m = (seen, m', e) ->
  (forall x, In x (m' :: seen) ->
     (forall k, k ∈ desired -> is_Some (em_view m !! k) -> is_Some (em_view x !! k)) /\
     (forall k, is_Some (em_view x !! k) -> is_Some (em_view m !! k) \/ k ∈ desired)) /\
  (e = None -> forall k, em_view m' !! k = if decide (k ∈ desired) then Some 1 else None).
Proof.
  intros E. pose proof (sync_set_spec rng rng_perm desired m) as Hs. rewrite E in Hs. destruct Hs as [Hs He].
  split.
  - intros x Hx. destruct (Hs x Hx) as [Hsub Hkeep]. split; intros k.
    + rewrite <- !elem_of_dom. auto.
    + rewrite <- !elem_of_dom. intros Hk. now apply Hsub, elem_of_union in Hk.
  - intros Hn k. rewrite He by done. case_decide.
    + now apply lookup_gset_to_gmap_Some.
    + now apply lookup_gset_to_gmap_None.
Qed.

(** A map used as a set holds exactly the wanted keys, all with the value 1. *)
Definition holds_exactly (m : M key Z) (wants : key -> Prop) : Prop :=
  exists X, em_view m = gset_to_gmap 1 X /\ forall k, k ∈ X <-> wants k.

Lemma holds_one m wants k : holds_exactly m wants -> em_view m !! k = Some 1 <-> wants k.
Proof. intros (X & -> & HX). rewrite lookup_gset_to_gmap_Some, HX. tauto. Qed.

Lemma holds_some m wants k : holds_exactly m wants -> is_Some (em_view m !! k) <-> wants k.
Proof.
  intros Hm. rewrite <- (holds_one _ _ _ Hm). split; [|eauto]. intros [v Hv]. rewrite Hv. destruct Hm as (X & HX & _).
  rewrite HX in Hv. now apply lookup_gset_to_gmap_Some in Hv as [_ ->].
Qed.

(** The maps hold a configuration's policy. *)
Definition in_force (cfg : Config) (s : SharedMaps M) : Prop :=
  em_view (Features s) !! 0 = Some (featuresFrom cfg) /\
  holds_exactly (ServerAllowMap s) (wants_server cfg) /\ holds_exactly (FlowMonitorCIDRs s) (wants_cidr cfg).

Lemma reload_maps (s s' : SharedMaps M) cfg : ReloadPolicy rng s cfg = (s', None) ->
  in_force cfg s' /\ Flows s' = Flows s /\ UDPFlows s' = UDPFlows s.
Proof.
  unfold ReloadPolicy.
  destruct (ApplyFeatures s cfg) as [s1 [e1|]] eqn:E1; [done|].
  destruct (SyncServerAllow rng s1 cfg) as [s2 [e2|]] eqn:E2; [done|]. intros E3.
  apply ApplyFeatures_ok in E1 as [Hv1 H1]. apply SyncServerAllow_ok in E2 as [(X & Hv2 & HX) H2].
  apply SyncFlowMonitorCIDRs_ok in E3 as [(Y & Hv3 & HY) H3].
  assert (Features s' = Features s1) as HF by (rewrite H3, H2; now destruct s1).
  assert (ServerAllowMap s' = ServerAllowMap s2) as HA by (rewrite H3; now destruct s2).
  split; [split; [|split]|split].
  - rewrite HF, Hv1. apply lookup_insert_eq.
  - exists X. now rewrite HA.
  - now exists Y.
  - rewrite H3, H2, H1. now destruct s.
  - rewrite H3, H2, H1. now destruct s.
Qed.

Lemma reload_in_force (s s' : SharedMaps M) cfg :
  Mode cfg = "monitor" \/ Mode cfg = "enforce" -> ttls_ok cfg ->
  ReloadPolicy rng s cfg = (s', None) ->
  em_view (Features s') !! 0 = Some (featuresFrom cfg) /\
  (forall k, em_view (ServerAllowMap s') !! k = Some 1 <-> wants_server cfg k) /\
  (forall k, em_view (FlowMonitorCIDRs s') !! k = Some 1 <-> wants_cidr cfg k) /\
  Flows s' = Flows s /\ UDPFlows s' = UDPFlows s /\
  (forall p, ReadLivePolicy s' = inl p -> shows cfg p).
Proof.
  intros Hmode Ht E. destruct (reload_maps _ _ _ E) as ((HF & HA & HC) & H1 & H2). split_and!; auto using holds_one.
  intros p. unfold ReadLivePolicy. destruct (em_lookup 0 (Features s')) as [fv|] eqn:EL; [|done]. intros [= <-].
  apply lookup_ok in EL. rewrite HF in EL. injection EL as <-. now apply live_of_shows.
Qed.

(** C15. A policy reload that reports success is in force as a whole: the features map holds the encoded
    configuration, the allowlist and the monitored networks are exactly the configured ones, the flow tables are
    untouched, and what can be read back is the configuration (timeouts possibly a second longer). *)
Theorem reload_effective (s s' : SharedMaps M) cfg :
  Mode cfg = "monitor" \/ Mode cfg = "enforce" -> ttls_ok cfg ->
  ReloadPolicy rng s cfg = (s', None) ->
  em_view (Features s') !! 0 = Some (featuresFrom cfg) /\
  (forall k, em_view (ServerAllowMap s') !! k = Some 1 <-> wants_server cfg k) /\
  (forall k, em_view (FlowMonitorCIDRs s') !! k = Some 1 <-> wants_cidr cfg k) /\
  Flows s' = Flows s /\ UDPFlows s' = UDPFlows s /\
  (forall p, ReadLivePolicy s' = inl p -> shows cfg p).
Proof. now apply reload_in_force. Qed.

(** A reload of a valid configuration whose rule names carry no spaces is never refused by the program: an
    error comes from a map operation that failed. *)
Theorem valid_reload_errors (s s' : SharedMaps M) cfg e :
  Valid cfg -> Forall trimmed (elems (CIDRs (FlowMon cfg))) ->
  ReloadPolicy rng s cfg = (s', Some e) ->
  e = EWriteFeatures \/ e = EIterate \/ e = EDelete \/ e = EPut.
Proof.
  intros [_ _ _ _ _ _ Ha _ _ [_ _ _ Hr _]] Ht. unfold ReloadPolicy.
  assert (forall X (m : M key Z), match snd (sync_set rng X m) with
            Some e => e = EIterate \/ e = EDelete \/ e = EPut | None => True end) as Hsync.
  { intros X m. unfold sync_set. destruct (em_iterate m) as [l [|]]; cbn; [|auto].
    assert (forall ks (m : M key Z) seen, match snd (delete_all ks m seen) with Some e => e = EDelete | None => True end) as Hdel.
    { induction ks; cbn; intros; [done|]. destruct (em_delete _ _) as [[|] ?]; [apply IHks|done]. }
    assert (forall ks (m : M key Z) seen, match snd (put_all ks m seen) with Some e => e = EPut | None => True end) as Hput.
    { induction ks; cbn; intros; [done|]. destruct (em_put _ _ _) as [[|] ?]; [apply IHks|done]. }
    match goal with |- context [delete_all ?ks m []] => specialize (Hdel ks m []); destruct (delete_all ks m []) as [[seen m1] [e1|]] end;
      cbn in *; [auto|].
    specialize (Hput (rng X) m1 seen). destruct (put_all (rng X) m1 seen) as [[? ?] [?|]]; cbn in *; auto. }
  unfold ApplyFeatures. destruct (em_put 0 _ _) as [[|] m1]; [|intros [= _ <-]; auto].
  unfold SyncServerAllow. destruct (server_keys _ _) as [X|] eqn:EX; [|now apply server_keys_valid in EX].
  match goal with |- context [sync_set rng X ?m] => specialize (Hsync X m) as HX; destruct (sync_set rng X m) as [[? ?] [?|]] end;
    cbn in HX; [intros [= _ <-]; auto|].
  unfold SyncFlowMonitorCIDRs. destruct (cidr_keys _ _) as [Y|] eqn:EY; [|now apply cidr_keys_valid in EY].
  match goal with |- context [sync_set rng Y ?m] => specialize (Hsync Y m) as HY; destruct (sync_set rng Y m) as [[? ?] [?|]] end;
    cbn in HY; [intros [= _ <-]; auto|done].
Qed.
End Reload.

(** ** The monitoring switch of the loaded program *)

(** Switching flow monitoring is ordered: in every state the program's variables go through, packets are
    counted only under the sampling mask in force before the call, none of it changed yet, or under the new mask,
    never with the old mask after the switch; success installs both settings. *)
Theorem monitor_control_ordered ok1 ok2 ok3 cfg v states r :
  ApplyFlowMonitorControl ok1 ok2 ok3 cfg v = (states, r) ->
  let mask := u32 (SampleEvery (FlowMon cfg) - 1) in
  (forall x, In x states -> mon_enabled x <> Some 0 -> x = v \/ mon_mask x = Some mask) /\
  (r = true -> Enabled (FlowMon cfg) = true ->
     List.last states v = mkMon (Some 1) (Some mask)) /\
  (r = true -> Enabled (FlowMon cfg) = false -> List.last states v = mkMon (Some 0) (Some mask)).
Proof.
  unfold ApplyFlowMonitorControl, set_enabled, set_mask. destruct v as [en mk].
  destruct (Enabled (FlowMon cfg)), en, mk, ok1, ok2, ok3; cbn; intros [= <- <-];
    (split; [intros x Hx; repeat destruct Hx as [<-|Hx]; try done; cbn; auto | split; done]).
Qed.

(** ** Concrete runs *)

Definition old_key : key := srvKeyBytes [192; 0; 2; 1] 22.
Definition kept_key : key := srvKeyBytes [192; 0; 2; 7] 443.

Definition sample_maps : SharedMaps FMap :=
  let e {K V : Type} : FMap K V := mkFMap [] [] false in
  mkMaps e e e e e (mkFMap [(0, featuresFrom Default)] [] false)
    (mkFMap [(old_key, 1); (kept_key, 1)] [] false) None.

Lemma elements_perm (X : gset key) : elements X ≡ₚ elements X.
Proof. done. Qed.

(** The second of three writes fails: the kept entry is there throughout. *)
Theorem sync_exact_witness :
  let m := mkFMap [(old_key, 1); (kept_key, 1)] [true; false] false in
  let '(seen, m', e) := sync_set (M := FMap) elements {[kept_key]} m in
  e = Some EPut /\ is_Some (em_view m' !! kept_key).
Proof.
  cbv zeta. destruct (sync_set _ _ _) as [[seen m'] e] eqn:E.
  assert (e = Some EPut) as He by (vm_compute in E; injection E as <- <- <-; reflexivity).
  split; [exact He|]. refine (proj1 (proj1 (sync_exact elements elements_perm _ _ _ _ _ E) m' _) kept_key _ _).
  - now left.
  - now apply elem_of_singleton.
  - vm_compute. eauto.
Defined.

Definition live_sample : Config := fill sample {{ FlowMon := mkFM true 64 4096 (Some [mkRule "10.1.0.0/16" 1000 fzero]) }}.

Theorem reload_effective_witness :
  let s' := fst (ReloadPolicy elements sample_maps live_sample) in
  em_view (Features s') !! 0 = Some (featuresFrom live_sample) /\ em_view (ServerAllowMap s') !! old_key = None.
Proof.
  destruct (ReloadPolicy elements sample_maps live_sample) as [s' e] eqn:E.
  assert (e = None) as -> by (vm_compute in E; injection E as <- <-; reflexivity).
  split; [|vm_compute in E; injection E as <-; reflexivity].
  refine (proj1 (reload_effective elements elements_perm _ _ live_sample (or_introl eq_refl) _ E)).
  repeat constructor; vm_compute; discriminate.
Defined.

(** A kernel that refuses the features write. *)
Definition stuck_maps : SharedMaps FMap := with_features sample_maps (mkFMap [] [false] false).

Theorem valid_reload_errors_witness : snd (ReloadPolicy elements stuck_maps live_sample) = Some EWriteFeatures.
Proof.
  destruct (ReloadPolicy elements stuck_maps live_sample) as [s' [e|]] eqn:E; [|vm_compute in E; discriminate].
  assert (Valid live_sample) as Hv by (apply (Validate_ok live_sample); [vm_compute; intuition congruence|reflexivity]).
  assert (Forall trimmed (elems (CIDRs (FlowMon live_sample)))) as Ht by (repeat constructor).
  pose proof (valid_reload_errors elements _ _ _ _ Hv Ht E).
  vm_compute in E. injection E as _ <-. reflexivity.
Defined.

Theorem monitor_control_ordered_witness :
  let states := fst (ApplyFlowMonitorControl true true true live_sample (mkMon (Some 0) (Some 0))) in
  List.last states (mkMon None None) = mkMon (Some 1) (Some 63).
Proof.
  refine (proj1 (proj2 (monitor_control_ordered true true true live_sample (mkMon (Some 0) (Some 0)) _ _ eq_refl)) eq_refl eq_refl).
Defined.

(** A valid configuration the running program cannot load: validation trims the name of a monitored network,
    but the reconciliation parses it as written, so a name with a leading space is accepted and then refused. *)
Theorem spaced_rule_refused (M : Type -> Type -> Type) `{EbpfMap M} rng (s : SharedMaps M) :
  Validate sample = (fill sample, None) /\
  SyncFlowMonitorCIDRs rng s (fill sample) = (s, Some (EMonitorCIDR " 10.1.0.0/16")).
Proof. split; reflexivity. Qed.
