(* ===== verification/FlowTable.v ===== *)
(** * FlowTable: sweeping and browsing the flow tables

    internal/dataplane/gc.go and flows.go. *)

From Stdlib Require Import ZArith Lia Bool Ascii String.
From stdpp Require Import prelude strings list gmap.
From S2P Require Import Prelude GoText GoNet GoFloat Config Filter Ebpf Policy.

Local Open Scope string_scope.
Local Open Scope Z_scope.

(** ** gc.go *)

Definition stNone : Z := 0.
Definition stSynSent : Z := 1.
Definition stSynRcvd : Z := 2.
Definition stEst : Z := 3.
Definition stClosing : Z := 4.
Definition stUdp : Z := 5.

(** The clock reading is seconds and nanoseconds; a failed read gives 0. *)
Definition MonotonicTick (clock : option (Z * Z)) : Z :=
  match clock with
  | None => 0
  | Some (sec, nsec) => u32 (Z.shiftr (u64 (u64 (sec * 1000000000) + nsec)) nowShift)
  end.

Definition ttlForState (cfg : Config) (state : Z) : Z :=
  if state =? stEst then secToTicks (TTLEst cfg)
  else if state =? stClosing then secToTicks (TTLClosing cfg)
  else if state =? stUdp then secToTicks (TTLUdp cfg)
  else secToTicks (TTLSyn cfg).

(** The sweep's test of one entry. *)
Definition gc_expired (cfg : Config) (now : Z) (val : flowVal) : bool :=
  if now <? F_LastSeen val then false
  else ttlForState cfg (F_State val) <? u32 (now - F_LastSeen val).

Section GC.
Context {M : Type -> Type -> Type} `{EbpfMap M}.

(** The deletions: [kernel] is what the datapath does to the table before
    each of them, since packets keep flowing during the sweep. *)
Fixpoint gc_delete (kernel : M key flowVal -> M key flowVal) (ks : list key) (m : M key flowVal) (deleted : Z)
    : M key flowVal * Z :=
  match ks with
  | [] => (m, deleted)
  | k :: r => let '(ok, m) := em_delete k (kernel m) in
              gc_delete kernel r m (if ok then deleted + 1 else deleted)
  end.

(** Live and deleted entries, and the table afterwards. *)
Definition GCOnce (kernel : M key flowVal -> M key flowVal) (flows : M key flowVal) (cfg : Config) (now : Z)
    : Z * Z * M key flowVal :=
  if now =? 0 then (0, 0, flows)
  else
    let '(l, _) := em_iterate flows in
    let total := Z.of_nat (length l) in
    let expired := (List.filter (fun e => gc_expired cfg now e.2) l).*1 in
    let '(flows', deleted) := gc_delete kernel expired flows 0 in
    (total - deleted, deleted, flows').
End GC.

(** ** flows.go *)

Record FlowInfo := mkFlow {
  Proto : string; InetIP : list Z; HostIP : list Z; InetPort : Z; HostPort : Z;
  OuterVID : Z; StateName : string; AgeSec : Z
}.

Record FlowQuery := mkQuery { Q_Protocol : string; Q_VLAN : Z; Q_Text : string; Q_Limit : Z; Q_ScanLimit : Z }.

Record FlowScan := mkScan { Rows : list FlowInfo; Scanned : Z; Truncated : bool }.

Definition stateName (s : Z) : string :=
  if s =? stSynSent then "SYN_SENT" else if s =? stSynRcvd then "SYN_RCVD" else if s =? stEst then "EST"
  else if s =? stClosing then "CLOSING" else if s =? stUdp then "UDP" else "NONE".

(** [key[i:j]] of a fixed-size key. *)
Definition sub (i j : nat) (k : key) : list Z := take (j - i) (drop i k).

Definition decodeFlow (k : key) (val : flowVal) (proto : string) (now : Z) : FlowInfo :=
  let vlans := le32 (sub 12 16 k) in
  let age := if F_LastSeen val <=? now then ticksToSec (u32 (now - F_LastSeen val)) else 0 in
  mkFlow proto (sub 0 4 k) (sub 4 8 k) (be16 (sub 8 10 k)) (be16 (sub 10 12 k))
    (Z.land (Z.shiftr vlans 12) 4095) (stateName (F_State val)) age.

(** The text a flow is searched by. *)
Definition haystack (fi : FlowInfo) : string :=
  ToLower (Join [Proto fi; IP_String (HostIP fi); IP_String (InetIP fi); Itoa (HostPort fi); Itoa (InetPort fi); StateName fi] " ").

Definition flow_matches (vlan : Z) (needle : string) (fi : FlowInfo) : bool :=
  negb ((0 <=? vlan) && negb (OuterVID fi =? vlan))
  && ((needle =? "")%string || Contains (haystack fi) needle).

(** One table of the scan; the boolean says whether the loop was left early. *)
Fixpoint scan_table (q : FlowQuery) (needle name : string) (now : Z) (l : list (key * flowVal)) (out : FlowScan)
    : FlowScan * bool :=
  match l with
  | [] => (out, false)
  | (k, v) :: r =>
      let out := mkScan (Rows out) (Scanned out + 1) (Truncated out) in
      if Q_ScanLimit q <? Scanned out then (mkScan (Rows out) (Scanned out) true, true)
      else
        let fi := decodeFlow k v name now in
        if negb (flow_matches (Q_VLAN q) needle fi) then scan_table q needle name now r out
        else
          let out := mkScan (Rows out ++ [fi])%list (Scanned out) (Truncated out) in
          if Q_Limit q <=? Z.of_nat (length (Rows out)) then (mkScan (Rows out) (Scanned out) true, true)
          else scan_table q needle name now r out
  end.

Section Scan.
Context {M : Type -> Type -> Type} `{EbpfMap M}.

(** The tables in turn; [None] is success, otherwise the table that failed. *)
Fixpoint scan_tables (q : FlowQuery) (needle : string) (now : Z) (srcs : list (string * M key flowVal)) (out : FlowScan)
    : FlowScan * option string :=
  match srcs with
  | [] => (out, None)
  | (name, m) :: rest =>
      if negb (Q_Protocol q =? "")%string && negb (Q_Protocol q =? "ALL")%string && negb (Q_Protocol q =? name)%string
      then scan_tables q needle now rest out
      else
        let '(l, ok) := em_iterate m in
        let '(out, broke) := scan_table q needle name now l out in
        if negb broke && negb ok then (out, Some name)
        else if Truncated out then (out, None)
        else scan_tables q needle now rest out
  end.

Definition normalize (q : FlowQuery) : FlowQuery :=
  mkQuery (ToUpper (TrimSpace (Q_Protocol q))) (Q_VLAN q) (Q_Text q)
    (if Q_Limit q <=? 0 then 200 else Q_Limit q) (if Q_ScanLimit q <=? 0 then 10000 else Q_ScanLimit q).

Definition ScanFlows (s : SharedMaps M) (q : FlowQuery) (now : Z) : FlowScan * option string :=
  let q := normalize q in
  scan_tables q (ToLower (TrimSpace (Q_Text q))) now [("TCP", Flows s); ("UDP", UDPFlows s)] (mkScan [] 0 false).

Fixpoint dump_loop (l : list (key * flowVal)) (proto : string) (limit now : Z) (out : list FlowInfo) : list FlowInfo :=
  match l with
  | [] => out
  | (k, v) :: r =>
      let out := (out ++ [decodeFlow k v proto now])%list in
      if (0 <? limit) && (limit <=? Z.of_nat (length out)) then out else dump_loop r proto limit now out
  end.

Definition DumpFlows (m : M key flowVal) (proto : string) (limit now : Z) : list FlowInfo :=
  dump_loop (fst (em_iterate m)) proto limit now [].
End Scan.

(** ** The sweep *)

(** The features and the entry as the packet program sees them. *)
Definition as_features (fv : featuresValue) : features :=
  Filter.Features (FV_Mode fv) (FV_OosStrict fv) (FV_AllowInboundServers fv) (FV_DropFrags fv) (FV_DropBadFlags fv)
    (FV_FilterUDP fv) (FV_DropVlanDeep fv) (FV_DropUDPFrags fv) (FV_RejectWithRST fv) (FV_AllowInboundSYN fv)
    (FV_TTLSyn fv) (FV_TTLEst fv) (FV_TTLClosing fv) (FV_TTLUdp fv).

Definition as_flow_val (v : flowVal) : flow_val := FlowVal (F_ClientISN v) (F_LastSeen v) (F_State v) (F_Flags v).

(** C31. The sweep and the packet path agree on which entries are dead: the sweep deletes an entry under a
    configuration exactly when the packet program, running with the features written for it, treats the entry as
    expired. *)
Theorem gc_agrees cfg now v :
  gc_expired cfg now v = expired (as_features (featuresFrom cfg)) (as_flow_val v) now.
Proof.
  unfold gc_expired, expired, ttlForState, ttl_for. cbn.
  change ST_EST with stEst. change ST_CLOSING with stClosing. change ST_UDP with stUdp. reflexivity.
Qed.

Section GCProofs.
Context {M : Type -> Type -> Type} `{EbpfLaws M}.

(** Deletions on a quiet table: what is left, and how many succeeded. *)
Lemma gc_delete_quiet ks : forall (m m' : M key flowVal) d d', NoDup ks -> (forall k, k ∈ ks -> is_Some (em_view m !! k)) ->
  gc_delete (fun m => m) ks m d = (m', d') ->
  (forall k v, em_view m' !! k = Some v -> em_view m !! k = Some v) /\
  (forall k v, em_view m !! k = Some v -> k ∉ ks -> em_view m' !! k = Some v) /\
  Z.of_nat (size (em_view m')) + d' = Z.of_nat (size (em_view m)) + d /\
  d <= d' <= d + Z.of_nat (length ks) /\
  (d' = d + Z.of_nat (length ks) -> forall k, k ∈ ks -> em_view m' !! k = None).
Proof.
  induction ks as [|k ks IH]; intros m m' d d' Hnd Hin; cbn [gc_delete].
  { intros [= <- <-]. split; [auto|]. split; [auto|]. split; [lia|]. split; [cbn; lia|].
    intros _ k Hk. now apply not_elem_of_nil in Hk. }
  apply NoDup_cons in Hnd as [Hk Hnd]. destruct (em_delete k m) as [[|] m1] eqn:E.
  - apply delete_ok in E. intros Hrun. apply IH in Hrun as (H1 & H2 & H3 & H4 & H5); [|done|].
    2:{ intros k' Hk'. rewrite E, lookup_delete_ne by (intros ->; done). apply Hin. now right. }
    destruct (Hin k ltac:(left)) as [v Hv].
    assert (S (size (em_view m1)) = size (em_view m)) as Hsize.
    { rewrite E. rewrite map_size_delete_Some by eauto. pose proof (map_size_ne_0_lookup_2 (em_view m) k (mk_is_Some _ _ Hv)). lia. }
    split; [|split; [|split; [lia|split; [cbn; lia|]]]].
    + intros k' v' Hv'. apply H1 in Hv'. rewrite E in Hv'. now apply lookup_delete_Some in Hv' as [_ ?].
    + intros k' v' Hv' Hne. apply not_elem_of_cons in Hne as [? ?]. apply H2; [|done]. now rewrite E, lookup_delete_ne.
    + intros Hd k' [->|Hk']%elem_of_cons; [|apply H5; [cbn in Hd; lia|done]].
      destruct (em_view m' !! k) eqn:Em; [|done]. apply H1 in Em. rewrite E, lookup_delete_eq in Em. done.
  - apply delete_err in E. intros Hrun. apply IH in Hrun as (H1 & H2 & H3 & H4 & H5); [|done|].
    2:{ intros k' Hk'. rewrite E. apply Hin. now right. }
    rewrite E in *. split; [done|]. split.
    + intros k' v' Hv' Hne. apply not_elem_of_cons in Hne as [? ?]. now apply H2.
    + split; [done|]. split; [cbn; lia|]. cbn. intros; lia.
Qed.

Lemma gc_sweep (flows flows' : M key flowVal) cfg now live deleted l :
  now <> 0 -> em_iterate flows = (l, true) ->
  GCOnce (fun m => m) flows cfg now = (live, deleted, flows') ->
  (forall k v, em_view flows' !! k = Some v -> em_view flows !! k = Some v) /\
  (forall k v, em_view flows !! k = Some v -> gc_expired cfg now v = false -> em_view flows' !! k = Some v) /\
  live = Z.of_nat (size (em_view flows')) /\ live + deleted = Z.of_nat (size (em_view flows)) /\
  (deleted = Z.of_nat (length (List.filter (fun e => gc_expired cfg now e.2) l)) ->
   forall k v, em_view flows' !! k = Some v -> gc_expired cfg now v = false).
Proof.
  intros Hnow Hl. unfold GCOnce. rewrite (proj2 (Z.eqb_neq _ _) Hnow), Hl.
  set (dead := (List.filter _ l).*1).
  assert (length l = size (em_view flows)) as Hlen.
  { apply iterate_ok in Hl. rewrite Hl. now rewrite length_map_to_list. }
  assert (forall k, k ∈ dead <-> exists v, em_view flows !! k = Some v /\ gc_expired cfg now v = true) as Hdead.
  { intros k. unfold dead. rewrite list_elem_of_fmap. split.
    - intros ([k' v] & -> & Hk). rewrite list_elem_of_In, filter_In, <- list_elem_of_In in Hk. destruct Hk as [Hk He].
      exists v. split; [now apply (iterate_elem flows l)|done].
    - intros (v & Hv & He). exists (k, v). split; [done|].
      rewrite list_elem_of_In, filter_In, <- list_elem_of_In. split; [now apply (iterate_elem flows l)|done]. }
  assert (NoDup dead) as Hnd.
  { unfold dead. apply iterate_NoDup in Hl. clear -Hl. induction l as [|[k v] l IH]; cbn; [constructor|].
    apply NoDup_cons in Hl as [Hk Hl]. destruct (gc_expired cfg now v); cbn; [|now apply IH].
    constructor; [|now apply IH]. intros (e & -> & He)%list_elem_of_fmap. apply Hk, list_elem_of_fmap.
    exists e. split; [done|]. rewrite list_elem_of_In, filter_In, <- list_elem_of_In in He. tauto. }
  destruct (gc_delete (fun m => m) dead flows 0) as [m' d] eqn:E. intros [= <- <- <-].
  apply gc_delete_quiet in E as (H1 & H2 & H3 & H4 & H5); [|done|].
  2:{ intros k (v & Hv & _)%Hdead. eauto. }
  split; [done|]. split; [|split; [lia|split; [lia|]]].
  - intros k v Hv He. apply H2; [done|]. rewrite Hdead. intros (w & Hw & Hx). congruence.
  - intros Hd k v Hv. destruct (gc_expired cfg now v) eqn:Ee; [|done].
    assert (k ∈ dead) as Hk by (apply Hdead; eauto).
    rewrite H5 in Hv; [done| |done]. rewrite Hd. unfold dead. now rewrite length_fmap.
Qed.


(** A failed clock reading deletes nothing. *)
Lemma gc_no_clock kernel (flows : M key flowVal) cfg : GCOnce kernel flows cfg (MonotonicTick None) = (0, 0, flows).
Proof. done. Qed.
End GCProofs.

(** ** The scan *)

Definition matching (q : FlowQuery) (needle name : string) (now : Z) (l : list (key * flowVal)) : list FlowInfo :=
  List.filter (flow_matches (Q_VLAN q) needle) (map (fun e => decodeFlow e.1 e.2 name now) l).

(** Room left in the result: the loop's condition. *)
Definition scan_room (q : FlowQuery) (out : FlowScan) : Prop :=
  Scanned out <= Q_ScanLimit q /\ Z.of_nat (length (Rows out)) < Q_Limit q.

Lemma scan_table_spec q needle name now l : forall out out' b, scan_room q out ->
  scan_table q needle name now l out = (out', b) ->
  exists R T, Rows out' = (Rows out ++ R)%list /\ matching q needle name now l = (R ++ T)%list /\
    (if b then Scanned out' <= Q_ScanLimit q + 1 /\ Z.of_nat (length (Rows out')) <= Q_Limit q /\ Truncated out' = true
     else T = [] /\ scan_room q out' /\ Truncated out' = Truncated out).
Proof.
  induction l as [|[k v] l IH]; intros out out' b [Hs Hr]; cbn [scan_table].
  { intros [= <- <-]. exists [], []. rewrite app_nil_r. repeat split; try done; lia. }
  cbn [Scanned Rows Truncated]. destruct (Q_ScanLimit q <? Scanned out + 1) eqn:E1; zbool.
  { intros [= <- <-]. exists [], (matching q needle name now ((k, v) :: l)). cbn. rewrite app_nil_r.
    repeat split; try done; lia. }
  destruct (flow_matches (Q_VLAN q) needle (decodeFlow k v name now)) eqn:Em; cbn [negb].
  - rewrite length_app. cbn [length]. destruct (Q_Limit q <=? _) eqn:E2; zbool.
    { intros [= <- <-]. exists [decodeFlow k v name now], (matching q needle name now l).
      unfold matching. cbn. rewrite Em. repeat split; try done; try lia. rewrite length_app. cbn. lia. }
    intros Hrun. apply IH in Hrun as (R & T & HR & HT & Hb).
    2:{ split; cbn; [lia|]. rewrite length_app. cbn. lia. }
    exists (decodeFlow k v name now :: R), T. cbn in HR. split; [now rewrite HR, <- app_assoc|].
    split; [unfold matching in *; cbn; now rewrite Em, HT|]. destruct b; done.
  - intros Hrun. apply IH in Hrun as (R & T & HR & HT & Hb); [|split; cbn; lia].
    exists R, T. cbn in HR. split; [done|]. unfold matching in *. cbn. now rewrite Em.
Qed.

Definition selected (q : FlowQuery) (name : string) : bool :=
  (Q_Protocol q =? "")%string || (Q_Protocol q =? "ALL")%string || (Q_Protocol q =? name)%string.

Section ScanProofs.
Context {M : Type -> Type -> Type} `{EbpfLaws M}.

(** Every match of the selected tables, in table order. *)
Definition all_matches (q : FlowQuery) (needle : string) (now : Z) (srcs : list (string * M key flowVal)) : list FlowInfo :=
  concat (map (fun '(name, m) => if selected q name then matching q needle name now (fst (em_iterate m)) else []) srcs).

Lemma scan_tables_spec q needle now srcs : forall out out' e, scan_room q out -> Truncated out = false ->
  scan_tables q needle now srcs out = (out', e) ->
  exists R T, Rows out' = (Rows out ++ R)%list /\ all_matches q needle now srcs = (R ++ T)%list /\
    Scanned out' <= Q_ScanLimit q + 1 /\ Z.of_nat (length (Rows out')) <= Q_Limit q /\
    (e = None -> Truncated out' = false -> T = []).
Proof.
  induction srcs as [|[name m] srcs IH]; intros out out' e Hroom Ht; cbn [scan_tables].
  { intros [= <- <-]. exists [], []. destruct Hroom. rewrite app_nil_r. repeat split; try done; lia. }
  unfold all_matches. cbn [map concat]. fold (all_matches q needle now srcs).
  assert (negb (Q_Protocol q =? "")%string && negb (Q_Protocol q =? "ALL")%string && negb (Q_Protocol q =? name)%string
          = negb (selected q name)) as -> by (unfold selected; now rewrite !negb_orb).
  destruct (selected q name); cbn [negb]; [|now apply IH].
  destruct (em_iterate m) as [l ok]. cbn [fst].
  destruct (scan_table q needle name now l out) as [out1 b] eqn:E.
  apply scan_table_spec in E as (R & T & HR & HT & Hb); [|done].
  destruct b; cbn [negb andb].
  - destruct Hb as (H1 & H2 & H3). rewrite H3. intros [= <- <-]. rewrite HT.
    exists R, (T ++ all_matches q needle now srcs)%list. split; [done|]. split; [now rewrite <- app_assoc|].
    split; [done|]. split; [done|]. congruence.
  - destruct Hb as (-> & [Hs Hr] & H3). rewrite app_nil_r in HT. rewrite HT.
    destruct ok; cbn [negb].
    + rewrite H3, Ht. intros Hrun. apply IH in Hrun as (R' & T' & HR' & HT' & Hrest); [|done|congruence].
      exists (R ++ R')%list, T'. split; [now rewrite HR', HR, <- app_assoc|].
      split; [now rewrite HT', <- app_assoc|]. exact Hrest.
    + intros [= <- <-]. exists R, (all_matches q needle now srcs). repeat split; try done; lia.
Qed.

(** A flow scan is bounded and honest: it visits at most one entry more than the scan limit and returns at
    most the row limit (200 and 10000 when not positive); its rows are the first matches of the selected tables,
    and when it reports neither an error nor a cut they are all of them. *)
Theorem scan_bounded (s : SharedMaps M) q now out e : ScanFlows s q now = (out, e) ->
  let q' := normalize q in
  let all := all_matches q' (ToLower (TrimSpace (Q_Text q))) now [("TCP", Flows s); ("UDP", UDPFlows s)] in
  Scanned out <= Q_ScanLimit q' + 1 /\ Z.of_nat (length (Rows out)) <= Q_Limit q' /\
  (exists rest, all = Rows out ++ rest)%list /\
  (e = None -> Truncated out = false -> Rows out = all).
Proof.
  unfold ScanFlows. intros E. apply scan_tables_spec in E as (R & T & HR & HT & H1 & H2 & H3); [|split|done].
  - cbn in HR. subst R. change (Q_Text (normalize q)) with (Q_Text q) in *. split; [done|]. split; [done|].
    split; [eauto|]. intros He Htr. rewrite HT, H3 by done. symmetry. apply app_nil_r.
  - unfold normalize. cbn. case_ifs; zbool; lia.
  - unfold normalize. cbn. case_ifs; zbool; lia.
Qed.
End ScanProofs.

(** ** Concrete runs *)

Definition gc_key (n : Z) : key := [1; 2; 3; n; 10; 0; 0; 1; 0; 80; 200; 0; 0; 0; 0; 0].
Definition gc_table : FMap key flowVal :=
  mkFMap [(gc_key 1, mkFlowVal 7 1000 stEst 1); (gc_key 2, mkFlowVal 9 100 stEst 1)] [] false.


(** Packets keep flowing during a sweep: an entry found expired by the scan is deleted even when a packet has
    touched it since, so a live flow can lose its entry. *)
Theorem gc_race :
  exists kernel : FMap key flowVal -> FMap key flowVal,
    let touched := kernel gc_table in
    em_view touched !! gc_key 2 = Some (mkFlowVal 9 1100 stEst 1) /\
    gc_expired Default 1100 (mkFlowVal 9 1100 stEst 1) = false /\
    em_view (snd (GCOnce kernel gc_table Default 1100)) !! gc_key 2 = None.
Proof.
  exists (fun m => snd (em_put (gc_key 2) (mkFlowVal 9 1100 stEst 1) m)). vm_compute. auto.
Qed.

Definition scan_maps : SharedMaps FMap :=
  let e {K V : Type} : FMap K V := mkFMap [] [] false in mkMaps gc_table e e e e e e None.

Theorem scan_bounded_witness :
  let out := fst (ScanFlows scan_maps (mkQuery " tcp" (-1) "1.2.3.2" 0 0) 1100) in
  Z.of_nat (length (Rows out)) <= 200 /\ map InetIP (Rows out) = [[1; 2; 3; 2]].
Proof.
  cbv zeta. split; [|vm_compute; reflexivity].
  refine (proj1 (proj2 (scan_bounded scan_maps (mkQuery " tcp" (-1) "1.2.3.2" 0 0) 1100 _ _ _))).
  apply surjective_pairing.
Defined.
