(* ===== verification/Loader.v ===== *)
(** * Loader: bringing the datapath up and down

    [Load], [Detach] and [OpenPinned] of internal/dataplane/loader.go.  The
    kernel, the file system and cilium/ebpf are behind the class [Sys]: every
    call may fail, and the class keeps the account of open handles.  The
    compiled BPF object ([loadFilter]) is a parameter. *)

From Stdlib Require Import ZArith Lia Bool Ascii String.
From stdpp Require Import prelude strings list gmap.
From coqutil Require Import Datatypes.RecordSetters.
From S2P Require Import Prelude GoText GoNet GoFloat Config Resources Ebpf Policy.
Import DoubleBraceUpdate.

Local Open Scope string_scope.
Local Open Scope Z_scope.

Definition bpfFNoCommonLRU : Z := Z.shiftl 1 1.

Definition sharedMapNames : list string :=
  ["flows"; "udp_flows"; "flow_monitor_cidrs"; "flow_monitor_counters"; "l1cache"; "tx_ports"; "features";
   "server_allow"; "synbkt"; "drop_reason"; "stats_global"; "stats_vlan"].

Definition runtimeMapName : string := "runtime_state".

(** What a map is created from; [mapCompatible] compares all of it. *)
Record MapSpec := mkSpec { ms_Type : Z; ms_KeySize : Z; ms_ValueSize : Z; ms_MaxEntries : Z; ms_Flags : Z }.

#[export] Instance MapSpec_eq_dec : EqDecision MapSpec.
Proof. solve_decision. Defined.

(** The array map with one 32-byte value the daemon publishes its state in. *)
Definition runtimeSpec : MapSpec := mkSpec 2 4 32 1 0.

(** A loaded object: its maps and the constants a program instance is
    specialized with. *)
Record CollectionSpec := mkColl { sp_maps : gmap string MapSpec; sp_vars : gmap string Z }.

Inductive AttachMode := XDPDriverMode | XDPGenericMode.

Inductive LoaderError :=
  | EMemlock | EPinDir | EIface (name : string) | ESpec | EVariable (name : string)
  | EMapMissing (name : string) | EMap (name : string) | ETxPorts | EPolicy (e : PolicyError)
  | ENewCollection | ENoProgram | EUpdateLink | EAttach | EPinLink | EOpenPinned (name : string) | ERemove.

(** ** The system *)

Definition handle : Type := nat.

Class Sys (K : Type) (M : Type -> Type -> Type) := {
  sys_open : K -> gset handle;                  (* handles the process holds *)
  sys_maps : K -> SharedMaps M;                 (* the maps behind the shared names *)
  sys_set_maps : SharedMaps M -> K -> K;
  sys_close : handle -> K -> K;
  remove_memlock : K -> bool * K;
  mkdir_all : string -> K -> bool * K;
  interface : string -> K -> option (Z * Z);    (* index and MTU *)
  load_pinned_map : string -> K -> option handle * K;
  map_info : handle -> K -> MapSpec;
  new_pinned_map : string -> string -> MapSpec -> K -> option handle * K;
  remove_file : string -> K -> bool * K;        (* false: an error other than "does not exist" *)
  new_collection : gmap string Z -> gmap string handle -> K -> option (handle * bool) * K; (* has xdp_filter? *)
  load_pinned_link : string -> K -> option handle * K;
  link_update : handle -> handle -> K -> bool * K;
  attach_xdp : handle -> Z -> AttachMode -> K -> option handle * K;
  link_pin : handle -> string -> K -> bool * K;
  unpin : handle -> K -> K
}.

(** A step that may open a handle, and one that opens none. *)
Definition opens_one {K M A} `{Sys K M} (hd : A -> handle) (op : K -> option A * K) : Prop :=
  forall k r k', op k = (r, k') ->
    match r with
    | Some a => (hd a ∉ sys_open k) /\ sys_open k' = {[hd a]} ∪ sys_open k
    | None => sys_open k' = sys_open k
    end.

Definition opens_none {K M A} `{Sys K M} (op : K -> A * K) : Prop :=
  forall k a k', op k = (a, k') -> sys_open k' = sys_open k.

(** A step that leaves the contents of the shared maps alone. *)
Definition keeps_maps {K M A} `{Sys K M} (op : K -> A * K) : Prop :=
  forall k a k', op k = (a, k') -> sys_maps k' = sys_maps k.

Class SysLaws (K : Type) (M : Type -> Type -> Type) `{Sys K M} : Prop := {
  close_open : forall h k, sys_open (sys_close h k) = sys_open k ∖ {[h]};
  close_maps : forall h k, sys_maps (sys_close h k) = sys_maps k;
  set_maps_open : forall s k, sys_open (sys_set_maps s k) = sys_open k;
  set_maps_get : forall s k, sys_maps (sys_set_maps s k) = s;
  memlock_open : opens_none remove_memlock;
  mkdir_open : forall p, opens_none (mkdir_all p);
  pinned_map_open : forall p, opens_one id (load_pinned_map p);
  pinned_map_maps : forall p, keeps_maps (load_pinned_map p);
  new_map_open : forall d n s, opens_one id (new_pinned_map d n s);
  remove_open : forall p, opens_none (remove_file p);
  collection_open : forall c r, opens_one fst (new_collection c r);
  collection_maps : forall c r, keeps_maps (new_collection c r);
  pinned_link_open : forall p, opens_one id (load_pinned_link p);
  pinned_link_maps : forall p, keeps_maps (load_pinned_link p);
  update_open : forall l p, opens_none (link_update l p);
  update_maps : forall l p, keeps_maps (link_update l p);
  attach_open : forall p i m, opens_one id (attach_xdp p i m);
  attach_maps : forall p i m, keeps_maps (attach_xdp p i m);
  pin_open : forall l p, opens_none (link_pin l p);
  pin_maps : forall l p, keeps_maps (link_pin l p)
}.

(** ** Specializing the object *)

Definition boolU32 (v : bool) : Z := b2z v.

Definition setVar (spec : CollectionSpec) (name : string) (val : Z) : CollectionSpec + LoaderError :=
  match sp_vars spec !! name with
  | None => inr (EVariable name)
  | Some _ => inl (mkColl (sp_maps spec) (<[name := val]> (sp_vars spec)))
  end.

Fixpoint setVars (spec : CollectionSpec) (l : list (string * Z)) : CollectionSpec + LoaderError :=
  match l with
  | [] => inl spec
  | (n, v) :: r => match setVar spec n v with inl s => setVars s r | inr e => inr e end
  end.

Definition set_entries (n : Z) (s : MapSpec) : MapSpec :=
  mkSpec (ms_Type s) (ms_KeySize s) (ms_ValueSize s) n (ms_Flags s).
Definition or_mapflags (f : Z) (s : MapSpec) : MapSpec :=
  mkSpec (ms_Type s) (ms_KeySize s) (ms_ValueSize s) (ms_MaxEntries s) (Z.lor (ms_Flags s) f).

(** A disabled cache still needs one entry; mask 0 compiles it away. *)
Definition l1Entries (cfg : Config) : Z := if L1Size cfg =? 0 then 1 else L1Size cfg.
Definition l1Mask (cfg : Config) : Z := if L1Size cfg =? 0 then 0 else u32 (L1Size cfg - 1).

(** Table sizes and flags from the configuration. *)
Definition sizeMaps (cfg : Config) (maps : gmap string MapSpec) : gmap string MapSpec :=
  let maps := alter (set_entries (FlowMax cfg)) "flows" maps in
  let maps := alter (set_entries (UDPFlowMax cfg)) "udp_flows" maps in
  let maps := alter (set_entries (MaxFlows (FlowMon cfg))) "flow_monitor_counters" maps in
  let maps := alter (set_entries (l1Entries cfg)) "l1cache" maps in
  if LRUPerCPU cfg then alter (or_mapflags bpfFNoCommonLRU) "udp_flows" (alter (or_mapflags bpfFNoCommonLRU) "flows" maps)
  else maps.

Definition loadSpec (cfg : Config) (spec : CollectionSpec) : CollectionSpec + LoaderError :=
  match setVars spec [("FLOW_MONITOR_ENABLED", boolU32 (Enabled (FlowMon cfg)));
                      ("FLOW_MONITOR_SAMPLE_MASK", u32 (SampleEvery (FlowMon cfg) - 1))] with
  | inr e => inr e
  | inl s => inl (mkColl (sizeMaps cfg (sp_maps s)) (sp_vars s))
  end.

(** The constants of one program instance: the trusted one never monitors. *)
Definition progVars (roleTrusted peerIdx l1mask multibuf : Z) : list (string * Z) :=
  [("ROLE_TRUSTED", roleTrusted)]
  ++ (if roleTrusted =? 0 then [] else [("FLOW_MONITOR_ENABLED", 0)])
  ++ [("PEER_IDX", peerIdx); ("L1_MASK", l1mask); ("MULTIBUF", multibuf)].

Definition mapCompatible (m ms : MapSpec) : bool := bool_decide (m = ms).

(** What [Load] returns: the handles of an attached datapath. *)
Record Handle := mkHandle {
  h_maps : list (string * handle); h_collT : handle; h_collU : handle; h_linkT : handle; h_linkU : handle
}.

(** ** Operations

    A computation over the system that may end in an error. *)
Section Ops.
Context {K : Type} {M : Type -> Type -> Type} `{EbpfMap M} `{Sys K M}.
Context (rng : gset key -> list key).
Context (loadFilter : option CollectionSpec).

Definition res (A : Type) : Type := ((A + LoaderError) * K)%type.

Definition close_all (hs : list handle) (k : K) : K := fold_left (fun k h => sys_close h k) hs k.

Definition adoptOrCreateMap (pinDir name : string) (ms : MapSpec) (k : K) : option handle * K :=
  let p := PathJoin [pinDir; name] in
  let k1 :=
    match load_pinned_map p k with
    | (Some m, k) => if mapCompatible (map_info m k) ms then inl (m, k)
                     else inr (snd (remove_file p (sys_close m k)))
    | (None, k) => inr k
    end in
  match k1 with
  | inl (m, k) => (Some m, k)
  | inr k => new_pinned_map pinDir name ms k
  end.

(** The shared maps by name; whatever was opened is closed on a failure. *)
Fixpoint adopt_names (pinDir : string) (specs : gmap string MapSpec) (names : list string)
    (byName : list (string * handle)) (k : K) : res (list (string * handle)) :=
  match names with
  | [] => (inl byName, k)
  | name :: rest =>
      match specs !! name with
      | None => (inr (EMapMissing name), close_all byName.*2 k)
      | Some ms =>
          match adoptOrCreateMap pinDir name ms k with
          | (None, k) => (inr (EMap name), close_all byName.*2 k)
          | (Some m, k) => adopt_names pinDir specs rest ((name, m) :: byName) k
          end
      end
  end.

Definition createOrAdoptShared (pinDir : string) (specs : gmap string MapSpec) (k : K) : res (list (string * handle)) :=
  match adopt_names pinDir specs sharedMapNames [] k with
  | (inr e, k) => (inr e, k)
  | (inl byName, k) =>
      match adoptOrCreateMap pinDir runtimeMapName runtimeSpec k with
      | (None, k) => (inr (EMap runtimeMapName), close_all byName.*2 k)
      | (Some m, k) => (inl ((runtimeMapName, m) :: byName), k)
      end
  end.

Definition loadProg (spec : CollectionSpec) (shared : list (string * handle)) (roleTrusted peerIdx l1mask multibuf : Z)
    (k : K) : res handle :=
  match setVars spec (progVars roleTrusted peerIdx l1mask multibuf) with
  | inr e => (inr e, k)
  | inl s =>
      match new_collection (sp_vars s) (list_to_map shared) k with
      | (None, k) => (inr ENewCollection, k)
      | (Some (coll, has_prog), k) =>
          if (has_prog : bool) then (inl coll, k) else (inr ENoProgram, sys_close coll k)
      end
  end.

(** Adopt a pinned link by updating it, or attach and pin a new one. *)
Definition attach (prog : handle) (ifindex : Z) (pinPath : string) (flags : AttachMode) (k : K) : res handle :=
  match load_pinned_link pinPath k with
  | (Some l, k) =>
      let '(ok, k) := link_update l prog k in
      if (ok : bool) then (inl l, k) else (inr EUpdateLink, sys_close l k)
  | (None, k) =>
      match attach_xdp prog ifindex flags k with
      | (None, k) => (inr EAttach, k)
      | (Some l, k) =>
          let '(ok, k) := link_pin l pinPath k in
          if (ok : bool) then (inl l, k) else (inr EPinLink, sys_close l k)
      end
  end.

Definition attachMode (prog : handle) (ifindex : Z) (pin mode : string) (k : K) : res handle :=
  if (mode =? "generic")%string then attach prog ifindex pin XDPGenericMode k
  else if (mode =? "native")%string then attach prog ifindex pin XDPDriverMode k
  else match attach prog ifindex pin XDPDriverMode k with
       | (inl l, k) => (inl l, k)
       | (inr _, k) => attach prog ifindex pin XDPGenericMode k
       end.

(** The control maps are written before anything is attached. *)
Definition populate (cfg : Config) (ifT ifU start : Z) (k : K) : option LoaderError * K :=
  let s := fst (PublishRuntimeState (sys_maps k) (mkRT 0 0 0 start)) in
  match em_put 0 ifT (TxPorts s) with
  | (false, tx) => (Some ETxPorts, sys_set_maps (with_txports s tx) k)
  | (true, tx) =>
      match em_put 1 ifU tx with
      | (false, tx) => (Some ETxPorts, sys_set_maps (with_txports s tx) k)
      | (true, tx) =>
          let '(s, e) := ReloadPolicy rng (with_txports s tx) cfg in
          (match e with Some e => Some (EPolicy e) | None => None end, sys_set_maps s k)
      end
  end.

(** [link_trusted] and [link_untrusted] pin the two attachments. *)
Definition attach_both (cfg : Config) (shared : list (string * handle)) (collT collU : handle) (ifT ifU : Z) (k : K)
    : res Handle :=
  match attachMode collT ifT (PathJoin [PinDir cfg; "link_trusted"]) (XDPMode cfg) k with
  | (inr e, k) => (inr e, close_all shared.*2 (sys_close collT (sys_close collU k)))
  | (inl lT, k) =>
      match attachMode collU ifU (PathJoin [PinDir cfg; "link_untrusted"]) (XDPMode cfg) k with
      | (inr e, k) => (inr e, close_all shared.*2 (sys_close collT (sys_close collU (sys_close lT k))))
      | (inl lU, k) => (inl (mkHandle shared collT collU lT lU), k)
      end
  end.

(** Index 0 of the redirect map is the trusted port, 1 the untrusted one. *)
Definition load_programs (cfg : Config) (spec : CollectionSpec) (shared : list (string * handle)) (multibuf ifT ifU : Z)
    (k : K) : res Handle :=
  match loadProg spec shared 1 1 (l1Mask cfg) multibuf k with
  | (inr e, k) => (inr e, close_all shared.*2 k)
  | (inl collT, k) =>
      match loadProg spec shared 0 0 (l1Mask cfg) multibuf k with
      | (inr e, k) => (inr e, close_all shared.*2 (sys_close collT k))
      | (inl collU, k) => attach_both cfg shared collT collU ifT ifU k
      end
  end.

Definition Load (cfg : Config) (start : Z) (k : K) : res Handle :=
  let '(ok, k) := remove_memlock k in
  if negb ok then (inr EMemlock, k) else
  let '(ok, k) := mkdir_all (PinDir cfg) k in
  if negb ok then (inr EPinDir, k) else
  match interface (TrustedIface cfg) k with
  | None => (inr (EIface (TrustedIface cfg)), k)
  | Some (ifT, mtuT) =>
      match interface (UntrustedIface cfg) k with
      | None => (inr (EIface (UntrustedIface cfg)), k)
      | Some (ifU, mtuU) =>
          match loadFilter with
          | None => (inr ESpec, k)
          | Some spec0 =>
              match loadSpec cfg spec0 with
              | inr e => (inr e, k)
              | inl spec =>
                  let multibuf := b2z ((1500 <? mtuT) || (1500 <? mtuU)) in
                  match createOrAdoptShared (PinDir cfg) (sp_maps spec) k with
                  | (inr e, k) => (inr e, k)
                  | (inl shared, k) =>
                      match populate cfg ifT ifU start k with
                      | (Some e, k) => (inr e, close_all shared.*2 k)
                      | (None, k) => load_programs cfg spec shared multibuf ifT ifU k
                      end
                  end
              end
          end
      end
  end.

(** [Close]: the handles go, the pins keep the datapath attached. *)
Definition Close (h : Handle) (k : K) : K :=
  close_all (h_maps h).*2 (sys_close (h_collU h) (sys_close (h_collT h) (sys_close (h_linkU h) (sys_close (h_linkT h) k)))).

Definition detach_link (pinDir : string) (k : K) (name : string) : K :=
  let p := PathJoin [pinDir; name] in
  let k := match load_pinned_link p k with
           | (Some l, k) => sys_close l (unpin l k)
           | (None, k) => k
           end in
  snd (remove_file p k).

(** The first removal that failed is the error. *)
Definition detach_map (pinDir : string) (st : option LoaderError * K) (name : string) : option LoaderError * K :=
  let '(first, k) := st in
  let p := PathJoin [pinDir; name] in
  let k := match load_pinned_map p k with
           | (Some m, k) => sys_close m (unpin m k)
           | (None, k) => k
           end in
  let '(ok, k) := remove_file p k in
  (match first with Some e => Some e | None => if ok then None else Some ERemove end, k).

Definition Detach (pinDir : string) (k : K) : option LoaderError * K :=
  let k := fold_left (detach_link pinDir) ["link_trusted"; "link_untrusted"] k in
  fold_left (detach_map pinDir) (sharedMapNames ++ [runtimeMapName])%list (None, k).

Fixpoint open_names (pinDir : string) (names : list string) (byName : list (string * handle)) (k : K)
    : res (list (string * handle)) :=
  match names with
  | [] => (inl byName, k)
  | name :: rest =>
      match load_pinned_map (PathJoin [pinDir; name]) k with
      | (None, k) => (inr (EOpenPinned name), close_all byName.*2 k)
      | (Some m, k) => open_names pinDir rest ((name, m) :: byName) k
      end
  end.

(** The runtime map is optional: an older daemon has none. *)
Definition OpenPinned (pinDir : string) (k : K) : res (list (string * handle)) :=
  match open_names pinDir sharedMapNames [] k with
  | (inr e, k) => (inr e, k)
  | (inl byName, k) =>
      match load_pinned_map (PathJoin [pinDir; runtimeMapName]) k with
      | (Some m, k) => (inl ((runtimeMapName, m) :: byName), k)
      | (None, k) => (inl byName, k)
      end
  end.

Definition SetModePinned (pinDir : string) (enforce : bool) (k : K) : option LoaderError * K :=
  match OpenPinned pinDir k with
  | (inr e, k) => (Some e, k)
  | (inl byName, k) =>
      let '(s, e) := SetMode (sys_maps k) enforce in
      (match e with Some e => Some (EPolicy e) | None => None end, close_all byName.*2 (sys_set_maps s k))
  end.
End Ops.
