(* ===== verification/LoaderSpec.v ===== *)
(** * LoaderSpec: handles and policy across a load *)

From Stdlib Require Import ZArith Lia Bool Ascii String.
From stdpp Require Import prelude strings list gmap.
From S2P Require Import Prelude GoText GoNet GoFloat Config ConfigSpec Resources Filter Ebpf Policy PolicySpec Loader.

#[local] Set Warnings "-clear-no-such-hyp".
Local Open Scope string_scope.
Local Open Scope Z_scope.

Section Handles.
Context {K : Type} {M : Type -> Type -> Type} `{EbpfMap M, !EbpfLaws M} `{Sys K M, !SysLaws K M}.
Context (rng : gset key -> list key).
Context (loadFilter : option CollectionSpec).
Implicit Types k : K.

(** From [k] to [k'] exactly the handles [hs] were opened. *)
Definition grows (hs : list handle) (k k' : K) : Prop :=
  (forall h, h ∈ hs -> h ∉ sys_open k) /\ sys_open k' = list_to_set hs ∪ sys_open k.

Lemma grows_nil k k' : sys_open k' = sys_open k -> grows [] k k'.
Proof. intros E. split; [intros h Hh; now apply not_elem_of_nil in Hh|]. rewrite E. set_solver. Qed.

Lemma grows_cons h hs k k1 k2 : grows hs k k1 -> h ∉ sys_open k1 -> sys_open k2 = {[h]} ∪ sys_open k1 ->
  grows (h :: hs) k k2.
Proof.
  intros [Hf E] Hn E2. split.
  - intros x [->|Hx]%elem_of_cons; [|auto]. rewrite E in Hn. set_solver.
  - rewrite E2, E. set_solver.
Qed.

Lemma grows_same hs k k1 k2 : grows hs k k1 -> sys_open k2 = sys_open k1 -> grows hs k k2.
Proof. intros [Hf E] E2. split; [done|congruence]. Qed.

Lemma close_all_open hs k : sys_open (close_all hs k) = sys_open k ∖ list_to_set hs.
Proof.
  unfold close_all. revert k. induction hs as [|h hs IH]; intros k; cbn [fold_left]; [set_solver|].
  rewrite IH, close_open. set_solver.
Qed.

Lemma close_all_maps hs k : sys_maps (close_all hs k) = sys_maps k.
Proof.
  unfold close_all. revert k. induction hs as [|h hs IH]; intros k; cbn [fold_left]; [done|].
  rewrite IH. apply close_maps.
Qed.

(** Closing what was opened gives back the handles of the start. *)
Lemma grows_closed hs k k' : grows hs k k' -> sys_open k' ∖ list_to_set hs = sys_open k.
Proof. intros [Hf E]. rewrite E. apply set_eq. intros x. specialize (Hf x). set_solver. Qed.

Lemma grows_close_all hs k k' : grows hs k k' -> sys_open (close_all hs k') = sys_open k.
Proof. intros Hg. rewrite close_all_open. now apply grows_closed. Qed.

(** Closing the last handle undoes its step. *)
Lemma grows_close h hs k k' : grows (h :: hs) k k' -> h ∉ hs -> grows hs k (sys_close h k').
Proof.
  intros [Hf E] Hn. split; [intros x Hx; apply Hf; now right|]. rewrite close_open, E.
  assert (h ∉ sys_open k) as Hk by (apply Hf; left). clear Hf E. apply set_eq. intros x. cbn [list_to_set].
  rewrite elem_of_difference, !elem_of_union, elem_of_singleton, elem_of_list_to_set.
  destruct (decide (x = h)) as [->|]; tauto.
Qed.

(** An operation that opens at most one handle, as a [grows] fact. *)
Lemma opens_one_grows {A} (hd : A -> handle) (op : K -> option A * K) hs k0 k r k' :
  opens_one hd op -> op k = (r, k') -> grows hs k0 k ->
  match r with Some a => grows (hd a :: hs) k0 k' /\ hd a ∉ hs | None => grows hs k0 k' end.
Proof.
  intros Hop E Hg. specialize (Hop k r k' E). destruct r as [a|]; [|exact (grows_same _ _ _ _ Hg Hop)].
  destruct Hop as [Hn E']. split; [exact (grows_cons _ _ _ _ _ Hg Hn E')|]. destruct Hg as [_ Eg]. rewrite Eg in Hn. set_solver.
Qed.

Lemma adoptOrCreateMap_opens pinDir name ms : opens_one id (adoptOrCreateMap pinDir name ms).
Proof.
  intros k r k'. unfold adoptOrCreateMap.
  destruct (load_pinned_map _ k) as [o k1] eqn:E1. apply pinned_map_open in E1. destruct o as [m|].
  - destruct E1 as [Hn E1]. destruct (mapCompatible _ ms); [intros [= <- <-]; done|]. intros E.
    destruct (remove_file _ (sys_close m k1)) as [ok k2] eqn:E2. apply remove_open in E2. cbn in E.
    apply new_map_open in E.
    assert (sys_open k2 = sys_open k) as Hk by (rewrite E2, close_open, E1; cbn; apply set_eq; intros x; set_solver).
    now rewrite Hk in E.
  - intros E. apply new_map_open in E. now rewrite E1 in E.
Qed.

Lemma adopt_names_grows pinDir specs names : forall byName k0 k r k', grows byName.*2 k0 k ->
  adopt_names pinDir specs names byName k = (r, k') ->
  match r with inl l => grows l.*2 k0 k' | inr _ => sys_open k' = sys_open k0 end.
Proof.
  induction names as [|name names IH]; intros byName k0 k r k' Hg; cbn [adopt_names]; [now intros [= <- <-]|].
  destruct (specs !! name) as [ms|]; [|intros [= <- <-]; now apply grows_close_all].
  destruct (adoptOrCreateMap pinDir name ms k) as [o k1] eqn:E.
  pose proof (opens_one_grows _ _ _ _ _ _ _ (adoptOrCreateMap_opens pinDir name ms) E Hg) as H3.
  destruct o as [m|]; [|intros [= <- <-]; now apply grows_close_all].
  intros Hrun. apply (IH ((name, m) :: byName) k0) in Hrun; [done|apply H3].
Qed.

Lemma createOrAdopt_grows pinDir specs k r k' : createOrAdoptShared pinDir specs k = (r, k') ->
  match r with inl l => grows l.*2 k k' | inr _ => sys_open k' = sys_open k end.
Proof.
  unfold createOrAdoptShared. destruct (adopt_names _ _ _ [] k) as [[byName|e] k1] eqn:E;
    apply (adopt_names_grows _ _ _ [] k) in E; try (apply grows_nil; reflexivity).
  - destruct (adoptOrCreateMap pinDir runtimeMapName runtimeSpec k1) as [o k2] eqn:E2.
    pose proof (opens_one_grows _ _ _ _ _ _ _ (adoptOrCreateMap_opens _ _ _) E2 E) as H3.
    destruct o as [m|]; intros [= <- <-]; [apply H3 | now apply grows_close_all].
  - now intros [= <- <-].
Qed.

Lemma loadProg_grows spec shared a b c d hs k0 k r k' : grows hs k0 k ->
  loadProg spec shared a b c d k = (r, k') ->
  match r with inl h => grows (h :: hs) k0 k' | inr _ => grows hs k0 k' end.
Proof.
  intros Hg. unfold loadProg. destruct (setVars _ _) as [s|e]; [|now intros [= <- <-]].
  destruct (new_collection _ _ k) as [o k1] eqn:E.
  pose proof (opens_one_grows _ _ _ _ _ _ _ (collection_open _ _) E Hg) as H3.
  destruct o as [[coll [|]]|]; cbn in *; intros [= <- <-]; [apply H3 | | done].
  apply grows_close; apply H3.
Qed.

Lemma attach_grows prog i pin m hs k0 k r k' : grows hs k0 k -> attach prog i pin m k = (r, k') ->
  match r with inl h => grows (h :: hs) k0 k' | inr _ => grows hs k0 k' end.
Proof.
  intros Hg. unfold attach. destruct (load_pinned_link pin k) as [o k1] eqn:E.
  pose proof (opens_one_grows _ _ _ _ _ _ _ (pinned_link_open _) E Hg) as H3. destruct o as [l|]; cbn [id] in H3.
  - destruct (link_update l prog k1) as [ok k2] eqn:E2. apply update_open in E2.
    destruct H3 as [H3 Hn]. pose proof (grows_same _ _ _ _ H3 E2) as H4.
    destruct ok; intros [= <- <-]; [done|now apply grows_close].
  - destruct (attach_xdp prog i m k1) as [o k2] eqn:E2.
    pose proof (opens_one_grows _ _ _ _ _ _ _ (attach_open _ _ _) E2 H3) as H4.
    destruct o as [l|]; cbn [id] in H4; [|now intros [= <- <-]].
    destruct (link_pin l pin k2) as [ok k3] eqn:E3. apply pin_open in E3.
    destruct H4 as [H4 Hn]. pose proof (grows_same _ _ _ _ H4 E3) as H5.
    destruct ok; intros [= <- <-]; [done|now apply grows_close].
Qed.

Lemma attachMode_grows prog i pin mode hs k0 k r k' : grows hs k0 k -> attachMode prog i pin mode k = (r, k') ->
  match r with inl h => grows (h :: hs) k0 k' | inr _ => grows hs k0 k' end.
Proof.
  intros Hg. unfold attachMode. destruct (mode =? "generic")%string; [now apply attach_grows|].
  destruct (mode =? "native")%string; [now apply attach_grows|].
  destruct (attach prog i pin XDPDriverMode k) as [[l|e] k1] eqn:E; apply (attach_grows _ _ _ _ hs k0) in E; try done.
  - now intros [= <- <-].
  - now apply attach_grows.
Qed.

Definition handles_of (h : Handle) : list handle :=
  h_linkU h :: h_linkT h :: h_collU h :: h_collT h :: (h_maps h).*2.

Lemma attach_both_grows cfg shared collT collU ifT ifU k0 k r k' : grows (collU :: collT :: shared.*2) k0 k ->
  attach_both cfg shared collT collU ifT ifU k = (r, k') ->
  match r with inl h => grows (handles_of h) k0 k' | inr _ => sys_open k' = sys_open k0 end.
Proof.
  intros Hg. unfold attach_both.
  destruct (attachMode collT _ _ _ k) as [[lT|e] k1] eqn:E1; apply (attachMode_grows _ _ _ _ _ _ _ _ _ Hg) in E1.
  2:{ intros [= <- <-]. apply (grows_close_all _ _ _ E1). }
  destruct (attachMode collU _ _ _ k1) as [[lU|e] k2] eqn:E2; apply (attachMode_grows _ _ _ _ _ _ _ _ _ E1) in E2.
  - now intros [= <- <-].
  - intros [= <- <-]. apply (grows_close_all _ _ _ E2).
Qed.

Lemma load_programs_grows cfg spec shared mb ifT ifU k0 k r k' : grows shared.*2 k0 k ->
  load_programs cfg spec shared mb ifT ifU k = (r, k') ->
  match r with inl h => grows (handles_of h) k0 k' | inr _ => sys_open k' = sys_open k0 end.
Proof.
  intros Hg. unfold load_programs.
  destruct (loadProg _ _ 1 1 _ _ k) as [[collT|e] k1] eqn:E1; apply (loadProg_grows _ _ _ _ _ _ _ _ _ _ _ Hg) in E1.
  2:{ intros [= <- <-]. now apply grows_close_all. }
  destruct (loadProg _ _ 0 0 _ _ k1) as [[collU|e] k2] eqn:E2; apply (loadProg_grows _ _ _ _ _ _ _ _ _ _ _ E1) in E2.
  - now apply attach_both_grows.
  - intros [= <- <-]. apply (grows_close_all _ _ _ E2).
Qed.

Lemma populate_open cfg ifT ifU start k e k' : populate rng cfg ifT ifU start k = (e, k') -> sys_open k' = sys_open k.
Proof.
  unfold populate. destruct (em_put 0 ifT _) as [[|] tx]; [|intros [= <- <-]; apply set_maps_open].
  destruct (em_put 1 ifU tx) as [[|] tx']; [|intros [= <- <-]; apply set_maps_open].
  destruct (ReloadPolicy rng _ cfg) as [s o]. intros [= <- <-]. apply set_maps_open.
Qed.

Lemma Load_grows cfg start k r k' : Load rng loadFilter cfg start k = (r, k') ->
  match r with inl h => grows (handles_of h) k k' | inr _ => sys_open k' = sys_open k end.
Proof.
  unfold Load. destruct (remove_memlock k) as [ok1 k1] eqn:E1. apply memlock_open in E1.
  destruct (negb ok1); [now intros [= <- <-]|].
  destruct (mkdir_all _ k1) as [ok2 k2] eqn:E2. apply mkdir_open in E2. rewrite E1 in E2.
  destruct (negb ok2); [now intros [= <- <-]|].
  destruct (interface (TrustedIface cfg) k2) as [[ifT mtuT]|]; [|now intros [= <- <-]].
  destruct (interface (UntrustedIface cfg) k2) as [[ifU mtuU]|]; [|now intros [= <- <-]].
  destruct loadFilter as [spec0|]; [|now intros [= <- <-]].
  destruct (loadSpec cfg spec0) as [spec|e]; [|now intros [= <- <-]].
  destruct (createOrAdoptShared _ _ k2) as [[shared|e] k3] eqn:E3; apply createOrAdopt_grows in E3;
    [|intros [= <- <-]; congruence].
  assert (grows shared.*2 k k3) as Hg by (destruct E3 as [Hf E3]; split; [now rewrite E2 in Hf|congruence]).
  destruct (populate _ _ _ _ _ k3) as [[e|] k4] eqn:E4; apply populate_open in E4.
  - intros [= <- <-]. apply grows_close_all. exact (grows_same _ _ _ _ Hg E4).
  - apply load_programs_grows. exact (grows_same _ _ _ _ Hg E4).
Qed.

(** *** What the programs leave alone *)

Lemma loadProg_maps spec shared a b c d k r k' : loadProg spec shared a b c d k = (r, k') -> sys_maps k' = sys_maps k.
Proof.
  unfold loadProg. destruct (setVars _ _) as [s|e]; [|now intros [= <- <-]].
  destruct (new_collection _ _ k) as [[[coll [|]]|] k1] eqn:E; apply collection_maps in E;
    intros [= <- <-]; rewrite ?close_maps; done.
Qed.

Lemma attach_maps' prog i pin m k r k' : attach prog i pin m k = (r, k') -> sys_maps k' = sys_maps k.
Proof.
  unfold attach. destruct (load_pinned_link pin k) as [[l|] k1] eqn:E; apply pinned_link_maps in E.
  - destruct (link_update l prog k1) as [[|] k2] eqn:E2; apply update_maps in E2;
      intros [= <- <-]; rewrite ?close_maps; congruence.
  - destruct (attach_xdp prog i m k1) as [[l|] k2] eqn:E2; apply Loader.attach_maps in E2; [|intros [= <- <-]; congruence].
    destruct (link_pin l pin k2) as [[|] k3] eqn:E3; apply pin_maps in E3;
      intros [= <- <-]; rewrite ?close_maps; congruence.
Qed.

Lemma attachMode_maps prog i pin mode k r k' : attachMode prog i pin mode k = (r, k') -> sys_maps k' = sys_maps k.
Proof.
  unfold attachMode. destruct (mode =? "generic")%string; [apply attach_maps'|].
  destruct (mode =? "native")%string; [apply attach_maps'|].
  destruct (attach prog i pin XDPDriverMode k) as [[l|e] k1] eqn:E; apply attach_maps' in E.
  - now intros [= <- <-].
  - intros E2. apply attach_maps' in E2. congruence.
Qed.

Lemma load_programs_maps cfg spec shared mb ifT ifU k h k' :
  load_programs cfg spec shared mb ifT ifU k = (inl h, k') -> sys_maps k' = sys_maps k.
Proof.
  unfold load_programs, attach_both.
  destruct (loadProg _ _ 1 1 _ _ k) as [[collT|e] k1] eqn:E1; [|done]. apply loadProg_maps in E1.
  destruct (loadProg _ _ 0 0 _ _ k1) as [[collU|e] k2] eqn:E2; [|done]. apply loadProg_maps in E2.
  destruct (attachMode collT _ _ _ k2) as [[lT|e] k3] eqn:E3; [|done]. apply attachMode_maps in E3.
  destruct (attachMode collU _ _ _ k3) as [[lU|e] k4] eqn:E4; [|done]. apply attachMode_maps in E4.
  intros [= <- <-]. congruence.
Qed.

(** C22. A load leaks no handle: on every error path all that was opened is closed again, whichever call failed; a
    successful load holds its maps, both programs and both links, and closing them gives the handles back. *)
Theorem load_no_leak cfg start k r k' : Load rng loadFilter cfg start k = (r, k') ->
  match r with
  | inr _ => sys_open k' = sys_open k
  | inl h => sys_open k' = list_to_set (handles_of h) ∪ sys_open k /\ sys_open (Close h k') = sys_open k
  end.
Proof.
  intros E. apply Load_grows in E. destruct r as [h|e]; [|done].
  split; [apply E|]. apply grows_closed in E. rewrite <- E. unfold Close.
  rewrite close_all_open, !close_open. unfold handles_of. cbn [list_to_set]. apply set_eq. intros x. set_solver.
Qed.

Context (rng_perm : forall X, rng X ≡ₚ elements X).

(** The control maps are complete once they are written. *)
Lemma populate_ok cfg ifT ifU start k k' : populate rng cfg ifT ifU start k = (None, k') ->
  in_force cfg (sys_maps k') /\ em_view (TxPorts (sys_maps k')) !! 0 = Some ifT /\ em_view (TxPorts (sys_maps k')) !! 1 = Some ifU.
Proof using EbpfLaws0 SysLaws0 rng_perm.
  unfold populate. destruct (em_put 0 ifT _) as [[|] tx] eqn:ET; [|done]. apply put_ok in ET.
  destruct (em_put 1 ifU tx) as [[|] tx'] eqn:EU; [|done]. apply put_ok in EU.
  destruct (ReloadPolicy rng _ cfg) as [s [e|]] eqn:ER; [done|]. intros [= <-]. rewrite set_maps_get.
  assert (TxPorts s = tx') as HT.
  { revert ER. unfold ReloadPolicy.
    destruct (ApplyFeatures _ cfg) as [s1 [e1|]] eqn:E1; [done|].
    destruct (SyncServerAllow rng s1 cfg) as [s2 [e2|]] eqn:E2; [done|]. intros E3.
    apply ApplyFeatures_ok in E1 as [_ H1]. apply SyncServerAllow_ok in E2 as [_ H2]; [|done].
    apply SyncFlowMonitorCIDRs_ok in E3 as [_ H3]; [|done]. rewrite H3, H2, H1. done. }
  destruct (reload_maps rng rng_perm _ _ _ ER) as [HF _].
  split; [done|]. rewrite HT, EU, ET. split; [rewrite lookup_insert_ne by done|]; now rewrite lookup_insert_eq.
Qed.

Lemma load_in_force cfg start k h k' : Load rng loadFilter cfg start k = (inl h, k') ->
  in_force cfg (sys_maps k') /\ is_Some (em_view (TxPorts (sys_maps k')) !! 0) /\ is_Some (em_view (TxPorts (sys_maps k')) !! 1).
Proof.
  unfold Load.
  destruct (remove_memlock k) as [ok1 k1]. destruct (negb ok1); [done|].
  destruct (mkdir_all _ k1) as [ok2 k2]. destruct (negb ok2); [done|].
  destruct (interface (TrustedIface cfg) k2) as [[ifT mtuT]|]; [|done].
  destruct (interface (UntrustedIface cfg) k2) as [[ifU mtuU]|]; [|done].
  destruct loadFilter as [spec0|]; [|done].
  destruct (loadSpec cfg spec0) as [spec|e]; [|done].
  destruct (createOrAdoptShared _ _ k2) as [[shared|e] k3]; [|done].
  destruct (populate _ _ _ _ _ k3) as [[e|] k4] eqn:E4; [done|]. intros E5. apply load_programs_maps in E5.
  apply populate_ok in E4 as (HF & HT & HU). rewrite E5, HT, HU. eauto.
Qed.

(** The constants the loaded object was specialized with. *)
Lemma load_spec cfg start k h k' : Load rng loadFilter cfg start k = (inl h, k') ->
  exists spec0 spec, loadFilter = Some spec0 /\ loadSpec cfg spec0 = inl spec.
Proof.
  unfold Load.
  destruct (remove_memlock k) as [ok1 k1]. destruct (negb ok1); [done|].
  destruct (mkdir_all _ k1) as [ok2 k2]. destruct (negb ok2); [done|].
  destruct (interface (TrustedIface cfg) k2) as [[ifT mtuT]|]; [|done].
  destruct (interface (UntrustedIface cfg) k2) as [[ifU mtuU]|]; [|done].
  destruct loadFilter as [spec0|]; [|done].
  destruct (loadSpec cfg spec0) as [spec|e] eqn:E; [|done]. eauto.
Qed.

End Handles.

(** ** The cache index *)

Lemma l1Mask_eq cfg : is_u32 (L1Size cfg) -> L1Size cfg = 0 \/ is_pow2 (L1Size cfg) ->
  exists j, 0 <= j /\ l1Entries cfg = 2 ^ j /\ l1Mask cfg = Z.ones j.
Proof.
  intros Hu Hl. unfold l1Entries, l1Mask. destruct (L1Size cfg =? 0) eqn:E; zbool.
  - exists 0. done.
  - destruct Hl as [|(j & Hj & Ej)]; [done|]. exists j. rewrite Ej in *. split; [done|]. split; [done|].
    rewrite u32_small by (unfold is_u32 in *; lia). rewrite Z.ones_equiv. lia.
Qed.

(** The cache never indexes outside its map: for a valid configuration the mask the loader compiles into the
    programs keeps the packet program's slot number below the entries the loader gives the cache map, and every
    entry can be reached by some hash. *)
Theorem l1_index_bounded cfg fk : is_u32 (L1Size cfg) -> Valid cfg ->
  0 <= l1_index fk (l1Mask cfg) < l1Entries cfg /\
  (forall slot, 0 <= slot < l1Entries cfg -> Z.land slot (l1Mask cfg) = slot).
Proof.
  intros Hu Hv. destruct (l1Mask_eq cfg Hu) as (j & Hj & He & Hm); [destruct (v_l1 _ Hv) as [|[_ ?]]; auto|].
  rewrite He, Hm. unfold l1_index. rewrite Z.land_ones by done. split; [apply Z.mod_pos_bound, Z.pow_pos_nonneg; lia|].
  intros slot Hs. rewrite Z.land_ones by done. now apply Z.mod_small.
Qed.

Theorem l1_index_bounded_witness :
  let fk := FlowKey 3232235777 167772161 443 51000 0 in
  0 <= l1_index fk (l1Mask live_sample) < 65536.
Proof.
  assert (Valid live_sample) as Hv by (apply (Validate_ok live_sample); [vm_compute; intuition congruence|reflexivity]).
  apply (l1_index_bounded live_sample); [vm_compute; intuition congruence|exact Hv].
Defined.
