(* ===== verification/LoaderTrace.v ===== *)
(** * LoaderTrace: the policy is in place before a port filters

    Any system, with a record of every moment a program is put on a port: the
    loader runs on it unchanged.  The control maps are complete each time, and
    each program is put on its own port. *)

From Stdlib Require Import ZArith Lia Bool Ascii String.
From stdpp Require Import prelude strings list gmap.
From S2P Require Import Prelude GoText GoNet GoFloat Config ConfigSpec Resources Filter Ebpf Policy PolicySpec Loader LoaderSpec.

Local Open Scope string_scope.
Local Open Scope Z_scope.

(** A program put on a port, or in the place of the one behind a pinned link
    (no port then), and the shared maps at that moment. *)
Record Attachment (M : Type -> Type -> Type) := mkAttachment { at_prog : handle; at_port : option Z; at_maps : SharedMaps M }.
Arguments mkAttachment {M}.
Arguments at_prog {M}.
Arguments at_port {M}.
Arguments at_maps {M}.

Section Traced.
Context {K : Type} {M : Type -> Type -> Type} `{EbpfMap M, !EbpfLaws M} `{Sys K M, !SysLaws K M}.

Definition Traced : Type := K * list (Attachment M).

Definition lift {A} (op : K -> A * K) (kt : Traced) : A * Traced := let '(a, k) := op (fst kt) in (a, (k, snd kt)).
Definition noted {A} (prog : handle) (port : option Z) (op : K -> A * K) (kt : Traced) : A * Traced :=
  let '(a, k) := op (fst kt) in (a, (k, snd kt ++ [mkAttachment prog port (sys_maps (fst kt))])%list).

#[export] Instance traced_sys : Sys Traced M := {|
  sys_open kt := sys_open (fst kt);
  sys_maps kt := sys_maps (fst kt);
  sys_set_maps s kt := (sys_set_maps s (fst kt), snd kt);
  sys_close h kt := (sys_close h (fst kt), snd kt);
  remove_memlock := lift remove_memlock;
  mkdir_all p := lift (mkdir_all p);
  interface name kt := interface name (fst kt);
  load_pinned_map p := lift (load_pinned_map p);
  map_info h kt := map_info h (fst kt);
  new_pinned_map d n s := lift (new_pinned_map d n s);
  remove_file p := lift (remove_file p);
  new_collection c r := lift (new_collection c r);
  load_pinned_link p := lift (load_pinned_link p);
  link_update l prog := noted prog None (link_update l prog);
  attach_xdp prog i m := noted prog (Some i) (attach_xdp prog i m);
  link_pin l p := lift (link_pin l p);
  unpin h kt := (unpin h (fst kt), snd kt) |}.

Lemma lift_inv {A} (op : K -> A * K) kt a kt' : lift op kt = (a, kt') -> op (fst kt) = (a, fst kt') /\ snd kt' = snd kt.
Proof. unfold lift. destruct (op (fst kt)). now intros [= <- <-]. Qed.

Lemma noted_inv {A} p i (op : K -> A * K) kt a kt' : noted p i op kt = (a, kt') ->
  op (fst kt) = (a, fst kt') /\ snd kt' = (snd kt ++ [mkAttachment p i (sys_maps (fst kt))])%list.
Proof. unfold noted. destruct (op (fst kt)). now intros [= <- <-]. Qed.

#[export] Instance traced_laws : SysLaws Traced M.
Proof.
  split; unfold opens_one, opens_none, keeps_maps; cbn; intros;
    try match goal with H : lift _ _ = _ |- _ => apply lift_inv in H as [H _] | H : noted _ _ _ _ = _ |- _ => apply noted_inv in H as [H _] end.
  - apply close_open.
  - apply close_maps.
  - apply set_maps_open.
  - apply set_maps_get.
  - eapply memlock_open; eauto.
  - eapply mkdir_open; eauto.
  - eapply (pinned_map_open p); eauto.
  - eapply pinned_map_maps; eauto.
  - eapply (new_map_open d n s); eauto.
  - eapply remove_open; eauto.
  - eapply (collection_open c r); eauto.
  - eapply collection_maps; eauto.
  - eapply (pinned_link_open p); eauto.
  - eapply pinned_link_maps; eauto.
  - eapply update_open; eauto.
  - eapply update_maps; eauto.
  - eapply (attach_open p i m); eauto.
  - eapply (Loader.attach_maps p i m); eauto.
  - eapply pin_open; eauto.
  - eapply pin_maps; eauto.
Qed.

Context (rng : gset key -> list key) (rng_perm : forall X, rng X ≡ₚ elements X).
Context (loadFilter : option CollectionSpec).
Implicit Types kt : Traced.

(** *** Steps that put nothing on a port *)

Lemma adopt_quiet pinDir name ms kt r kt' : adoptOrCreateMap pinDir name ms kt = (r, kt') -> snd kt' = snd kt.
Proof.
  unfold adoptOrCreateMap. destruct (load_pinned_map _ kt) as [[m|] k1] eqn:E1; apply lift_inv in E1 as [_ E1].
  - destruct (mapCompatible _ ms); [now intros [= <- <-]|]. destruct (remove_file _ (sys_close m k1)) as [ok k2] eqn:E2.
    apply lift_inv in E2 as [_ E2]. intros [_ E3]%lift_inv.
    change (snd (sys_close m k1)) with (snd k1) in E2. cbn [snd] in E3. congruence.
  - intros [_ E3]%lift_inv. congruence.
Qed.

Lemma close_all_quiet hs kt : snd (close_all hs kt) = snd kt.
Proof. unfold close_all. revert kt. induction hs as [|h hs IH]; intros kt; [done|]. cbn [fold_left]. now rewrite IH. Qed.

Lemma adopt_names_quiet pinDir specs names : forall byName kt r kt', adopt_names pinDir specs names byName kt = (r, kt') -> snd kt' = snd kt.
Proof.
  induction names as [|name names IH]; intros byName kt r kt'; cbn [adopt_names]; [now intros [= <- <-]|].
  destruct (specs !! name) as [ms|]; [|intros [= <- <-]; apply close_all_quiet].
  destruct (adoptOrCreateMap pinDir name ms kt) as [[m|] k1] eqn:E; apply adopt_quiet in E.
  - intros E2%IH. congruence.
  - intros [= <- <-]. now rewrite close_all_quiet.
Qed.

Lemma shared_quiet pinDir specs kt r kt' : createOrAdoptShared pinDir specs kt = (r, kt') -> snd kt' = snd kt.
Proof.
  unfold createOrAdoptShared. destruct (adopt_names _ _ _ [] kt) as [[byName|e] k1] eqn:E; apply adopt_names_quiet in E; [|now intros [= <- <-]].
  destruct (adoptOrCreateMap _ _ _ k1) as [[m|] k2] eqn:E2; apply adopt_quiet in E2; intros [= <- <-]; rewrite ?close_all_quiet; congruence.
Qed.

Lemma populate_quiet cfg ifT ifU start kt e kt' : populate rng cfg ifT ifU start kt = (e, kt') -> snd kt' = snd kt.
Proof.
  unfold populate. destruct (em_put 0 ifT _) as [[|] tx]; [|now intros [= <- <-]]. destruct (em_put 1 ifU tx) as [[|] tx']; [|now intros [= <- <-]].
  destruct (ReloadPolicy rng _ cfg) as [s o]. now intros [= <- <-].
Qed.

Lemma loadProg_quiet spec shared a b c d kt r kt' : loadProg spec shared a b c d kt = (r, kt') -> snd kt' = snd kt.
Proof.
  unfold loadProg. destruct (setVars _ _) as [s|e]; [|now intros [= <- <-]].
  destruct (new_collection _ _ kt) as [[[coll [|]]|] k1] eqn:E; apply lift_inv in E as [_ E]; intros [= <- <-]; exact E.
Qed.

(** *** Attaching *)

(** [new] was recorded between the two, with [prog] on [port] or in place of a pinned one, under the maps as they were. *)
Definition puts (prog : handle) (port : Z) kt kt' (new : list (Attachment M)) : Prop :=
  snd kt' = (snd kt ++ new)%list /\ sys_maps kt' = sys_maps kt /\
  Forall (fun a => at_prog a = prog /\ (at_port a = None \/ at_port a = Some port) /\ at_maps a = sys_maps kt) new.

Lemma puts_trans prog port k1 k2 k3 l1 l2 : puts prog port k1 k2 l1 -> puts prog port k2 k3 l2 -> puts prog port k1 k3 (l1 ++ l2).
Proof.
  intros (E1 & M1 & F1) (E2 & M2 & F2). unfold puts. rewrite E2, E1, app_assoc, M2, M1. rewrite M1 in F2.
  split_and!; [done | done | now apply Forall_app].
Qed.

Lemma attach_puts prog i pin m kt r kt' : attach prog i pin m kt = (r, kt') ->
  exists new, puts prog i kt kt' new /\ (forall h, r = inl h -> new <> []).
Proof.
  intros E. pose proof (attach_maps' _ _ _ _ _ _ _ E) as Hm. unfold attach in E.
  destruct (load_pinned_link pin kt) as [[l|] k1] eqn:E1; pose proof (pinned_link_maps _ _ _ _ E1) as M1; apply lift_inv in E1 as [_ E1].
  - destruct (link_update l prog k1) as [ok k2] eqn:E2. apply noted_inv in E2 as [_ E2]. rewrite E1 in E2.
    exists [mkAttachment prog None (sys_maps k1)]. split; [|done].
    split_and!; [destruct ok; injection E as _ <-; exact E2 | exact Hm | apply Forall_singleton; auto].
  - destruct (attach_xdp prog i m k1) as [[l|] k2] eqn:E2; apply noted_inv in E2 as [_ E2]; rewrite E1 in E2;
      (exists [mkAttachment prog (Some i) (sys_maps k1)]; split; [|done]).
    + destruct (link_pin l pin k2) as [ok k3] eqn:E3. apply lift_inv in E3 as [_ E3]. rewrite E2 in E3.
      split_and!; [destruct ok; injection E as _ <-; exact E3 | exact Hm | apply Forall_singleton; auto].
    + injection E as _ <-. split_and!; [exact E2 | exact Hm | apply Forall_singleton; auto].
Qed.

Lemma attachMode_puts prog i pin mode kt r kt' : attachMode prog i pin mode kt = (r, kt') ->
  exists new, puts prog i kt kt' new /\ (forall h, r = inl h -> new <> []).
Proof.
  unfold attachMode. destruct (mode =? "generic")%string; [apply attach_puts|]. destruct (mode =? "native")%string; [apply attach_puts|].
  destruct (attach prog i pin XDPDriverMode kt) as [[l|e] k1] eqn:E; apply attach_puts in E as (l1 & P1 & N1).
  - intros [= <- <-]. eauto.
  - intros (l2 & P2 & N2)%attach_puts. exists (l1 ++ l2)%list. split; [now apply (puts_trans _ _ _ k1)|].
    intros h Hh [_ ->]%app_eq_nil. now apply (N2 h).
Qed.

(** On a success each of the two programs went to its own port, and nothing else to any. *)
Definition wired (h : Handle) (ifT ifU : Z) (trace : list (Attachment M)) : Prop :=
  (exists a, a ∈ trace /\ at_prog a = h_collT h) /\ (exists a, a ∈ trace /\ at_prog a = h_collU h) /\
  Forall (fun a => (at_prog a = h_collT h /\ (at_port a = None \/ at_port a = Some ifT)) \/
                   (at_prog a = h_collU h /\ (at_port a = None \/ at_port a = Some ifU))) trace.

Lemma programs_puts cfg spec shared mb ifT ifU kt r kt' : load_programs cfg spec shared mb ifT ifU kt = (r, kt') ->
  exists new, snd kt' = (snd kt ++ new)%list /\ Forall (fun a => at_maps a = sys_maps kt) new /\
    (forall h, r = inl h -> sys_maps kt' = sys_maps kt /\ wired h ifT ifU new).
Proof.
  unfold load_programs. destruct (loadProg _ _ 1 1 _ _ kt) as [[collT|e] k1] eqn:E1; pose proof (loadProg_maps _ _ _ _ _ _ _ _ _ E1) as M1; apply loadProg_quiet in E1.
  2:{ intros [= <- <-]. exists []. rewrite close_all_quiet, app_nil_r. now split_and!. }
  destruct (loadProg _ _ 0 0 _ _ k1) as [[collU|e] k2] eqn:E2; pose proof (loadProg_maps _ _ _ _ _ _ _ _ _ E2) as M2; apply loadProg_quiet in E2; rewrite E1 in E2; rewrite M1 in M2.
  2:{ intros [= <- <-]. exists []. rewrite close_all_quiet, app_nil_r. now split_and!. }
  unfold attach_both. destruct (attachMode collT _ _ _ k2) as [[lT|e] k3] eqn:E3; apply attachMode_puts in E3 as (l1 & (S1 & M3 & F1) & N1); rewrite E2 in S1; rewrite M2 in M3, F1.
  2:{ intros [= <- <-]. exists l1. rewrite close_all_quiet. split_and!; [exact S1 | | done]. eapply Forall_impl; [exact F1|]. cbn. tauto. }
  destruct (attachMode collU _ _ _ k3) as [[lU|e] k4] eqn:E4; apply attachMode_puts in E4 as (l2 & (S2 & M4 & F2) & N2); rewrite S1, <- app_assoc in S2; rewrite M3 in M4, F2;
    intros [= <- <-]; exists (l1 ++ l2)%list; (split; [rewrite ?close_all_quiet; exact S2|]); (split; [apply Forall_app; split; (eapply Forall_impl; [eassumption|]; cbn; tauto)|]); [|done].
  intros h [= <-]. split; [exact M4|]. specialize (N1 _ eq_refl). specialize (N2 _ eq_refl). split_and!; cbn [h_collT h_collU].
  - destruct l1 as [|a l1]; [done|]. apply Forall_cons in F1 as [[F1 _] _]. exists a. split; [left | done].
  - destruct l2 as [|a l2]; [done|]. apply Forall_cons in F2 as [[F2 _] _]. exists a. split; [apply elem_of_app; right; left | done].
  - apply Forall_app. split; (eapply Forall_impl; [eassumption|]; cbn; tauto).
Qed.

(** The control maps are complete: the redirect map names the two ports and
    the policy is the configuration's. *)
Definition ready (cfg : Config) (ifT ifU : Z) (s : SharedMaps M) : Prop :=
  em_view (Features s) !! 0 = Some (featuresFrom cfg) /\
  (forall a, em_view (ServerAllowMap s) !! a = Some 1 <-> wants_server cfg a) /\
  (forall a, em_view (FlowMonitorCIDRs s) !! a = Some 1 <-> wants_cidr cfg a) /\
  em_view (TxPorts s) !! 0 = Some ifT /\ em_view (TxPorts s) !! 1 = Some ifU.

Lemma populate_ready cfg ifT ifU start kt kt' : populate rng cfg ifT ifU start kt = (None, kt') -> ready cfg ifT ifU (sys_maps kt').
Proof using EbpfLaws0 SysLaws0 rng_perm.
  intros E. apply (populate_ok rng rng_perm) in E as ((HF & HA & HC) & HT & HU).
  split_and!; [done | intros a; now apply holds_one | intros a; now apply holds_one | done | done].
Qed.

(** An error before anything was put on a port. *)
Ltac early S := let E := fresh "E" in intros [= <- E]; apply (f_equal snd) in E; cbn [snd] in E; rewrite S in E; now rewrite <- E.

End Traced.
