(* ===== verification/FlowMonitor.v ===== *)
(** * FlowMonitor: internal/flowmonitor/flowmonitor.go

    Sampled flow counters turned into alerts: one tick reads the counter
    map, compares it with the previous reading and publishes a snapshot
    file.  The counter tables of the snapshots are Go maps that the reporter
    clears and reuses, so they live in a heap of tables. *)

From Stdlib Require Import ZArith Lia Bool Ascii String.
From stdpp Require Import prelude strings list gmap.
From S2P Require Import Prelude GoText GoNet GoFloat Config ConfigFile Resources Ebpf Policy FlowTable.

Local Open Scope string_scope.
Local Open Scope Z_scope.

(** ** Data *)

Record FlowID := mkFlowID {
  Protocol : string; ProtectedIP : string; ProtectedPort : Z; InternetIP : string; InternetPort : Z;
  OuterVLAN : Z; InnerVLAN : Z
}.

Record Alert := mkAlert {
  Schema : Z; ObservedAt : Z; WindowSeconds : f64; Flow : FlowID; MatchedCIDR : string;
  EstimatedPPS : f64; EstimatedMbps : f64; ThresholdPPS : Z; ThresholdMbps : f64;
  Exceeded : list string; A_SampleEvery : Z
}.

(** The tables of the reporter, by reference. *)
Definition ref : Type := nat.
Abbreviation table := (gmap key counter).
Abbreviation heap := (gmap ref table).

(** A snapshot refers to its table; times are nanoseconds. *)
Record Snapshot := mkSnap { Counters : ref; When : Z }.

Record Reporter := mkReporter {
  prev : option Snapshot;
  settings : option FlowMonitoring;
  spare : option ref
}.

Definition NewReporter : Reporter := mkReporter None None None.

(** ** Reading the counter map

    The kernel answers a batch read with some entries and a verdict; the
    answers of one tick are a list. *)
Inductive BatchEnd := BatchMore | BatchDone | BatchUnsupported.

Definition batch : Type := (list (key * counter) * BatchEnd)%type.

Fixpoint add_all (l : list (key * counter)) (t : table) : table :=
  match l with [] => t | (k, v) :: r => add_all r (<[k := v]> t) end.

(** [None] sends the reader to the iterator. *)
Fixpoint batch_loop (answers : list batch) (t : table) : option table :=
  match answers with
  | [] => Some t
  | (l, e) :: r =>
      let t := add_all l t in
      match e with
      | BatchDone => Some t
      | BatchUnsupported => None
      | BatchMore => if (length l =? 0)%nat then Some t else batch_loop r t
      end
  end.

(** What one tick reads: whether the map is there, its batch answers, and
    what iterating it gives. *)
Record Reading := mkReading { rd_open : bool; rd_batches : list batch; rd_iter : list (key * counter) * bool; rd_when : Z }.

(** The table is cleared, or made when there is none to reuse. *)
Definition take_table (counters : option ref) (h : heap) : ref * heap :=
  let r := match counters with Some r => r | None => fresh (dom h) end in
  (r, <[r := ∅]> h).

Definition collectInto (rd : Reading) (counters : option ref) (h : heap) : Snapshot * heap * bool :=
  let '(r, h) := take_table counters h in
  let s := mkSnap r (rd_when rd) in
  if negb (rd_open rd) then (s, h, false)
  else match batch_loop (rd_batches rd) ∅ with
       | Some t => (s, <[r := t]> h, true)
       | None => let '(l, ok) := rd_iter rd in (s, <[r := add_all l ∅]> h, ok)
       end.

(** [Collect]: a reading into a table of its own. *)
Definition Collect (rd : Reading) (h : heap) : Snapshot * heap * bool := collectInto rd None h.

(** ** Alerts *)

Definition decodeFlowID (k : key) : FlowID :=
  let vlans := le32 (sub 12 16 k) in
  let proto := default 0 (k !! 16%nat) in
  mkFlowID (if proto =? 6 then "tcp" else if proto =? 17 then "udp" else "unknown")
    (IP_String (sub 4 8 k)) (be16 (sub 10 12 k)) (IP_String (sub 0 4 k)) (be16 (sub 8 10 k))
    (Z.land (Z.shiftr vlans 12) 4095) (Z.land vlans 4095).

(** The rule's network, when it parses and contains the address. *)
Definition rule_bits (ip : list Z) (rule : FlowMonitorCIDR) : option Z :=
  match ParseCIDR (CIDR rule) with
  | None => None
  | Some (_, network) => if IPNet_Contains network ip then Some (fst (Mask_Size (net_mask network))) else None
  end.

Definition match_step (ip : list Z) (best : Z * option FlowMonitorCIDR) (rule : FlowMonitorCIDR) : Z * option FlowMonitorCIDR :=
  match rule_bits ip rule with
  | None => best
  | Some ones => if fst best <? ones then (ones, Some rule) else best
  end.

Definition longestMatch (ip : list Z) (rules : list FlowMonitorCIDR) : option FlowMonitorCIDR :=
  let '(bestBits, best) := fold_left (match_step ip) rules (-1, None) in
  if 0 <=? bestBits then best else None.

(** [bytes.Compare(a, b) < 0] for keys of one length. *)
Fixpoint bytes_ltb (a b : key) : bool :=
  match a, b with
  | x :: a', y :: b' => (x <? y) || ((x =? y) && bytes_ltb a' b')
  | [], _ :: _ => true
  | _, [] => false
  end.

Fixpoint insert_sorted (k : key) (l : list key) : list key :=
  match l with
  | [] => [k]
  | x :: r => if bytes_ltb x k then x :: insert_sorted k r else k :: l
  end.

Definition sort_keys (l : list key) : list key := foldr insert_sorted [] l.

(** A counter that went down was reset: what it holds now is the difference. *)
Definition delta (cur old : Z) : Z := if old <=? cur then u64 (cur - old) else cur.

Definition alert_for (fm : FlowMonitoring) (secs : f64) (when : Z) (curT oldT : table) (k : key) : option Alert :=
  let flow := decodeFlowID k in
  match ParseIP (ProtectedIP flow) with
  | None => None
  | Some ip =>
      match longestMatch ip (elems (CIDRs fm)) with
      | None => None
      | Some rule =>
          let c := default (mkCounter 0 0) (curT !! k) in
          let o := default (mkCounter 0 0) (oldT !! k) in
          let scale := f64_of_Z (SampleEvery fm) in
          let pps := fdiv (fmul scale (f64_of_Z (delta (Packets c) (Packets o)))) secs in
          let mbps := fdiv (fdiv (fmul (fmul scale (f64_of_Z (delta (Bytes c) (Bytes o)))) (f64_of_Z 8)) secs)
                           (f64_of_Z 1000000) in
          let exceeded :=
            ((if (0 <? PPSThreshold rule) && fltb (f64_of_Z (PPSThreshold rule)) pps then ["pps"] else [])
             ++ (if fltb fzero (MbpsThreshold rule) && fltb (MbpsThreshold rule) mbps then ["mbps"] else []))%list in
          match exceeded with
          | [] => None
          | _ => Some (mkAlert 1 when secs flow (CIDR rule) pps mbps (PPSThreshold rule) (MbpsThreshold rule) exceeded
                         (SampleEvery fm))
          end
      end
  end.

Definition alertsFrom (oldT : table) (oldWhen : Z) (curT : table) (curWhen : Z) (fm : FlowMonitoring) : list Alert :=
  let secs := Seconds (curWhen - oldWhen) in
  if negb (fltb fzero secs) then []
  else omap (alert_for fm secs curWhen curT oldT) (sort_keys (map_to_list curT).*1).

(** ** The snapshot file *)

Section Files.
Context (json_encode : Alert -> option string).
Context (json_decode : string -> option Alert).

Fixpoint encode_all (alerts : list Alert) : option string :=
  match alerts with
  | [] => Some ""
  | a :: r => match json_encode a, encode_all r with
              | Some line, Some rest => Some (line ++ String newline rest)
              | _, _ => None
              end
  end.

Definition Filename : string := "flow_alerts.jsonl".

(** [write]: the states of the files, and success. *)
Definition write (e : Env) (dir : string) (alerts : list Alert) (fs : gmap string string) : list (gmap string string) * bool :=
  if negb (env_mkdir e) then ([fs], false)
  else match encode_all alerts with
       | None => ([fs], false)
       | Some body => publish e (PathJoin [dir; Filename]) body fs
       end.

Inductive ReadError := EOpen | EParseLine (n : Z) | ESchema (n : Z) | ETooLong.

Fixpoint read_lines (lines : list string) (acc : list Alert) : list Alert + ReadError :=
  match lines with
  | [] => inl acc
  | l :: r =>
      if 65535 <? Z.of_nat (String.length l) then inr ETooLong
      else match json_decode (drop_cr l) with
           | None => inr (EParseLine (Z.of_nat (length acc) + 1))
           | Some a => if negb (Schema a =? 1) then inr (ESchema (Schema a)) else read_lines r (acc ++ [a])%list
           end
  end.

Definition ReadAlerts (path : string) (fs : gmap string string) : list Alert + ReadError :=
  match fs !! path with
  | None => inr EOpen
  | Some body => read_lines (scan_lines body "") []
  end.

(** ** One tick *)

Definition fm_eqb (a b : FlowMonitoring) : bool :=
  Bool.eqb (Enabled a) (Enabled b) && (SampleEvery a =? SampleEvery b) && (MaxFlows a =? MaxFlows b)
  && slice_eqb rule_eqb (CIDRs a) (CIDRs b).

Definition clear_table (r : ref) (h : heap) : heap := <[r := ∅]> h.

Record TickResult := mkTick {
  t_reporter : Reporter; t_heap : heap;
  t_alerts : option (list Alert);           (* the published alerts; none when the reading failed *)
  t_files : list (gmap string string); t_ok : bool
}.

Definition Tick (e : Env) (dir : string) (rd : Reading) (fm : FlowMonitoring) (r : Reporter) (h : heap)
    (fs : gmap string string) : TickResult :=
  let changed := match settings r with None => true | Some s => negb (fm_eqb s fm) end in
  let set := Some (mkFM (Enabled fm) (SampleEvery fm) (MaxFlows fm) (slice_copy (CIDRs fm))) in
  (* give the previous table back for reuse *)
  let recycle sp h := match prev r with
                      | Some p => (Some (Counters p), clear_table (Counters p) h)
                      | None => (sp, h)
                      end in
  if negb (Enabled fm) || (length (elems (CIDRs fm)) =? 0)%nat then
    let '(sp, h) := recycle (spare r) h in
    let '(files, ok) := write e dir [] fs in
    mkTick (mkReporter None set sp) h (Some []) files ok
  else
    match collectInto rd (spare r) h with
    | (_, h, false) => mkTick (mkReporter (prev r) set (spare r)) h None [fs] false
    | (cur, h, true) =>
        match prev r with
        | Some p =>
            if changed then
              let '(sp, h) := recycle None h in
              let '(files, ok) := write e dir [] fs in
              mkTick (mkReporter (Some cur) set sp) h (Some []) files ok
            else
              let alerts := alertsFrom (default ∅ (h !! Counters p)) (When p) (default ∅ (h !! Counters cur)) (When cur) fm in
              let '(sp, h) := recycle None h in
              let '(files, ok) := write e dir alerts fs in
              mkTick (mkReporter (Some cur) set sp) h (Some alerts) files ok
        | None =>
            let '(files, ok) := write e dir [] fs in
            mkTick (mkReporter (Some cur) set None) h (Some []) files ok
        end
    end.
End Files.
