(* ===== verification/FlowMonitorSpec.v ===== *)
(** * FlowMonitorSpec: what the alert reporter guarantees *)

From Stdlib Require Import ZArith Lia Bool Ascii String Sorted.
From stdpp Require Import prelude strings list gmap sorting.
From coqutil Require Import Datatypes.RecordSetters.
From S2P Require Import Prelude GoText TextLemmas GoNet GoFloat Config ConfigSpec ConfigFile Resources Ebpf Policy FlowTable FlowMonitor.

Local Open Scope string_scope.
Local Open Scope Z_scope.

(** ** Rules *)

Definition best_of (ip : list Z) (seen : list FlowMonitorCIDR) (best : Z * option FlowMonitorCIDR) : Prop :=
  match snd best with
  | None => fst best = -1 /\ Forall (fun r => match rule_bits ip r with Some b => b <= -1 | None => True end) seen
  | Some r => rule_bits ip r = Some (fst best) /\ 0 <= fst best /\
      exists before after, seen = (before ++ r :: after)%list /\
        Forall (fun x => match rule_bits ip x with Some b => b < fst best | None => True end) before /\
        Forall (fun x => match rule_bits ip x with Some b => b <= fst best | None => True end) after
  end.

Lemma byte_ones_nonneg v k : byte_ones v = Some k -> 0 <= k.
Proof. unfold byte_ones. case_match; [|done]. case_match. intros [= <-]. lia. Qed.

Lemma simpleMaskLength_nonneg m k : simpleMaskLength m = Some k -> 0 <= k.
Proof.
  revert k. induction m as [|v m IH]; intros k; cbn [simpleMaskLength]; [intros [= <-]; lia|].
  destruct (v =? 255); [intros (j & Hj & ->)%fmap_Some; apply IH in Hj; lia|].
  destruct (forallb _ m); [apply byte_ones_nonneg|done].
Qed.

Lemma rule_bits_nonneg ip r b : rule_bits ip r = Some b -> 0 <= b.
Proof.
  unfold rule_bits, Mask_Size. destruct (ParseCIDR _) as [[? net]|]; [|done]. destruct (IPNet_Contains _ _); [|done].
  destruct (simpleMaskLength (net_mask net)) as [k|] eqn:E; intros [= <-]; cbn; [now apply simpleMaskLength_nonneg in E|lia].
Qed.

Lemma match_step_best ip seen best r : best_of ip seen best -> best_of ip (seen ++ [r]) (match_step ip best r).
Proof.
  unfold match_step. destruct best as [bits best]. intros H.
  destruct (rule_bits ip r) as [ones|] eqn:E.
  - pose proof (rule_bits_nonneg _ _ _ E) as H0. cbn [fst]. destruct (bits <? ones) eqn:El; zbool.
    + split; [done|]. split; [done|]. exists seen, []. split; [done|]. split; [|constructor].
      unfold best_of in H. cbn in H. destruct best as [r'|].
      * destruct H as (Hr & _ & before & after & -> & Hb & Ha). apply Forall_app. split; [|constructor].
        -- eapply Forall_impl; [exact Hb|]. intros x. cbn. destruct (rule_bits ip x); [lia|done].
        -- rewrite Hr. cbn. lia.
        -- eapply Forall_impl; [exact Ha|]. intros x. cbn. destruct (rule_bits ip x); [lia|done].
      * destruct H as [_ H]. eapply Forall_impl; [exact H|]. intros x. cbn. destruct (rule_bits ip x); [lia|done].
    + unfold best_of in *. cbn in *. destruct best as [r'|]; [|lia].
      destruct H as (Hr & H1 & before & after & -> & Hb & Ha). split; [done|]. split; [done|].
      exists before, (after ++ [r])%list. split; [now rewrite <- app_assoc|]. split; [done|].
      apply Forall_app. split; [done|]. constructor; [rewrite E; lia|constructor].
  - unfold best_of in *. cbn in *. destruct best as [r'|].
    + destruct H as (Hr & H1 & before & after & -> & Hb & Ha). split; [done|]. split; [done|].
      exists before, (after ++ [r])%list. split; [now rewrite <- app_assoc|]. split; [done|].
      apply Forall_app. split; [done|]. constructor; [now rewrite E|constructor].
    + destruct H as [? H]. split; [done|]. apply Forall_app. split; [done|]. constructor; [now rewrite E|constructor].
Qed.

Lemma match_fold_best ip rules seen best : best_of ip seen best ->
  best_of ip (seen ++ rules) (fold_left (match_step ip) rules best).
Proof.
  revert seen best. induction rules as [|r rules IH]; intros seen best H; cbn [fold_left]; [now rewrite app_nil_r|].
  replace (seen ++ r :: rules)%list with ((seen ++ [r]) ++ rules)%list by now rewrite <- app_assoc.
  apply IH, match_step_best, H.
Qed.

Lemma longestMatch_best ip rules :
  match longestMatch ip rules with
  | Some r => exists b before after, rule_bits ip r = Some b /\ rules = (before ++ r :: after)%list /\
      (forall x bx, In x before -> rule_bits ip x = Some bx -> bx < b) /\
      (forall x bx, In x after -> rule_bits ip x = Some bx -> bx <= b)
  | None => forall x, In x rules -> rule_bits ip x = None
  end.
Proof.
  unfold longestMatch. pose proof (match_fold_best ip rules [] (-1, None)) as H.
  destruct (fold_left (match_step ip) rules (-1, None)) as [bits best]. cbn [app] in H.
  specialize (H (conj eq_refl (Forall_nil_2 _))). unfold best_of in H. cbn in H.
  destruct best as [r|].
  - destruct H as (Hr & Hb & before & after & -> & Hbe & Haf). rewrite (proj2 (Z.leb_le _ _) Hb).
    exists bits, before, after. split; [done|]. split; [done|]. rewrite List.Forall_forall in Hbe, Haf.
    split; intros x bx Hx Ex; [specialize (Hbe x Hx)|specialize (Haf x Hx)]; rewrite Ex in *; done.
  - destruct H as [-> H]. cbn. intros x Hx. rewrite List.Forall_forall in H. specialize (H x Hx).
    destruct (rule_bits ip x) eqn:E; [|done]. apply rule_bits_nonneg in E. lia.
Qed.

Lemma longestMatch_None ip rules : longestMatch ip rules = None <-> forall x, In x rules -> rule_bits ip x = None.
Proof.
  pose proof (longestMatch_best ip rules) as H. destruct (longestMatch ip rules) as [r|]; [|tauto]. split; [done|]. intros Hn.
  destruct H as (b & before & after & Hr & -> & _). rewrite Hn in Hr; [done|]. apply in_or_app. right. now left.
Qed.

(** The rule applied to an address is the most specific one: a rule of the list whose network contains it,
    with a prefix no containing rule exceeds, the first such rule on a tie; there is none exactly when no rule's
    network contains the address. *)
Theorem longest_match_spec ip rules :
  match longestMatch ip rules with
  | Some r => exists b before after, rule_bits ip r = Some b /\ rules = (before ++ r :: after)%list /\
      (forall x bx, In x before -> rule_bits ip x = Some bx -> bx < b) /\
      (forall x bx, In x after -> rule_bits ip x = Some bx -> bx <= b)
  | None => forall x, In x rules -> rule_bits ip x = None
  end.
Proof. apply longestMatch_best. Qed.

(** ** Order of the alerts *)

Definition bytes_le (a b : key) : Prop := bytes_ltb b a = false.

Lemma bytes_ltb_irrefl a : bytes_ltb a a = false.
Proof. induction a as [|x a IH]; cbn; [done|]. rewrite Z.ltb_irrefl, IH. now destruct (x =? x). Qed.

Lemma bytes_ltb_trans a b c : bytes_ltb a b = true -> bytes_ltb b c = true -> bytes_ltb a c = true.
Proof.
  revert b c. induction a as [|x a IH]; intros [|y b] [|z c]; cbn; try done.
  rewrite !orb_true_iff, !andb_true_iff, !Z.ltb_lt, !Z.eqb_eq.
  intros [?|[-> ?]] [?|[-> ?]]; [left; lia|left; lia|left; lia|right; eauto].
Qed.

Lemma bytes_ltb_total a b : bytes_ltb a b = false -> bytes_ltb b a = false -> a = b.
Proof.
  revert b. induction a as [|x a IH]; intros [|y b]; cbn; try done.
  rewrite !orb_false_iff, !andb_false_iff, !Z.ltb_ge, !Z.eqb_neq.
  intros [? Ha] [? Hb]. assert (x = y) as -> by lia. f_equal. apply IH; destruct Ha, Hb; try lia; done.
Qed.

#[local] Instance bytes_le_trans : Transitive bytes_le.
Proof.
  intros a b c Hab Hbc. unfold bytes_le in *. destruct (bytes_ltb c a) eqn:E; [|done].
  destruct (bytes_ltb a b) eqn:E2; [rewrite (bytes_ltb_trans c a b) in Hbc; done|].
  rewrite (bytes_ltb_total a b E2 Hab) in *. congruence.
Qed.

#[local] Instance bytes_le_anti : AntiSymm (=) bytes_le.
Proof. intros a b. unfold bytes_le. intros. now apply bytes_ltb_total. Qed.

Lemma insert_sorted_perm k l : insert_sorted k l ≡ₚ k :: l.
Proof. induction l as [|x l IH]; cbn; [done|]. destruct (bytes_ltb x k); [|done]. rewrite IH. constructor. Qed.

Lemma sort_keys_perm l : sort_keys l ≡ₚ l.
Proof. induction l as [|k l IH]; cbn; [done|]. now rewrite insert_sorted_perm, IH. Qed.

Lemma bytes_ltb_asym a b : bytes_ltb a b = true -> bytes_ltb b a = false.
Proof.
  intros H. destruct (bytes_ltb b a) eqn:E; [|done].
  rewrite <- (bytes_ltb_irrefl a). now rewrite (bytes_ltb_trans a b a).
Qed.

Lemma insert_sorted_sorted k l : StronglySorted bytes_le l -> StronglySorted bytes_le (insert_sorted k l).
Proof.
  induction 1 as [|x l Hs IH Hx]; cbn; [repeat constructor|].
  destruct (bytes_ltb x k) eqn:E.
  - constructor; [done|]. rewrite insert_sorted_perm. constructor; [now apply bytes_ltb_asym|done].
  - constructor; [now constructor|]. constructor; [done|]. eapply Forall_impl; [exact Hx|]. cbn.
    intros y Hy. now transitivity x.
Qed.

Lemma sort_keys_sorted l : StronglySorted bytes_le (sort_keys l).
Proof. induction l as [|k l IH]; cbn; [constructor|]. now apply insert_sorted_sorted. Qed.

(** Alerts do not depend on the order in which Go walks the counter table: whatever order its keys come in,
    the alert list is the same, it holds exactly one alert per flow that exceeds its rule, in ascending key order. *)
Theorem alerts_canonical fm secs when curT oldT ks :
  ks ≡ₚ (map_to_list curT).*1 ->
  omap (alert_for fm secs when curT oldT) (sort_keys ks)
    = omap (alert_for fm secs when curT oldT) (sort_keys (map_to_list curT).*1)
  /\ StronglySorted bytes_le (sort_keys ks)
  /\ (forall a, a ∈ omap (alert_for fm secs when curT oldT) (sort_keys ks) <->
        exists k, is_Some (curT !! k) /\ alert_for fm secs when curT oldT k = Some a).
Proof.
  intros Hks.
  assert (sort_keys ks = sort_keys (map_to_list curT).*1) as ->.
  { apply (StronglySorted_unique bytes_le); try apply sort_keys_sorted. now rewrite !sort_keys_perm. }
  split; [done|]. split; [apply sort_keys_sorted|]. intros a. rewrite list_elem_of_omap. split.
  - intros (k & Hk & Ha). rewrite sort_keys_perm in Hk. apply list_elem_of_fmap in Hk as ([k' v] & -> & Hk).
    apply elem_of_map_to_list in Hk. eauto.
  - intros (k & [v Hv] & Ha). exists k. split; [|done]. rewrite sort_keys_perm. apply list_elem_of_fmap.
    exists (k, v). split; [done|]. now apply elem_of_map_to_list.
Qed.

(** A counter difference is exact, and no larger than the counter after a reset. *)
Lemma delta_range cur old : is_u64 cur -> is_u64 old ->
  0 <= delta cur old <= cur /\ (old <= cur -> delta cur old = cur - old).
Proof.
  intros Hc Ho. unfold delta. destruct (old <=? cur) eqn:E; zbool; [|unfold is_u64 in *; lia].
  rewrite u64_small; unfold is_u64 in *; lia.
Qed.

(** ** The tick *)

Section TickProofs.
Context (json_encode : Alert -> option string).
Abbreviation Tick := (Tick json_encode).

(** The previous snapshot's table exists and is not the one waiting to be
    reused: reading the counters cannot overwrite it. *)
Definition rep_ok (r : Reporter) (h : heap) : Prop :=
  forall p, prev r = Some p -> Counters p ∈ dom h /\ spare r <> Some (Counters p).

(** What a tick reads, if the reading succeeds. *)
Definition reading_table (rd : Reading) : option table :=
  if negb (rd_open rd) then None
  else match batch_loop (rd_batches rd) ∅ with
       | Some t => Some t
       | None => if snd (rd_iter rd) then Some (add_all (fst (rd_iter rd)) ∅) else None
       end.

Definition active (fm : FlowMonitoring) : bool := negb (negb (Enabled fm) || (length (elems (CIDRs fm)) =? 0)%nat).

Definition changed_from (r : Reporter) (fm : FlowMonitoring) : bool :=
  match settings r with None => true | Some s => negb (fm_eqb s fm) end.

Lemma collectInto_spec rd sp h s h' ok : collectInto rd sp h = (s, h', ok) ->
  When s = rd_when rd /\ Counters s ∈ dom h' /\
  (forall r, r ∈ dom h -> sp <> Some r -> h' !! r = h !! r /\ Counters s <> r) /\
  match reading_table rd with
  | Some t => ok = true /\ h' !! Counters s = Some t
  | None => ok = false
  end.
Proof.
  unfold collectInto, reading_table, take_table.
  set (r0 := match sp with Some r => r | None => fresh (dom h) end).
  assert (forall r, r ∈ dom h -> sp <> Some r -> r0 <> r) as Hne.
  { intros r Hr Hs. unfold r0. destruct sp as [x|]; [congruence|]. intros Hf. pose proof (is_fresh (dom h)). congruence. }
  assert (forall (t : table) r, r ∈ dom h -> sp <> Some r -> <[r0 := t]> (<[r0 := ∅]> h) !! r = h !! r) as Hkeep.
  { intros t r Hr Hs. rewrite !lookup_insert_ne by (now apply Hne). done. }
  destruct (negb (rd_open rd)).
  { intros [= <- <- <-]. cbn. split; [done|]. split; [rewrite dom_insert_L; set_solver|]. split; [|done].
    intros r Hr Hs. rewrite lookup_insert_ne by (now apply Hne). auto. }
  destruct (batch_loop _ _) as [t|].
  { intros [= <- <- <-]. cbn. split; [done|]. split; [rewrite dom_insert_L; set_solver|].
    split; [auto|]. split; [done|apply lookup_insert_eq]. }
  destruct (rd_iter rd) as [l ok0]. intros [= <- <- <-]. cbn.
  split; [done|]. split; [rewrite dom_insert_L; set_solver|]. split; [auto|].
  destruct ok0; [|done]. split; [done|apply lookup_insert_eq].
Qed.

Lemma write_alerts_split (e : Env) dir alerts fs : exists files ok, write json_encode e dir alerts fs = (files, ok).
Proof. destruct (write json_encode e dir alerts fs); eauto. Qed.

(** C26. A tick compares exactly two consecutive readings: although tables are cleared and reused, the one a tick
    compares with still holds what the earlier tick read, and the one it keeps holds what it has read itself.
    Alerts are the differences when the settings are those of the tick before, none when they changed, on the
    first reading, or when monitoring is off; a failed reading publishes nothing and keeps the earlier one. *)
Theorem tick_window e dir rd fm r h fs : rep_ok r h ->
  let t := Tick e dir rd fm r h fs in
  rep_ok (t_reporter t) (t_heap t) /\
  (if negb (active fm) then t_alerts t = Some [] /\ prev (t_reporter t) = None
   else match reading_table rd with
        | None => t_alerts t = None /\ t_files t = [fs] /\ prev (t_reporter t) = prev r /\
                  (forall p, prev r = Some p -> t_heap t !! Counters p = h !! Counters p)
        | Some cur =>
            (exists p', prev (t_reporter t) = Some p' /\ t_heap t !! Counters p' = Some cur /\ When p' = rd_when rd) /\
            t_alerts t = Some match prev r with
                              | Some p => if changed_from r fm then []
                                          else alertsFrom (default ∅ (h !! Counters p)) (When p) cur (rd_when rd) fm
                              | None => []
                              end
        end).
Proof.
  intros Hok. unfold FlowMonitor.Tick, active. rewrite negb_involutive. fold (changed_from r fm).
  destruct (negb (Enabled fm) || _); cbn [negb].
  { destruct (write_alerts_split e dir [] fs) as (files & ok & ->).
    destruct (prev r) as [p|]; cbn; (split; [intros ? [=] | done]). }
  destruct (collectInto rd (spare r) h) as [[cur h'] ok] eqn:E.
  apply collectInto_spec in E as (Hw & Hdom & Hkeep & Hread).
  destruct (reading_table rd) as [tb|].
  2:{ subst ok. cbn. split.
      - intros p Hp. destruct (Hok p Hp) as [Hd Hs]. destruct (Hkeep _ Hd Hs) as [Hk _].
        split; [|done]. cbn. rewrite elem_of_dom, Hk. now apply elem_of_dom.
      - split; [done|]. split; [done|]. split; [done|]. intros p Hp. destruct (Hok p Hp) as [Hd Hs]. now apply Hkeep. }
  destruct Hread as [-> Htb].
  destruct (prev r) as [p|] eqn:Ep.
  2:{ destruct (write_alerts_split e dir [] fs) as (files & ok & ->). cbn. split.
      - intros p' [= <-]. done.
      - split; [exists cur; auto|done]. }
  destruct (Hok p Ep) as [Hd Hs]. destruct (Hkeep _ Hd Hs) as [Hk Hne].
  assert (clear_table (Counters p) h' !! Counters cur = Some tb) as Hcur
    by (unfold clear_table; now rewrite lookup_insert_ne).
  assert (forall files ok al, rep_ok (t_reporter (mkTick (mkReporter (Some cur)
            (Some (mkFM (Enabled fm) (SampleEvery fm) (MaxFlows fm) (slice_copy (CIDRs fm)))) (Some (Counters p)))
            (clear_table (Counters p) h') al files ok)) (clear_table (Counters p) h')) as Hrep.
  { intros files ok al p' [= <-]. cbn. split; [apply elem_of_dom; rewrite Hcur; eauto|congruence]. }
  rewrite Hk, Htb. destruct (changed_from r fm); cbn [default].
  - destruct (write_alerts_split e dir [] fs) as (files & ok & ->). cbn. split; [apply (Hrep files ok None)|].
    split; [exists cur; auto|done].
  - change (default ∅ (Some tb)) with tb. rewrite Hw.
    match goal with |- context [write _ e dir ?al fs] => destruct (write_alerts_split e dir al fs) as (files & ok & ->) end.
    cbn. split; [apply (Hrep files ok None)|]. split; [exists cur; auto|done].
Qed.
End TickProofs.

(** ** The snapshot file *)

Lemma scan_line l : no_byte newline l = true -> forall r cur,
  scan_lines (l ++ String newline r) cur = str_rev (str_rev_app l cur) :: scan_lines r "".
Proof.
  induction l as [|c l IH]; intros Hn r cur; cbn [append scan_lines str_rev_app].
  - now rewrite Ascii.eqb_refl.
  - cbn [no_byte] in Hn. apply andb_true_iff in Hn as [Hc Hn]. apply negb_true_iff in Hc.
    rewrite Ascii.eqb_sym, Hc. now apply IH.
Qed.

Section RoundTrip.
Context (json_encode : Alert -> option string) (json_decode : string -> option Alert).

(** The JSON line of an alert: one line of less than 64 KiB that decodes to it. *)
Definition json_line (a : Alert) : Prop :=
  exists line, json_encode a = Some line /\ json_decode line = Some a /\ Schema a = 1 /\
    no_byte newline line = true /\ drop_cr line = line /\ Z.of_nat (String.length line) <= 65535.

Lemma read_encoded alerts body : Forall json_line alerts -> encode_all json_encode alerts = Some body ->
  forall acc, read_lines json_decode (scan_lines body "") acc = inl (acc ++ alerts)%list.
Proof.
  intros Hl. revert body. induction Hl as [|a alerts (line & He & Hd & Hs & Hn & Hcr & Hlen) Hl IH]; intros body.
  - cbn. intros [= <-] acc. cbn. now rewrite app_nil_r.
  - cbn [encode_all]. rewrite He. destruct (encode_all json_encode alerts) as [rest|] eqn:Er; [|done].
    intros [= <-] acc. rewrite scan_line by done. fold (str_rev line). rewrite str_rev_rev. cbn [read_lines].
    rewrite (proj2 (Z.ltb_ge _ _)) by lia. rewrite Hcr, Hd, Hs. cbn [negb Z.eqb Pos.eqb].
    rewrite (IH _ eq_refl). now rewrite <- app_assoc.
Qed.

(** C27. A published snapshot reads back: when publishing reports success, reading the snapshot file gives exactly
    the published alerts, in order, and while it is being replaced a reader finds the old file or the new one. *)
Theorem snapshot_roundtrip (e : Env) dir alerts fs files : Forall json_line alerts ->
  let path := PathJoin [dir; Filename] in
  write json_encode e dir alerts fs = (files, true) ->
  ReadAlerts json_decode path (final files fs) = inl alerts /\
  (forall s, In s files -> s !! path = fs !! path \/ s !! path = final files fs !! path).
Proof.
  intros Hl path. unfold write. destruct (negb (env_mkdir e)); [done|].
  destruct (encode_all json_encode alerts) as [body|] eqn:Eb; [|done]. fold path. intros Hp.
  pose proof (publish_ok e path body fs) as Hok. rewrite Hp in Hok. cbn [fst snd] in Hok. rewrite Hok by done.
  split.
  - unfold ReadAlerts. rewrite lookup_insert_eq. apply (read_encoded _ _ Hl Eb []).
  - intros s Hs. rewrite lookup_insert_eq.
    apply (publish_states e path body fs s). now rewrite Hp.
Qed.
End RoundTrip.

(** ** Concrete runs *)

Definition mon_key : key := [198; 51; 100; 9; 10; 1; 2; 3; 1; 187; 200; 0; 0; 0; 0; 0; 6; 0; 0; 0].
Definition mon_reading (packets bytes when : Z) : Reading :=
  mkReading true [([(mon_key, mkCounter packets bytes)], BatchDone)] ([], true) when.
Definition mon_rules : FlowMonitoring := mkFM true 64 4096 (Some [mkRule "10.1.0.0/16" 1000 fzero]).
Definition mon_rules' : FlowMonitoring := mkFM true 1024 4096 (Some [mkRule "10.1.0.0/16" 1000 fzero]).
Definition no_json (_ : Alert) : option string := Some "{}".
Definition all_ok : Env := mkEnv true WOk true.

Definition tick1 := Tick no_json all_ok "/s" (mon_reading 10 10 0) mon_rules NewReporter ∅ ∅.
Definition tick2 := Tick no_json all_ok "/s" (mon_reading 110 9000 1000000000) mon_rules (t_reporter tick1) (t_heap tick1) ∅.

Lemma rep_ok_new h : rep_ok NewReporter h.
Proof. intros p [=]. Qed.

Theorem tick_window_witness :
  rep_ok (t_reporter tick1) (t_heap tick1) /\
  t_alerts tick2 = Some (alertsFrom {[mon_key := mkCounter 10 10]} 0 {[mon_key := mkCounter 110 9000]} 1000000000 mon_rules) /\
  (length (default [] (t_alerts tick2)) = 1)%nat.
Proof.
  assert (rep_ok (t_reporter tick1) (t_heap tick1)) as Hok.
  { exact (proj1 (tick_window no_json all_ok "/s" (mon_reading 10 10 0) mon_rules NewReporter ∅ ∅ (rep_ok_new ∅))). }
  split; [exact Hok|]. split; [|vm_compute; reflexivity].
  refine (eq_trans (proj2 (proj2 (tick_window no_json all_ok "/s" (mon_reading 110 9000 1000000000) mon_rules _ _ ∅ Hok))) _).
  vm_compute. reflexivity.
Defined.

Theorem alerts_canonical_witness :
  let t := {[mon_key := mkCounter 110 9000]} : gmap key counter in
  StronglySorted bytes_le (sort_keys [mon_key]) /\ [mon_key] ≡ₚ (map_to_list t).*1.
Proof.
  assert ([mon_key] ≡ₚ (map_to_list ({[mon_key := mkCounter 110 9000]} : gmap key counter)).*1) as Hp
    by (rewrite map_to_list_singleton; reflexivity).
  split; [|exact Hp].
  exact (proj1 (proj2 (alerts_canonical mon_rules (f64_of_Z 1) 0 {[mon_key := mkCounter 110 9000]} ∅ [mon_key] Hp))).
Defined.

Definition one_alert : Alert :=
  mkAlert 1 0 (f64_of_Z 1) (decodeFlowID mon_key) "10.1.0.0/16" (f64_of_Z 6400) fzero 1000 fzero ["pps"] 64.

Theorem snapshot_roundtrip_witness :
  let files := fst (write no_json all_ok "/s" [one_alert; one_alert] ∅) in
  ReadAlerts (fun _ => Some one_alert) "/s/flow_alerts.jsonl" (final files ∅) = inl [one_alert; one_alert].
Proof.
  refine (proj1 (snapshot_roundtrip no_json (fun _ => Some one_alert) all_ok "/s" [one_alert; one_alert] ∅ _ _ eq_refl)).
  assert (json_line no_json (fun _ => Some one_alert) one_alert) as H
    by (exists "{}"; repeat split; vm_compute; congruence).
  constructor; [exact H|]. constructor; [exact H|constructor].
Defined.

(** A failed reading defeats the baseline: the tick that sees new settings records them before it reads the
    counters, so when that reading fails the next tick takes the settings for old and compares counters sampled
    one in 1024 with counters sampled one in 64. *)
Theorem failed_reading_mixes_settings :
  let failed := Tick no_json all_ok "/s" (mkReading false [] ([], true) 2000000000) mon_rules' (t_reporter tick1) (t_heap tick1) ∅ in
  let next := Tick no_json all_ok "/s" (mon_reading 110 9000 3000000000) mon_rules' (t_reporter failed) (t_heap failed) ∅ in
  settings (t_reporter tick1) = Some mon_rules /\ t_ok failed = false /\
  prev (t_reporter failed) = prev (t_reporter tick1) /\
  map A_SampleEvery (default [] (t_alerts next)) = [1024].
Proof. vm_compute. auto. Qed.
