(* ===== verification/Stats.v ===== *)
(** * Stats: internal/stats/stats.go

    Per-CPU counters summed into a snapshot, rates between two snapshots, the
    text report with its drop-spike detector, and the tick that publishes it.
    The kernel's answers to the lookups are a record, and the clock and the
    host's time formats are inputs. *)

From Corelib Require Import SpecFloat.
From Stdlib Require Import ZArith Lia Bool Ascii String.
From stdpp Require Import prelude strings list gmap sorting.
From S2P Require Import Prelude GoText GoFloat GoFmt Config ConfigFile Resources.

Local Open Scope string_scope.
Local Open Scope Z_scope.

(** ** Data *)

Definition reasonLabels : list string :=
  ["unsolicited SYN-ACK"; "bad ISN"; "out-of-state in"; "out-of-state out"; "out-of-state RST";
   "inbound SYN (no server)"; "bad TCP flags"; "TCP fragment"; "malformed"; "unsolicited UDP";
   "flow-table full"; "excess VLAN tags"; "UDP fragment"].

Definition numReasons : nat := 13.

Definition ReasonLabels : list string := reasonLabels.

Record statsGlobalValue := mkGlobal {
  RxPkts : Z; RxBytes : Z; RedirPkts : Z; RedirBytes : Z; DropPkts : Z; DropBytes : Z;
  NonIPPkts : Z; NonIPBytes : Z; NonTCPPkts : Z; NonTCPBytes : Z;
  L1Hits : Z; RstPkts : Z; RstBytes : Z
}.

(** [GlobalCounters] is the same record under a public name. *)
Definition GlobalCounters : Type := statsGlobalValue.

Record vlanStatValue := mkVlan { V_Pkts : Z; V_Bytes : Z; V_Drops : Z }.

Record Snapshot := mkSnap { G : statsGlobalValue; Reasons : list Z; Vlans : gmap Z vlanStatValue; When : Z }.

Record RateSample := mkRates {
  R_When : Z; Totals : GlobalCounters;
  ProcessedPPS : f64; RedirectedPPS : f64; DroppedPPS : f64; L1PPS : f64; RstPPS : f64;
  ProcessedBPS : f64; RedirectedBPS : f64; DroppedBPS : f64;
  ReasonPPS : list f64; VLANPPS : gmap Z f64; VLANDropPPS : gmap Z f64
}.

Definition zero_global : statsGlobalValue := mkGlobal 0 0 0 0 0 0 0 0 0 0 0 0 0.
Definition zero_vlan : vlanStatValue := mkVlan 0 0 0.

(** ** Rates *)

Definition rate_of (secs : f64) (n old : Z) : f64 := if n <? old then fzero else fdiv (f64_of_Z (u64 (n - old))) secs.

Definition vlan_rates (d : Z -> Z -> f64) (proj : vlanStatValue -> Z) (prev cur : gmap Z vlanStatValue) : gmap Z f64 :=
  map_imap (fun vid v => Some (d (proj v) (proj (default zero_vlan (prev !! vid))))) cur.

Definition no_rates (cur : Snapshot) : RateSample :=
  mkRates (When cur) (G cur) fzero fzero fzero fzero fzero fzero fzero fzero (replicate numReasons fzero) ∅ ∅.

Definition Rates (prev : option Snapshot) (cur : Snapshot) : RateSample :=
  match prev with
  | None => no_rates cur
  | Some p =>
      let secs := Seconds (When cur - When p) in
      if negb (fltb fzero secs) then no_rates cur
      else
        let d := rate_of secs in
        let g := G cur in let o := G p in
        let bits n old := fmul (f64_of_Z 8) (d n old) in
        mkRates (When cur) g
          (d (RxPkts g) (RxPkts o)) (d (RedirPkts g) (RedirPkts o)) (d (DropPkts g) (DropPkts o))
          (d (L1Hits g) (L1Hits o)) (d (RstPkts g) (RstPkts o))
          (bits (RxBytes g) (RxBytes o)) (bits (RedirBytes g) (RedirBytes o)) (bits (DropBytes g) (DropBytes o))
          (zip_with d (Reasons cur) (Reasons p))
          (vlan_rates d V_Pkts (Vlans p) (Vlans cur)) (vlan_rates d V_Drops (Vlans p) (Vlans cur))
  end.

(** ** Collecting *)

(** The kernel's answers: one value per CPU, or an error. *)
Record StatMaps := mkStatMaps {
  StatsGlobal : option (list statsGlobalValue);
  DropReason : Z -> option (list Z);
  StatsVlan : Z -> option (list vlanStatValue)
}.

Definition add_global (a c : statsGlobalValue) : statsGlobalValue :=
  mkGlobal (u64 (RxPkts a + RxPkts c)) (u64 (RxBytes a + RxBytes c))
    (u64 (RedirPkts a + RedirPkts c)) (u64 (RedirBytes a + RedirBytes c))
    (u64 (DropPkts a + DropPkts c)) (u64 (DropBytes a + DropBytes c))
    (u64 (NonIPPkts a + NonIPPkts c)) (u64 (NonIPBytes a + NonIPBytes c))
    (u64 (NonTCPPkts a + NonTCPPkts c)) (u64 (NonTCPBytes a + NonTCPBytes c))
    (u64 (L1Hits a + L1Hits c)) (u64 (RstPkts a + RstPkts c)) (u64 (RstBytes a + RstBytes c)).

Definition add_vlan (a c : vlanStatValue) : vlanStatValue :=
  mkVlan (u64 (V_Pkts a + V_Pkts c)) (u64 (V_Bytes a + V_Bytes c)) (u64 (V_Drops a + V_Drops c)).

Definition add_reason (a c : Z) : Z := u64 (a + c).

Definition collect_reason (m : StatMaps) (r : Z) : Z :=
  match DropReason m r with None => 0 | Some per => fold_left add_reason per 0 end.

Definition collect_vlan (m : StatMaps) (vlans : gmap Z vlanStatValue) (vid : Z) : gmap Z vlanStatValue :=
  match StatsVlan m vid with
  | None => vlans
  | Some per =>
      let agg := fold_left add_vlan per zero_vlan in
      if (0 <? V_Pkts agg) || (0 <? V_Drops agg) then <[u16 vid := agg]> vlans else vlans
  end.

(** The snapshot, and whether the global counters could be read: the rest is
    not read when they could not. *)
Definition Collect (m : StatMaps) (now : Z) : Snapshot * bool :=
  match StatsGlobal m with
  | None => (mkSnap zero_global (replicate numReasons 0) ∅ now, false)
  | Some perG =>
      (mkSnap (fold_left add_global perG zero_global)
         (map (collect_reason m) (seqZ 0 (Z.of_nat numReasons)))
         (fold_left (collect_vlan m) (seqZ 0 4096) ∅) now, true)
  end.

(** ** Formatting *)

(** The groups after the first [pre] digits. *)
Fixpoint comma_groups (fuel : nat) (s : string) : string :=
  match fuel with
  | O => ""
  | S f => if (3 <? String.length s)%nat then str_take 3 s ++ "," ++ comma_groups f (str_drop 3 s) else s
  end.

Definition comma_digits (s : string) : string :=
  if (String.length s <=? 3)%nat then s
  else
    let pre := (String.length s mod 3)%nat in
    (if (0 <? pre)%nat then str_take pre s ++ (if (pre <? String.length s)%nat then "," else "") else "")
    ++ comma_groups (String.length s) (str_drop pre s).

Definition comma (n : Z) : string := comma_digits (FormatUint n).

Definition f1e3 : f64 := f64_of_Z 1000.
Definition f1e6 : f64 := f64_of_Z 1000000.
Definition f1e9 : f64 := f64_of_Z 1000000000.

(** [v >= x] *)
Definition fgeb (v x : f64) : bool := fltb x v || feqb x v.

Definition humanRate (v : f64) : string :=
  if fgeb v f1e6 then fmt_fixed 2 (fdiv v f1e6) ++ " M"
  else if fgeb v f1e3 then fmt_fixed 1 (fdiv v f1e3) ++ " K"
  else fmt_fixed 0 v.

Definition ratePerSec (delta : Z) (secs : f64) : string :=
  if negb (fltb fzero secs) then "-" else humanRate (fdiv (f64_of_Z delta) secs).

Definition humanBits (bits : f64) : string :=
  if fgeb bits f1e9 then fmt_fixed 2 (fdiv bits f1e9) ++ " Gbit/s"
  else if fgeb bits f1e6 then fmt_fixed 0 (fdiv bits f1e6) ++ " Mbit/s"
  else if fgeb bits f1e3 then fmt_fixed 0 (fdiv bits f1e3) ++ " Kbit/s"
  else fmt_fixed 0 bits ++ " bit/s".

Definition bitrate (bytesDelta : Z) (secs : f64) : string :=
  if negb (fltb fzero secs) then "-" else humanBits (fdiv (fmul (f64_of_Z bytesDelta) (f64_of_Z 8)) secs).

Definition uptime (d : Z) : string :=
  let days := Z.quot (f64_trunc (Hours d)) 24 in
  let h := Z.rem (f64_trunc (Hours d)) 24 in
  let m := Z.rem (f64_trunc (Minutes d)) 60 in
  (if 0 <? days then Itoa days ++ "d " else "") ++ zpad 2 h ++ ":" ++ zpad 2 m.

(** ** The reporter *)

Record Reporter := mkReporter {
  Version : string; StatsDir : string; Ports : string;
  start : Z; prev : option Snapshot;
  baseline : list f64;                     (* average drop rate, per reason *)
  spikeSince : list (option Z)             (* none: the zero time *)
}.

Definition NewReporter (version statsDir ports : string) (now : Z) : Reporter :=
  mkReporter version statsDir ports now None (replicate numReasons fzero) (replicate numReasons None).

(** The constant 0.3 and the constant expression [1 - alpha], rounded to
    float64: 5404319552844595 * 2^-54 and 6305039478318694 * 2^-53. *)
Definition alpha : f64 := S754_finite false 5404319552844595 (-54).
Definition one_minus_alpha : f64 := S754_finite false 6305039478318694 (-53).

(** Delta helpers of the report's rows. *)
Definition prevPkts (p : Snapshot) (name : string) : Z :=
  if String.eqb name "processed" then RxPkts (G p)
  else if String.eqb name "redirected" then RedirPkts (G p)
  else if String.eqb name "dropped" then DropPkts (G p)
  else if String.eqb name "non-TCP fwd" then u64 (NonTCPPkts (G p) + NonIPPkts (G p))
  else 0.

Definition prevBytes (p : Snapshot) (name : string) : Z :=
  if String.eqb name "processed" then RxBytes (G p)
  else if String.eqb name "redirected" then RedirBytes (G p)
  else if String.eqb name "dropped" then DropBytes (G p)
  else if String.eqb name "non-TCP fwd" then u64 (NonTCPBytes (G p) + NonIPBytes (G p))
  else 0.

Definition row_line (name : string) (pkts : Z) (pps bps : string) : string :=
  "  " ++ padr 12 name ++ " " ++ padl 16 (comma pkts) ++ " " ++ padl 10 pps ++ " " ++ padl 14 bps ++ nl.

Definition row (prev : option Snapshot) (secs : f64) (name : string) (pkts bytes : Z) : string :=
  let dp := match prev with Some p => u64 (pkts - prevPkts p name) | None => 0 end in
  let db := match prev with Some p => u64 (bytes - prevBytes p name) | None => 0 end in
  row_line name pkts (ratePerSec dp secs) (bitrate db secs).

Definition l1_row (prev : option Snapshot) (secs : f64) (g : statsGlobalValue) : string :=
  let d := match prev with Some p => u64 (L1Hits g - L1Hits (G p)) | None => 0 end in
  row_line "l1 hits" (L1Hits g) (ratePerSec d secs) "".

Definition counter_rows (prev : option Snapshot) (secs : f64) (g : statsGlobalValue) : string :=
  row prev secs "processed" (RxPkts g) (RxBytes g)
  ++ row prev secs "redirected" (RedirPkts g) (RedirBytes g)
  ++ row prev secs "dropped" (DropPkts g) (DropBytes g)
  ++ row prev secs "non-TCP fwd" (u64 (NonTCPPkts g + NonIPPkts g)) (u64 (NonTCPBytes g + NonIPBytes g))
  ++ l1_row prev secs g
  ++ (if 0 <? RstPkts g then row prev secs "rst replies" (RstPkts g) (RstBytes g) else "").

Section Clock.
(** [Time.Format] in the host's time zone: the date with the time, and the
    time alone. *)
Context (format_stamp format_clock : Z -> string).

(** One reason's detector: its baseline and the start of the spike it is in. *)
Definition spike_step (label : string) (st : f64 * option Z) (delta : Z) (secs : f64) (when : Z)
    : (f64 * option Z) * string :=
  if negb (fltb fzero secs) then (st, "")
  else
    let cur := fdiv (f64_of_Z delta) secs in
    let base := fst st in
    if feqb base fzero then ((cur, snd st), "")
    else if fltb f1e3 cur && fltb (fmul base (f64_of_Z 10)) cur then
      let since := default when (snd st) in
      ((base, Some since),
       "drop spike: " ++ label ++ " " ++ humanRate cur ++ "/s (baseline " ++ humanRate base ++ "/s) since "
       ++ format_clock since)
    else ((fadd (fmul alpha cur) (fmul one_minus_alpha base), None), "").

Definition detectSpike (r : Reporter) (idx : nat) (delta : Z) (secs : f64) (when : Z) : Reporter * string :=
  let '(st, w) := spike_step (default "" (reasonLabels !! idx))
                    (default fzero (baseline r !! idx), default None (spikeSince r !! idx)) delta secs when in
  (mkReporter (Version r) (StatsDir r) (Ports r) (start r) (prev r)
     (<[idx := fst st]> (baseline r)) (<[idx := snd st]> (spikeSince r)), w).

(** The reasons section: text, the last warning, the reporter. *)
Definition reason_step (cur : Snapshot) (secs : f64) (acc : Reporter * string * string) (idx : nat) : Reporter * string * string :=
  let '(r, text, warn) := acc in
  let n := default 0 (Reasons cur !! idx) in
  let d := match prev r with Some p => u64 (n - default 0 (Reasons p !! idx)) | None => 0 end in
  if n =? 0 then acc
  else
    let text := text ++ "  " ++ padr 26 (default "" (reasonLabels !! idx)) ++ " " ++ padl 10 (ratePerSec d secs) ++ "/s" ++ nl in
    let '(r, w) := detectSpike r idx d secs (When cur) in
    (r, text, if String.eqb w "" then warn else w).

Definition vlan_row (prev : option Snapshot) (secs : f64) (vid : Z) (v : vlanStatValue) : string :=
  let '(dpk, ddr, dby) :=
    match prev with
    | None => (0, 0, 0)
    | Some p => match Vlans p !! vid with
                | Some pv => (u64 (V_Pkts v - V_Pkts pv), u64 (V_Drops v - V_Drops pv), u64 (V_Bytes v - V_Bytes pv))
                | None => (V_Pkts v, V_Drops v, V_Bytes v)
                end
    end in
  "  " ++ padr 6 (if vid =? 0 then "none" else Itoa vid) ++ " " ++ padl 12 (ratePerSec dpk secs)
  ++ " " ++ padl 12 (ratePerSec ddr secs) ++ " " ++ padl 14 (bitrate dby secs) ++ nl.

Definition vlan_rows (prev : option Snapshot) (secs : f64) (vlans : gmap Z vlanStatValue) : string :=
  String.concat "" (map (fun vid => vlan_row prev secs vid (default zero_vlan (vlans !! vid)))
                      (merge_sort Z.le (map_to_list vlans).*1)).

Definition Copyright : string := "(C) 2026 Marek Wajdzik <marek@jest.pro> — GPL-2.0".

Definition occupancy_line (r : Reporter) (occ : option (Z * Z)) : string :=
  let '(live, max) := default (0, 0) occ in
  let occPct := if 0 <? max then fdiv (fmul (f64_of_Z 100) (f64_of_Z live)) (f64_of_Z max) else fzero in
  "ports: " ++ Ports r ++ "   flows: " ++ comma (u64 live) ++ " / " ++ comma (u64 max) ++ " (" ++ fmt_fixed 1 occPct ++ "%)" ++ nl ++ nl.

(** [render]: the report, the warning and the reporter; [now] is the time it
    runs at and [occ] what the occupancy callback answers. *)
Definition render (r : Reporter) (cur : Snapshot) (mode : string) (now : Z) (occ : option (Z * Z)) : string * string * Reporter :=
  let secs := match prev r with Some p => Seconds (When cur - When p) | None => fzero end in
  let head :=
    "xdpfilter " ++ Version r ++ "  mode: " ++ ToUpper mode ++ "  up " ++ uptime (now - start r) ++ "  "
    ++ format_stamp (When cur) ++ nl ++ occupancy_line r occ
    ++ padr 14 "" ++ " " ++ padl 16 "packets" ++ " " ++ padl 10 "pps" ++ " " ++ padl 14 "bitrate" ++ nl in
  let label := if String.eqb mode "monitor" then "would-drop by reason (monitor):" else "drops by reason (this interval):" in
  let '(r', reasons, warnLine) := fold_left (reason_step cur secs) (seq 0 numReasons) (r, "", "") in
  (head ++ counter_rows (prev r) secs (G cur) ++ nl ++ label ++ nl ++ reasons
   ++ nl ++ "per-VLAN (active):" ++ nl
   ++ "  " ++ padr 6 "VID" ++ " " ++ padl 12 "proc pps" ++ " " ++ padl 12 "drop pps" ++ " " ++ padl 14 "bitrate" ++ nl
   ++ vlan_rows (prev r) secs (Vlans cur)
   ++ (if String.eqb warnLine "" then "" else "⚠ " ++ warnLine ++ nl)
   ++ nl ++ "xdpfilter " ++ Version r ++ " — " ++ Copyright ++ nl,
   warnLine, r').

Definition set_prev (r : Reporter) (cur : Snapshot) : Reporter :=
  mkReporter (Version r) (StatsDir r) (Ports r) (start r) (Some cur) (baseline r) (spikeSince r).

(** [Tick]: the reporter, the warning, the states of the files, success. *)
Definition Tick (e : Env) (r : Reporter) (m : StatMaps) (mode : string) (now : Z) (occ : option (Z * Z))
    (fs : gmap string string) : Reporter * string * list (gmap string string) * bool :=
  match Collect m now with
  | (_, false) => (r, "", [fs], false)
  | (cur, true) =>
      let '(report, warn, r) := render r cur mode now occ in
      let r := set_prev r cur in
      if negb (env_mkdir e) then (r, warn, [fs], false)
      else let '(states, ok) := publish e (PathJoin [StatsDir r; "stats.txt"]) report fs in (r, warn, states, ok)
  end.

(** [xdpfilter status]: one report without a previous reading; a failed
    reading shows zeros. *)
Definition mustCollect (m : StatMaps) (now : Z) : Snapshot := fst (Collect m now).

Definition PrintStatus (m : StatMaps) (mode version ports : string) (now : Z) (occ : option (Z * Z)) : string :=
  let '(report, _, _) := render (NewReporter version "" ports now) (mustCollect m now) mode now occ in report.
End Clock.
