(* ===== verification/StatsSpec.v ===== *)
(** * StatsSpec: what the statistics show

    Collected counters are the per-CPU sums, rates never underflow, the
    report and the dashboard agree, thousands are grouped, and a spike
    warning names the start of the spike it is in. *)

From Corelib Require Import SpecFloat.
From Stdlib Require Import ZArith Lia Bool Ascii String.
From stdpp Require Import prelude strings list gmap sorting.
From S2P Require Import Prelude GoText TextLemmas GoFloat GoFmt Config ConfigFile Resources Stats.

#[local] Set Warnings "-clear-no-such-hyp".
Local Open Scope string_scope.
Local Open Scope Z_scope.

(** ** Collected sums *)

Definition fields : list (statsGlobalValue -> Z) :=
  [RxPkts; RxBytes; RedirPkts; RedirBytes; DropPkts; DropBytes; NonIPPkts; NonIPBytes; NonTCPPkts; NonTCPBytes;
   L1Hits; RstPkts; RstBytes].

Definition sumZ {A} (f : A -> Z) (l : list A) : Z := foldr (fun c s => f c + s) 0 l.

Definition active (v : vlanStatValue) : bool := (0 <? V_Pkts v) || (0 <? V_Drops v).

Definition vlan_sum (per : list vlanStatValue) : vlanStatValue :=
  mkVlan (u64 (sumZ V_Pkts per)) (u64 (sumZ V_Bytes per)) (u64 (sumZ V_Drops per)).

(** Adding up with a wrap at each step is wrapping the sum. *)
Lemma fold_wrap {A} (f : A -> Z) (add : A -> A -> A) l a :
  (forall x y, f (add x y) = u64 (f x + f y)) -> f a = u64 (f a) ->
  f (fold_left add l a) = u64 (f a + sumZ f l).
Proof.
  intros Hadd. revert a. induction l as [|x l IH]; intros a Ha; simpl.
  - now rewrite Z.add_0_r.
  - rewrite IH, Hadd by (rewrite Hadd; unfold u64; now rewrite Z.mod_mod). unfold u64.
    rewrite Zplus_mod_idemp_l. f_equal. lia.
Qed.

Lemma fold_wrap0 {A} (f : A -> Z) (add : A -> A -> A) l a :
  (forall x y, f (add x y) = u64 (f x + f y)) -> f a = 0 -> f (fold_left add l a) = u64 (sumZ f l).
Proof. intros Hadd H0. rewrite fold_wrap; rewrite ?H0; auto. Qed.

Lemma fold_global (f : statsGlobalValue -> Z) l : f zero_global = 0 ->
  (forall x y, f (add_global x y) = u64 (f x + f y)) -> f (fold_left add_global l zero_global) = u64 (sumZ f l).
Proof. intros. now apply fold_wrap0. Qed.

Lemma fold_vlan l : fold_left add_vlan l zero_vlan = vlan_sum l.
Proof.
  unfold vlan_sum.
  pose proof (fold_wrap0 V_Pkts add_vlan l zero_vlan). pose proof (fold_wrap0 V_Bytes add_vlan l zero_vlan).
  pose proof (fold_wrap0 V_Drops add_vlan l zero_vlan).
  destruct (fold_left _ _ _); simpl in *. f_equal; auto.
Qed.

Lemma fold_reason l : fold_left add_reason l 0 = u64 (sumZ id l).
Proof. now apply (fold_wrap0 (A:=Z) id add_reason l 0). Qed.

Lemma collect_vlan_lookup m vids vlans vid : (forall v, v ∈ vids -> 0 <= v < 4096) -> NoDup vids ->
  (vid ∈ vids -> vlans !! vid = None) ->
  fold_left (collect_vlan m) vids vlans !! vid =
    if bool_decide (vid ∈ vids)
    then match StatsVlan m vid with Some per => if active (vlan_sum per) then Some (vlan_sum per) else None | None => None end
    else vlans !! vid.
Proof.
  revert vlans. induction vids as [|v vids IH]; intros vlans Hr Hnd Hn; [now rewrite bool_decide_eq_false_2 by set_solver|].
  apply NoDup_cons in Hnd as [Hv Hnd]. simpl.
  assert (Hv4: 0 <= v < 4096) by (apply Hr; set_solver).
  assert (Hu: u16 v = v) by (apply u16_small; unfold is_u16; lia).
  assert (Hstep: forall w, w <> v -> collect_vlan m vlans v !! w = vlans !! w).
  { intros w Hw. unfold collect_vlan. rewrite Hu. destruct (StatsVlan m v); [|done]. cbv zeta. destruct (_ || _); [|done]. now rewrite lookup_insert_ne by congruence. }
  assert (Hr': forall w, w ∈ vids -> 0 <= w < 4096) by (intros; apply Hr; now right).
  rewrite IH; [| exact Hr' | exact Hnd |].
  - destruct (decide (vid = v)) as [->|Hne].
    + rewrite bool_decide_eq_false_2, (bool_decide_eq_true_2 (v ∈ v :: vids)) by set_solver.
      unfold collect_vlan. rewrite Hu. destruct (StatsVlan m v); [|apply Hn; set_solver].
      rewrite fold_vlan. fold (active (vlan_sum l)). destruct (active _); [apply lookup_insert_eq | apply Hn; set_solver].
    + rewrite Hstep by auto. rewrite (bool_decide_ext (vid ∈ v :: vids) (vid ∈ vids)) by set_solver. done.
  - intros Hin. rewrite Hstep by (intros ->; done). apply Hn. set_solver.
Qed.

(** A snapshot is the sum over the CPUs: each of the thirteen global
    counters, each drop reason (none when it cannot be read) and each VLAN
    hold the sum of the per-CPU values, wrapped to 64 bits once, and a VLAN
    is listed exactly when it has packets or drops. *)
Theorem collect_sums m now s : Collect m now = (s, true) ->
  exists perG, StatsGlobal m = Some perG /\
  Forall (fun f => f (G s) = u64 (sumZ f perG))
    fields /\
  (forall r, (r < numReasons)%nat -> Reasons s !! r = Some (u64 (sumZ id (default [] (DropReason m (Z.of_nat r)))))) /\
  (forall vid v, Vlans s !! vid = Some v <->
     0 <= vid < 4096 /\ exists per, StatsVlan m vid = Some per /\ v = vlan_sum per /\ active v = true).
Proof.
  unfold Collect. destruct (StatsGlobal m) as [perG|]; [|intros [_ [=]]%pair_equal_spec]. intros [<- _]%pair_equal_spec.
  exists perG. split_and!; cbn [G Reasons Vlans].
  - reflexivity.
  - unfold fields. repeat (apply Forall_cons; split); [apply fold_global; reflexivity .. | apply Forall_nil, I].
  - intros r Hr. rewrite list_lookup_fmap, lookup_seqZ_lt by lia. simpl. unfold collect_reason. f_equal.
    destruct (DropReason m _); [apply fold_reason | done].
  - intros vid v. rewrite collect_vlan_lookup; [| intros ? ?%elem_of_seqZ; lia | apply NoDup_seqZ | intros; apply lookup_empty].
    case_bool_decide as E; rewrite elem_of_seqZ in E; [|rewrite lookup_empty; split; [done | intros (? & _); lia]].
    split.
    + destruct (StatsVlan m vid) as [per|]; [|done]. destruct (active (vlan_sum per)) eqn:Ea; [|done]. intros [= <-].
      split; [lia | exists per; auto].
    + intros (_ & per & -> & -> & ->). done.
Qed.

(** ** Floats: the sign of a quotient *)

Definition nonneg (x : f64) : Prop :=
  match x with S754_zero s | S754_infinity s | S754_finite s _ _ => s = false | S754_nan => False end.

Lemma shr_1_nonneg r : 0 <= shr_m r -> 0 <= shr_m (shr_1 r).
Proof. destruct r as [[|[]|[]] ? ?]; simpl; lia. Qed.

Lemma shr_iter_nonneg p r : 0 <= shr_m r -> 0 <= shr_m (SpecFloat.iter_pos shr_1 p r).
Proof. revert r. induction p; simpl; intros; auto using shr_1_nonneg. Qed.

Lemma shr_nonneg r e n : 0 <= shr_m r -> 0 <= shr_m (fst (shr r e n)).
Proof. unfold shr. destruct n; simpl; auto using shr_iter_nonneg. Qed.

Lemma shr_fexp_nonneg prec emax m e l : 0 <= m -> 0 <= shr_m (fst (shr_fexp prec emax m e l)).
Proof. intros. apply shr_nonneg. destruct l as [|[]]; simpl; auto. Qed.

Lemma round_even_nonneg m l : 0 <= m -> 0 <= round_nearest_even m l.
Proof. unfold round_nearest_even. repeat case_match; lia. Qed.

Lemma round_aux_nonneg prec emax m e l : 0 <= m -> nonneg (binary_round_aux prec emax false m e l).
Proof.
  intros Hm. unfold binary_round_aux. destruct (shr_fexp prec emax m e l) as [mrs e'] eqn:E1.
  pose proof (shr_fexp_nonneg prec emax m e l Hm) as H1. rewrite E1 in H1. simpl in H1.
  destruct (shr_fexp prec emax (round_nearest_even _ _) _ _) as [mrs' e''] eqn:E2.
  pose proof (shr_fexp_nonneg prec emax (round_nearest_even (shr_m mrs) (loc_of_shr_record mrs)) e' loc_Exact) as H2.
  rewrite E2 in H2. specialize (H2 (round_even_nonneg _ _ H1)). simpl in H2.
  destruct (shr_m mrs'); simpl; [done | case_match; done | lia].
Qed.

Lemma f64_of_Z_nonneg z : 0 <= z -> nonneg (f64_of_Z z).
Proof.
  intros. unfold f64_of_Z, binary_normalize. destruct z; [done| |lia].
  unfold binary_round. destruct (shl_align _ _ _). now apply round_aux_nonneg.
Qed.

(** A 64-bit count is a finite float. *)
Lemma digits2_bound p k : 0 <= k -> Zpos p < 2 ^ k -> Zpos (digits2_pos p) <= k.
Proof.
  revert k. induction p as [p IH|p IH|]; intros k Hk Hp; simpl.
  1,2: assert (0 < k) by (destruct (Z.eq_dec k 0) as [->|]; [simpl in Hp; lia | lia]);
    replace k with (Z.succ (k - 1)) in Hp by lia; rewrite Z.pow_succ_r in Hp by lia;
    specialize (IH (k - 1)); lia.
  destruct (Z.eq_dec k 0) as [->|]; [simpl in Hp; lia | lia].
Qed.

Lemma Zdigits2_bound m k : 0 <= m < 2 ^ k -> 0 <= k -> Zdigits2 m <= k.
Proof. destruct m; simpl; intros; try lia. now apply digits2_bound. Qed.

Lemma shr_1_le r : 0 <= shr_m r -> shr_m (shr_1 r) <= shr_m r.
Proof. destruct r as [[|[]|[]] ? ?]; simpl; lia. Qed.

Lemma shr_iter_le p r : 0 <= shr_m r -> shr_m (SpecFloat.iter_pos shr_1 p r) <= shr_m r.
Proof.
  revert r. induction p as [p IH|p IH|]; intros r Hr; simpl; auto using shr_1_le.
  - etransitivity; [apply IH, shr_iter_nonneg, shr_1_nonneg, Hr|].
    etransitivity; [apply IH, shr_1_nonneg, Hr | now apply shr_1_le].
  - etransitivity; [apply IH, shr_iter_nonneg, Hr | now apply IH].
Qed.

Lemma shr_fexp_bound m e l k : 0 <= m < 2 ^ k -> 0 <= k -> -1074 <= e ->
  shr_m (fst (shr_fexp 53 1024 m e l)) <= m /\ snd (shr_fexp 53 1024 m e l) <= Z.max e (Z.max (k + e - 53) (-1074)).
Proof.
  intros Hm Hk He. unfold shr_fexp, shr. pose proof (Zdigits2_bound m k Hm Hk) as Hd.
  assert (Hl: shr_m (shr_record_of_loc m l) = m) by now destruct l as [|[]].
  unfold fexp, emin. destruct (_ - e) eqn:E; simpl; rewrite ?Hl; [lia | | lia].
  split; [|lia]. rewrite <- Hl at 2. apply shr_iter_le. lia.
Qed.

Lemma round_even_le m l : round_nearest_even m l <= m + 1.
Proof. unfold round_nearest_even. repeat case_match; lia. Qed.

Lemma round_aux_finite m e l : 0 <= m < 2 ^ 65 -> -1074 <= e <= 0 -> IsInf (binary_round_aux 53 1024 false m e l) = false.
Proof.
  intros Hm He. unfold binary_round_aux.
  destruct (shr_fexp_bound m e l 65) as [Hm1 He1]; [lia..|].
  pose proof (shr_fexp_nonneg 53 1024 m e l) as Hn1.
  destruct (shr_fexp 53 1024 m e l) as [mrs e'] eqn:E1. simpl in *.
  set (m2 := round_nearest_even _ _).
  assert (Hm2: 0 <= m2 <= m + 1) by (split; [apply round_even_nonneg; lia | etransitivity; [apply round_even_le | lia]]).
  assert (-1074 <= e').
  { unfold shr_fexp, shr in E1. destruct (fexp _ _ _ - e) eqn:Ee; injection E1 as <- <-; lia. }
  destruct (shr_fexp_bound m2 e' loc_Exact 66) as [_ He2]; [lia..|].
  destruct (shr_fexp 53 1024 m2 e' loc_Exact) as [mrs' e'']. simpl in *.
  destruct (shr_m mrs'); simpl; try done. rewrite (proj2 (Z.leb_le _ _)); [done | lia].
Qed.

Lemma digits2_upper p : Zpos p < 2 ^ Zpos (digits2_pos p).
Proof.
  induction p as [p IH|p IH|]; simpl digits2_pos; rewrite ?Pos2Z.inj_succ, ?Z.pow_succ_r by lia; lia.
Qed.

Lemma iter_xO p d : Zpos (Pos.iter xO p d) = Zpos p * 2 ^ Zpos d.
Proof.
  induction d as [|d IH] using Pos.peano_ind; [simpl; lia|].
  rewrite Pos.iter_succ, Pos2Z.inj_succ, Z.pow_succ_r, Pos2Z.inj_xO by lia. lia.
Qed.

Lemma f64_of_Z_finite z : is_u64 z -> IsInf (f64_of_Z z) = false.
Proof.
  intros Hz. unfold f64_of_Z, binary_normalize. destruct z as [|p|p]; [done| |unfold is_u64 in Hz; lia].
  unfold is_u64 in Hz. unfold binary_round, shl_align. rewrite Z.add_0_r, Z.sub_0_r.
  pose proof (digits2_bound p 64) as Hd. unfold fexp, emin.
  destruct (Z.max _ _) as [|d|d] eqn:E; try (apply round_aux_finite; lia).
  apply round_aux_finite; [|lia]. pose proof (digits2_upper p). rewrite iter_xO. split; [lia|].
  assert (Zpos p * 2 ^ Zpos d < 2 ^ Zpos (digits2_pos p) * 2 ^ Zpos d) as Hlt.
  { apply Z.mul_lt_mono_pos_r; [apply Z.pow_pos_nonneg; lia | done]. }
  etransitivity; [exact Hlt|]. rewrite <- Z.pow_add_r by lia. apply Z.pow_lt_mono_r; lia.
Qed.

Lemma fdiv_nonneg x y : nonneg x -> IsInf x = false \/ IsInf y = false -> nonneg y -> fltb fzero y = true ->
  nonneg (fdiv x y).
Proof.
  destruct x as [sx|sx| |sx mx ex], y as [sy|sy| |sy my ey]; simpl; try done; intros -> Hinf -> Hy; try done;
    try (destruct Hinf; done).
  cbv [fdiv SFdiv]. cbn [xorb]. unfold SFdiv_core_binary.
  set (e' := Z.min _ _). set (s := _ - e'). set (m' := match s with Zpos _ => _ | Z0 => _ | Zneg _ => _ end).
  assert (Hm: 0 <= m') by (unfold m'; destruct s; [lia | apply Z.shiftl_nonneg; lia | lia]).
  pose proof (Z_div_mod m' (Zpos my) eq_refl) as Hd. destruct (Z.div_eucl m' (Zpos my)) as [q r].
  apply round_aux_nonneg. destruct Hd as [Hq Hr]. nia.
Qed.

(** ** Rates *)

(** Membership in a list written out. *)
Ltac in_list := unfold fields; repeat first [left | right].

Definition snap_ok (s : Snapshot) : Prop :=
  Forall (fun f => is_u64 (f (G s)))
    fields /\
  Forall is_u64 (Reasons s) /\ length (Reasons s) = numReasons /\
  map_Forall (fun _ v => is_u64 (V_Pkts v) /\ is_u64 (V_Bytes v) /\ is_u64 (V_Drops v)) (Vlans s).

Lemma u64_sub n old : is_u64 n -> is_u64 old -> old <= n -> u64 (n - old) = n - old.
Proof. intros. apply u64_small. unfold is_u64 in *. lia. Qed.

Lemma rate_of_nonneg secs n old : nonneg secs -> fltb fzero secs = true -> is_u64 n -> is_u64 old -> nonneg (rate_of secs n old).
Proof.
  intros Hs Hp Hn Ho. unfold rate_of. case_ifs; [done|].
  assert (is_u64 (u64 (n - old))) by (unfold u64, is_u64; apply Z.mod_pos_bound; lia).
  apply fdiv_nonneg; auto using f64_of_Z_finite. apply f64_of_Z_nonneg. unfold is_u64 in *; lia.
Qed.

Lemma fmul_nonneg x y : nonneg x -> nonneg y -> IsInf x = false -> fltb fzero x = true -> nonneg (fmul x y).
Proof.
  destruct x as [sx|sx| |sx mx ex], y as [sy|sy| |sy my ey]; simpl; try done; intros -> -> _ _; try done.
  cbv [fmul SFmul]. cbn [xorb]. apply round_aux_nonneg. lia.
Qed.

Lemma positive_nonneg x : fltb fzero x = true -> nonneg x.
Proof. now destruct x as [[]|[]| |[] ? ?]. Qed.

Lemma rate_of_exact secs n old : is_u64 n -> is_u64 old ->
  rate_of secs n old = if n <? old then fzero else fdiv (f64_of_Z (n - old)) secs.
Proof. intros. unfold rate_of. case_ifs; [done|]. rewrite u64_sub; auto. lia. Qed.

Lemma snap_ok_field s f : snap_ok s ->
  f ∈ fields -> is_u64 (f (G s)).
Proof. intros (Hg & _) Hf. rewrite Forall_forall in Hg. auto. Qed.

Lemma snap_ok_vlan s vid (proj : vlanStatValue -> Z) : snap_ok s -> proj ∈ [V_Pkts; V_Bytes; V_Drops] ->
  is_u64 (proj (default zero_vlan (Vlans s !! vid))).
Proof.
  intros (_ & _ & _ & Hv) Hp. destruct (Vlans s !! vid) as [v|] eqn:E; simpl.
  - destruct (Hv vid v E) as (H1 & H2 & H3). rewrite !elem_of_cons, elem_of_nil in Hp.
    destruct Hp as [->|[->|[->|[]]]]; auto.
  - rewrite !elem_of_cons, elem_of_nil in Hp. destruct Hp as [->|[->|[->|[]]]]; unfold is_u64; simpl; lia.
Qed.

Lemma vlan_rates_lookup d proj p c vid x : vlan_rates d proj p c !! vid = Some x <->
  exists v, c !! vid = Some v /\ x = d (proj v) (proj (default zero_vlan (p !! vid))).
Proof.
  unfold vlan_rates. rewrite map_lookup_imap. destruct (c !! vid) as [v|]; simpl.
  - split; [intros [= <-]; eauto | intros (? & [= <-] & ->); auto].
  - split; [done | intros (? & ? & _); done].
Qed.

Definition rates_list (s : RateSample) : list f64 :=
  ([ProcessedPPS s; RedirectedPPS s; DroppedPPS s; L1PPS s; RstPPS s; ProcessedBPS s; RedirectedBPS s; DroppedBPS s]
   ++ ReasonPPS s ++ (map_to_list (VLANPPS s)).*2 ++ (map_to_list (VLANDropPPS s)).*2)%list.

(** C34. A counter that goes down is never read as a huge rate: every rate of
    a sample is a number and not negative, and over a positive interval each
    packet rate is the difference of the two readings of its own counter
    divided by the interval, each bit rate eight times that of its byte counter,
    and zero where the counter went down; VLANs not seen now have none. *)
Theorem rates_never_underflow p cur : snap_ok p -> snap_ok cur ->
  let s := Rates (Some p) cur in
  let secs := Seconds (When cur - When p) in
  let exact n old := if n <? old then fzero else fdiv (f64_of_Z (n - old)) secs in
  Forall nonneg (rates_list s) /\
  (fltb fzero secs = true ->
    Forall (fun '(x, f) => x = exact (f (G cur)) (f (G p)))
      [(ProcessedPPS s, RxPkts); (RedirectedPPS s, RedirPkts); (DroppedPPS s, DropPkts); (L1PPS s, L1Hits); (RstPPS s, RstPkts)] /\
    Forall (fun '(x, f) => x = fmul (f64_of_Z 8) (exact (f (G cur)) (f (G p))))
      [(ProcessedBPS s, RxBytes); (RedirectedBPS s, RedirBytes); (DroppedBPS s, DropBytes)] /\
    (forall i n old, Reasons cur !! i = Some n -> Reasons p !! i = Some old -> ReasonPPS s !! i = Some (exact n old)) /\
    (forall vid, VLANPPS s !! vid = (v ← Vlans cur !! vid; Some (exact (V_Pkts v) (V_Pkts (default zero_vlan (Vlans p !! vid))))) /\
                 VLANDropPPS s !! vid = (v ← Vlans cur !! vid; Some (exact (V_Drops v) (V_Drops (default zero_vlan (Vlans p !! vid))))))).
Proof.
  intros Hp Hc s secs exact.
  assert (Hex: forall n old, is_u64 n -> is_u64 old -> rate_of secs n old = exact n old) by (intros; now apply rate_of_exact).
  unfold s, Rates. fold secs. destruct (fltb fzero secs) eqn:Hpos; simpl negb; cbv iota; cycle 1.
  { split; [|done]. unfold rates_list, no_rates; simpl. rewrite map_to_list_empty. now repeat constructor. }
  assert (Hnn: forall n old, is_u64 n -> is_u64 old -> nonneg (rate_of secs n old)).
  { intros. apply rate_of_nonneg; auto using positive_nonneg. }
  assert (Hf: forall f, f ∈ fields -> is_u64 (f (G cur)) /\ is_u64 (f (G p))) by (intros f Hin; split; eapply snap_ok_field; eauto).
  assert (Hbits: forall x, nonneg x -> nonneg (fmul (f64_of_Z 8) x)) by (intros; now apply fmul_nonneg).
  pose proof Hc as (_ & Hrc & _ & _). pose proof Hp as (_ & Hrp & _ & _).
  assert (Hv: forall (proj : vlanStatValue -> Z) vid v, proj ∈ [V_Pkts; V_Bytes; V_Drops] -> Vlans cur !! vid = Some v ->
            is_u64 (proj v) /\ is_u64 (proj (default zero_vlan (Vlans p !! vid)))).
  { intros proj vid v Hin Hv. split; [|now apply snap_ok_vlan]. pose proof (snap_ok_vlan cur vid proj Hc Hin) as H. now rewrite Hv in H. }
  split; [|intros _; split_and!].
  - unfold rates_list. cbn [ProcessedPPS RedirectedPPS DroppedPPS L1PPS RstPPS ProcessedBPS RedirectedBPS DroppedBPS ReasonPPS VLANPPS VLANDropPPS].
    rewrite !Forall_app. split_and!.
    + do 5 (apply Forall_cons; split; [apply Hnn; apply Hf; in_list|]).
      do 3 (apply Forall_cons; split; [apply Hbits, Hnn; apply Hf; in_list|]). apply Forall_nil, I.
    + rewrite Forall_forall in Hrc, Hrp. apply Forall_forall. intros x (a & b & -> & Ha & Hb)%elem_of_zip_with. auto.
    + rewrite Forall_fmap, Forall_forall. intros [vid x] Hx%elem_of_map_to_list. apply vlan_rates_lookup in Hx as (v & Hx & ->).
      apply Hnn; eapply (Hv V_Pkts); eauto; in_list.
    + rewrite Forall_fmap, Forall_forall. intros [vid x] Hx%elem_of_map_to_list. apply vlan_rates_lookup in Hx as (v & Hx & ->).
      apply Hnn; eapply (Hv V_Drops); eauto; in_list.
  - repeat (apply Forall_cons; split); [apply Hex; apply Hf; in_list .. | apply Forall_nil, I].
  - repeat (apply Forall_cons; split); [cbv beta; rewrite <- Hex by (apply Hf; in_list); reflexivity .. | apply Forall_nil, I].
  - intros i n old Hn Ho. cbn [ReasonPPS]. rewrite lookup_zip_with, Hn, Ho. simpl. f_equal.
    apply Hex; [exact (Forall_lookup_1 _ _ _ _ Hrc Hn) | exact (Forall_lookup_1 _ _ _ _ Hrp Ho)].
  - intros vid. cbn [VLANPPS VLANDropPPS]. unfold vlan_rates. rewrite !map_lookup_imap. destruct (Vlans cur !! vid) as [v|] eqn:Hl; [|done].
    cbn [mbind option_bind]. split; f_equal; apply Hex; [eapply (Hv V_Pkts) | eapply (Hv V_Pkts) | eapply (Hv V_Drops) | eapply (Hv V_Drops)]; eauto; in_list.
Qed.

(** ** Thousands *)

(** Groups of three digits. *)
Definition threes (l : list string) : Prop := Forall (fun g => String.length g = 3%nat) l.

Lemma comma_groups_spec fuel s k : String.length s = (3 * S k)%nat -> (S k <= fuel)%nat ->
  exists l, l <> [] /\ comma_groups fuel s = Join l "," /\ String.concat "" l = s /\ threes l.
Proof.
  revert s k. induction fuel as [|fuel IH]; intros s k Hl Hf; [lia|]. cbn [comma_groups].
  destruct (3 <? String.length s)%nat eqn:E; [apply Nat.ltb_lt in E | apply Nat.ltb_ge in E].
  - destruct k as [|k]; [lia|].
    destruct (IH (str_drop 3 s) k) as (l & Hne & -> & Hc & H3); [rewrite str_drop_length; lia | lia|].
    exists (str_take 3 s :: l). destruct l as [|g l]; [done|]. split_and!; auto.
    + rewrite concat_cons, Hc. apply str_take_drop.
    + constructor; [apply str_take_length; lia | done].
  - exists [s]. split_and!; [done | done | done | constructor; [lia | constructor]].
Qed.

Lemma comma_digits_spec s : (0 < String.length s)%nat ->
  exists g l, comma_digits s = Join (g :: l) "," /\ String.concat "" (g :: l) = s /\
    (1 <= String.length g <= 3)%nat /\ threes l.
Proof.
  intros Hs. unfold comma_digits. destruct (String.length s <=? 3)%nat eqn:E; [apply Nat.leb_le in E | apply Nat.leb_gt in E].
  { exists s, []. split_and!; [done | done | lia | lia | constructor]. }
  pose proof (Nat.div_mod_eq (String.length s) 3) as Hd. pose proof (Nat.mod_upper_bound (String.length s) 3 ltac:(lia)) as Hm.
  set (pre := (String.length s mod 3)%nat) in *. set (k := (String.length s / 3)%nat) in *.
  destruct (comma_groups_spec (String.length s) (str_drop pre s) (k - 1)) as (l & Hne & -> & Hc & H3);
    [rewrite str_drop_length; lia | lia|].
  destruct (0 <? pre)%nat eqn:Ep; [apply Nat.ltb_lt in Ep | apply Nat.ltb_ge in Ep].
  - rewrite (proj2 (Nat.ltb_lt _ _)) by lia. exists (str_take pre s), l. destruct l as [|g l]; [done|]. split_and!; auto.
    + cbn [Join]. now rewrite !str_app_assoc.
    + rewrite concat_cons, Hc. apply str_take_drop.
    + rewrite str_take_length; lia.
    + rewrite str_take_length; lia.
  - assert (Hp: pre = 0%nat) by lia. rewrite Hp in *. destruct l as [|g l]; [done|]. exists g, l.
    apply Forall_cons in H3 as [Hg H3]. split_and!; auto; lia.
Qed.

Lemma FormatUint_length_pos n : (0 < String.length (FormatUint n))%nat.
Proof.
  assert (H: forall fuel m acc, (0 < String.length acc)%nat -> (0 < String.length (format_fuel fuel m acc))%nat).
  { induction fuel as [|fuel IH]; intros m acc Ha; simpl; auto. case_ifs; simpl; [lia | apply IH; simpl; lia]. }
  unfold FormatUint. change (format_fuel 20 n "") with (if n <? 10 then String (digit_char (n mod 10)) "" else format_fuel 19 (n / 10) (String (digit_char (n mod 10)) "")).
  destruct (n <? 10); [simpl; lia | apply H; simpl; lia].
Qed.

(** Thousands are grouped: the printed counter is its decimal digits cut
    into a first group of one to three digits and groups of exactly three,
    joined by commas, none dropped and none added. *)
Theorem comma_grouping n : exists g l,
  comma n = Join (g :: l) "," /\ String.concat "" (g :: l) = FormatUint n /\
  (1 <= String.length g <= 3)%nat /\ threes l.
Proof. apply comma_digits_spec, FormatUint_length_pos. Qed.

(** ** The report and the dashboard *)

(** What the report prints for a counter of the dashboard's sample. *)
Definition report_row (name : string) (pkts : Z) (pps : f64) (bps : string) : string :=
  row_line name pkts (humanRate pps) bps.

Section Report.
Context (format_stamp format_clock : Z -> string).

(** The report and the dashboard show the same packet rates: for two
    readings in order whose counters did not go down, the report has, in
    this order, the rows of the processed, redirected, dropped and cached
    packets with the rates of the dashboard's sample. *)
Theorem report_agrees_dashboard r p cur mode now occ :
  prev r = Some p -> snap_ok p -> snap_ok cur -> fltb fzero (Seconds (When cur - When p)) = true ->
  (forall f, f ∈ fields -> f (G p) <= f (G cur)) ->
  let s := Rates (Some p) cur in
  exists head b1 b2 b3 mid tail,
    fst (fst (render format_stamp format_clock r cur mode now occ)) =
      head ++ report_row "processed" (RxPkts (G cur)) (ProcessedPPS s) b1
           ++ report_row "redirected" (RedirPkts (G cur)) (RedirectedPPS s) b2
           ++ report_row "dropped" (DropPkts (G cur)) (DroppedPPS s) b3
           ++ mid ++ report_row "l1 hits" (L1Hits (G cur)) (L1PPS s) "" ++ tail.
Proof.
  intros Hprev Hp Hc Hpos Hmono s. set (secs := Seconds (When cur - When p)) in *.
  assert (Hrow: forall f, f ∈ fields -> ratePerSec (u64 (f (G cur) - f (G p))) secs = humanRate (rate_of secs (f (G cur)) (f (G p)))).
  { intros f Hin. pose proof (Hmono f Hin). unfold ratePerSec, rate_of. rewrite Hpos.
    rewrite (proj2 (Z.ltb_ge _ _)) by done. done. }
  unfold s, Rates. fold secs. rewrite Hpos. simpl negb. cbv iota. cbn [ProcessedPPS RedirectedPPS DroppedPPS L1PPS].
  unfold render. rewrite Hprev. fold secs. destruct (fold_left _ _ _) as [[r' reasons] warn]. cbn [fst].
  match goal with |- context [?h ++ counter_rows ?a ?b ?c ++ ?rest] => exists h; generalize rest; generalize h end.
  intros h rest. unfold counter_rows, row, l1_row, report_row, prevPkts. simpl String.eqb. cbv iota.
  rewrite !Hrow by in_list.
  match goal with |- exists b1 b2 b3 mid tail, h ++ (row_line _ _ _ ?x1 ++ row_line _ _ _ ?x2 ++ row_line _ _ _ ?x3 ++ ?m ++ _ ++ ?t) ++ _ = _ =>
    exists x1, x2, x3, m, (t ++ rest) end.
  now rewrite !str_app_assoc.
Qed.
End Report.

(** ** Spikes *)

Section Spikes.
Context (format_clock : Z -> string) (label : string).

Record sample := mkSample { s_delta : Z; s_secs : f64; s_when : Z }.

Definition step (st : f64 * option Z) (x : sample) : (f64 * option Z) * string :=
  spike_step format_clock label st (s_delta x) (s_secs x) (s_when x).

Definition spike_run (st : f64 * option Z) (l : list sample) : f64 * option Z := fold_left (fun st x => fst (step st x)) l st.

Definition counts (x : sample) : bool := fltb fzero (s_secs x).

(** Above a thousand a second and ten times the baseline. *)
Definition spiking (base : f64) (x : sample) : bool :=
  let cur := fdiv (f64_of_Z (s_delta x)) (s_secs x) in fltb f1e3 cur && fltb (fmul base (f64_of_Z 10)) cur.

(** The samples [x :: post] are one spike over [base], begun at [x]. *)
Definition one_spike (base : f64) (x : sample) (post : list sample) : Prop :=
  counts x = true /\ Forall (fun y => counts y = true -> spiking base y = true) (x :: post).

Definition spike_inv (l : list sample) (st : f64 * option Z) : Prop :=
  match snd st with
  | None => True
  | Some t => feqb (fst st) fzero = false /\
      exists pre x post, l = (pre ++ x :: post)%list /\ s_when x = t /\ snd (spike_run (fzero, None) pre) = None /\
        fst (spike_run (fzero, None) pre) = fst st /\ one_spike (fst st) x post
  end.

Lemma spike_step_inv l st y : st = spike_run (fzero, None) l -> spike_inv l st -> spike_inv (l ++ [y]) (fst (step st y)).
Proof.
  intros Hst Hinv. unfold step, spike_step. fold (counts y). destruct (counts y) eqn:Ec; simpl negb; cbv iota zeta.
  2:{ cbn [fst]. unfold spike_inv in *. destruct (snd st) as [t|]; [|done]. destruct Hinv as (H0 & pre & x & post & -> & Ht & Hn & Hb & Hx & Hall).
      split; [done|]. exists pre, x, (post ++ [y])%list. split_and!; auto; [now rewrite <- app_assoc|].
      split; [done|]. rewrite app_comm_cons, Forall_app. split; [done | apply Forall_singleton; congruence]. }
  destruct (feqb (fst st) fzero) eqn:E0.
  { cbn [fst snd]. unfold spike_inv in *. cbn [fst snd]. destruct (snd st); [|done]. destruct Hinv as [H0 _]. congruence. }
  fold (spiking (fst st) y). destruct (spiking (fst st) y) eqn:Es; [|done].
  unfold spike_inv in *. cbn [fst snd]. split; [done|]. destruct (snd st) as [t|] eqn:Et; simpl.
  - destruct Hinv as (_ & pre & x & post & -> & Ht & Hn & Hb & Hx & Hall).
    exists pre, x, (post ++ [y])%list. split_and!; auto; [now rewrite <- app_assoc|].
    split; [done|]. rewrite app_comm_cons, Forall_app. split; [done | now apply Forall_singleton].
  - exists l, y, []. rewrite <- Hst. split_and!; auto. split; [done|]. now apply Forall_singleton.
Qed.

Lemma spike_run_inv l : spike_inv l (spike_run (fzero, None) l).
Proof.
  induction l as [|y l IH] using rev_ind; [done|]. unfold spike_run. rewrite fold_left_app. simpl.
  now apply spike_step_inv.
Qed.

(** C35. A drop-spike warning is true: the sample it is issued at is more than
    a thousand drops a second and ten times the baseline, the time it names
    is that of the first of an unbroken run of such samples, no spike was
    pending before that one, and the baseline has not moved during the run. *)
Theorem spike_warning_sound l y : snd (step (spike_run (fzero, None) l) y) <> "" ->
  exists pre x post base, (l ++ [y] = pre ++ x :: post)%list /\
    snd (spike_run (fzero, None) pre) = None /\
    fst (spike_run (fzero, None) pre) = base /\ fst (spike_run (fzero, None) (l ++ [y])) = base /\
    one_spike base x post /\ counts y = true /\ spiking base y = true /\
    snd (step (spike_run (fzero, None) l) y) =
      "drop spike: " ++ label ++ " " ++ humanRate (fdiv (f64_of_Z (s_delta y)) (s_secs y)) ++ "/s (baseline "
      ++ humanRate base ++ "/s) since " ++ format_clock (s_when x).
Proof.
  intros Hw. pose proof (spike_run_inv (l ++ [y])) as Hinv. unfold spike_run at 1 in Hinv.
  assert (Hrun: spike_run (fzero, None) (l ++ [y]) = fst (step (spike_run (fzero, None) l) y)).
  { unfold spike_run. now rewrite fold_left_app. }
  fold (spike_run (fzero, None) (l ++ [y])) in Hinv. rewrite Hrun in *. set (st := spike_run (fzero, None) l) in *.
  revert Hw Hinv. unfold step, spike_step. fold (counts y). destruct (counts y) eqn:Ec; simpl negb; cbv iota zeta; [|done].
  destruct (feqb (fst st) fzero) eqn:E0; [done|].
  fold (spiking (fst st) y). destruct (spiking (fst st) y) eqn:Es; [|done]. cbn [fst snd]. intros _.
  unfold spike_inv. cbn [fst snd]. intros (_ & pre & x & post & Hl & Ht & Hn & Hb & Hx).
  exists pre, x, post, (fst st). split_and!; auto. now rewrite Ht.
Qed.
End Spikes.

(** ** At work *)

Definition two_cpus : StatMaps :=
  mkStatMaps (Some [mkGlobal 5 500 3 300 2 200 0 0 0 0 1 0 0; mkGlobal 18446744073709551615 7 1 1 0 0 0 0 0 0 0 0 0])
    (fun r => if r =? 8 then None else Some [r; 1])
    (fun v => if v =? 100 then Some [mkVlan 1 60 0; mkVlan 2 120 1] else Some [zero_vlan; zero_vlan]).

Theorem collect_sums_witness : exists perG, StatsGlobal two_cpus = Some perG /\
  RxPkts (G (fst (Collect two_cpus 0))) = 4 /\ Reasons (fst (Collect two_cpus 0)) !! 8%nat = Some 0 /\
  Vlans (fst (Collect two_cpus 0)) !! 100 = Some (mkVlan 3 180 1) /\ Vlans (fst (Collect two_cpus 0)) !! 101 = None.
Proof.
  pose proof (collect_sums two_cpus 0 (fst (Collect two_cpus 0)) eq_refl) as H.
  set (s := fst (Collect two_cpus 0)) in *. clearbody s. destruct H as (perG & Hg & Hf & Hr & Hv).
  exists perG. injection Hg as <-. split_and!; [done | | | |].
  - apply Forall_cons in Hf as [-> _]. reflexivity.
  - rewrite Hr by (unfold numReasons; lia). reflexivity.
  - apply Hv. split; [lia|]. eexists. split_and!; reflexivity.
  - apply eq_None_not_Some. intros [v E]. apply Hv in E as (_ & per & Hp & -> & Ha). injection Hp as <-. discriminate.
Defined.

Definition snap_at (rx drop when : Z) : Snapshot :=
  mkSnap (mkGlobal rx (64 * rx) (rx - drop) (64 * (rx - drop)) drop (64 * drop) 0 0 0 0 0 0 0)
    (replicate numReasons drop) {[ 100 := mkVlan rx (64 * rx) drop ]} when.

Lemma snap_at_ok rx drop when : 0 <= drop <= rx -> rx < 2 ^ 50 -> snap_ok (snap_at rx drop when).
Proof.
  intros. assert (2 ^ 50 = 1125899906842624) by reflexivity.
  split_and!; [|apply Forall_replicate; unfold is_u64; lia | done | apply map_Forall_singleton; unfold is_u64; simpl; lia].
  unfold fields, is_u64; repeat (apply Forall_cons; split); simpl; try lia. apply Forall_nil, I.
Qed.

(** The drop counter of the second reading is lower than that of the first. *)
Theorem rates_never_underflow_witness :
  let s := Rates (Some (snap_at 1000 500 0)) (snap_at 3000 2 2000000000) in
  Forall nonneg (rates_list s) /\ DroppedPPS s = fzero /\ ProcessedPPS s = f64_of_Z 1000 /\ ProcessedBPS s = f64_of_Z 512000.
Proof.
  assert (H1: snap_ok (snap_at 1000 500 0)) by (apply snap_at_ok; lia).
  assert (H2: snap_ok (snap_at 3000 2 2000000000)) by (apply snap_at_ok; lia).
  destruct (rates_never_underflow _ _ H1 H2) as [Hn He].
  split; [exact Hn|]. destruct (He ltac:(vm_compute; reflexivity)) as (Hx & Hb & _).
  apply Forall_cons in Hx as [Hp Hx]. apply Forall_cons in Hx as [_ Hx]. apply Forall_cons in Hx as [Hd _].
  apply Forall_cons in Hb as [Hb _]. split_and!; [rewrite Hd | rewrite Hp | rewrite Hb]; vm_compute; reflexivity.
Defined.

Definition reporter_after (p : Snapshot) : Reporter := set_prev (NewReporter "1.0" "/run" "a <-> b" 0) p.

Theorem report_agrees_dashboard_witness :
  let cur := snap_at 2501000 500 1000000000 in
  exists head b1 b2 b3 mid tail,
    fst (fst (render (fun _ => "now") (fun _ => "now") (reporter_after (snap_at 1000 500 0)) cur "monitor" 0 None)) =
      head ++ "  processed           2,501,000     2.50 M " ++ b1 ++ nl
           ++ "  redirected          2,500,500     2.50 M " ++ b2 ++ nl
           ++ "  dropped                   500          0 " ++ b3 ++ nl ++ mid
           ++ "  l1 hits                     0          0               " ++ nl ++ tail.
Proof.
  intros cur.
  destruct (report_agrees_dashboard (fun _ => "now") (fun _ => "now") (reporter_after (snap_at 1000 500 0)) (snap_at 1000 500 0)
              cur "monitor" 0 None eq_refl) as (head & b1 & b2 & b3 & mid & tail & H).
  - apply snap_at_ok; lia.
  - apply snap_at_ok; lia.
  - vm_compute; reflexivity.
  - intros f Hf. unfold fields in Hf. rewrite !elem_of_cons, elem_of_nil in Hf. naive_solver lia.
  - exists head, (padl 14 b1), (padl 14 b2), (padl 14 b3), mid, tail. rewrite H. f_equal.
    unfold report_row, row_line. rewrite !str_app_assoc. reflexivity.
Defined.

Definition quiet_then_flood : list sample :=
  [mkSample 10 (f64_of_Z 1) 100; mkSample 10 (f64_of_Z 1) 101; mkSample 5000 (f64_of_Z 1) 102].

Theorem spike_warning_sound_witness :
  let y := mkSample 9000 (f64_of_Z 1) 103 in
  snd (step (fun t => Itoa t) "bad ISN" (spike_run (fun t => Itoa t) "bad ISN" (fzero, None) quiet_then_flood) y) =
    "drop spike: bad ISN 9.0 K/s (baseline 10/s) since 102" /\
  exists pre x post base, (quiet_then_flood ++ [y] = pre ++ x :: post)%list /\ one_spike base x post /\ spiking base y = true.
Proof.
  intros y. split; [vm_compute; reflexivity|].
  destruct (spike_warning_sound (fun t => Itoa t) "bad ISN" quiet_then_flood y)
    as (pre & x & post & base & Hl & _ & _ & _ & Hx & _ & Hs & _); [vm_compute; discriminate|].
  now exists pre, x, post, base.
Defined.

(** The report's "rst replies" row has no previous value to subtract: two
    readings a second apart without a single new reply still show the whole
    count, five million here, as the rate of that second. *)
Theorem rst_row_shows_total :
  let g := mkGlobal 0 0 0 0 0 0 0 0 0 0 0 5000000 300000000 in
  let p := mkSnap g (replicate numReasons 0) ∅ 0 in
  row (Some p) (Seconds 1000000000) "rst replies" (RstPkts g) (RstBytes g) =
    row_line "rst replies" 5000000 "5.00 M" "2.40 Gbit/s" /\
  RstPPS (Rates (Some p) (mkSnap g (replicate numReasons 0) ∅ 1000000000)) = fzero.
Proof. split; vm_compute; reflexivity. Qed.
