(* ===== verification/SysRef.v ===== *)
(** * SysRef: a system whose calls fail on a schedule

    An instance of the loader's interface, to run it: pinned maps and links
    are files, handles are numbers, and each call that can fail takes the
    next answer of the schedule. *)

From Stdlib Require Import ZArith Lia Bool Ascii String.
From stdpp Require Import prelude strings list gmap.
From S2P Require Import Prelude GoText GoNet GoFloat Config ConfigSpec Resources Filter Ebpf Policy PolicySpec Loader LoaderSpec LoaderTrace.

Local Open Scope string_scope.
Local Open Scope Z_scope.

Record RefSys := mkRef {
  rk_open : gset handle;
  rk_maps : SharedMaps FMap;
  rk_pins : gmap string MapSpec;          (* pinned maps by path *)
  rk_links : gset string;                 (* pinned links by path *)
  rk_info : gmap handle MapSpec;
  rk_faults : list bool
}.

Definition rk_set_open (o : gset handle) (k : RefSys) : RefSys :=
  mkRef o (rk_maps k) (rk_pins k) (rk_links k) (rk_info k) (rk_faults k).
Definition rk_set_maps (s : SharedMaps FMap) (k : RefSys) : RefSys :=
  mkRef (rk_open k) s (rk_pins k) (rk_links k) (rk_info k) (rk_faults k).

(** Files: pinned maps and pinned links. *)
Definition rk_set_files (p : gmap string MapSpec) (l : gset string) (k : RefSys) : RefSys :=
  mkRef (rk_open k) (rk_maps k) p l (rk_info k) (rk_faults k).

Definition rk_answer (k : RefSys) : bool * RefSys :=
  match rk_faults k with
  | [] => (true, k)
  | a :: r => (a, mkRef (rk_open k) (rk_maps k) (rk_pins k) (rk_links k) (rk_info k) r)
  end.

(** A fresh handle, remembering what a map looks like. *)
Definition rk_open_one (info : option MapSpec) (k : RefSys) : handle * RefSys :=
  let h := fresh (rk_open k) in
  (h, mkRef ({[h]} ∪ rk_open k) (rk_maps k) (rk_pins k) (rk_links k)
        (match info with Some s => <[h := s]> (rk_info k) | None => rk_info k end) (rk_faults k)).

Definition rk_try (ok : bool) (info : option MapSpec) (k : RefSys) : option handle * RefSys :=
  let '(a, k) := rk_answer k in
  if ok && a then let '(h, k) := rk_open_one info k in (Some h, k) else (None, k).

#[export] Instance ref_sys : Sys RefSys FMap := {|
  sys_open := rk_open;
  sys_maps := rk_maps;
  sys_set_maps := rk_set_maps;
  sys_close h k := rk_set_open (rk_open k ∖ {[h]}) k;
  remove_memlock := rk_answer;
  mkdir_all _ := rk_answer;
  interface name k := if (name =? "lan0")%string then Some (3, 1500) else if (name =? "wan0")%string then Some (4, 9000) else None;
  load_pinned_map p k := rk_try (bool_decide (is_Some (rk_pins k !! p))) (rk_pins k !! p) k;
  map_info h k := default runtimeSpec (rk_info k !! h);
  new_pinned_map dir name s k :=
    let '(o, k) := rk_try true (Some s) k in
    match o with
    | Some h => (Some h, rk_set_files (<[PathJoin [dir; name] := s]> (rk_pins k)) (rk_links k) k)
    | None => (None, k)
    end;
  remove_file p k :=
    let '(a, k) := rk_answer k in
    (a, if a then rk_set_files (delete p (rk_pins k)) (rk_links k ∖ {[p]}) k else k);
  new_collection _ _ k := let '(o, k) := rk_try true None k in ((fun h => (h, true)) <$> o, k);
  load_pinned_link p k := rk_try (bool_decide (p ∈ rk_links k)) None k;
  link_update _ _ := rk_answer;
  attach_xdp _ _ _ := rk_try true None;
  link_pin _ p k := let '(a, k) := rk_answer k in (a, if a then rk_set_files (rk_pins k) ({[p]} ∪ rk_links k) k else k);
  unpin _ k := k |}.

Lemma rk_answer_same k a k' : rk_answer k = (a, k') -> rk_open k' = rk_open k /\ rk_maps k' = rk_maps k.
Proof. unfold rk_answer. destruct (rk_faults k); intros [= <- <-]; done. Qed.

Lemma rk_try_spec ok info k r k' : rk_try ok info k = (r, k') ->
  rk_maps k' = rk_maps k /\
  match r with
  | Some h => (h ∉ rk_open k) /\ rk_open k' = {[h]} ∪ rk_open k
  | None => rk_open k' = rk_open k
  end.
Proof.
  unfold rk_try. destruct (rk_answer k) as [a k1] eqn:E. apply rk_answer_same in E as [E1 E2].
  destruct (ok && a); cbn; intros [= <- <-]; cbn; rewrite ?E1, ?E2; [|done].
  split; [done|]. split; [apply is_fresh|done].
Qed.

#[export] Instance ref_sys_laws : SysLaws RefSys FMap.
Proof.
  split; unfold opens_one, opens_none, keeps_maps; cbn; try done; intros;
  repeat match goal with
  | H : (let '(_, _) := ?x in _) = _ |- _ => destruct x eqn:?
  | H : match ?o with Some _ => _ | None => _ end = _ |- _ => destruct o
  | H : rk_try _ _ _ = _ |- _ => apply rk_try_spec in H as [? ?]
  | H : rk_answer _ = _ |- _ => apply rk_answer_same in H as [? ?]
  | H : (_, _) = (_, _) |- _ => injection H as <- <-
  | b : bool |- _ => destruct b
  end; cbn in *; auto.
  all: match goal with o : option handle |- _ => destruct o end; cbn in *; auto.
Qed.

(** ** Runs *)

Definition object : CollectionSpec :=
  mkColl (list_to_map (map (fun n => (n, mkSpec 9 16 12 1 0)) sharedMapNames))
    (list_to_map (map (fun n => (n, 0)) ["ROLE_TRUSTED"; "PEER_IDX"; "L1_MASK"; "MULTIBUF"; "FLOW_MONITOR_ENABLED"; "FLOW_MONITOR_SAMPLE_MASK"])).

Definition fresh_sys (faults : list bool) : RefSys := mkRef ∅ sample_maps ∅ ∅ ∅ faults.

Definition succeeded {A} (r : A + LoaderError) : bool := match r with inl _ => true | inr _ => false end.

(** The very last call, pinning the second link, fails: thirty-five calls succeed before it. *)
Definition last_fails : RefSys := fresh_sys (replicate 35 true ++ [false])%list.

Theorem load_no_leak_witness :
  let r := Load elements (Some object) live_sample 0 last_fails in
  fst r = inr EPinLink /\ sys_open (snd r) = ∅.
Proof.
  cbv zeta. destruct (Load elements (Some object) live_sample 0 last_fails) as [r k'] eqn:E.
  assert (r = inr EPinLink) as -> by (change r with (fst (r, k')); rewrite <- E; vm_compute; reflexivity).
  split; [reflexivity|]. exact (load_no_leak elements (Some object) live_sample 0 last_fails _ _ E).
Defined.

(** Two programs are put on their ports, the policy in place both times. *)
Definition traced_load := Load elements (Some object) live_sample 0 ((fresh_sys [], []) : Traced (K := RefSys) (M := FMap)).

