(* ===== verification/Controller.v ===== *)
(** * Controller: internal/manage/controller.go

    The transaction behind the operations console: a staged configuration is
    validated, applied to the pinned maps and saved, with the edit check, the
    rollback, and the reattachment that stops and starts the service.

    The kernel and the loader are those of Loader.v, the files those of
    ConfigFile.v.  The digest, the YAML library and systemctl are
    parameters.  Nobody else writes the files during one operation. *)

From Stdlib Require Import ZArith Lia Bool Ascii String.
From stdpp Require Import prelude strings list gmap.
From S2P Require Import Prelude GoText Config ConfigFile Ebpf Policy Loader.

Local Open Scope string_scope.
Local Open Scope Z_scope.

Section Controller.
Context {K : Type} {M : Type -> Type -> Type} `{Sys K M} `{EbpfMap M}.
Context {digest : Type} `{EqDecision digest} (sha256 : string -> digest).
Context (yaml_marshal : Config -> option string) (yaml_unmarshal : string -> Config -> option Config).
Context (rng : gset key -> list key).
(** [systemctl action xdpfilter], and whether it succeeded. *)
Context (systemctl : string -> K -> (string * bool) * K).

(** ** State *)

Record Controller := mkController {
  Path : string; Base : Config; Staged : Config; activePinDir : string; hash : digest
}.

Record ApplyResult := mkApplyResult { Changes : ChangeSet; Previous : Config; Active : bool }.

Inductive ApplyError :=
  | AHash | AConfigChanged | AInvalid (e : ConfigError) | APolicy (e : PolicyError) | ASave (e : SaveError) | ARehash.

(** [ok]: whether the system lets the file be read. *)
Definition fileHash (ok : bool) (path : string) (fs : gmap string string) : option digest :=
  if ok then sha256 <$> fs !! path else None.

(** ** Reading the configuration *)

Definition ActivePin (c : Controller) : string := activePinDir c.
Definition setActivePin (path : string) (c : Controller) : Controller :=
  mkController (Path c) (Base c) (Staged c) path (hash c).

(** What [Reload] reads: the configuration and the digest of the file. *)
Definition read_config (ok : bool) (path : string) (fs : gmap string string) : option (Config * digest) :=
  match ConfigFile.Load yaml_unmarshal path fs with
  | inr _ => None
  | inl cfg => match fileHash ok path fs with None => None | Some h => Some (cfg, h) end
  end.

Definition Reload (ok : bool) (c : Controller) (fs : gmap string string) : Controller * bool :=
  match read_config ok (Path c) fs with
  | None => (c, false)
  | Some (cfg, h) =>
      let c := mkController (Path c) (Clone cfg) (Clone cfg) (activePinDir c) h in
      (if String.eqb (ActivePin c) "" then setActivePin (PinDir cfg) c else c, true)
  end.

Definition NewController (ok : bool) (path : string) (fs : gmap string string) : option Controller :=
  match read_config ok path fs with
  | None => None
  | Some (cfg, h) => Some (mkController path (Clone cfg) (Clone cfg) (PinDir cfg) h)
  end.

Definition Dirty (c : Controller) : bool := negb (ChangeSet_Empty (Diff (Some (Base c)) (Some (Staged c)))).

(** ** Apply *)

(** The live part: the pinned maps, when they open, take the new policy. *)
Definition apply_live (pin : string) (next : Config) (k : K) : option (list (string * handle)) * option PolicyError * K :=
  match OpenPinned pin k with
  | (inr _, k) => (None, None, k)
  | (inl byName, k) =>
      let '(s, e) := ReloadPolicy rng (sys_maps k) next in (Some byName, e, sys_set_maps s k)
  end.

(** The best-effort rollback of a failed save. *)
Definition rollback (maps : option (list (string * handle))) (base : Config) (k : K) : K :=
  match maps with
  | Some _ => sys_set_maps (fst (ReloadPolicy rng (sys_maps k) base)) k
  | None => k
  end.

Definition close_maps_of (maps : option (list (string * handle))) (k : K) : K :=
  match maps with Some l => close_all l.*2 k | None => k end.

Record Applied := mkApplied {
  a_ctrl : Controller; a_result : ApplyResult; a_err : option ApplyError; a_sys : K; a_files : list (gmap string string)
}.

(** After the live update: save, and take the new configuration as base. *)
Definition apply_save (e : Env) (reread : bool) (c : Controller) (next : Config) (res : ApplyResult)
    (maps : option (list (string * handle))) (k : K) (fs : gmap string string) : Applied :=
  match Save yaml_marshal e next (Path c) fs with
  | (states, Some err) => mkApplied c res (Some (ASave err)) (close_maps_of maps (rollback maps (Base c) k)) states
  | (states, None) =>
      match fileHash reread (Path c) (final states fs) with
      | None => mkApplied c res (Some ARehash) (close_maps_of maps k) states
      | Some h =>
          let c' := mkController (Path c) (Clone next) (Clone next) (activePinDir c) h in
          let c' := if impact_rank (Impact (Changes res)) <? impact_rank ImpactReattach
                    then setActivePin (PinDir next) c' else c' in
          mkApplied c' res None (close_maps_of maps k) states
      end
  end.

Definition Apply (e : Env) (read reread : bool) (c : Controller) (k : K) (fs : gmap string string) : Applied :=
  let changes := Diff (Some (Base c)) (Some (Staged c)) in
  let res := mkApplyResult changes (Clone (Base c)) false in
  if ChangeSet_Empty changes then mkApplied c res None k [fs]
  else
    match fileHash read (Path c) fs with
    | None => mkApplied c res (Some AHash) k [fs]
    | Some h =>
        if negb (bool_decide (h = hash c)) then mkApplied c res (Some AConfigChanged) k [fs]
        else
          match Validate (Clone (Staged c)) with
          | (_, Some err) => mkApplied c res (Some (AInvalid err)) k [fs]
          | (next, None) =>
              let '(maps, live, k) := apply_live (ActivePin c) next k in
              let res := mkApplyResult changes (Clone (Base c)) (bool_decide (is_Some maps)) in
              match live with
              | Some err => mkApplied c res (Some (APolicy err)) (close_maps_of maps k) [fs]
              | None => apply_save e reread c next res maps k fs
              end
          end
    end.

(** ** The service *)

Definition allowed : list string := ["start"; "stop"; "restart"; "reload"; "enable"; "disable"].

(** None: an action that is not allowed is never run. *)
Definition ServiceAction (action : string) (k : K) : option (string * bool) * K :=
  if bool_decide (action ∈ allowed) then let '(r, k) := systemctl action k in (Some r, k) else (None, k).

Definition service_ok (action : string) (k : K) : bool * K :=
  match ServiceAction action k with
  | (Some (_, ok), k) => (ok, k)
  | (None, k) => (false, k)
  end.

Inductive ReattachOutcome :=
  | RDone | RStop
  | RDetach (restored : option bool)   (* none: the old configuration was not saved back *)
  | RStart (restored : option bool).   (* otherwise: whether the old datapath was started *)

(** Put the previous configuration back and start the service with it. *)
Definition restore (e : Env) (read : bool) (previous : Config) (c : Controller) (k : K) (fs : gmap string string)
    : option bool * Controller * K * gmap string string :=
  match Save yaml_marshal e previous (Path c) fs with
  | (states, Some _) => (None, c, k, final states fs)
  | (states, None) =>
      let '(ok, k) := service_ok "start" k in
      (Some ok, fst (Reload read c (final states fs)), k, final states fs)
  end.

Definition Reattach (e : Env) (read : bool) (previous : Config) (c : Controller) (k : K) (fs : gmap string string)
    : ReattachOutcome * Controller * K * gmap string string :=
  let '(ok, k) := service_ok "stop" k in
  if negb ok then (RStop, c, k, fs)
  else
    match Detach (PinDir previous) k with
    | (Some _, k) => let '(r, c, k, fs) := restore e read previous c k fs in (RDetach r, c, k, fs)
    | (None, k) =>
        let '(ok, k) := service_ok "start" k in
        if ok then (RDone, setActivePin (PinDir (Base c)) c, k, fs)
        else let '(r, c, k, fs) := restore e read previous c k fs in (RStart r, c, k, fs)
    end.
End Controller.

Arguments mkController {digest}. Arguments Path {digest}. Arguments Base {digest}. Arguments Staged {digest}.
Arguments activePinDir {digest}. Arguments hash {digest}.
