(* ===== verification/ControllerSpec.v ===== *)
(** * ControllerSpec: the console's transaction

    An apply is all or nothing for the controller and the file, a refused or
    failed one leaves them as they were, no handle leaks, and a reattachment
    that fails puts the previous configuration back. *)

From Stdlib Require Import ZArith Lia Bool Ascii String.
From stdpp Require Import prelude strings list gmap.
From coqutil Require Import Datatypes.RecordSetters.
From S2P Require Import Prelude GoText GoFloat Config ConfigSpec ConfigDiff ConfigFile Ebpf Policy PolicySpec Loader LoaderSpec Controller.
Import DoubleBraceUpdate.

#[local] Set Warnings "-clear-no-such-hyp".
Local Open Scope string_scope.
Local Open Scope Z_scope.

(** ** A configuration does not differ from itself *)

Lemma valid_no_nan c : Valid c -> no_nan c.
Proof.
  intros [_ _ _ _ _ _ _ _ _ [_ _ _ Hr _]]. eapply Forall_impl; [exact Hr|]. intros r [_ _ Hrate].
  now destruct (MbpsThreshold r).
Qed.

Lemma slice_eqb_refl {A} (eq : A -> A -> bool) s : Forall (fun x => eq x x = true) (elems s) -> slice_eqb eq s s = true.
Proof. destruct s; simpl; auto using list_eqb_refl. Qed.

Lemma Diff_refl c : no_nan c -> ChangeSet_Empty (Diff (Some c) (Some c)) = true.
Proof.
  intros Hn. pose proof (slice_eqb_refl rule_eqb _ (rules_refl _ Hn)) as HR.
  assert (HS: slice_eqb String.eqb (ServerAllow c) (ServerAllow c) = true) by now apply strings_eqb_iff.
  assert (HT: tuning_eqb (Tun c) (Tun c) = true) by now apply tuning_eqb_iff.
  unfold ChangeSet_Empty. rewrite Diff_fields. unfold diff_rows.
  now rewrite HR, HS, HT, !String.eqb_refl, !Z.eqb_refl, !eqb_reflx.
Qed.

Lemma no_nan_clone c : no_nan c -> no_nan (Clone c).
Proof. unfold no_nan, Clone. destruct c as [????????????????????????????[? ? ? cs] ?]. rsimpl. now destruct cs as [[|]|]. Qed.

Section Spec.
Context {K : Type} {M : Type -> Type -> Type} `{EbpfMap M, !EbpfLaws M} `{Sys K M, !SysLaws K M}.
Context {digest : Type} `{EqDecision digest} (sha256 : string -> digest).
Context (yaml_marshal : Config -> option string).
Context (rng : gset key -> list key) (rng_perm : forall X, rng X ≡ₚ elements X).
Abbreviation Apply := (Apply (K:=K) sha256 yaml_marshal rng).

(** ** Opening the pinned maps *)

Lemma open_names_spec pinDir names : forall byName k0 k r k', grows byName.*2 k0 k -> sys_maps k = sys_maps k0 ->
  open_names pinDir names byName k = (r, k') ->
  sys_maps k' = sys_maps k0 /\ match r with inl l => grows l.*2 k0 k' | inr _ => sys_open k' = sys_open k0 end.
Proof.
  induction names as [|name names IH]; intros byName k0 k r k' Hg Hm; cbn [open_names]; [now intros [= <- <-]|].
  destruct (load_pinned_map _ k) as [o k1] eqn:E. pose proof (pinned_map_maps _ _ _ _ E) as Hm1.
  pose proof (opens_one_grows _ _ _ _ _ _ _ (pinned_map_open _) E Hg) as H3. destruct o as [m|].
  - destruct H3 as [H3 _]. apply (IH ((name, m) :: byName)); [exact H3 | congruence].
  - intros [= <- <-]. split; [rewrite close_all_maps; congruence | now apply grows_close_all].
Qed.

Lemma OpenPinned_spec pinDir k r k' : OpenPinned pinDir k = (r, k') ->
  sys_maps k' = sys_maps k /\ match r with inl l => grows l.*2 k k' | inr _ => sys_open k' = sys_open k end.
Proof.
  unfold OpenPinned. destruct (open_names _ _ _ k) as [[l|e] k1] eqn:E;
    apply (open_names_spec _ _ [] k) in E as [Hm Hg]; try (apply grows_nil; reflexivity); try reflexivity; [|now intros [= <- <-]].
  destruct (load_pinned_map _ k1) as [o k2] eqn:E2. pose proof (pinned_map_maps _ _ _ _ E2) as Hm2.
  pose proof (opens_one_grows _ _ _ _ _ _ _ (pinned_map_open _) E2 Hg) as H3.
  destruct o as [m|]; intros [= <- <-]; (split; [congruence|]); [apply H3 | exact H3].
Qed.
(** The live part: opened and reloaded, or nothing touched. *)
Lemma apply_live_spec pin next k maps live k' : apply_live rng pin next k = (maps, live, k') ->
  match maps with
  | Some l => grows l.*2 k k' /\ ReloadPolicy rng (sys_maps k) next = (sys_maps k', live)
  | None => live = None /\ sys_maps k' = sys_maps k /\ sys_open k' = sys_open k
  end.
Proof.
  unfold apply_live. destruct (OpenPinned pin k) as [[l|e] k1] eqn:E; apply OpenPinned_spec in E as [Hm Hg].
  - destruct (ReloadPolicy rng (sys_maps k1) next) as [s e] eqn:Er. intros [= <- <- <-].
    split; [eapply grows_same; [exact Hg | apply set_maps_open]|]. now rewrite set_maps_get, <- Hm.
  - now intros [= <- <- <-].
Qed.

Lemma close_maps_of_open maps k k' :
  match maps with Some l => grows l.*2 k k' | None => sys_open k' = sys_open k end ->
  sys_open (close_maps_of maps k') = sys_open k.
Proof. destruct maps; simpl; [apply grows_close_all | auto]. Qed.

Lemma close_maps_of_maps maps (k : K) : sys_maps (close_maps_of maps k) = sys_maps k.
Proof. destruct maps; simpl; [apply close_all_maps | auto]. Qed.

Lemma rollback_open maps base (k : K) : sys_open (rollback rng maps base k) = sys_open k.
Proof. destruct maps; simpl; [apply set_maps_open | auto]. Qed.

Lemma rollback_maps (l : list (string * handle)) base (k : K) :
  sys_maps (rollback rng (Some l) base k) = fst (ReloadPolicy rng (sys_maps k) base).
Proof. simpl. apply set_maps_get. Qed.

Lemma save_fails e c path fs states err : Save yaml_marshal e c path fs = (states, Some err) -> final states fs !! path = fs !! path.
Proof.
  unfold Save. destruct (negb (env_mkdir e)); [now intros [= <- <-]|]. destruct (yaml_marshal c) as [b|]; [|now intros [= <- <-]].
  destruct (publish e path b fs) as [st ok] eqn:Ep. destruct ok; [discriminate|]. intros [= <- <-].
  pose proof (publish_fail e path b fs) as Hf. rewrite Ep in Hf. auto.
Qed.

Lemma save_succeeds e c path fs states : Save yaml_marshal e c path fs = (states, None) ->
  exists b, yaml_marshal c = Some b /\ final states fs = <[path := b]> (delete (path ++ ".tmp") fs).
Proof.
  unfold Save. destruct (negb (env_mkdir e)); [discriminate|]. destruct (yaml_marshal c) as [b|]; [|discriminate].
  destruct (publish e path b fs) as [st ok] eqn:Ep. destruct ok; [|discriminate]. intros [= <-].
  exists b. split; [done|]. pose proof (publish_ok e path b fs) as Hf. rewrite Ep in Hf. auto.
Qed.

(** What a successful apply with changes establishes. *)
Definition installed (c : Controller (digest:=digest)) (k : K) (fs : gmap string string) (a : Applied (K:=K)) : Prop :=
  exists old next b,
    fs !! Path c = Some old /\ sha256 old = hash c /\
    Validate (Clone (Staged c)) = (next, None) /\ Valid next /\
    yaml_marshal next = Some b /\ final (a_files a) fs !! Path c = Some b /\
    Base (a_ctrl a) = Clone next /\ Staged (a_ctrl a) = Clone next /\ hash (a_ctrl a) = sha256 b /\
    Dirty (a_ctrl a) = false /\
    if Active (a_result a) then in_force next (sys_maps (a_sys a)) else sys_maps (a_sys a) = sys_maps k.

Lemma apply_save_spec e reread c next res maps k0 k fs :
  (forall old, fs !! Path c = Some old -> sha256 old = hash c) -> is_Some (fs !! Path c) ->
  Validate (Clone (Staged c)) = (next, None) -> Valid next ->
  match maps with
  | Some l => grows l.*2 k0 k /\ in_force next (sys_maps k)
  | None => sys_maps k = sys_maps k0 /\ sys_open k = sys_open k0
  end -> Active res = bool_decide (is_Some maps) ->
  let a := apply_save sha256 yaml_marshal rng e reread c next res maps k fs in
  sys_open (a_sys a) = sys_open k0 /\ a_result a = res /\
  match a_err a with
  | None => installed c k0 fs a
  | Some err => a_ctrl a = c /\ (err <> ARehash -> final (a_files a) fs !! Path c = fs !! Path c) /\
      (Active res = false -> sys_maps (a_sys a) = sys_maps k0) /\
      (forall e', err = ASave e' -> Active res = true -> sys_maps (a_sys a) = fst (ReloadPolicy rng (sys_maps k) (Base c)))
  end.
Proof.
  intros Hh [old Hold] Hv Hvalid Hmaps Hact a. unfold a, apply_save.
  assert (Hopen: forall k', sys_open k' = sys_open k -> sys_open (close_maps_of maps k') = sys_open k0).
  { intros k' Hk. apply close_maps_of_open. destruct maps as [l|]; destruct Hmaps; [eapply grows_same; eauto | congruence]. }
  assert (Hidle: Active res = false -> maps = None /\ sys_maps k = sys_maps k0).
  { rewrite Hact. intros Hb%bool_decide_eq_false. destruct maps; [exfalso; eauto | tauto]. }
  destruct (Save yaml_marshal e next (Path c) fs) as [states [err|]] eqn:Es.
  - cbn [a_sys a_err a_ctrl a_files a_result]. split_and!; auto.
    + apply Hopen, rollback_open.
    + intros _. eapply save_fails; eauto.
    + intros [-> Hm]%Hidle. exact Hm.
    + intros e' _ Hb. rewrite close_maps_of_maps. destruct maps as [l|]; [apply rollback_maps|]. rewrite Hact in Hb. discriminate.
  - apply save_succeeds in Es as (b & Hb & Hfin). unfold fileHash.
    assert (Hfile: final states fs !! Path c = Some b) by (rewrite Hfin; apply lookup_insert_eq).
    destruct reread; rewrite ?Hfile; simpl fmap; cbv iota; cbn [a_sys a_err a_ctrl a_files a_result].
    + split_and!; auto. exists old, next, b. cbn [a_sys a_err a_ctrl a_files a_result].
      assert (Hd: Dirty (mkController (Path c) (Clone next) (Clone next) (activePinDir c) (sha256 b)) = false).
      { unfold Dirty. cbn [Base Staged]. rewrite Diff_refl; [done|]. now apply no_nan_clone, valid_no_nan. }
      rewrite close_maps_of_maps.
      split_and!; auto; try (case_ifs; reflexivity); [case_ifs; exact Hd|].
      rewrite Hact. case_bool_decide as Hs; destruct maps as [l|]; try (exfalso; eauto; done); try tauto.
    + split_and!; auto; [done| |discriminate]. intros [-> Hm]%Hidle. exact Hm.
Qed.
(** What an apply that reports an error leaves behind. *)
Definition refused (c : Controller (digest:=digest)) (k : K) (fs : gmap string string) (a : Applied (K:=K)) (err : ApplyError) : Prop :=
  a_ctrl a = c /\
  (err <> ARehash -> final (a_files a) fs !! Path c = fs !! Path c) /\
  (Active (a_result a) = false -> sys_maps (a_sys a) = sys_maps k) /\
  (* a failed save after a live update: the policy in force is the base's when the kernel takes it back *)
  (forall e', err = ASave e' -> Active (a_result a) = true ->
     exists s1 s2 back, in_force (fst (Validate (Clone (Staged c)))) s1 /\
       ReloadPolicy rng s1 (Base c) = (s2, back) /\ sys_maps (a_sys a) = s2 /\ (back = None -> in_force (Base c) s2)).

Lemma refused_early c k fs res err : Active res = false -> (forall e', err <> ASave e') ->
  refused c k fs (mkApplied c res (Some err) k [fs]) err.
Proof. intros Ha Hs. split_and!; auto. intros e' He. now destruct (Hs e'). Qed.

(** Every way an apply can end, on every branch of the code. *)
Lemma apply_outcome e rd rr c k fs : wt (Staged c) ->
  let a := Apply e rd rr c k fs in
  sys_open (a_sys a) = sys_open k /\
  match a_err a with
  | Some err => refused c k fs a err
  | None => if Dirty c then installed c k fs a else a = mkApplied c (a_result a) None k [fs]
  end.
Proof.
  intros Hw a. unfold a, Controller.Apply, Dirty. set (changes := Diff _ _).
  destruct (ChangeSet_Empty changes) eqn:Ec; simpl negb; [done|].
  destruct (fileHash sha256 rd (Path c) fs) as [h|] eqn:Eh; [|split; [done | now apply refused_early]].
  destruct (bool_decide (h = hash c)) eqn:Ed; simpl negb; cbv iota; [|split; [done | now apply refused_early]].
  apply bool_decide_eq_true in Ed as ->.
  destruct (Validate (Clone (Staged c))) as [next [err|]] eqn:Ev; [split; [done | now apply refused_early]|].
  assert (Hvalid: Valid next).
  { apply Validate_ok in Ev as [_ Hv]; [exact Hv|]. revert Hw. unfold wt, Clone. now destruct (Staged c) as [????????????????????????????[] ?]. }
  destruct (apply_live rng (ActivePin c) next k) as [[maps live] k1] eqn:El. apply apply_live_spec in El.
  unfold fileHash in Eh. destruct rd; [|discriminate]. destruct (fs !! Path c) as [old|] eqn:Ef; [|discriminate]. injection Eh as Eh.
  destruct live as [err|].
  - destruct maps as [l|]; [|now destruct El]. cbn [a_sys a_err]. split; [now apply (close_maps_of_open (Some l)), El|].
    split_and!; auto; discriminate.
  - assert (Hsave := apply_save_spec e rr c next
      (mkApplyResult changes (Clone (Base c)) (bool_decide (is_Some maps))) maps k k1 fs).
    destruct Hsave as (Ho & Hr & Hs); [congruence | eauto | exact Ev | exact Hvalid | | reflexivity |].
    { destruct maps as [l|]; [|tauto]. destruct El as [Hg Hrel]. split; [exact Hg|]. now apply (reload_maps rng rng_perm _ _ _ Hrel). }
    split; [exact Ho|]. destruct (a_err _) as [err|]; [|exact Hs].
    destruct Hs as (H1 & H2 & H3 & H4). split_and!; [exact H1 | exact H2 | rewrite Hr; exact H3 |].
    intros e' -> Hact. rewrite Ev. cbn [fst]. exists (sys_maps k1).
    destruct (ReloadPolicy rng (sys_maps k1) (Base c)) as [s2 back] eqn:Eb. exists s2, back.
    rewrite Hr in Hact. pose proof Hact as Hact'. cbn [Active] in Hact. apply bool_decide_eq_true in Hact as [l ->].
    destruct El as [_ Hrel]. split_and!; [now apply (reload_maps rng rng_perm _ _ _ Hrel) | done | |].
    + exact (H4 e' eq_refl Hact').
    + intros ->. now apply (reload_maps rng rng_perm _ _ _ Eb).
Qed.


(** ** Reattaching *)

Section Reattach.
Context (yaml_unmarshal : string -> Config -> option Config).
Context (systemctl : string -> K -> (string * bool) * K).
Context (yaml_roundtrip : forall c b base, yaml_marshal c = Some b -> yaml_unmarshal b base = Some (as_decoded c)).
Abbreviation Reattach := (Reattach (K:=K) sha256 yaml_marshal yaml_unmarshal systemctl).

(** The previous configuration is back on disk, and in the console if the file
    can be read again ([rd]); if not the console is as it was. *)
Definition put_back (rd : bool) (previous : Config) (c c' : Controller (digest:=digest)) (fs' : gmap string string) : Prop :=
  exists b, yaml_marshal previous = Some b /\ fs' !! Path c = Some b /\
    if rd then
      c' = mkController (Path c) (Clone (as_decoded previous)) (Clone (as_decoded previous))
             (if String.eqb (activePinDir c) "" then PinDir previous else activePinDir c) (sha256 b) /\ Dirty c' = false
    else c' = c.

(** The old configuration could not be saved back: all is left as it is. *)
Definition left_alone (c c' : Controller (digest:=digest)) (fs fs' : gmap string string) : Prop := c' = c /\ fs' !! Path c = fs !! Path c.

(** A service action of the console is the one systemctl call. *)
Lemma service_call action (k : K) : action ∈ allowed ->
  service_ok systemctl action k = (snd (fst (systemctl action k)), snd (systemctl action k)).
Proof. intros Ha. unfold service_ok, ServiceAction. rewrite bool_decide_true by done. now destruct (systemctl action k) as [[? ?] ?]. Qed.

Lemma restore_spec e rd previous c (k : K) fs r c' k' fs' : wt previous -> Valid previous ->
  restore sha256 yaml_marshal yaml_unmarshal systemctl e rd previous c k fs = (r, c', k', fs') ->
  match r with
  | None => k' = k /\ left_alone c c' fs fs'
  | Some ok => ok = snd (fst (systemctl "start" k)) /\ k' = snd (systemctl "start" k) /\ put_back rd previous c c' fs'
  end.
Proof.
  intros Hw Hv. unfold restore. destruct (Save _ _ _ _ _) as [states [err|]] eqn:Es.
  - intros [= <- <- <- <-]. split; [done|]. split; [done|]. eapply save_fails; eauto.
  - pose proof (saved_loads yaml_marshal yaml_unmarshal yaml_roundtrip _ _ _ _ _ Hw Hv Es) as Hl.
    apply save_succeeds in Es as (b & Hb & Hfin).
    assert (Hfile: final states fs !! Path c = Some b) by (rewrite Hfin; apply lookup_insert_eq).
    rewrite service_call by (apply (bool_decide_unpack _); vm_compute; exact I). intros [= <- <- <- <-]. split; [done|]. split; [done|].
    exists b. split; [done|]. split; [done|]. unfold Reload, read_config, fileHash. rewrite Hl. destruct rd; [|done].
    rewrite Hfile. cbn [fmap option_fmap option_map fst ActivePin activePinDir].
    assert (Hn: no_nan (as_decoded previous)).
    { apply valid_no_nan in Hv. unfold no_nan, as_decoded in *. now destruct previous as [????????????????????????????[] ?]. }
    split; [case_ifs; done|]. unfold Dirty. case_ifs; unfold setActivePin; cbn [Base Staged]; rewrite Diff_refl; auto using no_nan_clone.
Qed.

End Reattach.
End Spec.
