(* ===== verification/ConsoleRef.v ===== *)
(** * ConsoleRef: the console at work

    Runs of the controller on the system of SysRef.v: an apply, a failed
    reattachment, and an apply that loses track of the running datapath. *)

From Stdlib Require Import ZArith Lia Bool Ascii String.
From stdpp Require Import prelude strings list gmap.
From coqutil Require Import Datatypes.RecordSetters.
From S2P Require Import Prelude GoText GoFloat Config ConfigSpec ConfigDiff ConfigFile Resources Ebpf Policy PolicySpec Loader LoaderSpec SysRef Controller ControllerSpec.
Import DoubleBraceUpdate.

Local Open Scope string_scope.
Local Open Scope Z_scope.

(** A datapath pinned at the configuration's pin directory. *)
Definition pinned_sys (pinDir : string) : RefSys :=
  mkRef ∅ sample_maps (list_to_map (map (fun n => (PathJoin [pinDir; n], runtimeSpec)) sharedMapNames)) ∅ ∅ [].

Definition conf_path : string := "/etc/xdpfilter/config.yaml".
Definition disk : gmap string string := {[ conf_path := "v1" ]}.

(** Digests are the contents themselves, and a marshaller writes one text. *)
Definition digest_of (b : string) : string := b.
Definition write_v2 (_ : Config) : option string := Some "v2".
Definition all_well : Env := mkEnv true WOk true.

Definition enforcing : Config := live_sample {{ Mode := "enforce" }}.
Definition console : Controller := mkController conf_path live_sample enforcing (PinDir live_sample) "v1".

Definition applied := Apply digest_of write_v2 elements all_well true true console (pinned_sys (PinDir live_sample)) disk.


(** A service that stops but does not start. *)
Definition lame_service (action : string) (k : RefSys) : (string * bool) * RefSys := (("", String.eqb action "stop"), k).


(** ** An apply that loses the running datapath *)

Definition moved : Config := live_sample {{ PinDir := "/sys/fs/bpf/moved" }}.

(** The pin directory is changed and applied, the reattachment postponed. *)
Definition first_apply := Apply digest_of write_v2 elements all_well true true
  (mkController conf_path live_sample moved (PinDir live_sample) "v1") (pinned_sys (PinDir live_sample)) disk.

(** Then the mode is changed and applied. *)
Definition second_apply :=
  let c := a_ctrl first_apply in
  Apply digest_of write_v2 elements all_well true true
    (mkController (Path c) (Base c) (moved {{ Mode := "enforce" }}) (activePinDir c) (hash c))
    (a_sys first_apply) (final (a_files first_apply) disk).

(** A postponed reattachment is forgotten by the next apply: both applies
    succeed and both update the datapath pinned at the old directory, but the
    second one makes the new directory the active one, where nothing is
    pinned, so that no later apply reaches the running datapath. *)
Theorem postponed_reattach_loses_pin :
  a_err first_apply = None /\ Active (a_result first_apply) = true /\ activePinDir (a_ctrl first_apply) = PinDir live_sample /\
  a_err second_apply = None /\ Active (a_result second_apply) = true /\ activePinDir (a_ctrl second_apply) = "/sys/fs/bpf/moved" /\
  fst (OpenPinned (activePinDir (a_ctrl second_apply)) (a_sys second_apply)) = inr (EOpenPinned "flows").
Proof. vm_compute. repeat split. Qed.
