(* ===== verification/Manage.v ===== *)
(** * Manage: editing in the operations console

    The state behind the forms of internal/manage/manage.go: the staged
    configuration, the fields marked invalid, the selections and the texts of
    the editors.  Each callback is a function on that state; [ui_step] is one
    user action.  tview (widgets, focus, drawing) is not modelled, and
    strconv's float routines are parameters. *)

From Stdlib Require Import ZArith Lia Bool Ascii String.
From stdpp Require Import prelude strings list gmap sorting.
From coqutil Require Import Datatypes.RecordSetters.
From S2P Require Import Prelude GoText GoNet GoFloat Config.
Import DoubleBraceUpdate.

Local Open Scope string_scope.
Local Open Scope Z_scope.

Record ui := mkUi {
  ui_staged : Config;
  validation : gmap string string;
  allowSelected : Z; allowInput : string;
  flowMonitorSelected : Z; flowMonitorCIDR : string; flowMonitorPPS : string; flowMonitorMbps : string;
  message : option string        (* the title of the box on screen *)
}.

Definition sortedKeys (m : gmap string string) : list string :=
  merge_sort (fun a b => Is_true (String.leb a b)) (map_to_list m).*1.

(** [valid]: mark a field. *)
Definition valid (name : string) (ok : bool) (u : ui) : ui :=
  u {{ validation := if ok then delete name (validation u) else <[name := "invalid"]> (validation u) }}.

Definition set_staged (f : Config -> Config) (u : ui) : ui := u {{ ui_staged := f (ui_staged u) }}.
Definition say (title : string) (u : ui) : ui := u {{ message := Some title }}.

(** ** Fields *)

(** The change callbacks: [set] stores the parsed value in the staged configuration. *)
Definition addString (name : string) (set : string -> Config -> Config) (s : string) (u : ui) : ui :=
  valid name (negb (String.eqb (TrimSpace s) "")) (set_staged (set (TrimSpace s)) u).

Definition addOptionalString (set : string -> Config -> Config) (s : string) (u : ui) : ui :=
  set_staged (set (TrimSpace s)) u.

Definition addU32 (name : string) (set : Z -> Config -> Config) (s : string) (u : ui) : ui :=
  match ParseUint (TrimSpace s) 32 with
  | (v, None) => set_staged (set (u32 v)) (valid name true u)
  | (_, Some _) => valid name false u
  end.

Definition addInt (name : string) (set : Z -> Config -> Config) (s : string) (u : ui) : ui :=
  match Atoi (TrimSpace s) with
  | (v, None) => set_staged (set v) (valid name true u)
  | (_, Some _) => valid name false u
  end.

(** "auto", "on", "off" *)
Definition addTri (set : option bool -> Config -> Config) (n : Z) (u : ui) : ui :=
  set_staged (set (if n =? 0 then None else Some (n =? 1))) u.

Definition tri_index (value : option bool) : Z :=
  match value with None => 0 | Some true => 1 | Some false => 2 end.

Fixpoint indexOf_from (i : Z) (v : list string) (s : string) : Z :=
  match v with
  | [] => 0
  | x :: r => if String.eqb x s then i else indexOf_from (i + 1) r s
  end.
Definition indexOf (v : list string) (s : string) : Z := indexOf_from 0 v s.

(** ** Lists *)

(** The slice element at an index, when it is in range. *)
Definition in_range {A} (i : Z) (l : list A) : bool := (0 <=? i) && (i <? Z.of_nat (length l)).

(** [l[i] = x] when [i] is in range, [append(l, x)] otherwise. *)
Definition put {A} (i : Z) (x : A) (l : list A) : list A :=
  if in_range i l then <[Z.to_nat i := x]> l else (l ++ [x])%list.

(** [append(l[:i], l[i+1:]...)] *)
Definition remove_at {A} (i : Z) (l : list A) : list A := (take (Z.to_nat i) l ++ drop (S (Z.to_nat i)) l)%list.

Definition set_allow (l : list string) (c : Config) : Config := c {{ ServerAllow := Some l }}.
Definition set_rules (l : list FlowMonitorCIDR) (c : Config) : Config :=
  let fm := FlowMon c in c {{ FlowMon := mkFM (Enabled fm) (SampleEvery fm) (MaxFlows fm) (Some l) }}.

Definition allow_list (u : ui) : list string := elems (ServerAllow (ui_staged u)).
Definition rule_list (u : ui) : list FlowMonitorCIDR := elems (CIDRs (FlowMon (ui_staged u))).

(** ** The allowlist editor *)

(** The table's selection callback; row 0 is the header. *)
Definition select_allow (row : Z) (u : ui) : ui :=
  let u := u {{ allowSelected := row - 1 }} in
  if in_range (allowSelected u) (allow_list u)
  then u {{ allowInput := default "" (allow_list u !! Z.to_nat (allowSelected u)) }} else u.

Fixpoint listed_elsewhere (i sel : Z) (entry : string) (l : list string) : bool :=
  match l with
  | [] => false
  | v :: r => (String.eqb v entry && negb (i =? sel)) || listed_elsewhere (i + 1) sel entry r
  end.

Definition saveAllowEntry (u : ui) : ui :=
  match ParseHostPort (TrimSpace (allowInput u)) with
  | inr _ => say "Invalid allowlist entry" u
  | inl (ip, port) =>
      let entry := JoinHostPort (IP_String ip) (Itoa port) in
      if listed_elsewhere 0 (allowSelected u) entry (allow_list u) then say "Duplicate" u
      else (set_staged (set_allow (put (allowSelected u) entry (allow_list u))) u) {{ allowSelected := -1 }} {{ allowInput := "" }}
  end.

Definition deleteAllowEntry (u : ui) : ui :=
  if negb (in_range (allowSelected u) (allow_list u)) then u
  else (set_staged (set_allow (remove_at (allowSelected u) (allow_list u))) u) {{ allowSelected := -1 }} {{ allowInput := "" }}.

(** ** The flow-monitoring editor *)

Section Rules.
(** [strconv.ParseFloat(s, 64)] ([None]: an error) and [FormatFloat(x, 'f', -1, 64)]. *)
Context (ParseFloat : string -> option f64) (FormatFloat : f64 -> string).

Definition select_rule (row : Z) (u : ui) : ui :=
  let u := u {{ flowMonitorSelected := row - 1 }} in
  if in_range (flowMonitorSelected u) (rule_list u)
  then match rule_list u !! Z.to_nat (flowMonitorSelected u) with
       | Some rule => u {{ flowMonitorCIDR := CIDR rule }} {{ flowMonitorPPS := FormatUint (PPSThreshold rule) }}
                        {{ flowMonitorMbps := FormatFloat (MbpsThreshold rule) }}
       | None => u
       end
  else u.

(** Where the rule goes: a rule with the same CIDR is replaced, unless
    another one is selected (no position: a duplicate). *)
Fixpoint find_replace (i : Z) (cidr : string) (rules : list FlowMonitorCIDR) (replace : Z) : option Z :=
  match rules with
  | [] => Some replace
  | existing :: r =>
      if negb (String.eqb (CIDR existing) cidr) then find_replace (i + 1) cidr r replace
      else if (0 <=? replace) && negb (i =? replace) then None
      else find_replace (i + 1) cidr r i
  end.

Definition clear_rule_editor (u : ui) : ui :=
  u {{ flowMonitorSelected := -1 }} {{ flowMonitorCIDR := "" }} {{ flowMonitorPPS := "0" }} {{ flowMonitorMbps := "0" }}.

(** The typed thresholds: neither both zero nor a number that is no rate. *)
Definition typed_thresholds (u : ui) : option (Z * f64) :=
  match ParseUint (TrimSpace (flowMonitorPPS u)) 64, ParseFloat (TrimSpace (flowMonitorMbps u)) with
  | (pps, None), Some mbps =>
      if fltb mbps fzero || IsNaN mbps || IsInf mbps || ((pps =? 0) && feqb mbps fzero) then None else Some (pps, mbps)
  | _, _ => None
  end.

Definition saveFlowMonitorRule (u : ui) : ui :=
  let cidr := TrimSpace (flowMonitorCIDR u) in
  match ParseCIDR cidr with
  | None => say "Invalid CIDR" u
  | Some (ip, network) =>
      if match To4 ip with None => true | Some _ => false end || negb (String.eqb (IPNet_String network) cidr)
      then say "Invalid CIDR" u
      else
        match typed_thresholds u with
        | None => say "Invalid thresholds" u
        | Some (pps, mbps) =>
            match find_replace 0 cidr (rule_list u) (flowMonitorSelected u) with
            | None => say "Duplicate" u
            | Some replace =>
                clear_rule_editor (set_staged (set_rules (put replace (mkRule cidr pps mbps) (rule_list u))) u)
            end
        end
  end.

(** The first rule with the CIDR, -1 when there is none. *)
Fixpoint find_rule (i : Z) (cidr : string) (rules : list FlowMonitorCIDR) : option Z :=
  match rules with
  | [] => None
  | rule :: r => if String.eqb (CIDR rule) cidr then Some i else find_rule (i + 1) cidr r
  end.

Definition deleteFlowMonitorRule (u : ui) : ui :=
  let sel := flowMonitorSelected u in
  let i := if in_range sel (rule_list u) then sel
           else default sel (find_rule 0 (TrimSpace (flowMonitorCIDR u)) (rule_list u)) in
  if negb (in_range i (rule_list u)) then say "CIDR not found" u
  else clear_rule_editor (set_staged (set_rules (remove_at i (rule_list u))) u).

(** ** A session *)

Inductive Event :=
  | SelectAllow (row : Z) | TypeAllow (s : string) | SaveAllow | DeleteAllow
  | SelectRule (row : Z) | TypeRule (cidr pps mbps : string) | SaveRule | DeleteRule.

Definition ui_step (u : ui) (e : Event) : ui :=
  match e with
  | SelectAllow row => select_allow row u
  | TypeAllow s => u {{ allowInput := s }}
  | SaveAllow => saveAllowEntry u
  | DeleteAllow => deleteAllowEntry u
  | SelectRule row => select_rule row u
  | TypeRule cidr pps mbps => u {{ flowMonitorCIDR := cidr }} {{ flowMonitorPPS := pps }} {{ flowMonitorMbps := mbps }}
  | SaveRule => saveFlowMonitorRule u
  | DeleteRule => deleteFlowMonitorRule u
  end.
End Rules.
