(* ===== verification/ManageSpec.v ===== *)
(** * ManageSpec: what editing preserves

    Whatever an operator types, selects, saves and deletes, a configuration
    that validation accepts stays one, up to the number of rules, if its rules
    are written without spaces around the networks; with such spaces the
    console can be made to list a network twice. *)

From Stdlib Require Import ZArith Lia Bool Ascii String.
From stdpp Require Import prelude strings list gmap.
From coqutil Require Import Datatypes.RecordSetters.
From S2P Require Import Prelude GoText TextLemmas GoNet GoFloat Config ConfigSpec PolicySpec Manage.
Import DoubleBraceUpdate.

#[local] Set Warnings "-clear-no-such-hyp".
Local Open Scope string_scope.
Local Open Scope Z_scope.

Lemma canonical_trimmed s f n : canonical_cidr s f n -> TrimSpace s = s.
Proof.
  intros (Hf & Hn & _ & ->). destruct (FormatUint_digits n) as [Hd Hne]; [lia|].
  pose proof Hf as (a & b & c & d & -> & Ha & Hb & Hc & Hd')%is_ip4_inv.
  apply TrimSpace_digits.
  - apply starts_digit_app. unfold ip4_string. cbn [map Join]. apply starts_digit_app.
    destruct (FormatUint_digits a) as [? ?]; [unfold is_u8 in *; lia|]. now apply all_digits_starts.
  - rewrite <- str_app_assoc. now apply rev_ends_digits.
Qed.

(** ** List edits *)

Lemma in_range_lookup {A} i (l : list A) : in_range i l = true <-> 0 <= i /\ is_Some (l !! Z.to_nat i).
Proof. unfold in_range. rewrite andb_true_iff, Z.leb_le, Z.ltb_lt, lookup_lt_is_Some. lia. Qed.

Lemma put_Forall {A} (P : A -> Prop) i x l : Forall P l -> P x -> Forall P (put i x l).
Proof. intros Hl Hx. unfold put. case_ifs; [now apply Forall_insert | apply Forall_app; auto]. Qed.

Lemma remove_Forall {A} (P : A -> Prop) i l : Forall P l -> Forall P (remove_at i l).
Proof. intros. apply Forall_app. auto using Forall_take, Forall_drop. Qed.

Lemma remove_NoDup {A} i (l : list A) : NoDup l -> NoDup (remove_at i l).
Proof.
  intros H. eapply sublist_NoDup; [exact H|]. unfold remove_at.
  rewrite <- (take_drop (Z.to_nat i) l) at 3. apply sublist_app; [done|].
  replace (S (Z.to_nat i)) with (Z.to_nat i + 1)%nat by lia. rewrite <- drop_drop. apply sublist_drop.
Qed.

(** A value put at [i] that occurs nowhere else keeps a list free of duplicates. *)
Lemma put_NoDup {A} i (x : A) l : NoDup l -> (forall j, l !! j = Some x -> Z.of_nat j = i) -> NoDup (put i x l).
Proof.
  intros Hl Hx. unfold put. destruct (in_range i l) eqn:E.
  - apply in_range_lookup in E as [Hi _]. apply NoDup_alt. intros j k y Hj Hk.
    rewrite NoDup_alt in Hl.
    apply list_lookup_insert_Some in Hj as [(Ej & Ey & _)|[Nj Hj]]; apply list_lookup_insert_Some in Hk as [(Ek & Ey' & _)|[Nk Hk]].
    + congruence.
    + subst. apply Hx in Hk. lia.
    + subst. apply Hx in Hj. lia.
    + eapply Hl; eauto.
  - apply NoDup_app. split; [done|]. split; [|apply NoDup_singleton].
    intros y Hy ->%list_elem_of_singleton. apply list_elem_of_lookup in Hy as [j Hj]. pose proof (Hx _ Hj) as Hi.
    assert (in_range i l = true); [|congruence]. apply in_range_lookup. split; [lia|]. replace (Z.to_nat i) with j by lia. eauto.
Qed.

Lemma fmap_put {A B} (f : A -> B) i x l : f <$> put i x l = put i (f x) (f <$> l).
Proof. unfold put, in_range. rewrite length_fmap. case_ifs; [apply list_fmap_insert | now rewrite fmap_app]. Qed.

Lemma fmap_remove {A B} (f : A -> B) i l : f <$> remove_at i l = remove_at i (f <$> l).
Proof. unfold remove_at. now rewrite fmap_app, fmap_take, fmap_drop. Qed.

(** ** The staged lists *)

(** What the editors keep of the two lists. *)
Record lists_ok (c : Config) : Prop := {
  lo_servers : Forall (fun s => exists ip p, ParseHostPort s = inl (ip, p)) (elems (ServerAllow c));
  lo_rules : Forall RuleOK (elems (CIDRs (FlowMon c)));
  lo_rules_trimmed : Forall trimmed (elems (CIDRs (FlowMon c)));
  lo_rules_distinct : NoDup (CIDR <$> elems (CIDRs (FlowMon c)))
}.

(** Everything but the two lists. *)
Definition rest (c : Config) : Config := set_allow [] (set_rules [] c).

Lemma trimmed_names l : Forall trimmed l -> map rule_name l = CIDR <$> l.
Proof. induction 1 as [|r l Hr _ IH]; [done|]. cbn [map fmap list_fmap]. f_equal; [exact Hr | exact IH]. Qed.

Lemma valid_lists c : Valid c -> Forall trimmed (elems (CIDRs (FlowMon c))) -> lists_ok c.
Proof.
  intros [_ _ _ _ _ _ Ha _ _ [_ _ _ Hr Hd]] Ht. constructor; [done..|]. now rewrite <- trimmed_names.
Qed.

(** Only the lists decide whether a configuration that differs in them is valid. *)
Lemma lists_valid c c' : Valid c -> rest c' = rest c -> lists_ok c' -> Z.of_nat (length (elems (CIDRs (FlowMon c')))) <= 4096 -> Valid c'.
Proof.
  intros [? ? ? ? ? ? _ ? ? [Hs Hf _ _ _]] Hrest [Ha Hr Ht Hd] Hn.
  destruct c as [????????????????????????????[????] ?], c' as [????????????????????????????[????] ?].
  unfold rest, set_allow, set_rules in Hrest. injection Hrest as; subst. constructor; try assumption.
  constructor; [exact Hs | exact Hf | exact Hn | exact Hr |]. now rewrite trimmed_names.
Qed.

Lemma entry_parses s ip p : ParseHostPort s = inl (ip, p) ->
  ParseHostPort (JoinHostPort (IP_String ip) (Itoa p)) = inl (ip, p).
Proof.
  intros [Hip Hp]%ParseHostPort_range. unfold IP_String, To4. pose proof Hip as [Hl _]. rewrite Hl. cbn [Nat.eqb].
  unfold JoinHostPort. rewrite !no_byte_has by (apply ip4_string_bytes; done). cbn [orb].
  unfold Itoa. unfold is_u16 in Hp. rewrite (proj2 (Z.ltb_ge _ _)) by lia. now apply ParseHostPort_printed.
Qed.

Lemma listed_elsewhere_spec l : forall i sel entry, listed_elsewhere i sel entry l = false ->
  forall j, l !! j = Some entry -> i + Z.of_nat j = sel.
Proof.
  induction l as [|v l IH]; intros i sel entry H [|j] Hj; try done; cbn [listed_elsewhere] in H;
    apply orb_false_iff in H as [H1 H2]; cbn in Hj.
  - injection Hj as ->. rewrite String.eqb_refl in H1. zbool. lia.
  - specialize (IH _ _ _ H2 _ Hj). lia.
Qed.

Lemma find_replace_spec rules : forall i cidr rep p, 0 <= i -> find_replace i cidr rules rep = Some p ->
  (0 <= rep -> p = rep) /\ forall j, (CIDR <$> rules) !! j = Some cidr -> i + Z.of_nat j = p.
Proof.
  induction rules as [|r rules IH]; intros i cidr rep p Hi; cbn [find_replace]; [intros [= <-]; now split|].
  destruct (String.eqb (CIDR r) cidr) eqn:E; simpl negb; cbv iota.
  - destruct (_ && _) eqn:E2; [discriminate|]. intros H. apply IH in H as [H1 H2]; [|lia]. specialize (H1 Hi). subst p.
    split; [intros; apply andb_false_iff in E2 as [E2|E2]; zbool; lia|].
    intros [|j] Hj; [lia|]. apply H2 in Hj. lia.
  - intros H. apply IH in H as [H1 H2]; [|lia]. split; [done|].
    intros [|j] Hj; [|apply H2 in Hj; lia]. cbn in Hj. injection Hj as Hj. rewrite Hj, String.eqb_refl in E. discriminate.
Qed.

(** The lists after replacing both of them. *)
Lemma lists_set_allow l c : lists_ok c -> Forall (fun s => exists ip p, ParseHostPort s = inl (ip, p)) l ->
  lists_ok (set_allow l c).
Proof. intros [] ?. destruct c. constructor; rsimpl; auto. Qed.

Lemma lists_set_rules l c : lists_ok c -> Forall RuleOK l -> Forall trimmed l -> NoDup (CIDR <$> l) -> lists_ok (set_rules l c).
Proof. intros [] ? ? ?. destruct c. constructor; rsimpl; auto. Qed.

Section Session.
Context (ParseFloat : string -> option f64) (FormatFloat : f64 -> string).

Lemma saveAllow_ok u : lists_ok (ui_staged u) -> lists_ok (ui_staged (saveAllowEntry u)).
Proof.
  intros H. unfold saveAllowEntry. destruct (ParseHostPort _) as [[ip p]|] eqn:E; [|now destruct u].
  apply entry_parses in E. set (entry := JoinHostPort _ _) in *. destruct (listed_elsewhere _ _ _ _) eqn:El; [now destruct u|].
  assert (H': lists_ok (set_allow (put (allowSelected u) entry (allow_list u)) (ui_staged u))); [|now destruct u].
  pose proof H as []. apply lists_set_allow, put_Forall; eauto.
Qed.

Lemma deleteAllow_ok u : lists_ok (ui_staged u) -> lists_ok (ui_staged (deleteAllowEntry u)).
Proof.
  intros H. unfold deleteAllowEntry. destruct (negb _); [done|].
  assert (H': lists_ok (set_allow (remove_at (allowSelected u) (allow_list u)) (ui_staged u))); [|now destruct u].
  pose proof H as []. apply lists_set_allow; auto using remove_Forall.
Qed.

Lemma typed_thresholds_ok u pps mbps : typed_thresholds ParseFloat u = Some (pps, mbps) ->
  (pps <> 0 \/ feqb mbps fzero = false) /\ f64_rate mbps.
Proof.
  unfold typed_thresholds. destruct (ParseUint _ 64) as [n [e|]]; [done|]. destruct (ParseFloat _) as [x|]; [|done].
  destruct (_ || _) eqn:E; [done|]. intros [= <- <-]. apply orb_false_iff in E as [E1 E2]. apply rate_test in E1.
  split; [|exact E1]. apply andb_false_iff in E2 as [E2|E2]; [left; zbool; done | auto].
Qed.

Lemma saveRule_ok u : lists_ok (ui_staged u) -> lists_ok (ui_staged (saveFlowMonitorRule ParseFloat u)).
Proof.
  intros H. unfold saveFlowMonitorRule. set (cidr := TrimSpace _). destruct (ParseCIDR cidr) as [[ip net]|] eqn:Ep; [|now destruct u].
  destruct (To4 ip) as [f0|] eqn:E4; [|now destruct u]. cbn [orb]. destruct (String.eqb (IPNet_String net) cidr) eqn:Es; [|now destruct u].
  apply String.eqb_eq in Es. destruct (canonical_cidr_sound _ _ _ _ Ep E4 Es) as (f & n & Hc & _). simpl negb. cbv iota.
  pose proof (canonical_trimmed _ _ _ Hc) as Htrim.
  destruct (typed_thresholds _ u) as [[pps mbps]|] eqn:Et; [|now destruct u]. apply typed_thresholds_ok in Et as [Hth Hrate].
  destruct (find_replace _ _ _ _) as [p|] eqn:Ef; [|now destruct u]. apply find_replace_spec in Ef as [_ Hf]; [|lia].
  assert (H': lists_ok (set_rules (put p (mkRule cidr pps mbps) (rule_list u)) (ui_staged u))); [|now destruct u].
  pose proof H as [Ha Hr Ht Hd]. apply lists_set_rules; auto.
  - apply put_Forall; [done|]. constructor; cbn [CIDR PPSThreshold MbpsThreshold]; auto. exists f, n. now rewrite Htrim.
  - apply put_Forall; done.
  - rewrite fmap_put. apply put_NoDup; [done|]. intros j Hj. apply Hf in Hj. lia.
Qed.

Lemma deleteRule_ok u : lists_ok (ui_staged u) -> lists_ok (ui_staged (deleteFlowMonitorRule u)).
Proof.
  intros H. unfold deleteFlowMonitorRule. set (i := if in_range _ _ then _ else _). destruct (negb _); [now destruct u|].
  assert (H': lists_ok (set_rules (remove_at i (rule_list u)) (ui_staged u))); [|now destruct u].
  pose proof H as []. apply lists_set_rules; auto using remove_Forall. rewrite fmap_remove. now apply remove_NoDup.
Qed.

Lemma step_ok u e : lists_ok (ui_staged u) -> lists_ok (ui_staged (ui_step ParseFloat FormatFloat u e)).
Proof.
  intros H. destruct e; cbn [ui_step].
  - unfold select_allow. cbv zeta. destruct (in_range _ _); now destruct u.
  - now destruct u.
  - now apply saveAllow_ok.
  - now apply deleteAllow_ok.
  - unfold select_rule. cbv zeta. destruct (in_range _ _); [destruct (_ !! _)|]; now destruct u.
  - now destruct u.
  - now apply saveRule_ok.
  - now apply deleteRule_ok.
Qed.

Lemma step_rest u e : rest (ui_staged (ui_step ParseFloat FormatFloat u e)) = rest (ui_staged u).
Proof.
  destruct u as [[????????????????????????????[????] ?] ? ? ? ? ? ? ? ?]; destruct e; cbn [ui_step]; try reflexivity.
  - unfold select_allow. cbv zeta. destruct (in_range _ _); reflexivity.
  - unfold saveAllowEntry. destruct (ParseHostPort _) as [[? ?]|]; [destruct (listed_elsewhere _ _ _ _)|]; reflexivity.
  - unfold deleteAllowEntry. destruct (negb _); reflexivity.
  - unfold select_rule. cbv zeta. destruct (in_range _ _); [destruct (_ !! _)|]; reflexivity.
  - unfold saveFlowMonitorRule. destruct (ParseCIDR _) as [[? ?]|]; [|reflexivity]. destruct (_ || _); [reflexivity|].
    destruct (typed_thresholds _ _) as [[? ?]|]; [destruct (find_replace _ _ _ _)|]; reflexivity.
  - unfold deleteFlowMonitorRule. destruct (negb _); reflexivity.
Qed.

(** A server that is listed once stays listed once. *)
Lemma allow_put_distinct u entry : listed_elsewhere 0 (allowSelected u) entry (allow_list u) = false -> NoDup (allow_list u) ->
  NoDup (put (allowSelected u) entry (allow_list u)).
Proof. intros El Hn. apply put_NoDup; [done|]. intros j Hj. now apply (listed_elsewhere_spec _ _ _ _ El) in Hj. Qed.

Lemma step_distinct u e : NoDup (allow_list u) -> NoDup (allow_list (ui_step ParseFloat FormatFloat u e)).
Proof.
  intros H. destruct e; cbn [ui_step].
  - unfold select_allow. cbv zeta. destruct (in_range _ _); now destruct u.
  - now destruct u.
  - unfold saveAllowEntry. destruct (ParseHostPort _) as [[ip p]|]; [|now destruct u]. destruct (listed_elsewhere _ _ _ _) eqn:El; [now destruct u|].
    apply allow_put_distinct in El; [|exact H]. now destruct u as [[????????????????????????????[????] ?] ? ? ? ? ? ? ? ?].
  - unfold deleteAllowEntry. destruct (negb _); [done|]. apply (remove_NoDup (allowSelected u)) in H.
    now destruct u as [[????????????????????????????[????] ?] ? ? ? ? ? ? ? ?].
  - unfold select_rule. cbv zeta. destruct (in_range _ _); [destruct (_ !! _)|]; now destruct u.
  - now destruct u.
  - unfold saveFlowMonitorRule. destruct (ParseCIDR _) as [[? ?]|]; [|now destruct u]. destruct (_ || _); [now destruct u|].
    destruct (typed_thresholds _ _) as [[? ?]|]; [|now destruct u].
    destruct (find_replace _ _ _ _); now destruct u as [[????????????????????????????[????] ?] ? ? ? ? ? ? ? ?].
  - unfold deleteFlowMonitorRule. destruct (negb _); now destruct u as [[????????????????????????????[????] ?] ? ? ? ? ? ? ? ?].
Qed.

Lemma session_kept es : forall u, lists_ok (ui_staged u) ->
  let u' := fold_left (ui_step ParseFloat FormatFloat) es u in
  lists_ok (ui_staged u') /\ rest (ui_staged u') = rest (ui_staged u) /\ (NoDup (allow_list u) -> NoDup (allow_list u')).
Proof.
  induction es as [|e es IH]; intros u H; [done|]. cbn [fold_left].
  destruct (IH _ (step_ok u e H)) as (H1 & H2 & H3). split; [exact H1|]. split; [now rewrite H2, step_rest|].
  intros Hn. apply H3, step_distinct, Hn.
Qed.

(** C37. Editing cannot break the lists.  From a configuration that validation
    accepts and whose networks are written without spaces around them, any
    sequence of selecting, typing, saving and deleting leaves one that
    validation accepts, unless it has more than 4096 rules by then; networks
    are still without spaces, a server that was listed once is still listed
    once, and nothing but the two lists changes. *)
Theorem session_keeps_lists es u : Valid (ui_staged u) -> Forall trimmed (rule_list u) ->
  let u' := fold_left (ui_step ParseFloat FormatFloat) es u in
  (Z.of_nat (length (rule_list u')) <= 4096 -> Valid (ui_staged u')) /\
  Forall trimmed (rule_list u') /\ (NoDup (allow_list u) -> NoDup (allow_list u')) /\ rest (ui_staged u') = rest (ui_staged u).
Proof.
  intros Hv Ht u'. destruct (session_kept es u (valid_lists _ Hv Ht)) as (Hl & Hr & Hn). fold u' in Hl, Hr, Hn.
  split_and!; [now apply (lists_valid (ui_staged u)) | apply Hl | exact Hn | exact Hr].
Qed.
End Session.

(** ** A session *)

Definition fresh_ui (c : Config) : ui := mkUi c ∅ (-1) "" (-1) "" "0" "0" None.

(** A reader of floats that knows zero. *)
Definition zero_only (s : string) : option f64 := if String.eqb s "0" then Some fzero else None.

Definition session : list Event :=
  [TypeAllow " 10.0.0.1:80 "; SaveAllow; TypeAllow "10.0.0.1:080"; SaveAllow; TypeRule "10.2.0.0/16" "500" "0"; SaveRule;
   TypeRule "10.2.0.1/16" "500" "0"; SaveRule; SelectRule 1; DeleteRule; DeleteAllow].

Theorem session_keeps_lists_witness :
  let u := fold_left (ui_step zero_only (fun _ => "0")) session (fresh_ui live_sample) in
  Valid (ui_staged u) /\ In "10.0.0.1:80" (allow_list u) /\ map CIDR (rule_list u) = ["10.2.0.0/16"].
Proof.
  assert (Hv: Valid live_sample) by (apply (Validate_ok live_sample); [vm_compute; intuition congruence | reflexivity]).
  split; [|split; [vm_compute; auto 10 | vm_compute; reflexivity]].
  refine (proj1 (session_keeps_lists zero_only (fun _ => "0") session (fresh_ui live_sample) Hv _) _); [repeat constructor | vm_compute; discriminate].
Defined.

(** The console compares networks as they are written, validation without the
    spaces around them: when the file names a network with a leading space,
    which validation accepts, saving a rule for the network in the console
    lists it twice, and the configuration is refused. *)
Definition spaced : Config := live_sample {{ FlowMon := mkFM true 64 4096 (Some [mkRule " 10.0.0.0/8" 1000 fzero]) }}.

Example spaced_network_doubled :
  let u := fold_left (ui_step zero_only (fun _ => "0")) [TypeRule "10.0.0.0/8" "500" "0"; SaveRule] (fresh_ui spaced) in
  snd (Validate spaced) = None /\ map CIDR (rule_list u) = [" 10.0.0.0/8"; "10.0.0.0/8"] /\ snd (Validate (ui_staged u)) <> None.
Proof. vm_compute. repeat split; discriminate. Qed.
