(* ===== verification/Dashboard.v ===== *)
(** * Dashboard: what the operations console shows

    The texts and prompts of internal/manage/manage.go: the live dashboard
    and its sampler, the alert and flow tables, and the prompt after an
    apply.  Wall-clock formats are parameters; colour tags are plain text. *)

From Corelib Require Import SpecFloat.
From Stdlib Require Import ZArith Lia Bool Ascii String.
From stdpp Require Import prelude strings list gmap sorting.
From S2P Require Import Prelude GoText GoNet GoFloat GoFmt Config Resources Ebpf Policy FlowTable Stats FlowMonitor Controller Manage.

Local Open Scope string_scope.
Local Open Scope Z_scope.

(** ** Numbers *)

(** [for i := len(s) - 3; i > 0; i -= 3]: insert a comma before position [i]. *)
Fixpoint comma_loop (fuel : nat) (i : Z) (s : string) : string :=
  match fuel with
  | O => s
  | S f => if 0 <? i then comma_loop f (i - 3) (str_take (Z.to_nat i) s ++ "," ++ str_drop (Z.to_nat i) s) else s
  end.

Definition comma (n : Z) : string :=
  let s := FormatUint n in comma_loop (String.length s) (Z.of_nat (String.length s) - 3) s.

Definition rate (v : f64) : string :=
  if fgeb v f1e6 then fmt_fixed 2 (fdiv v f1e6) ++ " M"
  else if fgeb v f1e3 then fmt_fixed 1 (fdiv v f1e3) ++ " K"
  else fmt_fixed 0 v.

Definition bits (v : f64) : string :=
  if fgeb v f1e9 then fmt_fixed 2 (fdiv v f1e9) ++ " Gbit/s"
  else if fgeb v f1e6 then fmt_fixed 0 (fdiv v f1e6) ++ " Mbit/s"
  else if fgeb v f1e3 then fmt_fixed 0 (fdiv v f1e3) ++ " Kbit/s"
  else fmt_fixed 0 v ++ " bit/s".

(** [Duration.Round(time.Second)], half away from zero, then [String]. *)
Definition round_second (d : Z) : Z :=
  let r := Z.rem d Second in
  if r <? 0 then (if - r + - r <? Second then d - r else d - Second - r)
  else if r + r <? Second then d - r else d + Second - r.

Definition duration_string (d : Z) : string :=
  let s := Z.quot (Z.abs d) Second in
  (if d <? 0 then "-" else "") ++
  (if 3600 <=? s then Itoa (s / 3600) ++ "h" else "") ++
  (if 60 <=? s then Itoa (s / 60 mod 60) ++ "m" else "") ++ Itoa (s mod 60) ++ "s".

(** ** The dashboard *)

Section Text.
Context (format_datetime : Z -> string).

Definition counter_line (name : string) (pkts : Z) (pps : f64) (bps : string) : string :=
  padr 14 name ++ " " ++ padl 16 (comma pkts) ++ " " ++ padl 12 (rate pps) ++ bps ++ nl.

Definition positive (v : f64) : bool := fltb fzero v.

Definition reason_lines (pps : list f64) : string :=
  let shown := List.filter (fun lv => positive (snd lv)) (combine ReasonLabels pps) in
  match shown with
  | [] => "  none in this interval" ++ nl
  | _ => String.concat "" (map (fun lv => "  " ++ padr 28 (fst lv) ++ " " ++ padl 10 (rate (snd lv)) ++ nl) shown)
  end.

Definition vlan_lines (s : RateSample) : string :=
  let vids := merge_sort Z.le (map_to_list (VLANPPS s)).*1 in
  String.concat "" (map (fun v =>
    let pps := default fzero (VLANPPS s !! v) in
    let drops := default fzero (VLANDropPPS s !! v) in
    if positive pps || positive drops
    then "  " ++ padr 6 (Itoa v) ++ " " ++ padl 10 (rate pps) ++ " pps  " ++ padl 10 (rate drops) ++ " drop/s" ++ nl
    else "") vids).

(** [policy], [runtime]: what could be read; [now]: the wall clock. *)
Definition renderDashboard (service : string) (policy : option LivePolicy) (runtime : option RuntimeState) (now : Z)
    (s : RateSample) : string :=
  let mode := match policy with Some p => L_Mode p | None => "unknown" end in
  let occ := match runtime with
             | None => "unavailable"
             | Some r => "TCP " ++ comma (TCPLive r) ++ " / UDP " ++ comma (UDPLive r) ++ "  (GC "
                         ++ duration_string (round_second (now - LastGCUnixNano r)) ++ " ago)"
             end in
  let t := Totals s in
  let col bps := " " ++ padl 14 (bits bps) in
  "[::b]Service[-] " ++ service ++ "   [::b]Mode[-] " ++ ToUpper mode ++ nl ++ "[::b]Flows[-] " ++ occ ++ nl
  ++ "[::b]Updated[-] " ++ format_datetime (R_When s) ++ nl ++ nl
  ++ padr 14 "" ++ " " ++ padl 16 "packets" ++ " " ++ padl 12 "pps" ++ " " ++ padl 14 "bitrate" ++ nl
  ++ counter_line "processed" (RxPkts t) (ProcessedPPS s) (col (ProcessedBPS s))
  ++ counter_line "redirected" (RedirPkts t) (RedirectedPPS s) (col (RedirectedBPS s))
  ++ counter_line "dropped" (DropPkts t) (DroppedPPS s) (col (DroppedBPS s))
  ++ counter_line "L1 hits" (L1Hits t) (L1PPS s) ""
  ++ nl ++ "[::b]Drop reasons (per second)[-]" ++ nl ++ reason_lines (ReasonPPS s)
  ++ nl ++ "[::b]Active VLANs[-]" ++ nl ++ vlan_lines s.

(** One tick of the sampler: the datapath may be gone ([None]), and a
    collection that fails leaves the screen and the previous reading. *)
Definition sample_tick (datapath : option (StatMaps * option LivePolicy * option RuntimeState)) (service err : string)
    (now : Z) (prev : option Stats.Snapshot) : option Stats.Snapshot * option string :=
  match datapath with
  | None => (None, Some ("[red]Datapath unavailable[-]" ++ nl ++ nl ++ "service: " ++ service ++ nl ++ err))
  | Some (maps, policy, runtime) =>
      match Stats.Collect maps now with
      | (_, false) => (prev, None)
      | (snap, true) => (Some snap, Some (renderDashboard service policy runtime now (Rates prev snap)))
      end
  end.
End Text.

(** ** Tables *)

(** One row of the alert table. *)
Definition alert_row (a : Alert) : list string :=
  let f := Flow a in
  [ToUpper (Protocol f);
   JoinHostPort (ProtectedIP f) (Itoa (ProtectedPort f));
   JoinHostPort (InternetIP f) (Itoa (InternetPort f));
   Itoa (OuterVLAN f) ++ "/" ++ Itoa (InnerVLAN f);
   fmt_fixed 0 (EstimatedPPS a) ++ " / " ++ FormatUint (ThresholdPPS a);
   fmt_fixed 2 (EstimatedMbps a) ++ " / " ++ fmt_fixed 2 (ThresholdMbps a);
   MatchedCIDR a].

(** The flow-table query of the console: at most 500 rows out of 10000. *)
Definition flow_query (proto vlan text : string) : FlowQuery :=
  let vid := if String.eqb (TrimSpace vlan) "" then -1
             else match Atoi (TrimSpace vlan) with (v, None) => v | (_, Some _) => -1 end in
  mkQuery proto vid text 500 10000.

Definition flow_row (f : FlowInfo) : list string :=
  [Proto f; JoinHostPort (IP_String (HostIP f)) (Itoa (HostPort f)); JoinHostPort (IP_String (InetIP f)) (Itoa (InetPort f));
   Itoa (OuterVID f); StateName f; Itoa (AgeSec f) ++ "s"].

(** ** Apply *)

(** What the console asks after an apply. *)
Inductive ApplyPrompt :=
  | PInvalidFields (names : list string) | PChanged | PFailed (e : ApplyError) | PNothing
  | PRestart (text : string) | PReattach (text : string) | PApplied (text : string).

(** Nothing is applied while a field is invalid; [run] is the controller's apply. *)
Definition apply (validation : gmap string string) (run : unit -> ApplyResult * option ApplyError) : ApplyPrompt :=
  if negb (bool_decide (validation = ∅)) then PInvalidFields (sortedKeys validation)
  else
    match run tt with
    | (_, Some AConfigChanged) => PChanged
    | (_, Some e) => PFailed e
    | (r, None) =>
        if ChangeSet_Empty (Changes r) then PNothing
        else
          let text := "Saved and applied " ++ Summary (Changes r) ++ "." in
          match Impact (Changes r) with
          | ImpactRestart => PRestart text
          | ImpactReattach => PReattach text
          | _ => PApplied text
          end
    end.
