(* ===== verification/DashboardSpec.v ===== *)
(** * DashboardSpec: the console agrees with the report

    The console formats numbers with its own code; the results are those of
    the statistics report. *)

From Corelib Require Import SpecFloat.
From Stdlib Require Import ZArith Lia Bool Ascii String.
From stdpp Require Import prelude strings list gmap.
From S2P Require Import Prelude GoText TextLemmas GoFloat GoFmt Config ConfigSpec Stats StatsSpec Dashboard.

Local Open Scope string_scope.
Local Open Scope Z_scope.

Lemma comma_groups_app k : forall fuel fuel' s t, String.length s = (3 * S k)%nat -> (S k <= fuel)%nat -> (S (S k) <= fuel')%nat ->
  String.length t = 3%nat -> comma_groups fuel' (s ++ t) = comma_groups fuel s ++ "," ++ t.
Proof.
  induction k as [|k IH]; intros [|fuel] [|fuel'] s t Hs Hf Hf' Ht; try lia; cbn [comma_groups]; rewrite str_length_app.
  - rewrite (proj2 (Nat.ltb_lt _ _)), (proj2 (Nat.ltb_ge _ _)) by lia.
    rewrite str_take_app_short, str_drop_app_short, str_take_all, str_drop_all by lia.
    destruct fuel' as [|fuel']; [lia|]. cbn [comma_groups append]. rewrite (proj2 (Nat.ltb_ge _ _)) by lia. done.
  - rewrite !(proj2 (Nat.ltb_lt _ _)) by lia. rewrite str_take_app_short, str_drop_app_short by lia.
    rewrite (IH fuel fuel') by (rewrite ?str_drop_length; lia). now rewrite !str_app_assoc.
Qed.

(** Three more digits are one more group. *)
Lemma comma_digits_app s t : (0 < String.length s)%nat -> String.length t = 3%nat ->
  comma_digits (s ++ t) = comma_digits s ++ "," ++ t.
Proof.
  intros Hs Ht. unfold comma_digits. rewrite str_length_app.
  replace (String.length s + String.length t)%nat with (String.length s + 1 * 3)%nat by lia. rewrite Nat.Div0.mod_add.
  pose proof (Nat.div_mod_eq (String.length s) 3) as Hd. pose proof (Nat.mod_upper_bound (String.length s) 3 ltac:(lia)) as Hm.
  set (pre := (String.length s mod 3)%nat) in *. set (k := (String.length s / 3)%nat) in *.
  rewrite (proj2 (Nat.leb_gt (String.length s + 1 * 3) 3)) by lia.
  rewrite str_take_app_short, str_drop_app_short by lia.
  destruct (String.length s <=? 3)%nat eqn:E; [apply Nat.leb_le in E | apply Nat.leb_gt in E].
  - destruct (Nat.eq_dec (String.length s) 3%nat) as [E3|N3].
    + assert (pre = 0%nat) as -> by lia. cbn [Nat.ltb Nat.leb append str_drop].
      rewrite (comma_groups_app 0 1 (String.length s + 1 * 3) s t) by lia. cbn [comma_groups]. rewrite (proj2 (Nat.ltb_ge _ _)) by lia. done.
    + assert (pre = String.length s) as -> by (destruct k as [|[|]]; lia).
      rewrite (proj2 (Nat.ltb_lt 0 _)), (proj2 (Nat.ltb_lt _ (String.length s + 1 * 3))) by lia.
      rewrite str_take_all, str_drop_all by lia. cbn [append]. destruct (String.length s + 1 * 3)%nat eqn:Ef; [lia|].
      cbn [comma_groups]. rewrite (proj2 (Nat.ltb_ge _ _)) by lia. now rewrite str_app_assoc.
  - rewrite (comma_groups_app (k - 1) (String.length s) (String.length s + 1 * 3) (str_drop pre s) t)
      by (rewrite ?str_drop_length; lia).
    destruct (0 <? pre)%nat; [|now rewrite str_app_assoc].
    rewrite !(proj2 (Nat.ltb_lt pre _)) by lia. now rewrite !str_app_assoc.
Qed.

Lemma split_last3 s : (3 < String.length s)%nat -> exists a t, s = a ++ t /\ (0 < String.length a)%nat /\ String.length t = 3%nat.
Proof.
  intros Hs. exists (str_take (String.length s - 3) s), (str_drop (String.length s - 3) s).
  rewrite str_take_drop, str_take_length, str_drop_length by lia. repeat split; lia.
Qed.

Lemma comma_loop_spec fuel : forall a b, (String.length a < fuel)%nat ->
  comma_loop fuel (Z.of_nat (String.length a)) (a ++ b) = (if (String.length a =? 0)%nat then "" else comma_digits a ++ ",") ++ b.
Proof.
  induction fuel as [|fuel IH]; intros a b Hf; [lia|]. cbn [comma_loop].
  destruct (String.length a =? 0)%nat eqn:E0; [apply Nat.eqb_eq in E0 | apply Nat.eqb_neq in E0].
  { rewrite E0. cbn [Z.of_nat Z.ltb Z.compare]. now destruct a. }
  rewrite (proj2 (Z.ltb_lt _ _)) by lia. rewrite Nat2Z.id, str_take_app_short, str_drop_app_short, str_take_all, str_drop_all by lia.
  cbn [append]. destruct (String.length a <=? 3)%nat eqn:E; [apply Nat.leb_le in E | apply Nat.leb_gt in E].
  - unfold comma_digits. rewrite (proj2 (Nat.leb_le _ _) E). rewrite str_app_assoc.
    destruct fuel; [lia|]. cbn [comma_loop]. rewrite (proj2 (Z.ltb_ge _ _)) by lia. done.
  - destruct (split_last3 a) as (a1 & a2 & -> & H1 & H2); [lia|]. rewrite str_length_app in *.
    replace (Z.of_nat (String.length a1 + String.length a2) - 3) with (Z.of_nat (String.length a1)) by lia.
    rewrite !str_app_assoc, IH by lia. rewrite (proj2 (Nat.eqb_neq (String.length a1) 0)) by lia.
    rewrite comma_digits_app by lia. now rewrite !str_app_assoc.
Qed.

(** The console and the report print numbers alike: the console's own
    thousands separator, packet-rate and bit-rate formats give the same text
    as those of the statistics report for every count and every rate. *)
Theorem formats_agree :
  (forall n, comma n = Stats.comma n) /\ (forall v, rate v = humanRate v) /\ (forall v, bits v = humanBits v).
Proof.
  split; [|done]. intros n. unfold comma, Stats.comma. generalize (FormatUint n). intros s.
  destruct (String.length s <=? 3)%nat eqn:E; [apply Nat.leb_le in E | apply Nat.leb_gt in E].
  - unfold comma_digits. rewrite (proj2 (Nat.leb_le _ _) E).
    destruct (String.length s) eqn:El; [done|]. cbn [comma_loop]. now rewrite (proj2 (Z.ltb_ge _ _)) by lia.
  - destruct (split_last3 s E) as (a & t & -> & H1 & H2). rewrite str_length_app.
    replace (Z.of_nat (String.length a + String.length t) - 3) with (Z.of_nat (String.length a)) by lia.
    rewrite comma_loop_spec, (proj2 (Nat.eqb_neq (String.length a) 0)), comma_digits_app by lia. now rewrite str_app_assoc.
Qed.
