(* ===== verification/Tune.v ===== *)
(** * Tune: internal/tuning/tuning.go

    The performance profile: kernel sysctls, ethtool settings, IRQ affinity
    and CPU governors are changed one by one, the old values recorded in a
    snapshot that [Restore] puts back.  Files, directories and commands are
    those of a machine behind the class [Machine]; the text that ethtool
    prints is parsed as the program parses it. *)

From Stdlib Require Import ZArith Lia Bool Ascii String.
From stdpp Require Import prelude strings list gmap sorting.
From S2P Require Import Prelude GoText Config.

Local Open Scope string_scope.
Local Open Scope Z_scope.

(** ** The machine *)

Class Machine (W : Type) := {
  read_file : string -> W -> option string;
  write_file : string -> string -> W -> bool * W;       (* os.WriteFile: it truncates or creates *)
  read_dir : string -> W -> option (list string);
  glob : string -> W -> list string;
  command : list string -> W -> bool * W;               (* a command's success *)
  command_output : list string -> W -> option string;   (* what it prints, when it succeeds *)
  mkdir_all : string -> W -> bool * W;
  remove_file : string -> W -> W
}.

Definition SnapshotPath : string := "/var/lib/xdpfilter/tuning.orig.json".

Record Snapshot := mkSnapshot {
  Sysctls : gmap string string;
  EthFeatures : gmap string (gmap string string);
  Rings : gmap string (string * string);
  ChannelsOf : gmap string string;
  PrivFlags : gmap string (gmap string string);
  IRQAffinity : gmap string string;
  Governors : gmap string string;
  IrqbalanceWasActive : bool
}.

Definition empty_snapshot : Snapshot := mkSnapshot ∅ ∅ ∅ ∅ ∅ ∅ ∅ false.

Definition set_sysctls m s := mkSnapshot m (EthFeatures s) (Rings s) (ChannelsOf s) (PrivFlags s) (IRQAffinity s) (Governors s) (IrqbalanceWasActive s).
Definition set_features m s := mkSnapshot (Sysctls s) m (Rings s) (ChannelsOf s) (PrivFlags s) (IRQAffinity s) (Governors s) (IrqbalanceWasActive s).
Definition set_rings m s := mkSnapshot (Sysctls s) (EthFeatures s) m (ChannelsOf s) (PrivFlags s) (IRQAffinity s) (Governors s) (IrqbalanceWasActive s).
Definition set_channels m s := mkSnapshot (Sysctls s) (EthFeatures s) (Rings s) m (PrivFlags s) (IRQAffinity s) (Governors s) (IrqbalanceWasActive s).
Definition set_privs m s := mkSnapshot (Sysctls s) (EthFeatures s) (Rings s) (ChannelsOf s) m (IRQAffinity s) (Governors s) (IrqbalanceWasActive s).
Definition set_irqs m s := mkSnapshot (Sysctls s) (EthFeatures s) (Rings s) (ChannelsOf s) (PrivFlags s) m (Governors s) (IrqbalanceWasActive s).
Definition set_governors m s := mkSnapshot (Sysctls s) (EthFeatures s) (Rings s) (ChannelsOf s) (PrivFlags s) (IRQAffinity s) m (IrqbalanceWasActive s).
Definition set_irqbalance b s := mkSnapshot (Sysctls s) (EthFeatures s) (Rings s) (ChannelsOf s) (PrivFlags s) (IRQAffinity s) (Governors s) b.

Definition ptrOrTrue (p : option bool) : bool := match p with None => true | Some b => b end.

(** ** CPU lists and channels *)

Definition cpu_part (part : string) : list Z :=
  let part := TrimSpace part in
  if String.eqb part "" then []
  else match Cut part "-" with
       | Some (lo, hi) => let a := fst (Atoi lo) in let b := fst (Atoi hi) in seqZ a (b - a + 1)
       | None => match Atoi part with (n, None) => [n] | (_, Some _) => [] end
       end.

Definition parseCPUList (s : string) : list Z := List.concat (map cpu_part (Split s ",")).

Definition intersectCPUs (base : list Z) (constraints : list (list Z)) : list Z :=
  fold_left (fun out constraint =>
    if (length constraint =? 0)%nat then out else List.filter (fun cpu => bool_decide (cpu ∈ constraint)) out) constraints base.

Record channelLimit := mkLimit { cpus : Z; maximum : Z }.

Definition channel_step (resolved : Z) (port : channelLimit) : Z :=
  let limit := if cpus port =? 0 then 1 else cpus port in
  let limit := if (0 <? maximum port) && (maximum port <? limit) then maximum port else limit in
  if (resolved =? 0) || (limit <? resolved) then limit else resolved.

Definition resolveCommonChannels (requested : Z) (ports : list channelLimit) : Z := fold_left channel_step ports requested.

(** The cores for interrupts: the housekeeping core is left out unless it is the only one. *)
Definition without_housekeeping (hk : Z) (cpus : list Z) : list Z :=
  let hk := if (hk <? 0) && (0 <? length cpus)%nat then List.last cpus 0 else hk in
  match List.filter (fun c => negb (c =? hk)) cpus with [] => cpus | out => out end.

(** ** Parsing ethtool *)

Record ringInfo := mkRing { maxRX : Z; maxTX : Z; currentRX : string; currentTX : string }.

Definition ring_line (st : ringInfo * bool) (raw : string) : ringInfo * bool :=
  let '(r, current) := st in
  let line := TrimSpace raw in
  if String.eqb line "Pre-set maximums:" then (r, false)
  else if String.eqb line "Current hardware settings:" then (r, true)
  else match Fields line with
       | [f0; f1] =>
           match ParseUint f1 32 with
           | (_, Some _) => st
           | (v, None) =>
               (if negb current && String.eqb f0 "RX:" then mkRing (u32 v) (maxTX r) (currentRX r) (currentTX r)
                else if negb current && String.eqb f0 "TX:" then mkRing (maxRX r) (u32 v) (currentRX r) (currentTX r)
                else if current && String.eqb f0 "RX:" then mkRing (maxRX r) (maxTX r) f1 (currentTX r)
                else if current && String.eqb f0 "TX:" then mkRing (maxRX r) (maxTX r) (currentRX r) f1
                else r, current)
           end
       | _ => st
       end.

Definition parseRingInfo (out : string) : option ringInfo :=
  let '(r, _) := fold_left ring_line (scan out) (mkRing 0 0 "" "", false) in
  if negb (String.eqb (currentRX r) "") && negb (String.eqb (currentTX r) "") then Some r else None.

Record channelInfo := mkChannel { ci_maximum : Z; ci_current : string }.

Definition channel_line (st : channelInfo * bool) (raw : string) : channelInfo * bool :=
  let '(c, current) := st in
  let line := TrimSpace raw in
  if String.eqb line "Pre-set maximums:" then (c, false)
  else if String.eqb line "Current hardware settings:" then (c, true)
  else match Fields line with
       | [f0; f1] =>
           if negb (String.eqb f0 "Combined:") then st
           else match ParseUint f1 32 with
                | (_, Some _) => st
                | (v, None) => (if current then mkChannel (ci_maximum c) f1 else mkChannel (u32 v) (ci_current c), current)
                end
       | _ => st
       end.

Definition parseChannelInfo (out : string) : option channelInfo :=
  let '(c, _) := fold_left channel_line (scan out) (mkChannel 0 "", false) in
  if negb (String.eqb (ci_current c) "") then Some c else None.

(** ethtool -k prints features under longer names. *)
Definition feature_name (short : string) : string :=
  if String.eqb short "rxvlan" then "rx-vlan-offload"
  else if String.eqb short "txvlan" then "tx-vlan-offload"
  else if String.eqb short "lro" then "large-receive-offload" else "".

Fixpoint find_feature (name : string) (lines : list string) : string :=
  match lines with
  | [] => ""
  | raw :: r =>
      let line := TrimSpace raw in
      if HasPrefix line (name ++ ":")
      then match Fields line with _ :: f1 :: _ => TrimSuffix f1 "]" | _ => find_feature name r end
      else find_feature name r
  end.

Fixpoint find_priv_flag (flag : string) (lines : list string) : string :=
  match lines with
  | [] => ""
  | raw :: r => let line := TrimSpace raw in
      if HasPrefix line flag then List.last (Fields line) "" else find_priv_flag flag r
  end.

(** A 40-byte RSS key of repeating 6D:5A. *)
Definition symmetricKey40 : string :=
  Join (map (fun i => if (i mod 2 =? 0)%nat then "6D" else "5A") (seq 0 40)) ":".

Fixpoint replace_byte (old new : ascii) (s : string) : string :=
  match s with
  | EmptyString => ""
  | String c r => String (if Ascii.eqb c old then new else c) (replace_byte old new r)
  end.

Definition sysctl_path (key : string) : string := "/proc/sys/" ++ replace_byte "." "/" key.
Definition irq_path (irq : string) : string := "/proc/irq/" ++ irq ++ "/smp_affinity_list".

Section Tuner.
Context {W : Type} `{Machine W}.
(** Go visits a map in no particular order. *)
Context (rng : forall A, gmap string A -> list (string * A)).
Context (json_marshal : Snapshot -> string) (json_unmarshal : string -> option Snapshot).

(** ** Reading *)

Definition readFileTrim (p : string) (w : W) : string :=
  match read_file p w with None => "" | Some b => TrimSpace b end.
Definition output (args : list string) (w : W) : string := default "" (command_output args w).
Definition readSysctl (key : string) (w : W) : string := readFileTrim (sysctl_path key) w.
Definition writeSysctl (key val : string) (w : W) : bool * W := write_file (sysctl_path key) val w.

Definition ethFeature (ifc short : string) (w : W) : string :=
  find_feature (feature_name short) (scan (output ["ethtool"; "-k"; ifc] w)).
Definition ethRingInfo (ifc : string) (w : W) : option ringInfo := parseRingInfo (output ["ethtool"; "-g"; ifc] w).
Definition ethChannelInfo (ifc : string) (w : W) : option channelInfo := parseChannelInfo (output ["ethtool"; "-l"; ifc] w).
Definition ethPrivFlag (ifc flag : string) (w : W) : string :=
  find_priv_flag flag (scan (output ["ethtool"; "--show-priv-flags"; ifc] w)).

Definition ifaceIRQs (ifc : string) (w : W) : list Z :=
  match read_dir ("/sys/class/net/" ++ ifc ++ "/device/msi_irqs") w with
  | None => []
  | Some names => merge_sort Z.le (omap (fun name => match Atoi name with (n, None) => Some n | (_, Some _) => None end) names)
  end.

Fixpoint allowed_of (lines : list string) : list Z :=
  match lines with
  | [] => []
  | line :: r => if HasPrefix line "Cpus_allowed_list:"
                 then parseCPUList (TrimSpace (TrimPrefix line "Cpus_allowed_list:")) else allowed_of r
  end.
Definition processAllowedCPUs (w : W) : list Z := allowed_of (Split (readFileTrim "/proc/self/status" w) newline).

Definition onlineCPUs (w : W) : list Z := parseCPUList (readFileTrim "/sys/devices/system/cpu/online" w).

(** The CPUs near the interface that are online and allowed. *)
Definition local_cpus (ifc : string) (w : W) : list Z :=
  let node := readFileTrim ("/sys/class/net/" ++ ifc ++ "/device/numa_node") w in
  let cpus := if negb (String.eqb node "") && negb (String.eqb node "-1")
              then parseCPUList (readFileTrim ("/sys/devices/system/node/node" ++ node ++ "/cpulist") w) else [] in
  let cpus := match cpus with [] => onlineCPUs w | _ => cpus end in
  intersectCPUs cpus [onlineCPUs w; processAllowedCPUs w].

Definition numaCores (cfg : Config) (ifc : string) (w : W) : list Z :=
  without_housekeeping (HousekeepingCore cfg) (local_cpus ifc w).

(** ** The tuner *)

(** The printed lines, the snapshot and the machine. *)
Record Tuner := mkTuner { t_out : list string; t_snap : Snapshot; t_w : W }.

Definition logf (line : string) (t : Tuner) : Tuner := mkTuner (t_out t ++ [line]) (t_snap t) (t_w t).
Definition snapped (f : Snapshot -> Snapshot) (t : Tuner) : Tuner := mkTuner (t_out t) (f (t_snap t)) (t_w t).
(** A step on the machine whose failure is not looked at. *)
Definition doing (f : W -> bool * W) (t : Tuner) : Tuner := mkTuner (t_out t) (t_snap t) (snd (f (t_w t))).

Definition runStep (desc : string) (args : list string) (t : Tuner) : Tuner :=
  let '(ok, w) := command args (t_w t) in
  let t := mkTuner (t_out t) (t_snap t) w in
  if ok then t else logf ("warning: " ++ desc ++ " failed") t.

Section Profile.
Context (cfg : Config) (dryRun : bool).

Definition wanted_sysctls : list (string * string) :=
  ([("net.core.bpf_jit_enable", "1"); ("net.core.bpf_jit_harden", "0"); ("kernel.numa_balancing", "0")]
   ++ (if NetdevBacklog (Tun cfg) =? 0 then [] else [("net.core.netdev_max_backlog", Itoa (NetdevBacklog (Tun cfg)))])
   ++ (if NetdevBudget (Tun cfg) =? 0 then [] else [("net.core.netdev_budget", Itoa (NetdevBudget (Tun cfg)))]))%list.

Definition sysctl_step (t : Tuner) (kv : string * string) : Tuner :=
  let '(key, val) := kv in
  let cur := readSysctl key (t_w t) in
  if String.eqb cur val then t
  else
    let t := snapped (fun s => set_sysctls (<[key := cur]> (Sysctls s)) s) t in
    let t := logf ("sysctl " ++ key ++ " = " ++ val ++ " (was " ++ cur ++ ")") t in
    if dryRun then t
    else let '(ok, w) := writeSysctl key val (t_w t) in
         let t := mkTuner (t_out t) (t_snap t) w in
         if ok then t else logf "  warning: write failed" t.

Definition persist_text (kv : list (string * string)) : string :=
  "# written by xdpfilter" ++ String newline "" ++
  String.concat "" (map (fun e => fst e ++ " = " ++ snd e ++ String newline "") kv).

Definition writeSysctlPersist (kv : list (string * string)) (w : W) : bool * W :=
  write_file "/etc/sysctl.d/99-xdpfilter.conf" (persist_text kv) w.

Definition applySysctls (t : Tuner) : Tuner :=
  let t := fold_left sysctl_step wanted_sysctls t in
  if dryRun then t else doing (writeSysctlPersist wanted_sysctls) t.

Definition channel_limit (w : W) (ifc : string) : channelLimit :=
  let cores := u32 (Z.of_nat (length (numaCores cfg ifc w))) in
  mkLimit (if cores =? 0 then 1 else cores) (match ethChannelInfo ifc w with Some info => ci_maximum info | None => 0 end).

Definition commonChannels (ifaces : list string) (t : Tuner) : Z * Tuner :=
  let requested := Channels (Tun cfg) in
  let resolved := resolveCommonChannels requested (map (channel_limit (t_w t)) ifaces) in
  (resolved,
   if (0 <? requested) && (resolved <? requested)
   then logf ("channels clamped from " ++ Itoa requested ++ " to common hardware/CPU limit " ++ Itoa resolved) t else t).

Definition wanted_features : gmap string string :=
  let feats := if ptrOrTrue (DisableVLANHW (Tun cfg)) then <["rxvlan" := "off"]> (<["txvlan" := "off"]> ∅) else ∅ in
  if ptrOrTrue (DisableLRO (Tun cfg)) then <["lro" := "off"]> feats else feats.

Definition snapFeature (ifc f v : string) (s : Snapshot) : Snapshot :=
  set_features (<[ifc := <[f := v]> (default ∅ (EthFeatures s !! ifc))]> (EthFeatures s)) s.
Definition snapPriv (ifc f v : string) (s : Snapshot) : Snapshot :=
  set_privs (<[ifc := <[f := v]> (default ∅ (PrivFlags s !! ifc))]> (PrivFlags s)) s.

Definition feature_step (ifc : string) (t : Tuner) (fw : string * string) : Tuner :=
  let '(f, want) := fw in
  let cur := ethFeature ifc f (t_w t) in
  if negb (String.eqb cur "") && negb (String.eqb cur want) then
    let t := snapped (snapFeature ifc f cur) t in
    let t := logf ("ethtool -K " ++ ifc ++ " " ++ f ++ " " ++ want ++ " (was " ++ cur ++ ")") t in
    if dryRun then t else runStep ("ethtool -K " ++ ifc ++ " " ++ f) ["ethtool"; "-K"; ifc; f; want] t
  else t.

Definition capped (size max : Z) : Z := if (0 <? max) && (max <? size) then max else size.

Definition apply_rings (ifc : string) (t : Tuner) : Tuner :=
  if RingSize (Tun cfg) =? 0 then t
  else match ethRingInfo ifc (t_w t) with
       | None => t
       | Some rings =>
           let t := snapped (fun s => set_rings (<[ifc := (currentRX rings, currentTX rings)]> (Rings s)) s) t in
           let wantRX := Itoa (capped (RingSize (Tun cfg)) (maxRX rings)) in
           let wantTX := Itoa (capped (RingSize (Tun cfg)) (maxTX rings)) in
           if negb (String.eqb (currentRX rings) wantRX) || negb (String.eqb (currentTX rings) wantTX) then
             let t := logf ("ethtool -G " ++ ifc ++ " rx " ++ wantRX ++ " tx " ++ wantTX ++ " (was rx " ++ currentRX rings
                            ++ " tx " ++ currentTX rings ++ ")") t in
             if dryRun then t else runStep ("ethtool -G " ++ ifc) ["ethtool"; "-G"; ifc; "rx"; wantRX; "tx"; wantTX] t
           else t
       end.

Definition apply_channels (ifc : string) (channels : Z) (t : Tuner) : Tuner :=
  if 0 <? channels then
    match ethChannelInfo ifc (t_w t) with
    | None => t
    | Some info =>
        let t := snapped (fun s => set_channels (<[ifc := ci_current info]> (ChannelsOf s)) s) t in
        let want := Itoa channels in
        if negb (String.eqb (ci_current info) want) then
          let t := logf ("ethtool -L " ++ ifc ++ " combined " ++ want ++ " (was " ++ ci_current info ++ ")") t in
          if dryRun then t else runStep ("ethtool -L " ++ ifc ++ " combined") ["ethtool"; "-L"; ifc; "combined"; want] t
        else t
    end
  else t.

Definition apply_cqe (ifc : string) (t : Tuner) : Tuner :=
  if ptrOrTrue (CQECompress (Tun cfg)) then
    let cur := ethPrivFlag ifc "rx_cqe_compress" (t_w t) in
    if String.eqb cur "" then t
    else
      let t := snapped (snapPriv ifc "rx_cqe_compress" cur) t in
      if String.eqb cur "on" then t
      else
        let t := logf ("ethtool --set-priv-flags " ++ ifc ++ " rx_cqe_compress on (was " ++ cur ++ ")") t in
        if dryRun then t
        else runStep ("ethtool --set-priv-flags " ++ ifc) ["ethtool"; "--set-priv-flags"; ifc; "rx_cqe_compress"; "on"] t
  else t.

Definition apply_rss (ifc : string) (t : Tuner) : Tuner :=
  if ptrOrTrue (SymmetricRSS (Tun cfg)) then
    let t := logf ("ethtool -X " ++ ifc ++ " hfunc toeplitz xfrm symmetric-xor (RSS symmetry)") t in
    if dryRun then t
    else
      let '(ok, w) := command ["ethtool"; "-X"; ifc; "hfunc"; "toeplitz"; "xfrm"; "symmetric-xor"] (t_w t) in
      let t := mkTuner (t_out t) (t_snap t) w in
      if ok then t else runStep ("ethtool -X " ++ ifc ++ " symmetric RSS key") ["ethtool"; "-X"; ifc; "hkey"; symmetricKey40] t
  else t.

Definition applyEthtool (channels : Z) (t : Tuner) (ifc : string) : Tuner :=
  let t := fold_left (feature_step ifc) (rng _ wanted_features) t in
  apply_rss ifc (apply_cqe ifc (apply_channels ifc channels (apply_rings ifc t))).

Definition applyIRQBalance (t : Tuner) : Tuner :=
  let '(active, w) := command ["systemctl"; "is-active"; "--quiet"; "irqbalance"] (t_w t) in
  let t := snapped (set_irqbalance active) (mkTuner (t_out t) (t_snap t) w) in
  if active then
    let t := logf "systemctl disable --now irqbalance" t in
    if dryRun then t else runStep "systemctl disable irqbalance" ["systemctl"; "disable"; "--now"; "irqbalance"] t
  else t.

Definition irq_step (ifc : string) (cores : list Z) (t : Tuner) (qi : nat * Z) : Tuner :=
  let '(i, irq) := qi in
  let core := default 0 (cores !! (i mod length cores)%nat) in
  let cur := readFileTrim (irq_path (Itoa irq)) (t_w t) in
  let t := snapped (fun s => set_irqs (<[Itoa irq := cur]> (IRQAffinity s)) s) t in
  let want := Itoa core in
  if String.eqb cur want then t
  else
    let t := logf ("irq " ++ Itoa irq ++ " (" ++ ifc ++ " q" ++ Itoa (Z.of_nat i) ++ ") -> cpu " ++ Itoa core ++ " (was " ++ cur ++ ")") t in
    if dryRun then t else doing (write_file (irq_path (Itoa irq)) want) t.

Definition applyIRQAffinity (t : Tuner) (ifc : string) : Tuner :=
  let irqs := ifaceIRQs ifc (t_w t) in
  let cores := numaCores cfg ifc (t_w t) in
  match irqs, cores with
  | [], _ | _, [] => t
  | _, _ => fold_left (irq_step ifc cores) (combine (seq 0 (length irqs)) irqs) t
  end.

Definition governor_step (want : string) (t : Tuner) (p : string) : Tuner :=
  let cur := readFileTrim p (t_w t) in
  if String.eqb cur "" || String.eqb cur want then t
  else
    let t := snapped (fun s => set_governors (<[p := cur]> (Governors s)) s) t in
    if dryRun then t else doing (write_file p want) t.

Definition applyGovernor (t : Tuner) : Tuner :=
  let want := if String.eqb (Governor (Tun cfg)) "" then "performance" else Governor (Tun cfg) in
  let t := fold_left (governor_step want) (glob "/sys/devices/system/cpu/cpu[0-9]*/cpufreq/scaling_governor" (t_w t)) t in
  let n := length (map_to_list (Governors (t_snap t))) in
  if (0 <? n)%nat then logf ("cpufreq governor -> " ++ want ++ " on " ++ Itoa (Z.of_nat n) ++ " cpus") t else t.

Definition saveSnapshot (s : Snapshot) (w : W) : bool * W :=
  let '(ok, w) := mkdir_all "/var/lib/xdpfilter" w in
  if negb ok then (false, w) else write_file SnapshotPath (json_marshal s) w.

Definition Apply (t : Tuner) : Tuner :=
  if negb (Tune cfg) then logf "tuning disabled (tune: false)" t
  else
    let ifaces := [TrustedIface cfg; UntrustedIface cfg] in
    let t := applySysctls t in
    let '(channels, t) := commonChannels ifaces t in
    let t := logf ("channels: resolved common count " ++ Itoa channels) t in
    let t := if RingSize (Tun cfg) =? 0 then logf "rings: retain current driver values" t else t in
    let t := fold_left (applyEthtool channels) ifaces t in
    let t := if ptrOrTrue (DisableIRQBal (Tun cfg)) then fold_left applyIRQAffinity ifaces (applyIRQBalance t) else t in
    let t := applyGovernor t in
    if dryRun then t
    else let '(ok, w) := saveSnapshot (t_snap t) (t_w t) in
         let t := mkTuner (t_out t) (t_snap t) w in
         if ok then t else logf "warning: could not save tuning snapshot" t.
End Profile.

Definition New (w : W) : Tuner := mkTuner [] empty_snapshot w.

(** ** Restore *)

Definition write_back (path : string -> string) (m : gmap string string) (w : W) : W :=
  fold_left (fun w kv => snd (write_file (path (fst kv)) (snd kv) w)) (rng _ m) w.

Definition run_back {A} (cmd : string -> A -> list string) (m : gmap string A) (w : W) : W :=
  fold_left (fun w kv => snd (command (cmd (fst kv) (snd kv)) w)) (rng _ m) w.

Definition run_back2 (cmd : string -> string -> string -> list string) (m : gmap string (gmap string string)) (w : W) : W :=
  fold_left (fun w kv => run_back (cmd (fst kv)) (snd kv) w) (rng _ m) w.

Definition restore_all (s : Snapshot) (w : W) : W :=
  let w := write_back sysctl_path (Sysctls s) w in
  let w := run_back2 (fun ifc f v => ["ethtool"; "-K"; ifc; f; v]) (EthFeatures s) w in
  let w := run_back (fun ifc rt => ["ethtool"; "-G"; ifc; "rx"; fst rt; "tx"; snd rt]) (Rings s) w in
  let w := run_back (fun ifc c => ["ethtool"; "-L"; ifc; "combined"; c]) (ChannelsOf s) w in
  let w := run_back2 (fun ifc f v => ["ethtool"; "--set-priv-flags"; ifc; f; v]) (PrivFlags s) w in
  let w := write_back irq_path (IRQAffinity s) w in
  let w := write_back id (Governors s) w in
  if IrqbalanceWasActive s then snd (command ["systemctl"; "enable"; "--now"; "irqbalance"] w) else w.

Definition Restore (w : W) : bool * W :=
  match read_file SnapshotPath w with
  | None => (false, w)
  | Some b => match json_unmarshal b with
              | None => (false, w)
              | Some s => (true, remove_file SnapshotPath (restore_all s w))
              end
  end.
End Tuner.
