(* ===== verification/TuneSpec.v ===== *)
(** * TuneSpec: what the tuning profile does to a machine

    CPU lists, the channel count common to both ports, and the cores that take
    interrupts. *)

From Stdlib Require Import ZArith Lia Bool Ascii String.
From stdpp Require Import prelude strings list gmap sorting.
From S2P Require Import Prelude GoText TextLemmas GoNet Config Tune.

#[local] Set Warnings "-clear-no-such-hyp".
Local Open Scope string_scope.
Local Open Scope Z_scope.

(** ** Channels *)

(** What one port can take: its CPUs, at least one, and the hardware's maximum when it tells one. *)
Definition port_limit (p : channelLimit) : Z :=
  let limit := if cpus p =? 0 then 1 else cpus p in
  if (0 <? maximum p) && (maximum p <? limit) then maximum p else limit.

Lemma port_limit_pos p : 0 <= cpus p -> 1 <= port_limit p.
Proof. unfold port_limit. intros. case_ifs; zlia. Qed.

Lemma channel_step_eq r p : channel_step r p = if (r =? 0) || (port_limit p <? r) then port_limit p else r.
Proof. reflexivity. Qed.

(** Both ports get one channel count that fits each of them: it is at
    least one, at most what was requested (when something was), at most the
    usable CPUs and the hardware maximum of every port, and it is the largest
    such count. *)
Theorem common_channels_tight requested ports : 0 <= requested -> ports <> [] ->
  Forall (fun p => 0 <= cpus p) ports ->
  let r := resolveCommonChannels requested ports in
  let fits n := (0 < requested -> n <= requested) /\ Forall (fun p => n <= port_limit p) ports in
  1 <= r /\ fits r /\ forall n, fits n -> n <= r.
Proof.
  intros Hreq Hne Hcpu. cbv zeta. unfold resolveCommonChannels.
  assert (Hgen: forall ports r0, 0 <= r0 -> Forall (fun p => 0 <= cpus p) ports ->
    let r := fold_left channel_step ports r0 in
    (r0 = 0 /\ ports = [] \/ 1 <= r) /\ (0 < r0 -> r <= r0) /\ Forall (fun p => r <= port_limit p) ports /\
    (forall n, (0 < r0 -> n <= r0) -> Forall (fun p => n <= port_limit p) ports -> r0 = 0 /\ ports = [] \/ n <= r)).
  { clear. induction ports as [|p ports IH]; intros r0 H0 Hc; cbv zeta; cbn [fold_left].
    - split_and!; [destruct (Z.eq_dec r0 0); [left; auto | right; lia] | lia | constructor |].
      intros n Hn _. destruct (Z.eq_dec r0 0); [left; auto | right; apply Hn; lia].
    - apply Forall_cons in Hc as [Hp Hc]. pose proof (port_limit_pos p Hp) as Hl. rewrite channel_step_eq.
      set (r1 := if (r0 =? 0) || (port_limit p <? r0) then port_limit p else r0).
      assert (H1: 1 <= r1 /\ r1 <= port_limit p /\ (0 < r0 -> r1 <= r0) /\ forall n, (0 < r0 -> n <= r0) -> n <= port_limit p -> n <= r1).
      { unfold r1. destruct (r0 =? 0) eqn:E1, (port_limit p <? r0) eqn:E2; cbn [orb]; zbool; split_and!; intros; lia. }
      destruct H1 as (Ha & Hb & Hd & He). destruct (IH r1) as (I1 & I2 & I3 & I4); [lia | exact Hc|]. specialize (I2 ltac:(lia)).
      split_and!; [lia | lia | constructor; [lia | exact I3] |].
      intros n Hn [Hnp Hns]%Forall_cons. right. destruct (I4 n) as [[? ?]|]; auto; lia. }
  destruct (Hgen ports requested Hreq Hcpu) as (H1 & H2 & H3 & H4).
  split_and!; auto.
  - destruct H1 as [[_ ?]|]; [done | auto].
  - intros n [Ha Hb]. destruct (H4 n Ha Hb) as [[_ ?]|]; [done | auto].
Qed.

Theorem common_channels_tight_witness :
  resolveCommonChannels 16 [mkLimit 12 63; mkLimit 15 8] = 8 /\ forall n, n <= 16 -> n <= 12 -> n <= 8 -> n <= 8.
Proof.
  destruct (common_channels_tight 16 [mkLimit 12 63; mkLimit 15 8]) as (_ & _ & H); [lia | done | repeat constructor; simpl; lia|].
  split; [reflexivity|]. intros n Ha Hb Hc. apply H. split; [auto | repeat constructor; auto].
Defined.

(** ** Cores *)

Lemma filter_in {A} (f : A -> bool) l x : x ∈ List.filter f l <-> x ∈ l /\ f x = true.
Proof. rewrite !list_elem_of_In, filter_In. done. Qed.

Lemma intersect_spec constraints : forall base c, c ∈ intersectCPUs base constraints <->
  c ∈ base /\ Forall (fun k : list Z => k = [] \/ c ∈ k) constraints.
Proof.
  unfold intersectCPUs. induction constraints as [|k ks IH]; intros base c; cbn [fold_left].
  - split; [intros; split; [done | constructor] | tauto].
  - rewrite IH, Forall_cons. destruct k as [|x k]; cbn [length Nat.eqb]; [tauto|].
    rewrite filter_in, bool_decide_eq_true. split; [tauto|]. intros [? [[?|?] ?]]; [done | tauto].
Qed.

Lemma without_housekeeping_sub hk l c : c ∈ without_housekeeping hk l -> c ∈ l.
Proof.
  unfold without_housekeeping.
  destruct (List.filter _ l) as [|x xs] eqn:E; [done|]. rewrite <- E. now intros [? _]%filter_in.
Qed.

Lemma without_housekeeping_nonempty hk l : l <> [] -> without_housekeeping hk l <> [].
Proof. unfold without_housekeeping. intros. destruct (List.filter _ l); done. Qed.

Section Cores.
Context {W : Type} `{Machine W}.

(** Interrupts go to cores that may take them: every core chosen for an
    interface is online and in the process's allowed set (where those are
    known), a configured housekeeping core is chosen only when it is the only
    candidate, and there is a core as soon as there is a candidate. *)
Theorem irq_cores_eligible cfg ifc (w : W) :
  let cores := numaCores cfg ifc w in
  (forall c, c ∈ cores -> (onlineCPUs w = [] \/ c ∈ onlineCPUs w) /\ (processAllowedCPUs w = [] \/ c ∈ processAllowedCPUs w)) /\
  (forall c, c ∈ cores -> 0 <= HousekeepingCore cfg -> c = HousekeepingCore cfg ->
     forall d, d ∈ local_cpus ifc w -> d = HousekeepingCore cfg) /\
  (local_cpus ifc w <> [] -> cores <> []).
Proof.
  cbv zeta. unfold numaCores. split_and!.
  - intros c Hc%without_housekeeping_sub. unfold local_cpus in Hc. apply intersect_spec in Hc as [_ Hf].
    rewrite !Forall_cons in Hf. tauto.
  - intros c Hc Hk -> d Hd. unfold without_housekeeping in Hc. rewrite (proj2 (Z.ltb_ge _ _) Hk) in Hc. cbn [andb] in Hc.
    destruct (List.filter _ (local_cpus ifc w)) as [|x xs] eqn:E.
    + destruct (Z.eq_dec d (HousekeepingCore cfg)) as [|Hn]; [done|].
      assert (Hin: d ∈ List.filter (fun c => negb (c =? HousekeepingCore cfg)) (local_cpus ifc w)).
      { apply filter_in. split; [done|]. apply negb_true_iff, Z.eqb_neq, Hn. }
      rewrite E in Hin. now apply not_elem_of_nil in Hin.
    + rewrite <- E in Hc. apply filter_in in Hc as [_ Hc]. rewrite Z.eqb_refl in Hc. discriminate.
  - apply without_housekeeping_nonempty.
Qed.
End Cores.

(** ** CPU lists *)

(** The kernel's format of one range and of a list of ranges. *)
Definition range_text (r : Z * Z) : string :=
  if fst r =? snd r then FormatUint (fst r) else FormatUint (fst r) ++ "-" ++ FormatUint (snd r).

Definition ranges_text (l : list (Z * Z)) : string := Join (map range_text l) ",".

Definition cpu_range (r : Z * Z) : Prop := 0 <= fst r <= snd r /\ snd r < 2 ^ 31.

Lemma digits_facts n : 0 <= n < 2 ^ 31 ->
  let s := FormatUint n in all_digits s = true /\ s <> "" /\ starts_digit s = true /\ TrimSpace s = s /\ Atoi s = (n, None) /\
  no_byte "," s = true /\ no_byte "-" s = true.
Proof.
  intros Hn s. destruct (FormatUint_digits n) as [Hd Hne]; [lia|]. fold s in Hd, Hne.
  pose proof (all_digits_starts s Hd Hne) as Hs.
  split_and!; auto using all_digits_no_byte.
  - apply TrimSpace_digits; [done|]. apply (rev_ends_digits "" s Hd Hne).
  - unfold Atoi. assert (Hp: ParseUint s 64 = (n, None)) by (apply ParseUint_FormatUint; lia).
    destruct s as [|c s']; [done|]. simpl in Hs.
    assert (Hc: forall d, is_digit d = false -> c <> d) by (intros d Hd' ->; congruence).
    pose proof (Hc "-"%char eq_refl) as H1. pose proof (Hc "+"%char eq_refl) as H2.
    assert (E: (let '(neg, body) := match String c s' with String "-" r => (true, r) | String "+" r => (false, r) | _ => (false, String c s') end in
               (neg, body)) = (false, String c s')).
    { destruct c as [[] [] [] [] [] [] [] []]; try reflexivity; [now destruct H2 | now destruct H1]. }
    destruct (match String c s' with String "-" r => (true, r) | String "+" r => (false, r) | _ => (false, String c s') end) as [neg body].
    injection E as -> ->. rewrite Hp. cbn [negb andb]. rewrite (proj2 (Z.leb_gt _ _)) by lia. done.
Qed.

Lemma range_text_facts r : cpu_range r -> no_byte "," (range_text r) = true /\ cpu_part (range_text r) = seqZ (fst r) (snd r - fst r + 1).
Proof.
  destruct r as [a b]. unfold cpu_range, range_text. cbn [fst snd]. intros [Hab Hb].
  destruct (digits_facts a) as (Da & Na & Sa & Ta & Aa & Ca & Ma); [lia|].
  destruct (digits_facts b) as (Db & Nb & Sb & Tb & Ab & Cb & Mb); [lia|].
  destruct (a =? b) eqn:E; zbool.
  - split; [done|]. unfold cpu_part. rewrite Ta, (proj2 (String.eqb_neq _ _) Na).
    assert (Hcut: Cut (FormatUint a) "-" = None).
    { clear - Ma. induction (FormatUint a) as [|c s IH]; [done|]. cbn [no_byte] in Ma. apply andb_true_iff in Ma as [Hc Hs].
      apply negb_true_iff in Hc. cbn [Cut]. rewrite IH by done. cbn [cut_prefix]. now rewrite Hc. }
    rewrite Hcut, Aa. replace (b - a + 1) with 1 by lia. reflexivity.
  - split; [rewrite !no_byte_app, Ca, Cb; done|]. unfold cpu_part.
    rewrite TrimSpace_digits by (try apply starts_digit_app; try done; rewrite <- str_app_assoc; now apply rev_ends_digits).
    assert (Hn: FormatUint a ++ "-" ++ FormatUint b <> "") by (destruct (FormatUint a); done).
    rewrite (proj2 (String.eqb_neq _ _) Hn). change ("-" ++ FormatUint b) with (String "-" (FormatUint b)).
    rewrite Cut_byte by done. now rewrite Aa, Ab.
Qed.

(** The kernel's CPU lists are read back: parsing a list of ranges in the
    kernel's notation gives the CPUs of the ranges, in order. *)
Theorem cpulist_roundtrip l : l <> [] -> Forall cpu_range l ->
  parseCPUList (ranges_text l) = List.concat (map (fun r => seqZ (fst r) (snd r - fst r + 1)) l).
Proof.
  intros Hl H. unfold parseCPUList, ranges_text. change "," with (String "," "").
  rewrite Split_Join; [| destruct l; done |].
  - f_equal. rewrite map_map. apply map_ext_Forall. eapply Forall_impl; [exact H|]. intros r Hr. now apply range_text_facts.
  - apply Forall_map. eapply Forall_impl; [exact H|]. intros r Hr. now apply range_text_facts.
Qed.

Theorem cpulist_roundtrip_witness : ranges_text [(0, 3); (8, 8); (12, 13)] = "0-3,8,12-13" /\
  parseCPUList "0-3,8,12-13" = [0; 1; 2; 3; 8; 12; 13].
Proof.
  split; [reflexivity|]. refine (cpulist_roundtrip [(0, 3); (8, 8); (12, 13)] _ _); [done|].
  repeat constructor; simpl; lia.
Defined.
