(* ===== verification/TuneRss.v ===== *)
(** * TuneRss: the symmetric receive-side-scaling key

    Network cards spread flows over queues by the Toeplitz hash of their
    addresses and ports.  The key the program falls back to makes the hash the
    same for both directions of a connection, which is what brings them to
    the same queue.  The hash is the published one: the exclusive or of the
    32-bit windows of the key at the set bits of the input. *)

From Stdlib Require Import ZArith Lia Bool Ascii String.
From stdpp Require Import prelude strings list.
From S2P Require Import Prelude GoText GoNet Tune.

Local Open Scope string_scope.
Local Open Scope Z_scope.

(** ** Bits of a key *)

Definition hex_byte (s : string) : Z :=
  match s with
  | String a (String b EmptyString) => default 0 (hex_val a) * 16 + default 0 (hex_val b)
  | _ => 0
  end.

Definition byte_bits (b : Z) : list bool := map (fun i => Z.testbit b (7 - Z.of_nat i)) (seq 0 8).

Definition key_bits (key : string) : list bool := List.concat (map (fun s => byte_bits (hex_byte s)) (Split key ":")).

Definition bits_value (l : list bool) : Z := fold_left (fun z b => 2 * z + b2z b) l 0.

(** The 32 bits of the key from position [j]. *)
Definition window (key : list bool) (j : nat) : Z := bits_value (take 32 (drop j key)).

(** ** The hash *)

Fixpoint toeplitz_from (key : list bool) (j : nat) (input : list bool) : Z :=
  match input with
  | [] => 0
  | b :: r => Z.lxor (if b then window key j else 0) (toeplitz_from key (S j) r)
  end.

Definition toeplitz (key : list bool) (input : list bool) : Z := toeplitz_from key 0 input.

Lemma toeplitz_app key a : forall j b, toeplitz_from key j (a ++ b) = Z.lxor (toeplitz_from key j a) (toeplitz_from key (j + length a) b).
Proof.
  induction a as [|x a IH]; intros j b; cbn [app toeplitz_from length].
  - now rewrite Z.lxor_0_l, Nat.add_0_r.
  - rewrite IH, Z.lxor_assoc. do 3 f_equal. lia.
Qed.

(** A key whose windows repeat every sixteen bits. *)
Definition periodic (key : list bool) (n : nat) : Prop := forall j, (j < n)%nat -> window key (j + 16) = window key j.

Lemma toeplitz_shift key n l : periodic key n -> forall j, (j + length l <= n)%nat ->
  toeplitz_from key (j + 16) l = toeplitz_from key j l.
Proof.
  intros Hp. induction l as [|b l IH]; intros j Hj; cbn [toeplitz_from length] in *; [done|].
  rewrite Hp by lia. f_equal. apply (IH (S j)). lia.
Qed.

Lemma toeplitz_shifts key n l k : periodic key n -> (16 * k + length l <= n)%nat ->
  toeplitz_from key (16 * k) l = toeplitz_from key 0 l.
Proof.
  intros Hp. induction k as [|k IH]; intros Hk; [done|].
  replace (16 * S k)%nat with (16 * k + 16)%nat by lia. rewrite (toeplitz_shift key n) by (done || lia). apply IH. lia.
Qed.

(** A test that a key is periodic. *)
Lemma periodic_check key n : forallb (fun j => window key (j + 16) =? window key j) (seq 0 n) = true -> periodic key n.
Proof. intros H j Hj. rewrite forallb_forall in H. apply Z.eqb_eq, H, in_seq. lia. Qed.

Lemma symmetric_key_periodic : periodic (key_bits symmetricKey40) 128.
Proof. apply periodic_check. vm_compute. reflexivity. Qed.

(** The fallback RSS key does what it is for: it has the forty bytes the
    card expects, and under it the hash of a TCP or UDP packet over IPv4 does
    not change when source and destination are exchanged, so the two
    directions of a flow are delivered to the same queue. *)
Theorem rss_key_symmetric src dst sport dport :
  length src = 32%nat -> length dst = 32%nat -> length sport = 16%nat -> length dport = 16%nat ->
  length (key_bits symmetricKey40) = 320%nat /\
  toeplitz (key_bits symmetricKey40) (src ++ dst ++ sport ++ dport) =
  toeplitz (key_bits symmetricKey40) (dst ++ src ++ dport ++ sport).
Proof.
  intros Hs Hd Hsp Hdp. split; [reflexivity|]. unfold toeplitz. rewrite !toeplitz_app, Hs, Hd, Hsp, Hdp.
  assert (Hk: forall l k, (length l <= 32)%nat -> (k <= 5)%nat -> toeplitz_from (key_bits symmetricKey40) (16 * k) l =
            toeplitz_from (key_bits symmetricKey40) 0 l).
  { intros l k Hl Hk. apply (toeplitz_shifts _ 128); [apply symmetric_key_periodic | lia]. }
  change (0 + 32)%nat with (16 * 2)%nat. change (16 * 2 + 32)%nat with (16 * 4)%nat. change (16 * 4 + 16)%nat with (16 * 5)%nat.
  rewrite !Hk by lia.
  set (a := toeplitz_from _ 0 src). set (b := toeplitz_from _ 0 dst).
  set (c := toeplitz_from _ 0 sport). set (d := toeplitz_from _ 0 dport).
  rewrite <- !Z.lxor_assoc, (Z.lxor_comm a b), !Z.lxor_assoc, (Z.lxor_comm c d). reflexivity.
Qed.

Definition bits_of (bytes : list Z) : list bool := List.concat (map byte_bits bytes).

Theorem rss_key_symmetric_witness :
  toeplitz (key_bits symmetricKey40) (bits_of [10; 0; 0; 1] ++ bits_of [198; 51; 100; 9] ++ bits_of [200; 0] ++ bits_of [1; 187]) =
  toeplitz (key_bits symmetricKey40) (bits_of [198; 51; 100; 9] ++ bits_of [10; 0; 0; 1] ++ bits_of [1; 187] ++ bits_of [200; 0]).
Proof.
  apply (rss_key_symmetric (bits_of [10; 0; 0; 1]) (bits_of [198; 51; 100; 9]) (bits_of [200; 0]) (bits_of [1; 187])); reflexivity.
Defined.
