(* ===== verification/TuneRestore.v ===== *)
(** * TuneRestore: a preview leaves the machine alone, a restore puts it back

    Writes, commands and the saving of the snapshot may fail.  When Apply did
    not warn about the snapshot, [Apply] followed by [Restore] leaves every
    sysctl and every governor that is a file of its own (its value changes only
    by writing it, and it takes its first reading back) reading what it read
    before.  *)

From Stdlib Require Import ZArith Lia Bool Ascii String.
From stdpp Require Import prelude strings list gmap sorting.
From S2P Require Import Prelude GoText TextLemmas Config Tune.

#[local] Set Warnings "-clear-no-such-hyp".
Local Open Scope string_scope.
Local Open Scope Z_scope.

(** ** Preview *)

Definition is_active_query : list string := ["systemctl"; "is-active"; "--quiet"; "irqbalance"].

Section Preview.
Context {W : Type} `{Machine W}.
Context (rng : forall A, gmap string A -> list (string * A)) (json_marshal : Snapshot -> string).

(** The machine is left as it was. *)
Definition untouched (f : Tuner (W:=W) -> Tuner (W:=W)) : Prop := forall t, t_w (f t) = t_w t.

Lemma untouched_fold {A} (f : Tuner (W:=W) -> A -> Tuner) l : (forall x, untouched (fun t => f t x)) -> untouched (fold_left f l).
Proof. intros Hf. induction l as [|x l IH]; intros t; [done|]. cbn [fold_left]. now rewrite IH, Hf. Qed.

Ltac harmless := intros ?; cbv zeta; repeat (case_match; cbn [t_w snapped logf]; try done).

Lemma preview_feature ifc fw : untouched (fun t => feature_step true ifc t fw).
Proof. destruct fw. unfold feature_step. harmless. Qed.
Lemma preview_rings cfg ifc : untouched (apply_rings cfg true ifc).
Proof. unfold apply_rings. harmless. Qed.
Lemma preview_channels ifc n : untouched (apply_channels true ifc n).
Proof. unfold apply_channels. harmless. Qed.
Lemma preview_cqe cfg ifc : untouched (apply_cqe cfg true ifc).
Proof. unfold apply_cqe. harmless. Qed.
Lemma preview_rss cfg ifc : untouched (apply_rss cfg true ifc).
Proof. unfold apply_rss. harmless. Qed.

Lemma preview_ethtool cfg n ifc : untouched (fun t => applyEthtool rng cfg true n t ifc).
Proof.
  intros t. unfold applyEthtool. rewrite preview_rss, preview_cqe, preview_channels, preview_rings.
  apply untouched_fold. intros ?. apply preview_feature.
Qed.

Lemma preview_sysctls cfg : untouched (applySysctls cfg true).
Proof. apply untouched_fold. intros [k v] t. unfold sysctl_step. cbv zeta. case_match; done. Qed.

Lemma preview_irqs cfg ifc : untouched (fun t => applyIRQAffinity cfg true t ifc).
Proof.
  intros t. unfold applyIRQAffinity. destruct (ifaceIRQs ifc (t_w t)), (numaCores cfg ifc (t_w t)); try done.
  apply untouched_fold. intros [i q] t'. unfold irq_step. cbv zeta. case_match; done.
Qed.

Lemma preview_governor cfg : untouched (applyGovernor cfg true).
Proof.
  intros t. unfold applyGovernor. cbv zeta. transitivity (t_w (fold_left (governor_step true (if String.eqb (Governor (Tun cfg)) "" then "performance" else Governor (Tun cfg)))
    (glob "/sys/devices/system/cpu/cpu[0-9]*/cpufreq/scaling_governor" (t_w t)) t)); [case_match; done|].
  apply untouched_fold. intros p t'. unfold governor_step. case_match; done.
Qed.

(** A dry run changes nothing: previewing the profile leaves the machine
    as it was, whatever the configuration asks for, as long as asking systemd
    whether irqbalance runs has no effect of its own. *)
Theorem preview_harmless cfg (t : Tuner (W:=W)) : (forall w : W, snd (command is_active_query w) = w) ->
  t_w (Apply rng json_marshal cfg true t) = t_w t.
Proof.
  intros Hq. unfold Apply. destruct (Tune cfg); [|done]. cbn [negb]. unfold commonChannels. cbv zeta.
  rewrite preview_governor.
  set (t1 := fold_left (applyEthtool _ _ _ _) _ _).
  transitivity (t_w t1).
  - case_match; [|done]. rewrite untouched_fold by (intros ?; apply preview_irqs). unfold applyIRQBalance.
    pose proof (Hq (t_w t1)) as Hw. unfold is_active_query in Hw. destruct (command _ (t_w t1)) as [active w]. cbn [snd] in Hw.
    subst w. case_match; done.
  - unfold t1. rewrite untouched_fold by (intros ?; apply preview_ethtool).
    repeat (case_match; cbn [t_w logf]); apply preview_sysctls.
Qed.
End Preview.

(** ** The laws of value files *)

Definition value_file (p : string) : bool := HasPrefix p "/proc/sys/" || HasPrefix p "/sys/devices/system/cpu/".

(** What [filepath.Glob] and [os.WriteFile] promise: matches of the pattern,
    each once, and a file that was written holds what was written. *)
Class MachineLaws (W : Type) `{Machine W} := {
  glob_governors : forall w p, p ∈ glob "/sys/devices/system/cpu/cpu[0-9]*/cpufreq/scaling_governor" w ->
    HasPrefix p "/sys/devices/system/cpu/" = true;
  glob_nodup : forall pat w, NoDup (glob pat w);
  snapshot_written : forall s w, fst (write_file SnapshotPath s w) = true -> read_file SnapshotPath (snd (write_file SnapshotPath s w)) = Some s
}.

(** A value file of its own, on a machine that was in [w0]: it is not created
    by writing, takes a value or refuses it, takes back what it first showed,
    and neither another file nor a command changes it. *)
Record own_value {W : Type} `{Machine W} (w0 : W) (file : string) : Prop := {
  ov_value : value_file file = true;
  ov_write : forall s w, match read_file file w with
    | None => read_file file (snd (write_file file s w)) = None
    | Some b => exists b', read_file file (snd (write_file file s w)) = Some b' /\
                           TrimSpace b' = (if fst (write_file file s w) then TrimSpace s else TrimSpace b)
    end;
  ov_back : forall w, read_file file w <> None -> fst (write_file file (readFileTrim file w0) w) = true;
  ov_other : forall p s w, p <> file -> read_file file (snd (write_file p s w)) = read_file file w;
  ov_command : forall args w, read_file file (snd (command args w)) = read_file file w;
  ov_mkdir : forall p w, read_file file (snd (mkdir_all p w)) = read_file file w;
  ov_remove : forall p w, p <> file -> read_file file (remove_file p w) = read_file file w
}.

Section Restore.
Context {W : Type} `{MachineLaws W}.
Context (rng : forall A, gmap string A -> list (string * A)) (rng_perm : forall A m, rng A m ≡ₚ map_to_list m).
Context (json_marshal : Snapshot -> string) (json_unmarshal : string -> option Snapshot).
(** The machine before. *)
Context (w0 : W).

Section File.
Context (file : string) (Hown : own_value w0 file).

(** *** What is known of the file *)

(** Unless it is in [D] the file reads as before, and it still exists or still does not. *)
Definition keeps (D : gset string) (w : W) : Prop :=
  (read_file file w0 = None <-> read_file file w = None) /\ (file ∉ D -> readFileTrim file w = readFileTrim file w0).

Lemma keeps_refl : keeps ∅ w0.
Proof. done. Qed.

Lemma keeps_mono D D' w : D ⊆ D' -> keeps D w -> keeps D' w.
Proof. intros Hs [He Hr]. split; [done|]. set_solver. Qed.

Lemma keeps_same D w w' : read_file file w' = read_file file w -> keeps D w -> keeps D w'.
Proof. intros Hs Hk. unfold keeps, readFileTrim. now rewrite Hs. Qed.

Lemma keeps_command D w args : keeps D w -> keeps D (snd (command args w)).
Proof. apply keeps_same, (ov_command _ _ Hown). Qed.

Lemma keeps_write D w p s : (value_file p = true -> p ∈ D) -> keeps D w -> keeps D (snd (write_file p s w)).
Proof.
  intros HD Hk. destruct (decide (p = file)) as [->|Hn]; [|now apply (keeps_same _ w); [apply (ov_other _ _ Hown)|]].
  destruct Hk as [He Hr]. split; [|intros Hx; destruct Hx; apply HD, (ov_value _ _ Hown)].
  rewrite He. pose proof (ov_write _ _ Hown s w) as Hw.
  destruct (read_file file w); [destruct Hw as (b' & -> & _); done | rewrite Hw; done].
Qed.

(** Writing the file's first reading back takes it off the list. *)
Lemma keeps_write_back D w p v : (p = file -> v = readFileTrim file w0) -> keeps D w -> keeps (D ∖ {[p]}) (snd (write_file p v w)).
Proof.
  intros Hv Hk. destruct (decide (p = file)) as [->|Hn].
  - rewrite Hv by done. destruct Hk as [He _]. pose proof (ov_write _ _ Hown (readFileTrim file w0) w) as Hw.
    pose proof (ov_back _ _ Hown w) as Hback. unfold keeps, readFileTrim in *.
    destruct (read_file file w0) as [b0|] eqn:E0, (read_file file w) as [b|] eqn:E;
      [| discriminate (proj2 He eq_refl) | discriminate (proj1 He eq_refl) |].
    + rewrite Hback in Hw by done. destruct Hw as (b' & -> & Hb). rewrite TrimSpace_idem in Hb. now split.
    + now rewrite Hw.
  - apply (keeps_same _ w); [now apply (ov_other _ _ Hown)|]. destruct Hk as [He Hr]. split; [done|]. intros Hx. apply Hr. set_solver.
Qed.

(** *** What is known of the snapshot *)

Definition recorded (s : Snapshot) : gset string := set_map sysctl_path (dom (Sysctls s)) ∪ dom (Governors s).

(** What is recorded for the file is its first reading. *)
Definition faithful (s : Snapshot) : Prop :=
  map_Forall (fun k v => sysctl_path k = file -> v = readFileTrim file w0) (Sysctls s) /\
  map_Forall (fun p v => p = file -> v = readFileTrim file w0) (Governors s).

(** The invariant of [Apply]: if the file changed it is in the snapshot, with its first reading. *)
Definition tuned (t : Tuner (W:=W)) : Prop := keeps (recorded (t_snap t)) (t_w t) /\ faithful (t_snap t).

Definition same_values (s s' : Snapshot) : Prop := Sysctls s' = Sysctls s /\ Governors s' = Governors s.

(** From [t] to [t'] only commands ran and other things were written and recorded. *)
Definition aside (t t' : Tuner (W:=W)) : Prop :=
  same_values (t_snap t) (t_snap t') /\ (forall D, keeps D (t_w t) -> keeps D (t_w t')).

#[global] Instance aside_preorder : PreOrder aside.
Proof.
  split; [intros t; split; [split|]; done|]. intros t1 t2 t3 [[E1 E2] Hw] [[E3 E4] Hw']. split; [split; congruence | auto].
Qed.

Lemma aside_tuned t t' : aside t t' -> tuned t -> tuned t'.
Proof. intros [[E1 E2] Hw] [Hk Hs]. unfold tuned, faithful, recorded. rewrite E1, E2. split; [now apply Hw | exact Hs]. Qed.

Lemma aside_recorded t t' : aside t t' -> recorded (t_snap t') = recorded (t_snap t).
Proof. intros [[E1 E2] _]. unfold recorded. now rewrite E1, E2. Qed.

Lemma aside_fold {A} (f : Tuner (W:=W) -> A -> Tuner (W:=W)) l t : (forall t x, aside t (f t x)) -> aside t (fold_left f l t).
Proof.
  intros Hf. revert t. induction l as [|x l IH]; intros t; [reflexivity|]. cbn [fold_left]. now rewrite <- IH.
Qed.

Lemma aside_log line t t' : aside t t' -> aside t (logf line t').
Proof. intros ->. split; [split|]; done. Qed.

Lemma aside_snap f t t' : (forall s, same_values s (f s)) -> aside t t' -> aside t (snapped f t').
Proof. intros Hf ->. split; [apply Hf | done]. Qed.

Lemma aside_machine args t t' : aside t t' -> aside t (mkTuner (t_out t') (t_snap t') (snd (command args (t_w t')))).
Proof. intros ->. split; [done|]. intros D. apply keeps_command. Qed.

Lemma aside_run desc args t t' : aside t t' -> aside t (runStep desc args t').
Proof.
  intros Ht. unfold runStep. pose proof (aside_machine args t t' Ht) as Hc.
  destruct (command args (t_w t')) as [ok w]. destruct ok; [done | now apply aside_log].
Qed.

Lemma aside_write p s t t' : value_file p = false -> aside t t' -> aside t (doing (write_file p s) t').
Proof using Hown. intros Hp ->. split; [done|]. intros D. apply keeps_write. congruence. Qed.

(** *** The steps of [Apply] that leave value files alone *)

Ltac stepping := repeat first
  [ reflexivity | apply aside_log | apply aside_run | apply aside_snap; [done|] | apply aside_write; [done|] | case_match ].

Context (cfg : Config).

Lemma aside_feature ifc t fw : aside t (feature_step false ifc t fw).
Proof. destruct fw. unfold feature_step. cbv zeta. stepping. Qed.
Lemma aside_rings ifc t : aside t (apply_rings cfg false ifc t).
Proof. unfold apply_rings. cbv zeta. stepping. Qed.
Lemma aside_channels ifc n t : aside t (apply_channels false ifc n t).
Proof. unfold apply_channels. cbv zeta. stepping. Qed.
Lemma aside_cqe ifc t : aside t (apply_cqe cfg false ifc t).
Proof. unfold apply_cqe. cbv zeta. stepping. Qed.

Lemma aside_rss ifc t : aside t (apply_rss cfg false ifc t).
Proof.
  unfold apply_rss. destruct (ptrOrTrue _); [|reflexivity]. cbv zeta.
  pose proof (aside_machine ["ethtool"; "-X"; ifc; "hfunc"; "toeplitz"; "xfrm"; "symmetric-xor"] t _ (aside_log
    ("ethtool -X " ++ ifc ++ " hfunc toeplitz xfrm symmetric-xor (RSS symmetry)") t t (reflexivity t))) as Hc.
  destruct (command _ _) as [ok w]. destruct ok; [exact Hc | now apply aside_run].
Qed.

Lemma aside_ethtool n t ifc : aside t (applyEthtool rng cfg false n t ifc).
Proof.
  unfold applyEthtool. rewrite <- aside_rss, <- aside_cqe, <- aside_channels, <- aside_rings.
  apply aside_fold. intros. apply aside_feature.
Qed.

Lemma irq_not_value irq : value_file (irq_path irq) = false.
Proof. reflexivity. Qed.

Lemma aside_irqs t ifc : aside t (applyIRQAffinity cfg false t ifc).
Proof.
  unfold applyIRQAffinity. destruct (ifaceIRQs ifc (t_w t)), (numaCores cfg ifc (t_w t)); try reflexivity.
  apply aside_fold. intros t' [i q]. unfold irq_step. cbv zeta. stepping.
Qed.

Lemma aside_irqbalance t : aside t (applyIRQBalance false t).
Proof.
  unfold applyIRQBalance. pose proof (aside_machine ["systemctl"; "is-active"; "--quiet"; "irqbalance"] t t (reflexivity t)) as Hc.
  destruct (command _ _) as [active w]. cbv zeta. case_match.
  - apply aside_run, aside_log, aside_snap; done.
  - now apply aside_snap.
Qed.

(** *** The steps that change value files *)

Lemma prefix_value p : HasPrefix p "/sys/devices/system/cpu/" = true -> value_file p = true.
Proof. intros Hp. unfold value_file. rewrite Hp. apply orb_true_r. Qed.

Lemma HasPrefix_split s p : HasPrefix s p = true <-> exists r, s = p ++ r.
Proof.
  unfold HasPrefix. destruct (cut_prefix p s) as [r|] eqn:E.
  - apply cut_prefix_some in E. split; eauto.
  - split; [done|]. intros [r Hr%cut_prefix_some]. congruence.
Qed.

Lemma sysctl_value k : value_file (sysctl_path k) = true.
Proof. unfold value_file. rewrite (proj2 (HasPrefix_split (sysctl_path k) "/proc/sys/")); [done|]. now eexists. Qed.

Lemma governor_not_sysctl p k : HasPrefix p "/sys/devices/system/cpu/" = true -> p <> sysctl_path k.
Proof. intros [r ->]%HasPrefix_split. discriminate. Qed.

(** [t'] is [t] with at most the file [p] changed, and then recorded. *)
Definition visited (p : string) (t t' : Tuner (W:=W)) : Prop :=
  tuned t' /\ recorded (t_snap t') ⊆ {[p]} ∪ recorded (t_snap t).

Lemma visited_skip p t : tuned t -> visited p t t.
Proof. intros Ht. split; [done|]. set_solver. Qed.

Lemma fold_visits {A} (f : Tuner (W:=W) -> A -> Tuner (W:=W)) (path : A -> string) l :
  (forall x t, x ∈ l -> tuned t -> path x ∉ recorded (t_snap t) -> visited (path x) t (f t x)) ->
  forall t, NoDup (map path l) -> tuned t -> (forall x, x ∈ l -> path x ∉ recorded (t_snap t)) ->
  tuned (fold_left f l t) /\ recorded (t_snap (fold_left f l t)) ⊆ list_to_set (map path l) ∪ recorded (t_snap t).
Proof.
  induction l as [|x l IH]; intros Hf t Hnd Ht Hnew; cbn [fold_left map list_to_set]; [split; [done | set_solver]|].
  apply NoDup_cons in Hnd as [Hx Hnd]. destruct (Hf x t) as [Ht' Hr]; [left | done | apply Hnew; left|].
  destruct (IH (fun y t Hy => Hf y t (list_elem_of_further _ _ _ Hy)) (f t x) Hnd Ht') as [H1 H2].
  - intros y Hy Hin. apply Hr, elem_of_union in Hin as [Hin%elem_of_singleton | Hin].
    + apply Hx. rewrite <- Hin. apply list_elem_of_fmap. eauto.
    + exact (Hnew y (list_elem_of_further _ _ _ Hy) Hin).
  - split; [done|]. intros y [Hy|Hy%Hr%elem_of_union]%H2%elem_of_union; rewrite !elem_of_union; tauto.
Qed.

(** Recording the current reading of a file not recorded yet, and writing it. *)
Lemma visit_record p s (f : Snapshot -> Snapshot) t : value_file p = true -> tuned t -> p ∉ recorded (t_snap t) ->
  recorded (f (t_snap t)) = {[p]} ∪ recorded (t_snap t) -> faithful (f (t_snap t)) ->
  visited p t (doing (write_file p s) (snapped f t)).
Proof.
  intros Hp [Hk Hs] Hnew Hrec Hf. split; [|cbn; now rewrite Hrec]. split; [|exact Hf]. cbn [t_snap snapped doing t_w].
  rewrite Hrec. apply keeps_write; [set_solver|]. eapply keeps_mono; [|exact Hk]. set_solver.
Qed.

Lemma aside_visited p t t' t'' : visited p t t' -> aside t' t'' -> visited p t t''.
Proof.
  intros [Ht Hr] Ha. split; [now apply (aside_tuned t') | now rewrite (aside_recorded _ _ Ha)].
Qed.

Lemma visit_sysctl kv t : tuned t -> sysctl_path (fst kv) ∉ recorded (t_snap t) ->
  visited (sysctl_path (fst kv)) t (sysctl_step false t kv).
Proof.
  destruct kv as [k v]. cbn [fst]. intros Ht Hnew. unfold sysctl_step. cbv zeta.
  destruct (String.eqb _ v); [now apply visited_skip|].
  set (cur := readSysctl k (t_w t)). destruct Ht as [Hk [Hs Hg]].
  pose proof (visit_record (sysctl_path k) v (fun s => set_sysctls (<[k := cur]> (Sysctls s)) s) t (sysctl_value k)) as Hv.
  assert (Hvis: visited (sysctl_path k) t (doing (write_file (sysctl_path k) v) (snapped (fun s => set_sysctls (<[k := cur]> (Sysctls s)) s) t))).
  { apply Hv; [done | done | |].
    - unfold recorded. cbn [Sysctls Governors set_sysctls]. rewrite dom_insert_L, set_map_union_L, set_map_singleton_L. set_solver.
    - split; [|exact Hg]. cbn [Sysctls set_sysctls]. apply map_Forall_insert_2; [|exact Hs].
      intros Hf. unfold cur, readSysctl. rewrite Hf in Hnew |- *. exact (proj2 Hk Hnew). }
  eapply aside_visited; [exact Hvis|]. unfold doing, writeSysctl, snapped, logf. cbn [t_w t_snap t_out].
  destruct (write_file (sysctl_path k) v (t_w t)) as [ok w]. destruct ok; (split; [split|]; done).
Qed.

Lemma visit_governor want p t : HasPrefix p "/sys/devices/system/cpu/" = true -> tuned t -> p ∉ recorded (t_snap t) ->
  visited p t (governor_step false want t p).
Proof.
  intros Hp Ht Hnew. unfold governor_step. cbv zeta. case_match; [now apply visited_skip|]. destruct Ht as [Hk [Hs Hg]].
  apply visit_record; [now apply prefix_value | done | done | |].
  - unfold recorded. cbn [Sysctls Governors set_governors]. rewrite dom_insert_L. set_solver.
  - split; [exact Hs|]. cbn [Governors set_governors]. apply map_Forall_insert_2; [|exact Hg].
    intros ->. exact (proj2 Hk Hnew).
Qed.

Lemma tuned_sysctls t : tuned t -> recorded (t_snap t) = ∅ ->
  tuned (applySysctls cfg false t) /\ forall p, p ∈ recorded (t_snap (applySysctls cfg false t)) -> exists k, p = sysctl_path k.
Proof.
  intros Ht He. unfold applySysctls.
  destruct (fold_visits (sysctl_step false) (fun kv => sysctl_path (fst kv)) (wanted_sysctls cfg)
    (fun kv t _ => visit_sysctl kv t) t) as [H1 H2].
  - unfold wanted_sysctls. destruct (NetdevBacklog _ =? 0), (NetdevBudget _ =? 0); apply (bool_decide_unpack _); vm_compute; exact I.
  - done.
  - rewrite He. set_solver.
  - assert (Ha: aside (fold_left (sysctl_step false) (wanted_sysctls cfg) t)
                      (doing (writeSysctlPersist (wanted_sysctls cfg)) (fold_left (sysctl_step false) (wanted_sysctls cfg) t)))
      by (apply aside_write; reflexivity).
    cbv iota zeta. split; [exact (aside_tuned _ _ Ha H1)|]. rewrite (aside_recorded _ _ Ha). intros p Hp%H2. rewrite He, union_empty_r_L in Hp.
    apply elem_of_list_to_set, list_elem_of_fmap in Hp as (kv & -> & _). now eexists.
Qed.

Lemma tuned_governor t : tuned t -> (forall p, p ∈ recorded (t_snap t) -> exists k, p = sysctl_path k) -> tuned (applyGovernor cfg false t).
Proof.
  intros Ht Hr. unfold applyGovernor. cbv zeta.
  set (want := if String.eqb _ _ then _ else _). set (paths := glob _ _).
  assert (Hp: forall p, p ∈ paths -> HasPrefix p "/sys/devices/system/cpu/" = true) by apply glob_governors.
  destruct (fold_visits (governor_step false want) id paths (fun p t Hin => visit_governor want p t (Hp p Hin)) t) as [H1 _].
  - rewrite map_id. apply glob_nodup.
  - done.
  - intros p Hin Hx. apply Hr in Hx as [k Hk]. exact (governor_not_sysctl p k (Hp p Hin) Hk).
  - case_match; [|done]. eapply aside_tuned; [|exact H1]. apply aside_log. reflexivity.
Qed.

(** Up to the saving of the snapshot, which [Apply] does last. *)
Lemma tuned_apply t0 t1 : t1 = applySysctls cfg false t0 -> tuned t0 -> recorded (t_snap t0) = ∅ -> forall t2, aside t1 t2 -> tuned (applyGovernor cfg false t2).
Proof.
  intros -> Ht He t2 Ha. destruct (tuned_sysctls t0 Ht He) as [H1 Hr].
  apply tuned_governor; [now apply (aside_tuned _ _ Ha) | rewrite (aside_recorded _ _ Ha); exact Hr].
Qed.

Lemma aside_middle n t : aside t (fold_left (applyEthtool rng cfg false n) [TrustedIface cfg; UntrustedIface cfg] t).
Proof. apply aside_fold. intros. apply aside_ethtool. Qed.

Lemma aside_interrupts t : aside t (fold_left (applyIRQAffinity cfg false) [TrustedIface cfg; UntrustedIface cfg] (applyIRQBalance false t)).
Proof. rewrite (aside_irqbalance t) at 1. apply aside_fold. intros. apply aside_irqs. Qed.

Lemma keeps_write_backs (path : string -> string) (l : list (string * string)) : forall D w,
  (forall k v, (k, v) ∈ l -> path k = file -> v = readFileTrim file w0) -> keeps D w ->
  keeps (D ∖ list_to_set (map (path ∘ fst) l)) (fold_left (fun w kv => snd (write_file (path (fst kv)) (snd kv) w)) l w).
Proof.
  induction l as [|[k v] l IH]; intros D w Hl Hk; cbn [fold_left map list_to_set fst snd compose]; [now rewrite difference_empty_L|].
  assert (Hv : path k = file -> v = readFileTrim file w0) by (apply (Hl k v); left). rewrite difference_union_distr_r_L. 
  replace (_ ∩ _) with ((D ∖ {[path k]}) ∖ list_to_set (map (path ∘ fst) l)) by (clear; set_solver).
  apply IH; [intros k' v' Hin; apply (Hl k' v'); now right | now apply keeps_write_back].
Qed.

Lemma keeps_write_back_map path (m : gmap string string) D w :
  map_Forall (fun k v => path k = file -> v = readFileTrim file w0) m -> keeps D w ->
  keeps (D ∖ set_map path (dom m)) (write_back rng path m w).
Proof.
  intros Hm Hk. unfold write_back. eapply keeps_mono; [|apply keeps_write_backs; [|exact Hk]].
  - intros p. rewrite !elem_of_difference. intros [Hp Hn]. split; [done|]. intros (k & -> & [v Hv]%elem_of_dom)%elem_of_map.
    apply Hn, elem_of_list_to_set, list_elem_of_fmap. exists (k, v). split; [done|]. rewrite rng_perm. now apply elem_of_map_to_list.
  - intros k v Hin. rewrite rng_perm in Hin. apply elem_of_map_to_list in Hin. exact (Hm k v Hin).
Qed.

Lemma keeps_run_back {A} (cmd : string -> A -> list string) m D w : keeps D w -> keeps D (run_back rng cmd m w).
Proof.
  unfold run_back. generalize (rng _ m). intros l. revert w. induction l as [|kv l IH]; intros w Hk; [done|]. apply IH, keeps_command, Hk.
Qed.

Lemma keeps_run_back2 cmd m D w : keeps D w -> keeps D (run_back2 rng cmd m w).
Proof.
  unfold run_back2. generalize (rng _ m). intros l. revert w. induction l as [|kv l IH]; intros w Hk; [done|]. apply IH, keeps_run_back, Hk.
Qed.

Lemma keeps_write_irqs (m : gmap string string) D w : keeps D w -> keeps D (write_back rng irq_path m w).
Proof.
  unfold write_back. generalize (rng _ m). intros l. revert w. induction l as [|kv l IH]; intros w Hk; [done|].
  apply IH, keeps_write; [done | exact Hk].
Qed.

Lemma restore_all_keeps s w : keeps (recorded s) w -> faithful s -> keeps ∅ (restore_all rng s w).
Proof.
  intros Hk [Hs Hg]. unfold restore_all. cbv zeta.
  assert (H1: keeps (recorded s ∖ set_map sysctl_path (dom (Sysctls s)) ∖ set_map id (dom (Governors s)))
    (write_back rng id (Governors s) (write_back rng irq_path (IRQAffinity s)
      (run_back2 rng (fun ifc f v => ["ethtool"; "--set-priv-flags"; ifc; f; v]) (PrivFlags s)
      (run_back rng (fun ifc c => ["ethtool"; "-L"; ifc; "combined"; c]) (ChannelsOf s)
      (run_back rng (fun ifc rt => ["ethtool"; "-G"; ifc; "rx"; fst rt; "tx"; snd rt]) (Rings s)
      (run_back2 rng (fun ifc f v => ["ethtool"; "-K"; ifc; f; v]) (EthFeatures s)
      (write_back rng sysctl_path (Sysctls s) w)))))))).
  { apply keeps_write_back_map.
    - exact Hg.
    - apply keeps_write_irqs, keeps_run_back2, keeps_run_back, keeps_run_back, keeps_run_back2, keeps_write_back_map; [exact Hs | exact Hk]. }
  apply (keeps_mono _ ∅) in H1.
  - destruct (IrqbalanceWasActive s); [now apply keeps_command | done].
  - intros p. unfold recorded. rewrite !elem_of_difference, elem_of_union. intros [[[Hp|Hp] H2] H3]; [done|].
    destruct H3. apply elem_of_map. now exists p.
Qed.

End File.

Context (cfg : Config).

Definition applied : Tuner (W:=W) := Apply rng json_marshal cfg false (New w0).
Definition save_warning : string := "warning: could not save tuning snapshot".

(** [Apply] ends by saving a snapshot that covers every file of its own. *)
Lemma applied_saves : Tune cfg = true -> exists t, (forall file, own_value w0 file -> tuned file t) /\
  applied = (let '(ok, w) := saveSnapshot json_marshal (t_snap t) (t_w t) in
             let t := mkTuner (t_out t) (t_snap t) w in if ok then t else logf save_warning t).
Proof.
  intros Ht. unfold applied, Apply. rewrite Ht. cbn [negb]. unfold commonChannels. cbv zeta.
  eexists. split; [|reflexivity]. intros file Hown.
  apply (tuned_apply file Hown cfg (New w0) _ eq_refl); [split; [apply keeps_refl | split; apply map_Forall_empty] | reflexivity |].
  match goal with |- context [if ?b then fold_left (applyIRQAffinity cfg false) _ _ else _] => destruct b end;
    rewrite <- ?(aside_interrupts file Hown), <- (aside_middle file Hown);
    repeat first [reflexivity | apply aside_log | case_match].
Qed.

Lemma saved_text s w : let '(ok, w') := saveSnapshot json_marshal s w in ok = true -> read_file SnapshotPath w' = Some (json_marshal s).
Proof.
  unfold saveSnapshot. destruct (mkdir_all "/var/lib/xdpfilter" w) as [[|] w1]; cbn [negb]; [|done].
  pose proof (snapshot_written (json_marshal s) w1) as Hs. destruct (write_file SnapshotPath _ w1) as [ok w2]. exact Hs.
Qed.

Lemma keeps_save file D s w : own_value w0 file -> keeps file D w -> keeps file D (snd (saveSnapshot json_marshal s w)).
Proof.
  intros Hown Hk. unfold saveSnapshot. apply (keeps_same _ _ _ (snd (mkdir_all "/var/lib/xdpfilter" w))) in Hk; [|apply (ov_mkdir _ _ Hown)].
  destruct (mkdir_all "/var/lib/xdpfilter" w) as [[|] w1]; cbn [negb snd] in *; [|done]. now apply keeps_write.
Qed.

Lemma restore_readings : Tune cfg = true -> (forall s, json_unmarshal (json_marshal s) = Some s) ->
  let '(ok, w) := Restore rng json_unmarshal (t_w applied) in
  (ok = false -> w = t_w applied) /\
  (save_warning ∉ t_out applied -> ok = true /\ forall file, own_value w0 file -> readFileTrim file w = readFileTrim file w0).
Proof.
  intros Ht Hjson. destruct (applied_saves Ht) as (t & Htuned & Happ).
  assert (Hfail : fst (Restore rng json_unmarshal (t_w applied)) = false -> snd (Restore rng json_unmarshal (t_w applied)) = t_w applied)
    by (unfold Restore; repeat (case_match; try done)).
  assert (Hok : save_warning ∉ t_out applied -> read_file SnapshotPath (t_w applied) = Some (json_marshal (t_snap t)) /\
    forall file, own_value w0 file -> keeps file (recorded (t_snap t)) (t_w applied) /\ faithful file (t_snap t)).
  { rewrite Happ. pose proof (saved_text (t_snap t) (t_w t)) as Hs.
    pose proof (fun file Ho => keeps_save file (recorded (t_snap t)) (t_snap t) (t_w t) Ho (proj1 (Htuned file Ho))) as Hk.
    destruct (saveSnapshot json_marshal (t_snap t) (t_w t)) as [[|] w]; cbn [t_w t_out logf snd] in *.
    - intros _. split; [now apply Hs|]. intros file Ho. split; [now apply Hk | apply (Htuned file Ho)].
    - intros Hw. destruct Hw. set_solver. }
  destruct (Restore rng json_unmarshal (t_w applied)) as [ok w] eqn:E. split; [exact Hfail|]. intros Hw. destruct (Hok Hw) as [Hread Hkeep].
  revert E. unfold Restore. rewrite Hread, Hjson. intros [= <- <-]. split; [done|]. intros file Ho. destruct (Hkeep file Ho) as [Hk Hs].
  unfold readFileTrim at 1. rewrite (ov_remove _ _ Ho) by (intros <-; discriminate (ov_value _ _ Ho)).
  exact (proj2 (restore_all_keeps file Ho _ _ Hk Hs) ltac:(set_solver)).
Qed.

(** C23. A restore undoes the profile.  If [Apply] did not warn that it could
    not save the snapshot, then [Restore] succeeds and every sysctl and CPU
    governor that is a value of its own reads what it read before [Apply],
    whatever the configuration tuned, whichever of [Apply]'s writes and commands
    failed on the way, and in whatever order Go visits the snapshot's maps.  And
    a restore that finds no snapshot it can read changes nothing. *)
Theorem tune_restore : Tune cfg = true -> (forall s, json_unmarshal (json_marshal s) = Some s) ->
  let '(ok, w) := Restore rng json_unmarshal (t_w applied) in
  (ok = false -> w = t_w applied) /\
  (save_warning ∉ t_out applied -> ok = true /\ forall file, own_value w0 file -> readFileTrim file w = readFileTrim file w0).
Proof. exact restore_readings. Qed.
End Restore.
