(* ===== verification/TuneRef.v ===== *)
(** * TuneRef: a machine that keeps the laws, and what a restart does on it

    A machine whose files are a finite map: value files take any value and are
    not created, commands change no file, and a directory cannot be made where
    a file is.  The witnesses of the tuning
    theorems run on it, and the loss of the originals at the second start of
    the daemon. *)

From Stdlib Require Import ZArith Lia Bool Ascii String.
From stdpp Require Import prelude strings list gmap sorting countable.
From S2P Require Import Prelude GoText TextLemmas Config Tune TuneRestore.

Local Open Scope string_scope.
Local Open Scope Z_scope.

Definition Files : Type := gmap string string.

Definition is_governor (p : string) : bool :=
  HasPrefix p "/sys/devices/system/cpu/" && HasSuffix p "/cpufreq/scaling_governor".

#[export] Instance file_machine : Machine Files := {|
  read_file p w := w !! p;
  write_file p s w :=
    if value_file p then match w !! p with None => (false, w) | Some _ => (true, <[p := s]> w) end
    else (true, <[p := s]> w);
  read_dir _ _ := None;
  glob _ w := List.filter is_governor (map fst (map_to_list w));
  command _ w := (true, w);
  command_output _ _ := None;
  mkdir_all p w := (bool_decide (w !! p = None), w);      (* a plain file may stand in the way *)
  remove_file p w := delete p w
|}.

#[export] Instance file_machine_laws : MachineLaws Files.
Proof.
  split; unfold read_file, write_file, glob, file_machine.
  - intros w p [_ Hp]%list_elem_of_In%filter_In. now apply andb_true_iff in Hp.
  - intros _ w. apply NoDup_ListNoDup, NoDup_filter, NoDup_ListNoDup, NoDup_fst_map_to_list.
  - intros s w _. cbn [value_file]. apply lookup_insert_eq.
Defined.

Lemma file_machine_own (w0 : Files) file : value_file file = true -> own_value w0 file.
Proof.
  intros Hf. split; unfold read_file, write_file, command, mkdir_all, remove_file, file_machine; try done.
  - intros s w. rewrite Hf. destruct (w !! file) as [b|] eqn:E; [|done]. exists s. split; [apply lookup_insert_eq | done].
  - intros w Hw. rewrite Hf. now destruct (w !! file).
  - intros p s w Hn. destruct (value_file p); [destruct (w !! p)|]; cbn [snd]; try done; now apply lookup_insert_ne.
  - intros p w Hn. now apply lookup_delete_ne.
Qed.

(** ** An encoding of snapshots as text *)

#[export] Instance snapshot_eq_dec : EqDecision Snapshot.
Proof. solve_decision. Defined.

#[export] Instance snapshot_countable : Countable Snapshot.
Proof.
  refine (inj_countable' (fun s => (Sysctls s, EthFeatures s, Rings s, ChannelsOf s, PrivFlags s, IRQAffinity s, Governors s, IrqbalanceWasActive s))
    (fun '(a, b, c, d, e, f, g, h) => mkSnapshot a b c d e f g h) _). now intros [].
Defined.

Fixpoint bits_text (p : positive) : string :=
  match p with xH => "" | xO p => String "0" (bits_text p) | xI p => String "1" (bits_text p) end.
Fixpoint text_bits (s : string) : positive :=
  match s with EmptyString => xH | String c r => if Ascii.eqb c "0" then xO (text_bits r) else xI (text_bits r) end.

Lemma text_bits_text p : text_bits (bits_text p) = p.
Proof. induction p as [p IH|p IH|]; cbn; now rewrite ?IH. Qed.

Definition marshal (s : Snapshot) : string := bits_text (encode s).
Definition unmarshal (b : string) : option Snapshot := decode (text_bits b).

Lemma unmarshal_marshal s : unmarshal (marshal s) = Some s.
Proof. unfold unmarshal, marshal. rewrite text_bits_text. apply decode_encode. Qed.

Definition in_order (A : Type) (m : gmap string A) : list (string * A) := map_to_list m.

Lemma in_order_perm A m : in_order A m ≡ₚ map_to_list m.
Proof. done. Qed.

(** ** A box before its first start *)

Definition governor0 : string := "/sys/devices/system/cpu/cpu0/cpufreq/scaling_governor".
Definition fresh_box : Files :=
  {[ sysctl_path "net.core.bpf_jit_enable" := "0"; sysctl_path "kernel.numa_balancing" := "1"; governor0 := "powersave" ]}.

Definition started (w : Files) : Files := t_w (Apply in_order marshal Default false (New w)).

Theorem preview_harmless_witness : t_w (Apply in_order marshal Default true (New fresh_box)) = fresh_box.
Proof. apply (preview_harmless in_order marshal Default (New fresh_box)). reflexivity. Defined.

(** The profile warned of nothing on this box. *)
Lemma saved_here (w : Files) : List.existsb (String.eqb save_warning) (t_out (Apply in_order marshal Default false (New w))) = false ->
  save_warning ∉ t_out (Apply in_order marshal Default false (New w)).
Proof. intros Hw Hin%list_elem_of_In. apply not_true_iff_false in Hw. apply Hw, existsb_exists. eexists. split; [exact Hin | apply String.eqb_refl]. Qed.

Theorem tune_restore_witness : readFileTrim governor0 (started fresh_box) = "performance" /\
  readFileTrim governor0 (snd (Restore in_order unmarshal (started fresh_box))) = "powersave".
Proof.
  split; [vm_compute; reflexivity|].
  pose proof (tune_restore in_order in_order_perm marshal unmarshal fresh_box Default eq_refl unmarshal_marshal) as Hr.
  change (t_w (applied _ _ _ _)) with (started fresh_box) in Hr.
  destruct (Restore in_order unmarshal (started fresh_box)) as [ok w]. destruct Hr as [_ Hr].
  cbn [snd]. destruct Hr as [_ Hr]; [apply saved_here; vm_compute; reflexivity|].
  rewrite Hr by (apply file_machine_own; reflexivity). vm_compute. reflexivity.
Defined.

(** The snapshot comes last and its failure is only a warning: a box whose
    state directory cannot be made is tuned all the same, and cannot be put
    back. *)
Definition blocked_box : Files := <["/var/lib/xdpfilter" := ""]> fresh_box.

Example unsaved_profile_stays :
  (let '(ok, w) := Restore in_order unmarshal (started blocked_box) in (ok, readFileTrim governor0 w)) = (false, "performance").
Proof. vm_compute. reflexivity. Qed.

(** The daemon applies the profile at every start.  The second start finds the
    box tuned, and its snapshot takes the place of the first: a restore then
    puts back what the second start found, and the originals are gone. *)
Example second_start_loses_originals :
  readFileTrim governor0 (snd (Restore in_order unmarshal (started (started fresh_box)))) = "performance".
Proof.
  pose proof (restore_readings in_order in_order_perm marshal unmarshal (started fresh_box) Default eq_refl unmarshal_marshal) as Hr.
  change (t_w (applied _ _ _ _)) with (started (started fresh_box)) in Hr.
  destruct (Restore in_order unmarshal (started (started fresh_box))) as [ok w]. destruct Hr as [_ Hr].
  cbn [snd]. destruct Hr as [_ Hr]; [apply saved_here; vm_compute; reflexivity|].
  rewrite Hr by (apply file_machine_own; reflexivity). vm_compute. reflexivity.
Qed.
