(* ===== verification/Daemon.v ===== *)
(** * Daemon: cmd/xdpfilter/main.go

    The long-running process: the live reload with its rollbacks, the sweep
    worker, the file watch with its inotify buffer and debounce, the shutdown,
    and the subcommands that act on a running datapath.

    The kernel and the loader are those of Loader.v, the configuration file
    that of ConfigFile.v, the tuning machine that of Tune.v.  systemctl, the
    YAML library and the outcome of each write to the program's variables
    are parameters.  Log lines of the daemon are left out. *)

From Stdlib Require Import ZArith Lia Bool Ascii String.
From stdpp Require Import prelude strings list gmap.
From coqutil Require Import Datatypes.RecordSetters.
Import DoubleBraceUpdate.
From S2P Require Import Prelude GoText GoFmt GoNet Config ConfigFile Ebpf Policy FlowTable Loader.

Local Open Scope string_scope.
Local Open Scope Z_scope.

(** ** The live reload *)

Section Reload.
Context {M : Type -> Type -> Type} `{EbpfMap M}.
Context (rng : gset key -> list key).

(** What a reload reads and changes: the published configuration, the pinned
    maps, and the variables of the untrusted program. *)
Record Daemon := mkDaemon { d_cfg : Config; d_maps : SharedMaps M; d_mon : MonVars }.

(** The outcomes of the writes of one [ApplyFlowMonitorControl]. *)
Record Writes := mkWrites { w_off : bool; w_mask : bool; w_on : bool }.

Definition set_monitor (w : Writes) (cfg : Config) (d : Daemon) : Daemon * bool :=
  let '(states, ok) := ApplyFlowMonitorControl (w_off w) (w_mask w) (w_on w) cfg (d_mon d) in
  (mkDaemon (d_cfg d) (d_maps d) (List.last states (d_mon d)), ok).

Definition reload_policy (cfg : Config) (d : Daemon) : Daemon * option PolicyError :=
  let '(s, e) := ReloadPolicy rng (d_maps d) cfg in (mkDaemon (d_cfg d) s (d_mon d), e).

(** The boolean of a failure says whether the rollback, whose errors the code
    discards, went through. *)
Inductive ReloadResult :=
  | RKept (e : LoadError)
  | RMonitor (undone : bool)
  | RPolicy (e : PolicyError) (monitor_back : bool)
  | RApplied (structural : string).

Definition reload (w1 w2 : Writes) (loaded : Config + LoadError) (d : Daemon) : Daemon * ReloadResult :=
  match loaded with
  | inr e => (d, RKept e)
  | inl newCfg =>
      let cur := d_cfg d in
      let diff := StructuralDiff cur newCfg in
      let merged := ApplyLiveFrom cur newCfg in
      let enabled := Enabled (FlowMon merged) in
      let '(d, ok) := if negb enabled then set_monitor w1 merged d else (d, true) in
      if negb ok then (d, RMonitor false)
      else
        match reload_policy merged d with
        | (d, Some e) => let '(d, back) := set_monitor w2 cur d in (d, RPolicy e back)
        | (d, None) =>
            let '(d, ok) := if enabled then set_monitor w1 merged d else (d, true) in
            if negb ok then
              let '(d, e) := reload_policy cur d in
              let '(d, back) := set_monitor w2 cur d in
              (d, RMonitor (back && match e with None => true | Some _ => false end))
            else (mkDaemon merged (d_maps d) (d_mon d), RApplied diff)
        end
  end.

(** ** The sweep worker *)

(** One run: both tables are swept under the published configuration, and the
    counts go to the occupancy variable and to the runtime block.  [k1], [k2]:
    what the datapath does to the tables meanwhile. *)
Definition gc_tick (k1 k2 : M key flowVal -> M key flowVal) (now1 now2 wall : Z) (d : Daemon) : Z * Daemon :=
  let c := d_cfg d in
  let s := d_maps d in
  let '(lt, _, flows) := GCOnce k1 (Flows s) c now1 in
  let '(lu, _, udp) := GCOnce k2 (UDPFlows s) c now2 in
  let s := mkMaps flows udp (FlowMonitorCIDRs s) (FlowMonitorCounters s) (TxPorts s) (Features s) (ServerAllowMap s) (Runtime s) in
  let rs := default (mkRT 0 0 0 0) (ReadRuntimeState s) in
  let '(s, _) := PublishRuntimeState s (mkRT (u64 lt) (u64 lu) wall (DaemonStartUnixNano rs)) in
  (lt + lu, mkDaemon c s (d_mon d)).
End Reload.

(** ** The start *)

Section Start.
Context {K : Type} {M : Type -> Type -> Type} `{Sys K M} `{EbpfMap M}.
Context (rng : gset key -> list key) (loadFilter : option CollectionSpec).
(** The tuning profile, applied to the same machine (Tune.v); its errors are only logged. *)
Context (tune : Config -> K -> K).

Inductive StartError := SConfig (e : LoadError) | SNotRoot | SDatapath (e : LoaderError).

(** The two variables of the untrusted program as the object was loaded:
    [loadSpec] sets them and [progVars] leaves them to the untrusted one. *)
Definition loaded_vars (cfg : Config) : MonVars :=
  match loadFilter with
  | None => mkMon None None
  | Some spec0 => match loadSpec cfg spec0 with
                  | inr _ => mkMon None None
                  | inl spec => mkMon (sp_vars spec !! "FLOW_MONITOR_ENABLED") (sp_vars spec !! "FLOW_MONITOR_SAMPLE_MASK")
                  end
  end.

(** [cmdDaemon] up to the workers: the daemon's state and the handles it keeps. *)
Definition start_daemon (loaded : Config + LoadError) (root : bool) (start : Z) (k : K)
    : (Daemon (M := M) * Handle + StartError) * K :=
  match loaded with
  | inr e => (inr (SConfig e), k)
  | inl cfg =>
      if negb root then (inr SNotRoot, k)
      else match Loader.Load rng loadFilter cfg start (tune cfg k) with
           | (inr e, k) => (inr (SDatapath e), k)
           | (inl h, k) => (inl (mkDaemon cfg (sys_maps k) (loaded_vars cfg), h), k)
           end
  end.
End Start.

(** ** Intervals *)

(** A worker's period: [loop]. *)
Definition loop_period (d : Z) : Z := if d <=? 0 then 1000000000 else d.

(** [watchdogInterval], in nanoseconds; zero is no watchdog. *)
Definition watchdogInterval (env : string) : Z :=
  match Atoi env with
  | (usec, None) => if usec <=? 0 then 0 else s64 (usec / 2 * 1000)
  | (_, Some _) => 0
  end.

(** ** Workers *)

Inductive Worker := WSweep | WStats | WFlowMonitor | WWatchdog.

(** The workers [cmdDaemon] spawns, each with its period in nanoseconds; the
    watchdog only when systemd asks for one.  [time.Duration] is an int64. *)
Definition workers_of (cfg : Config) (wd : Z) : list (Worker * Z) :=
  ([(WSweep, loop_period (s64 (GCInterval cfg * 1000000000))); (WStats, loop_period (s64 (StatsInterval cfg * 1000000000)));
    (WFlowMonitor, loop_period 1000000000)] ++ (if 0 <? wd then [(WWatchdog, loop_period wd)] else []))%list.

(** The address of the notification socket; none when systemd set none. *)
Definition notify_address (env : string) : option string :=
  match env with
  | EmptyString => None
  | String "@" r => Some (String "000" r)
  | s => Some s
  end.

(** [sdNotify]: the datagram sent, with its address; [dial] says whether the
    socket can be reached. *)
Definition sdNotify (dial : string -> bool) (env state : string) : option (string * string) :=
  match notify_address env with
  | None => None
  | Some sock => if dial sock then Some (sock, state) else None
  end.

(** ** The file watch *)

(** The buffer of one read: [SizeofInotifyEvent] is 16, and the length of the
    name is the last of the header's four words. *)
Definition SizeofInotifyEvent : Z := 16.

Definition TrimRightNul (l : list Z) : list Z := 
  reverse ((fix go l := match l with 0 :: r => go r | l => l end) (reverse l)).

Definition slice_of (buf : list Z) (from n : Z) : list Z := take (Z.to_nat n) (drop (Z.to_nat from) buf).

Fixpoint scan_events (fuel : nat) (base buf : list Z) (n off : Z) (changed : bool) : bool :=
  match fuel with
  | O => changed
  | S f =>
      if off + SizeofInotifyEvent <=? n then
        let start := off + SizeofInotifyEvent in
        let nameLen := le32 (slice_of buf (off + 12) 4) in
        let changed := changed ||
          ((0 <? nameLen) && (start + nameLen <=? n) && bool_decide (TrimRightNul (slice_of buf start nameLen) = base)) in
        scan_events f base buf n (start + nameLen) changed
      else changed
  end.

(** Whether a read of [n] bytes tells of the configuration file. *)
Definition config_changed (base buf : list Z) (n : Z) : bool := scan_events (S (Z.to_nat n)) base buf n 0 false.

(** ** Subcommands *)

(** The parts of [cmdMode]'s arguments: the last mode named, and the rest. *)
Definition mode_arg (st : string * list string) (a : string) : string * list string :=
  if String.eqb a "monitor" || String.eqb a "enforce" then (a, snd st) else (fst st, (snd st ++ [a])%list).
Definition mode_args (args : list string) : string * list string := fold_left mode_arg args ("", []).

Section Commands.
Context {K : Type} {M : Type -> Type -> Type} `{Sys K M} `{EbpfMap M}.
Context (yaml_marshal : Config -> option string) (yaml_unmarshal : string -> Config -> option Config).

Inductive CmdError := CUsage | CLoader (e : LoaderError) | CAborted.

(** The pin directory of the configuration, or the default one. *)
Definition pin_dir (path : string) (fs : FS) : string :=
  match ConfigFile.Load yaml_unmarshal path fs with inl cfg => PinDir cfg | inr _ => DefaultPinDir end.

Definition with_mode (cfg : Config) (mode : string) : Config := cfg {{ Mode := mode }}.

(** The error, whether a warning was printed, and the files' states. *)
Definition cmdMode (e : Env) (args : list string) (path : string) (k : K) (fs : FS) : option CmdError * bool * K * list FS :=
  let mode := fst (mode_args args) in
  if String.eqb mode "" then (Some CUsage, false, k, [fs])
  else
    match SetModePinned (pin_dir path fs) (String.eqb mode "enforce") k with
    | (Some err, k) => (Some (CLoader err), false, k, [fs])
    | (None, k) =>
        match ConfigFile.Load yaml_unmarshal path fs with
        | inr _ => (None, false, k, [fs])
        | inl cfg =>
            let '(states, err) := Save yaml_marshal e (with_mode cfg mode) path fs in
            (None, match err with Some _ => true | None => false end, k, states)
        end
    end.

(** [systemctl], and the restoration of the tuning snapshot, with whether it succeeded. *)
Context (systemctl : list string -> K -> bool * K) (tuning_restore : K -> bool * K).

(** What [cmdStop] reports, besides the error. *)
Inductive StopNote := NDetached | NDetachFailed (e : LoaderError) | NRestoreFailed.

(** [typed] is what the operator types when asked; the error of [Scanln] is not looked at. *)
Definition confirmed (yes : bool) (typed : string) : bool := yes || String.eqb (ToLower (TrimSpace (Scanln typed))) "y".

Definition stop_restore (restore : bool) (notes : list StopNote) (k : K) : option CmdError * list StopNote * K :=
  if restore then let '(ok, k) := tuning_restore k in (None, if ok then notes else (notes ++ [NRestoreFailed])%list, k)
  else (None, notes, k).

Definition cmdStop (detach restore yes : bool) (typed path : string) (fs : FS) (k : K) : option CmdError * list StopNote * K :=
  let pinDir := pin_dir path fs in
  let '(_, k) := systemctl ["stop"; "xdpfilter"] k in
  if detach then
    if negb (confirmed yes typed) then (Some CAborted, [], k)
    else match Detach pinDir k with
         | (Some e, k) => stop_restore restore [NDetachFailed e] k
         | (None, k) => stop_restore restore [NDetached] k
         end
  else stop_restore restore [] k.
End Commands.

(** [cmdFlows]: the rows shown. *)
Fixpoint shown_rows (vlan limit : Z) (rows : list FlowInfo) (n : Z) : list FlowInfo :=
  match rows with
  | [] => []
  | f :: r =>
      if (0 <=? vlan) && negb (OuterVID f =? vlan) then shown_rows vlan limit r n
      else let n := n + 1 in
           f :: (if (0 <? limit) && (limit <=? n) then [] else shown_rows vlan limit r n)
  end.

Definition flow_line (f : FlowInfo) : string :=
  padr 5 (Proto f) ++ " " ++ padr 21 (JoinHostPort (IP_String (HostIP f)) (Itoa (HostPort f))) ++ " "
  ++ padr 21 (JoinHostPort (IP_String (InetIP f)) (Itoa (InetPort f))) ++ " " ++ padr 6 (Itoa (OuterVID f)) ++ " "
  ++ padr 9 (StateName f) ++ " " ++ Itoa (AgeSec f) ++ "s" ++ nl.

Definition cmdFlows {M : Type -> Type -> Type} `{EbpfMap M} (vlan limit now : Z) (s : SharedMaps M) : string :=
  let rows := (DumpFlows (Flows s) "TCP" 0 now ++ DumpFlows (UDPFlows s) "UDP" 0 now)%list in
  let shown := shown_rows vlan limit rows 0 in
  padr 5 "proto" ++ " " ++ padr 21 "host" ++ " " ++ padr 21 "internet" ++ " " ++ padr 6 "vid" ++ " " ++ padr 9 "state" ++ " "
  ++ padr 6 "age" ++ nl ++ String.concat "" (map flow_line shown) ++ "(" ++ Itoa (Z.of_nat (length shown)) ++ " shown)" ++ nl.

(** [mountsContain], on the text of /proc/mounts. *)
Definition mount_line (path line : string) : bool :=
  match Fields line with
  | _ :: f1 :: f2 :: _ => String.eqb f1 path && HasPrefix f2 "bpf"
  | _ => false
  end.
Definition mountsContain (path : string) (mounts : option string) : bool :=
  match mounts with None => false | Some b => existsb (mount_line path) (Split b newline) end.

(** [cmdCheck]: the labels with their results, and whether all passed. *)
Definition cmdCheck (loaded : Config + LoadError) (has_iface : string -> bool) (mounts : option string) (memlock root : bool)
    : list (bool * string) * bool :=
  let checks := (match loaded with
    | inr _ => [(false, "config")]
    | inl cfg => (true, "config") :: map (fun ifc => (has_iface ifc, ("interface " ++ ifc)%string)) [TrustedIface cfg; UntrustedIface cfg]
    end ++ [(mountsContain "/sys/fs/bpf" mounts, "bpffs mounted"); (memlock, "memlock"); (root, "root")])%list in
  (checks, forallb fst checks).
