(* ===== verification/DaemonSpec.v ===== *)
(** * DaemonSpec: what a live reload promises

    The abstract daemon is its published configuration; a reload publishes the
    live part of the file or nothing.  The detailed daemon refines it: while
    reloads end applied, kept, or undone, the maps and the program's variables
    hold the published configuration, which stays valid. *)

From Stdlib Require Import ZArith Lia Bool Ascii String.
From stdpp Require Import prelude strings list gmap relations.
From coqutil Require Import Datatypes.RecordSetters.
From S2P Require Import Prelude GoText GoNet Config ConfigSpec ConfigFile Ebpf Policy PolicySpec FlowTable Loader LoaderSpec SysRef Daemon.
Import DoubleBraceUpdate.

Local Open Scope string_scope.
Local Open Scope Z_scope.

(** ** The published configuration *)

(** The live part of a valid file on a valid configuration is valid. *)
Lemma live_valid c src : Valid c -> Valid src -> Valid (ApplyLiveFrom c src).
Proof.
  intros [A1 A2 A3 A4 A5 A6 A7 A8 A9 [B1 B2 B3 B4 B5]] [C1 C2 C3 C4 C5 C6 C7 C8 C9 [D1 D2 D3 D4 D5]].
  assert (He: forall A (s : slice A), elems (slice_copy s) = elems s) by (intros A [[|? ?]|]; done).
  split; [exact A1 | exact C2 | exact A3 | exact A4 | exact A5 | exact C6 | | exact A8 | exact A9 |].
  - change (ServerAllow (ApplyLiveFrom c src)) with (slice_copy (ServerAllow src)). now rewrite He.
  - change (FlowMon (ApplyLiveFrom c src)) with
      (mkFM (Enabled (FlowMon src)) (SampleEvery (FlowMon src)) (MaxFlows (FlowMon c)) (slice_copy (CIDRs (FlowMon src)))).
    split; cbn [SampleEvery MaxFlows CIDRs]; rewrite ?He; done.
Qed.

(** The abstract daemon's step. *)
Definition publishes (c c' : Config) : Prop := c' = c \/ exists src, Valid src /\ c' = ApplyLiveFrom c src.

Lemma publishes_valid c c' : rtc publishes c c' -> Valid c -> Valid c'.
Proof.
  induction 1 as [|c c1 c2 Hp _ IH]; [done|]. intros Hv. apply IH. destruct Hp as [->|(src & Hs & ->)]; [done | now apply live_valid].
Qed.

(** What a publication leaves alone: everything that needs a restart or a reattachment. *)
Definition same_structure (c c' : Config) : Prop :=
  TrustedIface c' = TrustedIface c /\ UntrustedIface c' = UntrustedIface c /\ FlowMax c' = FlowMax c /\
  UDPFlowMax c' = UDPFlowMax c /\ L1Size c' = L1Size c /\ PinDir c' = PinDir c /\ XDPMode c' = XDPMode c /\
  MaxFlows (FlowMon c') = MaxFlows (FlowMon c) /\ GCInterval c' = GCInterval c /\ StatsInterval c' = StatsInterval c.

Lemma publishes_structure c c' : rtc publishes c c' -> same_structure c c'.
Proof.
  unfold same_structure. induction 1 as [c|c c1 c2 Hp _ IH]; [done|]. destruct Hp as [->|(src & _ & ->)]; [exact IH|].
  unfold ApplyLiveFrom in IH. cbn in IH. exact IH.
Qed.

(** ** The detailed daemon *)

Definition monitor_of (cfg : Config) : MonVars :=
  mkMon (Some (b2z (Enabled (FlowMon cfg)))) (Some (u32 (SampleEvery (FlowMon cfg) - 1))).

Lemma control_ok ok1 ok2 ok3 cfg v states : ApplyFlowMonitorControl ok1 ok2 ok3 cfg v = (states, true) ->
  List.last states v = monitor_of cfg.
Proof.
  unfold ApplyFlowMonitorControl, set_enabled, set_mask, monitor_of. destruct v as [en mk].
  destruct (Enabled (FlowMon cfg)), en, mk, ok1, ok2, ok3; cbn; intros [= <-]; reflexivity.
Qed.

Section Spec.
Context {M : Type -> Type -> Type} `{EbpfLaws M}.
Context (rng : gset key -> list key) (rng_perm : forall X, rng X ≡ₚ elements X).
Local Abbreviation Dmn := (Daemon (M := M)).

Lemma set_monitor_frame w cfg (d d' : Dmn) ok : set_monitor w cfg d = (d', ok) -> d_cfg d' = d_cfg d /\ d_maps d' = d_maps d.
Proof. unfold set_monitor. destruct (ApplyFlowMonitorControl _ _ _ _ _). now intros [= <- <-]. Qed.

Lemma set_monitor_ok w cfg (d d' : Dmn) : set_monitor w cfg d = (d', true) -> d_mon d' = monitor_of cfg.
Proof.
  unfold set_monitor. destruct (ApplyFlowMonitorControl _ _ _ _ _) as [states ok] eqn:E. intros [= <- ->].
  now apply control_ok in E.
Qed.

Lemma reload_policy_frame cfg (d d' : Dmn) e : reload_policy rng cfg d = (d', e) -> d_cfg d' = d_cfg d /\ d_mon d' = d_mon d.
Proof. unfold reload_policy. destruct (ReloadPolicy _ _ _). now intros [= <- <-]. Qed.

Lemma reload_policy_ok cfg (d d' : Dmn) : reload_policy rng cfg d = (d', None) -> in_force cfg (d_maps d').
Proof.
  unfold reload_policy. destruct (ReloadPolicy _ _ _) as [s e] eqn:E. intros [= <- ->]. now apply (reload_maps rng rng_perm) in E.
Qed.

(** What is published is what the kernel does. *)
Definition governed (d : Dmn) : Prop := in_force (d_cfg d) (d_maps d) /\ d_mon d = monitor_of (d_cfg d).

(** A reload that ends applied, kept, or undone. *)
Definition settled (r : ReloadResult) : Prop :=
  match r with RKept _ | RApplied _ => True | RMonitor undone => undone = true | RPolicy _ _ => False end.

(** One reload, whatever the file and the kernel answer, as long as it settles. *)
Inductive reload_step (d : Dmn) : Dmn -> Prop :=
  | reload_run w1 w2 loaded d' r :
      (forall src, loaded = inl src -> Valid src) -> reload rng w1 w2 loaded d = (d', r) -> settled r -> reload_step d d'.

Lemma reload_cases w1 w2 loaded (d d' : Dmn) r : reload rng w1 w2 loaded d = (d', r) ->
  match r with
  | RKept _ => d' = d
  | RApplied _ => exists src, loaded = inl src /\ d_cfg d' = ApplyLiveFrom (d_cfg d) src /\ governed d'
  | RMonitor undone => d_cfg d' = d_cfg d /\ (undone = true -> governed d')
  | RPolicy _ back => d_cfg d' = d_cfg d /\ (back = true -> d_mon d' = monitor_of (d_cfg d))
  end.
Proof.
  unfold reload. destruct loaded as [src|e]; [|now intros [= <- <-]]. set (merged := ApplyLiveFrom (d_cfg d) src).
  destruct (Enabled (FlowMon merged)); cbn [negb].
  - destruct (reload_policy rng merged d) as [d1 [e|]] eqn:E1; pose proof (reload_policy_frame _ _ _ _ E1) as [F1 G1].
    + destruct (set_monitor w2 (d_cfg d) d1) as [d2 back] eqn:E2. pose proof (set_monitor_frame _ _ _ _ _ E2) as [F2 _].
      intros [= <- <-]. split; [congruence|]. intros ->. now apply set_monitor_ok in E2.
    + apply reload_policy_ok in E1. destruct (set_monitor w1 merged d1) as [d2 [|]] eqn:E2;
        pose proof (set_monitor_frame _ _ _ _ _ E2) as [F2 G2]; cbn [negb].
      * intros [= <- <-]. exists src. split; [done|]. split; [done|]. split; [now rewrite <- G2 in E1 | now apply set_monitor_ok in E2].
      * destruct (reload_policy rng (d_cfg d) d2) as [d3 e3] eqn:E3. pose proof (reload_policy_frame _ _ _ _ E3) as [F3 _].
        destruct (set_monitor w2 (d_cfg d) d3) as [d4 back] eqn:E4. pose proof (set_monitor_frame _ _ _ _ _ E4) as [F4 G4].
        intros [= <- <-]. split; [congruence|]. intros [-> He]%andb_true_iff. destruct e3; [done|].
        apply reload_policy_ok in E3. apply set_monitor_ok in E4. assert (Hc: d_cfg d4 = d_cfg d) by congruence.
        split; rewrite Hc; [now rewrite G4 | done].
  - destruct (set_monitor w1 merged d) as [d1 [|]] eqn:E1; pose proof (set_monitor_frame _ _ _ _ _ E1) as [F1 G1]; cbn [negb].
    + destruct (reload_policy rng merged d1) as [d2 [e|]] eqn:E2; pose proof (reload_policy_frame _ _ _ _ E2) as [F2 G2].
      * destruct (set_monitor w2 (d_cfg d) d2) as [d3 back] eqn:E3. pose proof (set_monitor_frame _ _ _ _ _ E3) as [F3 _].
        intros [= <- <-]. split; [congruence|]. intros ->. now apply set_monitor_ok in E3.
      * intros [= <- <-]. exists src. split; [done|]. split; [done|]. apply reload_policy_ok in E2. apply set_monitor_ok in E1.
        split; [exact E2 | exact (eq_trans G2 E1)].
    + intros [= <- <-]. split; [congruence | done].
Qed.

Lemma reloads_refine (d d' : Dmn) : governed d -> Valid (d_cfg d) -> rtc reload_step d d' ->
  rtc publishes (d_cfg d) (d_cfg d') /\ governed d' /\ Valid (d_cfg d') /\ same_structure (d_cfg d) (d_cfg d').
Proof.
  intros Hg Hv Hr. assert (Hsim: rtc publishes (d_cfg d) (d_cfg d') /\ governed d').
  { clear Hv. induction Hr as [d|d d1 d2 Hs _ IH]; [split; [constructor | done]|].
    destruct Hs as [w1 w2 loaded d1 r Hl E Hset]. apply reload_cases in E.
    assert (Hp: publishes (d_cfg d) (d_cfg d1) /\ governed d1).
    { destruct r as [e|undone|e back|diff]; cbn in Hset; [subst d1; split; [now left | done] | | done |].
      - destruct E as [-> Hu]. split; [now left | auto].
      - destruct E as (src & -> & -> & Hg1). split; [right; eauto | done]. }
    destruct Hp as [Hp Hg1]. destruct (IH Hg1) as [Hrtc Hg2]. split; [now apply (rtc_l _ _ (d_cfg d1)) | done]. }
  destruct Hsim as [Hp Hg']. split_and!; [done | done | now apply (publishes_valid (d_cfg d)) | now apply publishes_structure].
Qed.

(** ** The start *)

Lemma setVar_lookup spec n v s m : setVar spec n v = inl s -> sp_vars s !! m = if decide (m = n) then Some v else sp_vars spec !! m.
Proof.
  unfold setVar. destruct (sp_vars spec !! n); [|done]. intros [= <-]. cbn [sp_vars].
  case_decide as Hm; [subst; apply lookup_insert_eq | now apply lookup_insert_ne].
Qed.

Lemma setVars_other name l : forall spec s, name ∉ l.*1 -> setVars spec l = inl s -> sp_vars s !! name = sp_vars spec !! name.
Proof.
  induction l as [|[n v] l IH]; intros spec s Hn; cbn [setVars]; [now intros [= <-]|].
  apply not_elem_of_cons in Hn as [Hn Hl]. destruct (setVar spec n v) as [s1|e] eqn:E; [|done]. intros Hs.
  rewrite (IH s1 s Hl Hs), (setVar_lookup _ _ _ _ _ E). now rewrite decide_False.
Qed.

(** The untrusted instance keeps the two variables. *)
Lemma progVars_untrusted spec peer l1 mb s name : name ∈ ["FLOW_MONITOR_ENABLED"; "FLOW_MONITOR_SAMPLE_MASK"] ->
  setVars spec (progVars 0 peer l1 mb) = inl s -> sp_vars s !! name = sp_vars spec !! name.
Proof.
  intros Hn. apply setVars_other. change (progVars 0 peer l1 mb).*1 with ["ROLE_TRUSTED"; "PEER_IDX"; "L1_MASK"; "MULTIBUF"].
  revert name Hn. apply Forall_forall. apply (bool_decide_unpack _). vm_compute. exact I.
Qed.

Lemma loadSpec_vars cfg spec0 spec : loadSpec cfg spec0 = inl spec ->
  mkMon (sp_vars spec !! "FLOW_MONITOR_ENABLED") (sp_vars spec !! "FLOW_MONITOR_SAMPLE_MASK") = monitor_of cfg.
Proof.
  unfold loadSpec. cbn [setVars]. destruct (setVar spec0 "FLOW_MONITOR_ENABLED" (boolU32 (Enabled (FlowMon cfg)))) as [s1|] eqn:E1; [|done].
  destruct (setVar s1 "FLOW_MONITOR_SAMPLE_MASK" (u32 (SampleEvery (FlowMon cfg) - 1))) as [s2|] eqn:E2; [|done].
  intros [= <-]. cbn [sp_vars]. rewrite !(setVar_lookup _ _ _ _ _ E2), (setVar_lookup _ _ _ _ _ E1).
  rewrite decide_False, decide_True, decide_True by done. reflexivity.
Qed.

Lemma start_governs {K} `{!Sys K M, !SysLaws K M} loadFilter tune loaded root start k d h k' :
  start_daemon (K := K) rng loadFilter tune loaded root start k = (inl (d, h), k') ->
  loaded = inl (d_cfg d) /\ governed d /\ d_maps d = sys_maps k'.
Proof.
  unfold start_daemon. destruct loaded as [cfg|e]; [|done]. destruct (negb root); [done|].
  destruct (Loader.Load _ _ _ _ _) as [[h'|e] k1] eqn:E; [|done]. intros [= <- <- <-]. cbn [d_cfg d_maps]. split; [done|]. split; [|done].
  split; [exact (proj1 (load_in_force rng loadFilter rng_perm _ _ _ _ _ E))|]. cbn [d_mon d_cfg].
  destruct (load_spec _ _ _ _ _ _ _ E) as (spec0 & spec & -> & Hs). unfold loaded_vars. rewrite Hs. now apply loadSpec_vars in Hs.
Qed.

(** C8. The running daemon refines its published configuration.  From a start
    that succeeds, over any number of reloads that settle, whatever the files
    said, the published configuration moves only by whole live updates, stays
    valid and keeps its structural part, and the maps and the program's
    variables hold exactly what is published. *)
Theorem daemon_refines {K} `{!Sys K M, !SysLaws K M} loadFilter tune cfg root start k d h k' d' :
  Valid cfg -> start_daemon (K := K) rng loadFilter tune (inl cfg) root start k = (inl (d, h), k') -> rtc reload_step d d' ->
  rtc publishes cfg (d_cfg d') /\ governed d' /\ Valid (d_cfg d') /\ same_structure cfg (d_cfg d').
Proof.
  intros Hv Hs Hr. destruct (start_governs _ _ _ _ _ _ _ _ _ Hs) as (Hc & Hg & _). injection Hc as ->. now apply reloads_refine.
Qed.

(** ** The tables *)

Lemma reload_policy_tables cfg (d d' : Dmn) e : reload_policy rng cfg d = (d', e) ->
  Flows (d_maps d') = Flows (d_maps d) /\ UDPFlows (d_maps d') = UDPFlows (d_maps d) /\ Runtime (d_maps d') = Runtime (d_maps d).
Proof.
  unfold reload_policy, ReloadPolicy, ApplyFeatures, SyncServerAllow, SyncFlowMonitorCIDRs.
  repeat (case_match; simplify_eq; cbn in * ); intros; simplify_eq; cbn; done.
Qed.

(** Any outcome of a reload leaves the flow tables and the runtime block alone. *)
Lemma reload_tables w1 w2 loaded (d d' : Dmn) r : reload rng w1 w2 loaded d = (d', r) ->
  Flows (d_maps d') = Flows (d_maps d) /\ UDPFlows (d_maps d') = UDPFlows (d_maps d) /\ Runtime (d_maps d') = Runtime (d_maps d).
Proof.
  unfold reload. destruct loaded as [src|e]; [|now intros [= <- _]].
  repeat match goal with
  | |- context [reload_policy rng ?c ?d] =>
      let E := fresh "E" in destruct (reload_policy rng c d) as [? [?|]] eqn:E; apply reload_policy_tables in E as (? & ? & ?)
  | |- context [set_monitor ?w ?c ?d] =>
      let E := fresh "E" in destruct (set_monitor w c d) as [? [|]] eqn:E; apply set_monitor_frame in E as [? ?]
  | |- context [if ?b then _ else _] => destruct b
  end; cbn [negb]; intros [= <- _]; cbn [d_maps]; split_and!; congruence.
Qed.

(** ** The sweep worker *)

(** The sweep worker tells the truth: with the datapath quiet and the
    runtime block writable, the counts it publishes, and the occupancy it
    stores, are the numbers of entries left in the two tables, every expired
    entry it could delete is gone, and the daemon's start time stays. *)
Theorem sweep_publishes (d d' : Dmn) now1 now2 wall occ rt rs l1 l2 m :
  let s := d_maps d in let s' := d_maps d' in
  now1 <> 0 -> now2 <> 0 -> em_iterate (Flows s) = (l1, true) -> em_iterate (UDPFlows s) = (l2, true) ->
  Runtime s = Some rt -> em_lookup 0 rt = Some rs ->
  gc_tick (fun m => m) (fun m => m) now1 now2 wall d = (occ, d') ->
  Runtime s' = Some m ->
  (forall st, fst (em_put 0 st rt) = true) ->
  let tcp := Z.of_nat (size (em_view (Flows s'))) in
  let udp := Z.of_nat (size (em_view (UDPFlows s'))) in
  occ = tcp + udp /\ em_view m !! 0 = Some (mkRT (u64 tcp) (u64 udp) wall (DaemonStartUnixNano rs)) /\
  (forall k v, em_view (Flows s) !! k = Some v -> gc_expired (d_cfg d) now1 v = false -> em_view (Flows s') !! k = Some v) /\
  (forall k v, em_view (UDPFlows s) !! k = Some v -> gc_expired (d_cfg d) now2 v = false -> em_view (UDPFlows s') !! k = Some v) /\
  d_cfg d' = d_cfg d /\ Features s' = Features s /\ ServerAllowMap s' = ServerAllowMap s /\ FlowMonitorCIDRs s' = FlowMonitorCIDRs s.
Proof.
  intros s s' H1 H2 Hl1 Hl2 Hrt Hrs. unfold gc_tick. fold s.
  destruct (GCOnce _ (Flows s) _ now1) as [[lt dt] flows] eqn:E1. destruct (GCOnce _ (UDPFlows s) _ now2) as [[lu du] udp'] eqn:E2.
  destruct (gc_sweep _ _ _ _ _ _ _ H1 Hl1 E1) as (_ & K1 & L1 & _). destruct (gc_sweep _ _ _ _ _ _ _ H2 Hl2 E2) as (_ & K2 & L2 & _).
  unfold ReadRuntimeState, PublishRuntimeState. cbn [Runtime]. rewrite Hrt, Hrs. cbn [default id from_option].
  destruct (em_put 0 (mkRT (u64 lt) (u64 lu) wall (DaemonStartUnixNano rs)) rt) as [ok m'] eqn:EP.
  intros E Hm Hput. cbv zeta. cbv beta iota in E. apply pair_equal_spec in E as [Ho Hd]. unfold s' in Hm |- *. rewrite <- Ho. rewrite <- Hd in Hm |- *. cbn in Hm |- *.
  injection Hm as <-. specialize (Hput (mkRT (u64 lt) (u64 lu) wall (DaemonStartUnixNano rs))). rewrite EP in Hput. cbn in Hput. subst ok.
  apply put_ok in EP. rewrite EP, lookup_insert_eq, L1, L2. split_and!; done.
Qed.
End Spec.

(** ** Concrete runs *)

Definition yes3 : Writes := mkWrites true true true.

Definition running : Daemon (M := FMap) :=
  mkDaemon live_sample (fst (ReloadPolicy elements sample_maps live_sample)) (monitor_of live_sample).

Lemma running_governed : governed running.
Proof.
  split; [|reflexivity]. cbn [running d_maps d_cfg]. destruct (ReloadPolicy elements sample_maps live_sample) as [s e] eqn:E.
  assert (e = None) as -> by (apply (f_equal snd) in E; vm_compute in E; done). now apply (reload_maps elements elements_perm) in E.
Qed.

Lemma live_sample_valid : Valid live_sample.
Proof. apply (Validate_ok live_sample); [vm_compute; intuition congruence | reflexivity]. Qed.

Definition turned : Config := live_sample {{ Mode := "enforce" }} {{ FlowMax := 2048 }}.

Lemma turned_valid : Valid turned.
Proof. apply (Validate_ok turned); [vm_compute; intuition congruence | reflexivity]. Qed.

Definition untuned (_ : Config) (k : RefSys) : RefSys := k.

Definition first_start := start_daemon elements (Some object) untuned (inl live_sample) true 0 (fresh_sys []).

(** The mode follows the file; the table's size, which needs a restart, does not. *)
Theorem daemon_refines_witness : exists (d d' : Daemon (M := FMap)) h k', first_start = (inl (d, h), k') /\ rtc (reload_step elements) d d' /\ governed d' /\
  Mode (d_cfg d') = "enforce" /\ FlowMax (d_cfg d') = FlowMax live_sample.
Proof.
  assert (Hok: match fst first_start with inl (d, _) =>
      (settled (snd (reload elements yes3 yes3 (inl turned) d)), Mode (d_cfg (fst (reload elements yes3 yes3 (inl turned) d)))) = (True, "enforce") | inr _ => False end)
    by (vm_compute; reflexivity).
  destruct first_start as [[[d h]|e] k'] eqn:E; cbn [fst] in Hok; [|destruct Hok]. apply pair_equal_spec in Hok as [Hset Hmode].
  set (d' := fst (reload elements yes3 yes3 (inl turned) d)) in *. exists d, d', h, k'.
  assert (Hr: rtc (reload_step elements) d d').
  { apply rtc_once. apply (reload_run _ _ yes3 yes3 (inl turned) d' (snd (reload elements yes3 yes3 (inl turned) d))).
    - intros src [= <-]. exact turned_valid.
    - apply surjective_pairing.
    - rewrite Hset. exact I. }
  destruct (daemon_refines elements elements_perm (Some object) untuned live_sample true 0 (fresh_sys []) d h k' d' live_sample_valid E Hr) as (_ & Hg & _ & Hs).
  split_and!; [done | exact Hr | exact Hg | exact Hmode | exact (proj1 (proj2 (proj2 Hs)))].
Defined.

Definition swept : Daemon (M := FMap) := 
  let e {K V : Type} : FMap K V := mkFMap [] [] false in
  mkDaemon Default (mkMaps gc_table e e e e e e (Some (mkFMap [(0, mkRT 0 0 0 77)] [] false))) (mkMon None None).

Theorem sweep_publishes_witness :
  let '(occ, d') := gc_tick (fun m => m) (fun m => m) 1100 1100 5 swept in
  occ = 1 /\ option_map (fun m => em_view m !! 0) (Runtime (d_maps d')) = Some (Some (mkRT 1 0 5 77)).
Proof.
  assert (Hocc: fst (gc_tick (fun m => m) (fun m => m) 1100 1100 5 swept) = 1) by (vm_compute; reflexivity).
  assert (Hsz: (size (em_view (Flows (d_maps (snd (gc_tick (fun m => m) (fun m => m) 1100 1100 5 swept))))),
                size (em_view (UDPFlows (d_maps (snd (gc_tick (fun m => m) (fun m => m) 1100 1100 5 swept)))))) = (1%nat, 0%nat))
    by (vm_compute; reflexivity).
  assert (Hm: exists m, Runtime (d_maps (snd (gc_tick (fun m => m) (fun m => m) 1100 1100 5 swept))) = Some m) by (eexists; vm_compute; reflexivity).
  destruct (gc_tick _ _ 1100 1100 5 swept) as [occ d'] eqn:E. cbn [fst snd] in Hocc, Hsz, Hm. apply pair_equal_spec in Hsz.
  destruct Hm as [m Hm]. rewrite Hm. split; [done|]. cbn [option_map].
  assert (Hl1: em_iterate (Flows (d_maps swept)) = (map_to_list (fm_view gc_table), true)) by reflexivity.
  assert (Hl2: em_iterate (UDPFlows (d_maps swept)) = ([], true)) by (vm_compute; reflexivity).
  assert (Hput: forall st, fst (em_put 0 st (mkFMap [(0, mkRT 0 0 0 77)] [] false)) = true) by reflexivity.
  assert (Hlk: em_lookup 0 (mkFMap [(0, mkRT 0 0 0 77)] [] false) = Some (mkRT 0 0 0 77)) by (vm_compute; reflexivity).
  pose proof (sweep_publishes swept d' 1100 1100 5 occ _ _ _ _ m ltac:(discriminate) ltac:(discriminate) Hl1 Hl2 eq_refl Hlk E Hm Hput) as Hs.
  cbv zeta in Hs. destruct Hs as (_ & Hv & _).
  destruct Hsz as [E1 E2]. rewrite E1, E2 in Hv. now rewrite Hv.
Defined.

(** A reload that fails half-way is not undone.  When the kernel refuses an
    allowlist entry, the new switches are already written: the datapath runs
    the new mode and timeouts while the daemon, which goes on sweeping with the
    old ones, still holds the old configuration. *)
Definition full_allowlist : Daemon (M := FMap) :=
  let s := d_maps running in mkDaemon live_sample (with_server_allow s (mkFMap (fm_entries (ServerAllowMap s)) [false] false)) (d_mon running).

Definition more_servers : Config := live_sample {{ Mode := "enforce" }} {{ ServerAllow := Some ["192.0.2.99:22"] }}.

Example failed_reload_mixes :
  let '(d', r) := reload elements yes3 yes3 (inl more_servers) full_allowlist in
  (exists e back, r = RPolicy e back) /\ Mode (d_cfg d') = "monitor" /\ Mode_of (d_maps d') = "enforce".
Proof. vm_compute. split; [eauto | done]. Qed.
