(* ===== verification/Watch.v ===== *)
(** * Watch: the file watch and the shutdown of cmd/xdpfilter/main.go

    The goroutines of the daemon as step relations.  The watcher reads inotify
    events, arms a timer that a later event arms again, and the timer posts to
    a channel of one place the main loop reloads from, with the daemon's whole
    reload and its failures: every save is reloaded from, and a reload that
    fails is not repeated.  The kernel's queue of events is taken as unbounded,
    and the watch as started.  On shutdown the main goroutine cancels the workers
    and waits for them before it closes the maps. *)

From Stdlib Require Import ZArith Lia Bool Ascii String.
From stdpp Require Import prelude strings list gmap relations.
From S2P Require Import Prelude Config ConfigFile Ebpf Policy PolicySpec Loader SysRef Daemon DaemonSpec.

Local Open Scope Z_scope.

(** ** Inotify events as the kernel writes them *)

(** Watch descriptor, mask and cookie, the file's name, and its padding. *)
Record Event := mkEvent { ev_head : list Z; ev_name : list Z; ev_pad : nat }.

Definition ev_len (e : Event) : Z := Z.of_nat (length (ev_name e) + ev_pad e).

Definition event_bytes (e : Event) : list Z := (ev_head e ++ le32_bytes (ev_len e) ++ ev_name e ++ replicate (ev_pad e) 0)%list.

Definition buffer (evs : list Event) : list Z := List.concat (map event_bytes evs).

(** A name is at most 255 bytes, none of them NUL, and padded. *)
Definition event_ok (e : Event) : Prop :=
  length (ev_head e) = 12%nat /\ (length (ev_name e) <= 255)%nat /\ (ev_pad e <= 16)%nat /\ Forall (fun b => b <> 0) (ev_name e).

Lemma le32_le32_bytes x : 0 <= x < 2 ^ 32 -> le32 (le32_bytes x) = x.
Proof.
  intros Hx. unfold le32, le32_bytes. cbn [lookup list_lookup default from_option id].
  assert (H16777216: x / 16777216 mod 256 = x / 16777216) by (apply Z.mod_small; split; [apply Z.div_pos; lia | apply Z.div_lt_upper_bound; lia]).
  rewrite H16777216. Z.to_euclidean_division_equations. lia.
Qed.

Lemma TrimRightNul_pad name n : Forall (fun b => b <> 0) name -> TrimRightNul (name ++ replicate n 0)%list = name.
Proof.
  intros Hn. unfold TrimRightNul. rewrite reverse_app, reverse_replicate.
  set (go := fix go l := match l with 0 :: r => go r | l => l end).
  assert (Hgo: go (replicate n 0 ++ reverse name)%list = reverse name).
  { induction n as [|n IH]; [|exact IH]. cbn [replicate app]. destruct (reverse name) as [|b r] eqn:E; [done|].
    assert (Hb: b <> 0). { rewrite Forall_forall in Hn. apply Hn. rewrite <- elem_of_reverse, E. left. }
    cbn. destruct b; done. }
  rewrite Hgo. apply reverse_involutive.
Qed.

Lemma event_size e : event_ok e -> length (event_bytes e) = (16 + length (ev_name e) + ev_pad e)%nat.
Proof. intros (Hh & _). unfold event_bytes. rewrite !length_app, length_replicate, Hh. cbn [le32_bytes length]. lia. Qed.

Lemma slice_of_app (a b c : list Z) : slice_of (a ++ b ++ c)%list (Z.of_nat (length a)) (Z.of_nat (length b)) = b.
Proof. unfold slice_of. rewrite !Nat2Z.id, drop_app_length, take_app_length. done. Qed.

Lemma scan_events_buffer base evs : base <> [] -> Forall event_ok evs -> forall fuel pre post changed,
  (length evs < fuel)%nat ->
  scan_events fuel base (pre ++ buffer evs ++ post)%list (Z.of_nat (length pre + length (buffer evs))) (Z.of_nat (length pre)) changed =
  changed || existsb (fun e => bool_decide (ev_name e = base)) evs.
Proof.
  intros Hbase Hok. induction Hok as [|e evs He Hok IH]; intros fuel pre post changed Hf; (destruct fuel as [|fuel]; [cbn in Hf; lia|]).
  - cbn [scan_events existsb]. rewrite orb_false_r. cbn [buffer map concat length]. rewrite (proj2 (Z.leb_gt _ _)); [done|]. unfold SizeofInotifyEvent. lia.
  - pose proof (event_size e He) as Hsz. destruct He as (Hh & Hn & Hp & Hz). cbn [scan_events existsb].
    change (buffer (e :: evs)) with (event_bytes e ++ buffer evs)%list. rewrite length_app. unfold SizeofInotifyEvent.
    rewrite (proj2 (Z.leb_le _ _)) by lia.
    set (name := (ev_name e ++ replicate (ev_pad e) 0)%list).
    assert (Hnl: Z.of_nat (length name) = ev_len e) by (unfold name, ev_len; rewrite length_app, length_replicate; done).
    assert (E1: slice_of (pre ++ (event_bytes e ++ buffer evs) ++ post) (Z.of_nat (length pre) + 12) 4 = le32_bytes (ev_len e)).
    { unfold event_bytes. fold name. rewrite <- !app_assoc, (app_assoc pre).
      replace (Z.of_nat (length pre) + 12) with (Z.of_nat (length (pre ++ ev_head e))) by (rewrite length_app; lia).
      change 4 with (Z.of_nat (length (le32_bytes (ev_len e)))). apply slice_of_app. }
    assert (E2: slice_of (pre ++ (event_bytes e ++ buffer evs) ++ post) (Z.of_nat (length pre) + 16) (ev_len e) = name).
    { unfold event_bytes. fold name. rewrite <- !app_assoc, (app_assoc pre), (app_assoc (pre ++ ev_head e)).
      replace (Z.of_nat (length pre) + 16) with (Z.of_nat (length ((pre ++ ev_head e) ++ le32_bytes (ev_len e)))) by (rewrite !length_app; cbn [le32_bytes length]; lia).
      rewrite <- Hnl. apply slice_of_app. }
    rewrite E1, le32_le32_bytes by (unfold ev_len; lia). rewrite E2.
    assert (Ht: TrimRightNul name = ev_name e) by (apply TrimRightNul_pad; done). rewrite Ht.
    replace ((0 <? ev_len e) && (Z.of_nat (length pre) + 16 + ev_len e <=? Z.of_nat (length pre + (length (event_bytes e) + length (buffer evs))))
             && bool_decide (ev_name e = base)) with (bool_decide (ev_name e = base)).
    + rewrite orb_assoc. replace (Z.of_nat (length pre) + 16 + ev_len e) with (Z.of_nat (length (pre ++ event_bytes e))) by (rewrite length_app; unfold ev_len; lia).
      rewrite Nat.add_assoc, <- length_app, <- !app_assoc, app_assoc. apply IH. cbn in Hf. lia.
    + rewrite (proj2 (Z.leb_le _ _)), andb_true_r by (unfold ev_len; lia).
      destruct (bool_decide_reflect (ev_name e = base)) as [Hb|Hb]; [|now rewrite andb_false_r].
      rewrite (proj2 (Z.ltb_lt _ _)); [done|]. unfold ev_len. destruct (ev_name e); [congruence | cbn; lia].
Qed.

Lemma buffer_length evs : Forall event_ok evs -> (length evs <= length (buffer evs))%nat.
Proof.
  induction 1 as [|e evs He _ IH]; [done|]. change (buffer (e :: evs)) with (event_bytes e ++ buffer evs)%list.
  rewrite length_app, (event_size e He). cbn [length]. lia.
Qed.

Lemma changed_buffer base evs rest : base <> [] -> Forall event_ok evs ->
  config_changed base (buffer evs ++ rest)%list (Z.of_nat (length (buffer evs))) = existsb (fun e => bool_decide (ev_name e = base)) evs.
Proof.
  intros Hb Hok. unfold config_changed. pose proof (buffer_length evs Hok).
  apply (scan_events_buffer base evs Hb Hok _ [] rest false). lia.
Qed.

(** The daemon reads the kernel's events right: whatever the buffer holds
    after them, a read of whole events tells of a change exactly when one of
    them names the configuration file. *)
Theorem inotify_roundtrip base evs rest : base <> [] -> Forall event_ok evs ->
  config_changed base (buffer evs ++ rest)%list (Z.of_nat (length (buffer evs))) = true <-> exists e, e ∈ evs /\ ev_name e = base.
Proof.
  intros Hb Hok. rewrite changed_buffer by done. rewrite existsb_exists. setoid_rewrite <- list_elem_of_In.
  setoid_rewrite bool_decide_eq_true. done.
Qed.

(** ** The watch, the timer and the reload channel *)

(** Which save of the file the last reload read, how it ended, and the daemon. *)
Record Main (M : Type -> Type -> Type) := mkMain { tried : nat; outcome : option ReloadResult; dmn : Daemon (M := M) }.
Arguments mkMain {M}.
Arguments tried {M}.
Arguments outcome {M}.
Arguments dmn {M}.

(** How often the file was saved and what [config.Load] makes of it now; the
    main loop; the events not read yet; the timer's deadline; whether a reload
    is posted; the time in milliseconds. *)
Record Watch (M : Type -> Type -> Type) := mkWatch {
  file : nat * (Config + LoadError); main : Main M; queue : list Event; deadline : option Z; posted : bool; clock : Z
}.
Arguments mkWatch {M}.
Arguments file {M}.
Arguments main {M}.
Arguments queue {M}.
Arguments deadline {M}.
Arguments posted {M}.
Arguments clock {M}.

Definition debounce_ms : Z := 150.

Section Watching.
Context {M : Type -> Type -> Type} `{EbpfMap M, !EbpfLaws M}.
Context (rng : gset key -> list key) (rng_perm : forall X, rng X ≡ₚ elements X) (base : list Z).
Local Abbreviation Watch := (Watch M).

Definition version (w : Watch) : nat := fst (file w).
Definition disk (w : Watch) : Config + LoadError := snd (file w).

(** Reading the file can fail whatever it holds. *)
Definition read_as (disk loaded : Config + LoadError) : Prop := loaded = disk \/ loaded = inr ERead.

(** One reload of the main loop: it reads the file as it is now and goes on
    with what it read, whichever writes the kernel takes. *)
Inductive reloads (w : Watch) : Main M -> Prop :=
  | reload_ran w1 w2 loaded d' r : read_as (disk w) loaded -> reload rng w1 w2 loaded (dmn (main w)) = (d', r) ->
      reloads w (mkMain (version w) (Some r) d').

(** What happens around the daemon: the file is saved, with any content;
    another file of the directory is; a SIGHUP makes the main loop reload;
    frames, sweeps and other processes change the maps. *)
Inductive outside : Watch -> Watch -> Prop :=
  | file_saved w e content : event_ok e -> ev_name e = base ->
      outside w (mkWatch (S (version w), content) (main w) (queue w ++ [e])%list (deadline w) (posted w) (clock w))
  | other_saved w e : event_ok e -> ev_name e <> base ->
      outside w (mkWatch (file w) (main w) (queue w ++ [e])%list (deadline w) (posted w) (clock w))
  | hangup w m : reloads w m -> outside w (mkWatch (file w) m (queue w) (deadline w) (posted w) (clock w))
  | maps_change w s : let d := dmn (main w) in
      outside w (mkWatch (file w) (mkMain (tried (main w)) (outcome (main w)) (mkDaemon (d_cfg d) s (d_mon d))) (queue w) (deadline w) (posted w) (clock w)).

(** What a read of the events does to the timer. *)
Definition on_read (evs : list Event) (rest : list Z) (w : Watch) : option Z :=
  if config_changed base (buffer evs ++ rest)%list (Z.of_nat (length (buffer evs))) then Some (clock w + debounce_ms) else deadline w.

(** The daemon's goroutines: a read of some events, a millisecond of the timer,
    its function, and the main loop's reload, which is not repeated if it fails. *)
Inductive own : Watch -> Watch -> Prop :=
  | read_events w evs more rest : queue w = (evs ++ more)%list -> evs <> [] ->
      own w (mkWatch (file w) (main w) more (on_read evs rest w) (posted w) (clock w))
  | wait w t : deadline w = Some t -> clock w < t ->
      own w (mkWatch (file w) (main w) (queue w) (deadline w) (posted w) (clock w + 1))
  | fire w t : deadline w = Some t -> t <= clock w ->
      own w (mkWatch (file w) (main w) (queue w) None true (clock w))
  | reload_posted w m : posted w = true -> reloads w m ->
      own w (mkWatch (file w) m (queue w) (deadline w) false (clock w)).

Definition watch_step (w w' : Watch) : Prop := outside w w' \/ own w w'.

(** A daemon that has just read the file and starts to watch. *)
Definition watching (f : nat * (Config + LoadError)) (d : Daemon (M := M)) (now : Z) : Watch := mkWatch f (mkMain (fst f) None d) [] None false now.

(** ** No change is lost *)

(** A save no reload has read yet is an event not read, a timer, or a posted reload. *)
Definition tracked (w : Watch) : Prop :=
  Forall event_ok (queue w) /\
  (tried (main w) = version w \/ (exists e, e ∈ queue w /\ ev_name e = base) \/ is_Some (deadline w) \/ posted w = true).

Lemma on_read_keeps evs rest w : is_Some (deadline w) -> is_Some (on_read evs rest w).
Proof. unfold on_read. case_match; eauto. Qed.

Lemma on_read_arms evs rest w e : base <> [] -> Forall event_ok evs -> e ∈ evs -> ev_name e = base -> is_Some (on_read evs rest w).
Proof.
  intros Hb Hok He Hn. unfold on_read. rewrite changed_buffer by done.
  rewrite (proj2 (existsb_exists _ _)); [eauto|]. exists e. split; [now apply list_elem_of_In | now apply bool_decide_eq_true].
Qed.

Lemma tracked_step w w' : base <> [] -> watch_step w w' -> tracked w -> tracked w'.
Proof.
  intros Hb [Ho|Ho] [Hq Hc]; [inversion Ho as [? e|? e|? m Hm|? s] | inversion Ho as [? evs more rest Eq|? t Et|? t Et|? m Hp Hm]]; subst; split;
    unfold version in *; cbn [queue file main deadline posted tried] in *.
  - apply Forall_app. auto.
  - right; left. exists e. split; [apply elem_of_app; right; left | done].
  - apply Forall_app. auto.
  - destruct Hc as [?|[(e' & He & Hn)|?]]; [auto | right; left; exists e'; split; [apply elem_of_app; auto | done] | auto].
  - done.
  - left. now destruct Hm.
  - done.
  - exact Hc.
  - rewrite Eq in Hq. now apply Forall_app in Hq.
  - rewrite Eq in Hq, Hc. apply Forall_app in Hq as [Hevs Hmore].
    destruct Hc as [?|[(e & [He|He]%elem_of_app & Hn)|[?|?]]]; auto.
    + right; right; left. eapply on_read_arms; eauto.
    + right; left; eauto.
    + right; right; left. now apply on_read_keeps.
  - done.
  - exact Hc.
  - done.
  - auto.
  - done.
  - left. now destruct Hm.
Qed.

Definition measure (w : Watch) : nat :=
  200 * length (queue w) + match deadline w with None => 0 | Some t => 2 + Z.to_nat (t - clock w) end + (if posted w then 1 else 0).

(** A timer is set at most the debounce time ahead. *)
Definition armed (w : Watch) : Prop := match deadline w with None => True | Some t => t <= clock w + debounce_ms end.

Lemma own_decreases w w' : own w w' -> armed w -> (measure w' < measure w)%nat /\ armed w' /\ file w' = file w.
Proof.
  intros Ho Ha. inversion Ho as [? evs more rest Eq Hne|? t Et|? t Et|? m Hp Hm]; subst; unfold measure, armed in *; cbn [queue deadline posted clock file] in *.
  - rewrite Eq, length_app. unfold on_read. destruct evs as [|e evs]; [done|]. cbn [length].
    destruct (config_changed _ _ _); unfold debounce_ms in *; split_and!; try done; destruct (deadline w), (posted w); lia.
  - rewrite Et in *. split_and!; try done; destruct (posted w); lia.
  - rewrite Et in *. split_and!; try done; destruct (posted w); lia.
  - rewrite Hp. split_and!; try done; destruct (deadline w); lia.
Qed.

Lemma armed_step w w' : watch_step w w' -> armed w -> armed w'.
Proof. intros [Ho|Ho] Ha; [inversion Ho; subst; exact Ha | now apply (own_decreases w w')]. Qed.

(** What the last reload read and did; before any, the daemon is as it started. *)
Definition recorded (start w : Watch) : Prop :=
  let d := dmn (main w) in
  (tried (main w) <= version w)%nat /\
  match outcome (main w) with
  | None => tried (main w) = version start /\ d_cfg d = d_cfg (dmn (main start)) /\ d_mon d = d_mon (dmn (main start))
  | Some r => exists w1 w2 src loaded d1 d2, (tried (main w) = version w -> src = disk w) /\ read_as src loaded /\
      reload rng w1 w2 loaded d1 = (d2, r) /\ d_cfg d = d_cfg d2 /\ d_mon d = d_mon d2
  end.

Lemma reloads_recorded start w m q t p c : reloads w m -> recorded start (mkWatch (file w) m q t p c).
Proof. intros [w1 w2 loaded d' r Hl Hr]. split; [done|]. cbn. exists w1, w2, (disk w), loaded, (dmn (main w)), d'. done. Qed.

Lemma recorded_step start w w' : watch_step w w' -> recorded start w -> recorded start w'.
Proof.
  intros [Ho|Ho] Hr; inversion Ho; subst; try exact Hr; try now apply reloads_recorded.
  - destruct Hr as [Hle Hr]. split; [unfold version in *; cbn [main file fst tried]; lia|]. cbn [main file]. unfold version in *. cbn [fst file].
    destruct (outcome (main w)); [|exact Hr]. destruct Hr as (w1 & w2 & src & loaded & d1 & d2 & _ & Hr).
    exists w1, w2, src, loaded, d1, d2. split; [lia | exact Hr].
Qed.

(** The invariant of a watching daemon. *)
Definition watched (start w : Watch) : Prop := tracked w /\ armed w /\ recorded start w.

Lemma watched_step start w w' : base <> [] -> watch_step w w' -> watched start w -> watched start w'.
Proof.
  intros Hb Hs (Ht & Ha & Hr). split_and!; [now apply (tracked_step w) | now apply (armed_step w) | now apply (recorded_step _ w)].
Qed.

Lemma watched_run start w w' : base <> [] -> rtc watch_step w w' -> watched start w -> watched start w'.
Proof. intros Hb Hr. induction Hr as [|w w1 w2 Hs _ IH]; [done|]. intros Hw. apply IH. now apply (watched_step _ w). Qed.

Lemma watching_watched f d now : watched (watching f d now) (watching f d now).
Proof. split_and!; [split; [constructor | now left] | exact I | split; done]. Qed.

Lemma own_run start w w' : base <> [] -> rtc own w w' -> watched start w -> watched start w' /\ file w' = file w.
Proof.
  intros Hb Hr. induction Hr as [|w w1 w2 Hs _ IH]; [done|]. intros Hw. pose proof (own_decreases _ _ Hs (proj1 (proj2 Hw))) as (_ & _ & <-).
  apply IH. apply (watched_step _ w); [done | now right | done].
Qed.

Lemma reloads_total w : exists m, reloads w m.
Proof.
  destruct (reload rng (mkWrites true true true) (mkWrites true true true) (disk w) (dmn (main w))) as [d' r] eqn:E.
  eexists. eapply reload_ran; [now left | exact E].
Qed.

Lemma own_progress w : tracked w -> tried (main w) = version w \/ exists w', own w w'.
Proof.
  intros [Hq Hc]. destruct Hc as [?|[(e & He & _)|[[t Ht]|Hp]]]; [now left | right | right | right].
  - destruct (queue w) as [|e' q] eqn:E; [now apply not_elem_of_nil in He|].
    eexists. apply (read_events w [e'] q []); done.
  - destruct (Z.le_gt_cases t (clock w)); eexists; [eapply fire | eapply wait]; eauto.
  - destruct (reloads_total w) as [m Hm]. eexists. now apply (reload_posted w m).
Qed.

Lemma own_bounded n w w' : nsteps own n w w' -> armed w -> (n <= measure w)%nat.
Proof.
  induction 1 as [|n w w1 w2 Hs _ IH]; [lia|]. intros Ha. apply (own_decreases w) in Hs as (Hm & Ha1 & _); [|done].
  specialize (IH Ha1). lia.
Qed.

Lemma own_reaches n : base <> [] -> forall w, (measure w <= n)%nat -> tracked w -> armed w ->
  exists w', rtc own w w' /\ tried (main w') = version w'.
Proof.
  intros Hb. induction n as [|n IH]; intros w Hm Ht Ha; (destruct (own_progress w Ht) as [Hv|[w1 Hs]]; [exists w; split; [constructor | done]|]);
    pose proof (own_decreases w w1 Hs Ha) as (Hd & Ha1 & _); [lia|].
  destruct (IH w1) as (w2 & Hr & Hv2); [lia | apply (tracked_step w); [done | now right | done] | done |].
  exists w2. split; [now apply (rtc_l _ w w1) | done].
Qed.

(** The file as last saved has had its reload.  If the reload went through,
    the configuration running is the old one with the live part of the file,
    and it was in force when the reload ended; if not, because the file was
    refused or unreadable or a write failed, the old one goes on running. *)
Definition caught_up (start w : Watch) : Prop :=
  match outcome (main w) with
  | None => version w = version start /\ d_cfg (dmn (main w)) = d_cfg (dmn (main start))
  | Some r => exists w1 w2 loaded d1 d2, read_as (disk w) loaded /\ reload rng w1 w2 loaded d1 = (d2, r) /\ d_cfg (dmn (main w)) = d_cfg d2 /\
      match r with
      | RApplied _ => exists src, disk w = inl src /\ d_cfg d2 = ApplyLiveFrom (d_cfg d1) src /\ governed d2
      | RKept _ | RMonitor _ | RPolicy _ _ => d_cfg d2 = d_cfg d1
      end
  end.

Lemma recorded_caught_up start w : recorded start w -> tried (main w) = version w -> caught_up start w.
Proof using EbpfLaws0 rng_perm.
  unfold caught_up. intros [_ Hr] Hv. destruct (outcome (main w)) as [r|]; [|split; [now rewrite <- Hv | tauto]].
  destruct Hr as (w1 & w2 & src & loaded & d1 & d2 & Hsrc & Hl & Hr & Hc & _). rewrite (Hsrc Hv) in Hl.
  exists w1, w2, loaded, d1, d2. split_and!; [done | done | done|]. apply (reload_cases rng rng_perm) in Hr.
  destruct r; [now subst d2 | tauto | tauto |]. destruct Hr as (src' & -> & Hr). destruct Hl as [<-|]; [eauto | done].
Qed.

End Watching.

Definition base_name : list Z := [99; 102; 103]. (* "cfg" *)
Definition saved_event : Event := mkEvent (replicate 12 1) base_name 13.
Definition temp_event : Event := mkEvent (replicate 12 1) [99; 102; 103; 46; 116; 109; 112] 9.

Theorem inotify_roundtrip_witness :
  config_changed base_name (buffer [temp_event; saved_event]) 64 = true /\ config_changed base_name (buffer [temp_event]) 32 = false.
Proof.
  assert (Hok: forall e, e ∈ [temp_event; saved_event] -> event_ok e).
  { intros e [->|[->|[]%not_elem_of_nil]%elem_of_cons]%elem_of_cons; repeat split; try (cbn; lia); repeat constructor; done. }
  split; [|reflexivity].
  refine (proj2 (inotify_roundtrip base_name [temp_event; saved_event] [] _ _) _); [done | now apply Forall_forall |].
  exists saved_event. split; [right; left | done].
Defined.

(** One save: the temporary file, then the rename.  The mode is turned. *)
Definition turned_watch : Watch FMap :=
  mkWatch (8%nat, inl turned) (mkMain 7 None running) [temp_event; saved_event] None false 0.


(** A reload that failed is not tried again: the timer has fired, the reload
    was refused, and nothing is left to do, although the file asks for the
    new mode and the daemon runs the old one. *)
Example failed_reload_not_retried :
  let w := mkWatch (8%nat, inl turned) (mkMain 7 None running) [] None true 0 in
  let w' := mkWatch (8%nat, inl turned) (mkMain 8 (Some (RKept ERead)) running) [] None false 0 in
  own elements base_name w w' /\ (forall w'', ~ own elements base_name w' w'') /\ Mode (d_cfg (dmn (main w'))) = "monitor"%string.
Proof.
  split_and!; [|intros w'' Ho; inversion Ho; subst; cbn in *; try done; now destruct evs | vm_compute; reflexivity].
  apply (reload_posted elements base_name (mkWatch (8%nat, inl turned) (mkMain 7 None running) [] None true 0)); [done|].
  apply (reload_ran elements (mkWatch (8%nat, inl turned) (mkMain 7 None running) [] None true 0) yes3 yes3 (inr ERead)); [now right | done].
Qed.

(** The watch starts after the tuning and the loading: a save between the
    first reading of the file and the start of the watch is not noticed. *)
Example early_save_unnoticed :
  let w := mkWatch (1%nat, inl turned) (mkMain 0 None running) [] None false 0 in
  tried (main w) <> version w /\ forall w', ~ own elements base_name w w'.
Proof. split; [done|]. intros w' Ho. inversion Ho; subst; cbn in *; try done. now destruct evs. Qed.

(** ** Shutdown *)

(** A worker waits in its [select], runs its function, or has returned. *)
Inductive Worker := Selecting | Working | Finished.
#[export] Instance Worker_eq_dec : EqDecision Worker.
Proof. solve_decision. Defined.

Inductive Phase := Serving | Stopping | Closed.

Record Process := mkProcess { workers : list Worker; cancelled : bool; phase : Phase }.

Inductive proc_step : Process -> Process -> Prop :=
  | spawn_worker p : phase p = Serving -> proc_step p (mkProcess (workers p ++ [Working])%list (cancelled p) Serving)
  | tick p i : workers p !! i = Some Selecting -> proc_step p (mkProcess (<[i := Working]> (workers p)) (cancelled p) (phase p))
  | done_work p i : workers p !! i = Some Working -> proc_step p (mkProcess (<[i := Selecting]> (workers p)) (cancelled p) (phase p))
  | return_worker p i : workers p !! i = Some Selecting -> cancelled p = true ->
      proc_step p (mkProcess (<[i := Finished]> (workers p)) (cancelled p) (phase p))
  | terminate p : phase p = Serving -> proc_step p (mkProcess (workers p) true Stopping)
  | close_maps p : phase p = Stopping -> Forall (eq Finished) (workers p) -> proc_step p (mkProcess (workers p) (cancelled p) Closed).

Definition started : Process := mkProcess [] false Serving.

Definition orderly (p : Process) : Prop :=
  (cancelled p = true <-> phase p <> Serving) /\ (phase p = Closed -> Forall (eq Finished) (workers p)).

Lemma finished_stays (l : list Worker) i s s' : l !! i = Some s -> s <> Finished -> Forall (eq Finished) l -> Forall (eq Finished) (<[i := s']> l).
Proof. intros Hi Hs Hf. rewrite Forall_lookup in Hf. apply Hf in Hi. congruence. Qed.

Lemma orderly_step p p' : proc_step p p' -> orderly p -> orderly p'.
Proof.
  intros Hs [Hc Hf]. inversion Hs; subst; split; cbn [cancelled phase workers] in *; try done; try tauto; try congruence;
    try (intros Hp; eapply finished_stays; eauto; done).
  rewrite Hc. split; congruence.
Qed.

Definition pending (w : Worker) : nat := match w with Working => 2 | Selecting => 1 | Finished => 0 end.
Definition work_left (p : Process) : nat := sum_list (map pending (workers p)).

Lemma sum_insert (l : list Worker) i s s' : l !! i = Some s -> (pending s' < pending s)%nat ->
  (sum_list (map pending (<[i := s']> l)) < sum_list (map pending l))%nat.
Proof.
  revert i. induction l as [|w l IH]; intros [|i] Hi Hlt; cbn in *; unfold id in *; try done.
  - injection Hi as ->. lia.
  - apply Nat.add_lt_mono_l. exact (IH i Hi Hlt).
Qed.

Lemma stopping_closes n : forall p, (work_left p <= n)%nat -> phase p = Stopping -> cancelled p = true ->
  exists p', rtc proc_step p p' /\ phase p' = Closed.
Proof.
  induction n as [|n IH]; intros p Hn Hp Hc;
    (destruct (decide (Forall (eq Finished) (workers p))) as [Hf|Hf];
      [eexists; split; [apply rtc_once, close_maps; done | done]|]);
    apply not_Forall_Exists, Exists_exists in Hf as (w & [i Hi]%list_elem_of_lookup & Hw); try (intros x; apply _).
  - exfalso. destruct w; [| |done]; pose proof (sum_insert (workers p) i _ Finished Hi) as Hs; cbn in Hs; unfold work_left in Hn; lia.
  - destruct w; [| |done].
    + destruct (IH (mkProcess (<[i := Finished]> (workers p)) (cancelled p) (phase p))) as (p' & Hr & Hcl); try done.
      { pose proof (sum_insert (workers p) i _ Finished Hi) as Hs. cbn in Hs. unfold work_left in *. cbn [workers]. lia. }
      exists p'. split; [|done]. eapply rtc_l; [exact (return_worker p i Hi Hc) | exact Hr].
    + destruct (IH (mkProcess (<[i := Selecting]> (workers p)) (cancelled p) (phase p))) as (p' & Hr & Hcl); try done.
      { pose proof (sum_insert (workers p) i _ Selecting Hi) as Hs. cbn in Hs. unfold work_left in *. cbn [workers]. lia. }
      exists p'. split; [|done]. eapply rtc_l; [exact (done_work p i Hi) | exact Hr].
Qed.

(** The maps outlive the workers: in whatever order the goroutines run,
    once the maps are closed every worker has returned and none runs again;
    and a daemon told to stop can always go on to close them. *)
Theorem maps_outlive_workers p : rtc proc_step started p ->
  (phase p = Closed -> forall p', rtc proc_step p p' -> Forall (eq Finished) (workers p')) /\
  (phase p = Stopping -> exists p', rtc proc_step p p' /\ phase p' = Closed).
Proof.
  intros Hr. assert (Ho: orderly p).
  { assert (H0: orderly started) by (repeat split; done). revert H0. induction Hr as [|p p1 p2 Hs _ IH]; [done|]. intros Ho.
    apply IH. now apply (orderly_step p). }
  split.
  - intros Hc p' Hrun. assert (Hp: orderly p' /\ phase p' = Closed).
    { clear Hr. induction Hrun as [|p p1 p2 Hs _ IH]; [done|]. apply IH; [now apply (orderly_step p)|].
      inversion Hs; subst; cbn [phase]; congruence. }
    destruct Hp as [[_ Hf] Hp]. auto.
  - intros Hs. apply (stopping_closes (work_left p)); [done | done |]. destruct Ho as [Hc _]. apply Hc. congruence.
Qed.

Theorem maps_outlive_workers_witness : exists p, rtc proc_step started p /\ workers p = [Selecting] /\ exists p', rtc proc_step p p' /\ phase p' = Closed.
Proof.
  set (p := mkProcess [Selecting] true Stopping). exists p.
  assert (Hr: rtc proc_step started p).
  { eapply rtc_l; [now apply spawn_worker|]. eapply rtc_l; [now apply (done_work _ 0)|]. eapply rtc_l; [now apply terminate|]. constructor. }
  split_and!; [exact Hr | done | exact (proj2 (maps_outlive_workers p Hr) eq_refl)].
Defined.
