(* ===== verification/Wizard.v ===== *)
(** * Wizard: internal/wizard/wizard.go and internal/dataplane/probe.go

    The first-run dialogue: the answers are read line by line from the
    standard input, the interfaces picked, the configuration built up, and at
    the end validated, saved and the service started.  Printed text is left
    out.  The loops run on fuel; a dialogue that does not run out is
    [Some]. *)

From Stdlib Require Import ZArith Lia Bool Ascii String.
From stdpp Require Import prelude strings list gmap sorting.
From coqutil Require Import Datatypes.RecordSetters.
From S2P Require Import Prelude GoText GoNet GoFloat GoFmt Config ConfigFile Resources.
Import DoubleBraceUpdate.

Local Open Scope string_scope.
Local Open Scope Z_scope.

(** ** Probing an interface *)

Inductive Attached := AttachOk | AttachFailed (errno_busy : bool) (text : string).

(** [isBusy]: EBUSY, or a message that says so. *)
Definition isBusy (errno_busy : bool) (text : string) : bool :=
  errno_busy || (let s := ToLower text in Contains s "busy" || Contains s "already").

Inductive Tried := TOk | TBusy | TNo.
Definition try_attach (a : Attached) : Tried :=
  match a with AttachOk => TOk | AttachFailed b t => if isBusy b t then TBusy else TNo end.

(** What the interface, the program and the two attachments turn out to be. *)
Definition ProbeXDP (has_iface has_prog : bool) (driver generic : Attached) : string :=
  if negb has_iface then "none"
  else if negb has_prog then "none"
  else match try_attach driver with
       | TOk => "native"
       | TBusy => "busy"
       | TNo => match try_attach generic with TOk => "generic" | TBusy => "busy" | TNo => "none" end
       end.

(** ** The interfaces *)

Record nic := mkNic { Name : string; Driver : string; Up : bool; Speed : string; XDP : string }.

Definition name_le (a b : nic) : Prop := String.leb (Name a) (Name b) = true.
#[export] Instance name_le_dec a b : Decision (name_le a b).
Proof. unfold name_le. apply _. Defined.

(** The interfaces that are not loopback, by name.  [ifs]: name, loopback, up. *)
Definition listNICs (ifs : list (string * bool * bool)) (driverOf readSpeed probe : string -> string) : list nic :=
  merge_sort name_le
    (omap (fun '(name, loopback, up) =>
       if (loopback : bool) then None else Some (mkNic name (driverOf name) up (readSpeed name) (probe name))) ifs).

(** [filepath.Base]: the last component, slashes at the end left out. *)
Fixpoint trim_slashes (fuel : nat) (s : string) : string :=
  match fuel with O => s | S f => if HasSuffix s "/" then trim_slashes f (TrimSuffix s "/") else s end.
Definition Base (path : string) : string :=
  if String.eqb path "" then "."
  else let s := trim_slashes (String.length path) path in
       if String.eqb s "" then "/" else match last_index_byte "/" s with Some i => str_drop (S i) s | None => s end.

(** [read_link] and [read_file] give what a link points to and what a file holds. *)
Definition driverOf (read_link : string -> option string) (ifc : string) : string :=
  match read_link ("/sys/class/net/" ++ ifc ++ "/device/driver") with None => "none" | Some link => Base link end.

Definition readTrim (read_file : string -> option string) (p : string) : string :=
  match read_file p with None => "" | Some b => TrimSpace b end.

(** The interfaces as the wizard lists them on a host. *)
Definition host_nics (ifs : list (string * bool * bool)) (read_link read_file : string -> option string) (probe : string -> string) : list nic :=
  listNICs ifs (driverOf read_link) (fun name => readTrim read_file ("/sys/class/net/" ++ name ++ "/speed")) probe.

(** [printNICs] *)
Definition nic_row (idx : nat) (n : nic) : string :=
  padr 4 (Itoa (Z.of_nat idx)) ++ " " ++ padr 12 (Name n) ++ " " ++ padr 10 (Driver n) ++ " "
  ++ padr 6 (if Up n then "true" else "false") ++ " " ++ padr 9 (XDP n) ++ " "
  ++ padr 8 (if String.eqb (Speed n) "" then "" else Speed n ++ "Mb/s") ++ nl.

Definition printNICs (nics : list nic) : string :=
  padr 4 "#" ++ " " ++ padr 12 "iface" ++ " " ++ padr 10 "driver" ++ " " ++ padr 6 "up" ++ " " ++ padr 9 "xdp" ++ " "
  ++ padr 8 "speed" ++ nl ++ String.concat "" (imap nic_row nics) ++ nl.

Example base_names : map Base ["../../../bus/pci/drivers/ixgbe"; "virtio_net/"; "/"; ""] = ["ixgbe"; "virtio_net"; "/"; "."].
Proof. vm_compute. reflexivity. Qed.

Definition humanBytes (n : Z) : string :=
  if 2 ^ 30 <=? n then fmt_fixed 1 (fdiv (f64_of_Z n) (f64_of_Z (2 ^ 30))) ++ " GB"
  else if 2 ^ 20 <=? n then fmt_fixed 0 (fdiv (f64_of_Z n) (f64_of_Z (2 ^ 20))) ++ " MB"
  else FormatUint n ++ " B".

(** ** Asking *)

(** [ReadString('\n')] on what is left of the input, and what is left then. *)
Definition ReadLine (i : string) : string * string :=
  match Cut i (String newline "") with Some (line, rest) => (line, rest) | None => (i, "") end.

Definition prompt (def i : string) : string * string :=
  let '(line, i) := ReadLine i in
  let line := TrimSpace line in
  (if String.eqb line "" then def else line, i).

Definition promptYN (def : bool) (i : string) : bool * string :=
  let '(line, i) := ReadLine i in
  let line := ToLower (TrimSpace line) in
  (if String.eqb line "" then def else String.eqb line "y" || String.eqb line "yes", i).

Definition promptU32 (def : Z) (valid : Z -> bool) (i : string) : Z * string :=
  let '(s, i) := prompt (FormatUint def) i in
  (match ParseUint s 32 with
   | (_, Some _) => def
   | (v, None) => if valid (u32 v) then u32 v else def
   end, i).

(** The name picked, the interfaces made to blink, and the rest of the input. *)
Fixpoint pickIface (fuel : nat) (nics : list nic) (blinked : list string) (i : string) : option (string * list string * string) :=
  match fuel with
  | O => None
  | S n =>
      let '(s, i) := prompt "" i in
      let index t := match Atoi t with
                     | (idx, None) => if 0 <=? idx then nics !! Z.to_nat idx else None
                     | (_, Some _) => None
                     end in
      if HasPrefix s "b" then
        pickIface n nics (match index (TrimPrefix s "b") with Some c => (blinked ++ [Name c])%list | None => blinked end) i
      else match index s with
           | Some c => Some (Name c, blinked, i)
           | None => if existsb (fun c => String.eqb (Name c) s) nics then Some (s, blinked, i) else pickIface n nics blinked i
           end
  end.

(** ** The dialogue *)

Fixpoint ask_servers (fuel : nat) (allow : slice string) (i : string) : option (slice string * string) :=
  match fuel with
  | O => None
  | S n =>
      let '(e, i) := prompt "" i in
      if String.eqb e "" then Some (allow, i)
      else match ParseHostPort e with
           | inr _ => ask_servers n allow i
           | inl _ => ask_servers n (Some (elems allow ++ [e])%list) i
           end
  end.

Definition ask_policy (fuel : nat) (cfg : Config) (i : string) : option (Config * string) :=
  let '(monitor, i) := promptYN true i in
  let cfg := cfg {{ Mode := if monitor then "monitor" else "enforce" }} in
  let '(adopt, i) := promptYN true i in
  let cfg := cfg {{ OosStrict := negb adopt }} in
  let '(udp, i) := promptYN true i in
  let cfg := cfg {{ FilterUDP := udp }} in
  let '(rst, i) := promptYN false i in
  let cfg := cfg {{ RejectWithRST := rst }} in
  let '(syn, i) := promptYN false i in
  let cfg := cfg {{ AllowInboundSYN := syn }} in
  let '(servers, i) := promptYN false i in
  if servers then
    match ask_servers fuel (ServerAllow cfg) i with
    | None => None
    | Some (allow, i) => Some (cfg {{ AllowInboundServers := true }} {{ ServerAllow := allow }}, i)
    end
  else Some (cfg, i).

Definition l1_valid (v : Z) : bool := (v =? 0) || ((1024 <=? v) && (Z.land v (u32 (v - 1)) =? 0)).

Definition ask_sizing (rec : ResourceRecommendation) (cfg : Config) (i : string) : Config * string :=
  let cfg := cfg {{ FlowMax := R_FlowMax rec }} {{ UDPFlowMax := R_UDPFlowMax rec }} {{ L1Size := R_L1Size rec }} in
  let '(tcp, i) := promptU32 (R_FlowMax rec) (fun v => 1024 <=? v) i in
  let cfg := cfg {{ FlowMax := tcp }} in
  let '(udp, i) := promptU32 (R_UDPFlowMax rec) (fun v => 1024 <=? v) i in
  let cfg := cfg {{ UDPFlowMax := udp }} in
  let '(l1, i) := promptU32 (R_L1Size rec) l1_valid i in
  (cfg {{ L1Size := l1 }}, i).

Section Wizard.
(** [strconv.ParseFloat(s, 64)]; none is an error. *)
Context (ParseFloat : string -> option f64).

Definition wizard_rule (cidr ppsText mbpsText : string) : option FlowMonitorCIDR :=
  match ParseUint ppsText 64, ParseFloat mbpsText with
  | (pps, None), Some mbps =>
      if fltb mbps fzero || ((pps =? 0) && feqb mbps fzero) then None else Some (mkRule cidr pps mbps)
  | _, _ => None
  end.

Definition canonical4 (cidr : string) : bool :=
  match ParseCIDR cidr with
  | None => false
  | Some (ip, network) => match To4 ip with None => false | Some _ => String.eqb (IPNet_String network) cidr end
  end.

Fixpoint ask_rules (fuel : nat) (rules : list FlowMonitorCIDR) (i : string) : option (list FlowMonitorCIDR * string) :=
  if negb (Z.of_nat (length rules) <? 4096) then Some (rules, i)
  else
    match fuel with
    | O => None
    | S n =>
        let '(cidr, i) := prompt "" i in
        if String.eqb cidr "" then Some (rules, i)
        else if negb (canonical4 cidr) then ask_rules n rules i
        else
          let '(ppsText, i) := prompt "0" i in
          let '(mbpsText, i) := prompt "0" i in
          match wizard_rule cidr ppsText mbpsText with
          | None => ask_rules n rules i
          | Some r => ask_rules n (rules ++ [r])%list i
          end
    end.

Definition sample_valid (v : Z) : bool := (0 <? v) && (v <=? 65536) && (Z.land v (u32 (v - 1)) =? 0).
Definition flows_valid (v : Z) : bool := (1024 <=? v) && (v <=? 2 ^ 20).

Definition ask_monitoring (fuel : nat) (cfg : Config) (i : string) : option (Config * string) :=
  let '(yes, i) := promptYN false i in
  if negb yes then Some (cfg, i)
  else
    let fm := FlowMon cfg in
    let '(every, i) := promptU32 (SampleEvery fm) sample_valid i in
    let '(flows, i) := promptU32 (MaxFlows fm) flows_valid i in
    match ask_rules fuel (elems (CIDRs fm)) i with
    | None => None
    | Some (rules, i) => Some (cfg {{ FlowMon := mkFM true every flows (Some rules) }}, i)
    end.

(** The mode follows what the two ports were probed to take. *)
Definition new_config (trusted untrusted capT capU : string) : Config :=
  let cfg := Default {{ TrustedIface := trusted }} {{ UntrustedIface := untrusted }} in
  cfg {{ XDPMode := if String.eqb capT "native" && String.eqb capU "native" then "native" else "auto" }}.

(** From the picked ports to the configuration that is validated; the preview
    of the tuning changes nothing. *)
Definition configure (fuel : nat) (trusted untrusted capT capU : string) (res : HostResources) (i : string) : option (Config * string) :=
  match ask_policy fuel (new_config trusted untrusted capT capU) i with
  | None => None
  | Some (cfg, i) =>
      let '(cfg, i) := ask_sizing (RecommendDedicated res) cfg i in
      match ask_monitoring fuel cfg i with
      | None => None
      | Some (cfg, i) => let '(tune, i) := promptYN true i in Some (cfg {{ Tune := tune }}, i)
      end
  end.

(** ** The run *)

Context {K : Type} (systemctl : list string -> K -> bool * K).
Context (yaml_marshal : Config -> option string).

Inductive WizardError := WNotRoot | WTooFew (n : nat) | WSame | WInvalid (e : ConfigError) | WSave (e : SaveError) | WEnable | WStart.

(** Enable and start the service as asked. *)
Definition finish_setup (i : string) (k : K) : option WizardError * K :=
  let '(boot, i) := promptYN true i in
  let '(now, i) := promptYN true i in
  let k := if boot || now then snd (systemctl ["daemon-reload"] k) else k in
  let '(ok, k) := if boot then systemctl ["enable"; "xdpfilter"] k else (true, k) in
  if negb ok then (Some WEnable, k)
  else
    let '(ok, k) := if now then systemctl ["start"; "xdpfilter"] k else (true, k) in
    (if ok then None else Some WStart, k).

Definition cap_of (nics : list nic) (name : string) : string :=
  fold_left (fun c n => if String.eqb (Name n) name then XDP n else c) nics "".

(** [Run]: the error, the configuration written, and the files' states. *)
Definition Run (fuel : nat) (root : bool) (nics : list nic) (res : HostResources) (e : Env) (path : string)
    (i : string) (k : K) (fs : FS) : option (option WizardError * option Config * K * list FS) :=
  if negb root then Some (Some WNotRoot, None, k, [fs])
  else if (length nics <? 2)%nat then Some (Some (WTooFew (length nics)), None, k, [fs])
  else
    match pickIface fuel nics [] i with
    | None => None
    | Some (trusted, _, i) =>
        match pickIface fuel nics [] i with
        | None => None
        | Some (untrusted, _, i) =>
            if String.eqb trusted untrusted then Some (Some WSame, None, k, [fs])
            else
              match configure fuel trusted untrusted (cap_of nics trusted) (cap_of nics untrusted) res i with
              | None => None
              | Some (cfg, i) =>
                  match Validate cfg with
                  | (_, Some err) => Some (Some (WInvalid err), None, k, [fs])
                  | (cfg, None) =>
                      match Save yaml_marshal e cfg path fs with
                      | (states, Some err) => Some (Some (WSave err), None, k, states)
                      | (states, None) => let '(err, k) := finish_setup i k in Some (err, Some cfg, k, states)
                      end
                  end
              end
        end
    end.
End Wizard.
