(* ===== verification/WizardSpec.v ===== *)
(** * WizardSpec: what the first-run dialogue promises

    The dialogue ends, its answers make a valid configuration, and what a
    setup writes the daemon loads. *)

From Stdlib Require Import ZArith Lia Bool Ascii String.
From stdpp Require Import prelude strings list gmap sorting.
From coqutil Require Import Datatypes.RecordSetters.
From S2P Require Import Prelude GoText TextLemmas GoNet GoFloat GoFmt Config ConfigSpec ConfigFile Resources Wizard.
Import DoubleBraceUpdate.

#[local] Set Warnings "-clear-no-such-hyp".
Local Open Scope string_scope.
Local Open Scope Z_scope.

(** ** Reading lines *)

Lemma Cut_split s sep a b : Cut s sep = Some (a, b) -> s = a ++ sep ++ b.
Proof.
  revert a b. induction s as [|c s IH]; intros a b; cbn [Cut].
  - destruct (cut_prefix sep "") as [r|] eqn:E; [|done]. intros [= <- <-]. now apply cut_prefix_some in E.
  - destruct (cut_prefix sep (String c s)) as [r|] eqn:E; [intros [= <- <-]; now apply cut_prefix_some in E|].
    destruct (Cut s sep) as [[a' b']|]; [|done]. intros [= <- <-]. now rewrite (IH a' b').
Qed.

(** A line read takes something off the input, or there was none left. *)
Lemma ReadLine_shorter i : i = "" \/ (String.length (snd (ReadLine i)) < String.length i)%nat.
Proof.
  unfold ReadLine. destruct (Cut i (String newline "")) as [[a b]|] eqn:E.
  - right. apply Cut_split in E as ->. cbn [snd]. rewrite !str_length_app. cbn [String.length]. lia.
  - destruct i; [now left | right; cbn [snd String.length]; lia].
Qed.

Lemma prompt_shorter def i s i' : prompt def i = (s, i') ->
  (i = "" /\ s = def /\ i' = "") \/ (String.length i' < String.length i)%nat.
Proof.
  unfold prompt. pose proof (ReadLine_shorter i) as [->|Hs].
  - cbn. intros [= <- <-]. now left.
  - destruct (ReadLine i) as [line rest]. intros [= _ <-]. now right.
Qed.

Lemma prompt_trimmed def i : TrimSpace def = def -> TrimSpace (fst (prompt def i)) = fst (prompt def i).
Proof. intros Hd. unfold prompt. destruct (ReadLine i). cbn [fst]. case_match; [done | apply TrimSpace_idem]. Qed.

Lemma prompt_rest def i s i' : prompt def i = (s, i') -> (String.length i' <= String.length i)%nat.
Proof. intros H. apply prompt_shorter in H as [(-> & _ & ->)|]; lia. Qed.

(** ** The dialogue ends *)

Lemma servers_end fuel : forall allow i, (String.length i < fuel)%nat -> is_Some (ask_servers fuel allow i).
Proof.
  induction fuel as [|n IH]; intros allow i Hf; [lia|]. cbn [ask_servers]. destruct (prompt "" i) as [e i'] eqn:E.
  apply prompt_shorter in E as [(-> & -> & ->)|Hs]; [cbn; eauto|].
  destruct (String.eqb e ""); [eauto|]. destruct (ParseHostPort e); apply IH; lia.
Qed.

Section Spec.
Context (ParseFloat : string -> option f64).

Lemma rules_end fuel : forall rules i, (String.length i < fuel)%nat -> is_Some (ask_rules ParseFloat fuel rules i).
Proof.
  induction fuel as [|n IH]; intros rules i Hf; [lia|]. cbn [ask_rules]. destruct (negb _); [eauto|].
  destruct (prompt "" i) as [cidr i1] eqn:E1. apply prompt_shorter in E1 as [(-> & -> & ->)|Hs]; [cbn; eauto|].
  destruct (String.eqb cidr ""); [eauto|]. destruct (negb _); [apply IH; lia|].
  destruct (prompt "0" i1) as [pps i2] eqn:E2. destruct (prompt "0" i2) as [mbps i3] eqn:E3.
  apply prompt_rest in E2, E3. destruct (wizard_rule _ _ _ _); apply IH; lia.
Qed.

Lemma promptYN_rest def i b i' : promptYN def i = (b, i') -> (String.length i' <= String.length i)%nat.
Proof.
  unfold promptYN. pose proof (ReadLine_shorter i) as [->|Hs]; [cbn; now intros [= _ <-]|].
  destruct (ReadLine i). intros [= _ <-]. cbn in Hs. lia.
Qed.

Lemma promptU32_rest def valid i v i' : promptU32 def valid i = (v, i') -> (String.length i' <= String.length i)%nat.
Proof. unfold promptU32. destruct (prompt _ i) as [s rest] eqn:E. apply prompt_rest in E. now intros [= _ <-]. Qed.

Lemma servers_rest fuel : forall allow i r i', ask_servers fuel allow i = Some (r, i') -> (String.length i' <= String.length i)%nat.
Proof.
  induction fuel as [|n IH]; intros allow i r i'; [done|]. cbn [ask_servers]. destruct (prompt "" i) as [e i1] eqn:E. apply prompt_rest in E.
  destruct (String.eqb e ""); [now intros [= _ <-]|]. destruct (ParseHostPort e); intros H%IH; lia.
Qed.

Ltac answers := repeat match goal with
  | |- context [promptYN ?d ?j] => let E := fresh "E" in destruct (promptYN d j) eqn:E; apply promptYN_rest in E
  | |- context [promptU32 ?d ?v ?j] => let E := fresh "E" in destruct (promptU32 d v j) eqn:E; apply promptU32_rest in E
  end.

(** Fuel for every byte of the input is enough. *)
Lemma configure_ends fuel trusted untrusted capT capU res i : (String.length i < fuel)%nat ->
  is_Some (configure ParseFloat fuel trusted untrusted capT capU res i).
Proof.
  intros Hf. unfold configure. 
  assert (Hp: exists cfg' i', ask_policy fuel (new_config trusted untrusted capT capU) i = Some (cfg', i') /\ (String.length i' < fuel)%nat).
  { unfold ask_policy. answers. case_match; [|eexists _, _; split; [reflexivity | lia]].
    match goal with |- context [ask_servers fuel ?a ?j] => destruct (servers_end fuel a j) as [[r i'] Hr]; [lia|] end.
    rewrite Hr. apply servers_rest in Hr. eexists _, _. split; [reflexivity | lia]. }
  destruct Hp as (cfg1 & i1 & -> & H1). destruct (ask_sizing (RecommendDedicated res) cfg1 i1) as [cfg2 i2] eqn:E2.
  assert (H2: (String.length i2 <= String.length i1)%nat) by (revert E2; unfold ask_sizing; answers; intros [= _ <-]; lia).
  assert (H3: is_Some (ask_monitoring ParseFloat fuel cfg2 i2)).
  { unfold ask_monitoring. answers. destruct (negb _); [eauto|]. answers.
    match goal with |- context [ask_rules _ fuel ?a ?j] => destruct (rules_end fuel a j) as [[r i'] ->]; [lia | eauto] end. }
  destruct H3 as [[cfg3 i3] ->]. destruct (promptYN true i3). eauto.
Qed.

(** ** The answers are valid *)

Lemma promptU32_valid def valid i : valid def = true -> is_u32 def ->
  valid (fst (promptU32 def valid i)) = true /\ is_u32 (fst (promptU32 def valid i)).
Proof.
  intros Hd Hu. unfold promptU32. destruct (prompt (FormatUint def) i) as [s i']. destruct (ParseUint s 32) as [v [e|]]; cbn [fst]; [done|].
  destruct (valid (u32 v)) eqn:E; [|done]. split; [done|]. apply Z.mod_pos_bound. lia.
Qed.

Definition entry_ok (s : string) : Prop := exists ip p, ParseHostPort s = inl (ip, p).

Lemma servers_valid fuel : forall allow i r i', Forall entry_ok (elems allow) -> ask_servers fuel allow i = Some (r, i') -> Forall entry_ok (elems r).
Proof.
  induction fuel as [|n IH]; intros allow i r i' Ha; [done|]. cbn [ask_servers]. destruct (prompt "" i) as [e i1].
  destruct (String.eqb e ""); [now intros [= <- _]|]. destruct (ParseHostPort e) as [[ip p]|] eqn:E; apply IH; [|done].
  cbn [elems default]. apply Forall_app. split; [done | repeat constructor; now exists ip, p].
Qed.

(** A rule as the dialogue takes it. *)
Definition typed_rule (r : FlowMonitorCIDR) : Prop :=
  TrimSpace (CIDR r) = CIDR r /\ canonical4 (CIDR r) = true /\
  fltb (MbpsThreshold r) fzero = false /\ (PPSThreshold r <> 0 \/ feqb (MbpsThreshold r) fzero = false).

Lemma rules_valid fuel : forall rules i r i', Z.of_nat (length rules) <= 4096 -> Forall typed_rule rules ->
  ask_rules ParseFloat fuel rules i = Some (r, i') -> Forall typed_rule r /\ Z.of_nat (length r) <= 4096.
Proof.
  induction fuel as [|n IH]; intros rules i r i' Hl Hr; cbn [ask_rules]; (destruct (Z.of_nat (length rules) <? 4096) eqn:EL; cbn [negb];
    [|now intros [= <- _]]); [done|].
  pose proof (prompt_trimmed "" i eq_refl) as Ht. destruct (prompt "" i) as [cidr i1]. cbn [fst] in Ht.
  destruct (String.eqb cidr ""); [now intros [= <- _]|]. destruct (canonical4 cidr) eqn:EC; cbn [negb]; [|now apply IH].
  destruct (prompt "0" i1) as [pps i2]. destruct (prompt "0" i2) as [mbps i3].
  destruct (wizard_rule ParseFloat cidr pps mbps) as [ru|] eqn:ER; [|now apply IH].
  apply IH; [rewrite length_app; zbool; cbn [length]; lia|]. apply Forall_app. split; [done|]. constructor; [|constructor].
  unfold wizard_rule in ER. destruct (ParseUint pps 64) as [p [e|]]; [done|]. destruct (ParseFloat mbps) as [x|]; [|done].
  destruct (fltb x fzero) eqn:E1; [done|]. destruct ((p =? 0) && feqb x fzero) eqn:E2; [done|]. cbn in ER. injection ER as <-.
  split_and!; cbn; [done | done | done |]. apply andb_false_iff in E2 as [E2|E2]; [left; now apply Z.eqb_neq | now right].
Qed.

(** What the dialogue does not ask about a rule: a rate that is a number, and no network twice. *)
Definition unchecked (f : FlowMonitoring) : Prop :=
  Forall (fun r => IsNaN (MbpsThreshold r) = false /\ IsInf (MbpsThreshold r) = false) (elems (CIDRs f)) /\ NoDup (map CIDR (elems (CIDRs f))).

Lemma typed_rule_ok r : typed_rule r -> IsNaN (MbpsThreshold r) = false /\ IsInf (MbpsThreshold r) = false -> RuleOK r.
Proof.
  intros (Ht & Hc & Hf & Hp) [Hn Hi]. constructor; [|done | apply rate_test; now rewrite Hf, Hn, Hi].
  unfold canonical4 in Hc. rewrite Ht. destruct (ParseCIDR (CIDR r)) as [[ip net]|] eqn:EP; [|done]. destruct (To4 ip) as [f0|] eqn:E4; [|done].
  apply String.eqb_eq in Hc. destruct (canonical_cidr_sound _ _ _ _ EP E4 Hc) as (f & n & H & _). eauto.
Qed.

Lemma l1_valid_ok v : is_u32 v -> l1_valid v = true -> v = 0 \/ (1024 <= v /\ is_pow2 v).
Proof.
  unfold is_u32. intros Hv [H|[H1 H2]%andb_true_iff]%orb_true_iff; zbool; [now left|]. right. split; [done|].
  apply (pow2_check v); [lia | now apply Z.eqb_eq].
Qed.

Lemma ok_l1_valid v : is_u32 v -> v = 0 \/ (1024 <= v /\ is_pow2 v) -> l1_valid v = true.
Proof.
  unfold is_u32, l1_valid. intros Hv [->|[H1 H2]]; [done|]. rewrite (proj2 (Z.leb_le _ _) H1), (proj2 (pow2_check v ltac:(lia)) H2). apply orb_true_r.
Qed.

Lemma sample_valid_ok v : is_u32 v -> sample_valid v = true -> is_pow2 v /\ 1 <= v <= 65536.
Proof.
  unfold is_u32. intros Hv [[H1 H2]%andb_true_iff H3]%andb_true_iff. zbool. split; [|lia]. apply (pow2_check v); [lia | now apply Z.eqb_eq].
Qed.

(** The record the dialogue ends with: the defaults, and the answers. *)
Definition answered (trusted untrusted xdp mode : string) (oos udp rst syn srv tune : bool) (allow : slice string) (tcp udpmax l1 : Z) (fm : FlowMonitoring) : Config :=
  Default {{ TrustedIface := trusted }} {{ UntrustedIface := untrusted }} {{ XDPMode := xdp }} {{ Mode := mode }} {{ OosStrict := oos }}
    {{ FilterUDP := udp }} {{ RejectWithRST := rst }} {{ AllowInboundSYN := syn }} {{ AllowInboundServers := srv }} {{ ServerAllow := allow }}
    {{ FlowMax := tcp }} {{ UDPFlowMax := udpmax }} {{ L1Size := l1 }} {{ FlowMon := fm }} {{ Tune := tune }}.

Lemma recommended_sizes res : host_ok res -> let c := RecommendDedicated res in
  (is_u32 (R_FlowMax c) /\ (1024 <=? R_FlowMax c) = true) /\ (is_u32 (R_UDPFlowMax c) /\ (1024 <=? R_UDPFlowMax c) = true) /\
  (is_u32 (R_L1Size c) /\ l1_valid (R_L1Size c) = true).
Proof.
  intros Hr. destruct (recommend_spec res Hr) as ((H1 & _) & (H2 & _) & ((H3 & _) & _)). cbv zeta.
  assert (Hu: is_u32 (R_L1Size (RecommendDedicated res)) /\ (R_L1Size (RecommendDedicated res) = 0 \/ 1024 <= R_L1Size (RecommendDedicated res) /\ is_pow2 (R_L1Size (RecommendDedicated res)))).
  { destruct H3 as [->|(k & Hk & ->)]; [split; [unfold is_u32; lia | now left]|].
    assert (2 ^ 12 <= 2 ^ k <= 2 ^ 16) by (split; apply Z.pow_le_mono_r; lia).
    split; [unfold is_u32; lia|]. right. split; [lia|]. exists k. split; [lia | done]. }
  destruct Hu as [Hu Hl]. unfold is_u32 in *. split_and!; try apply Z.leb_le; try lia. now apply ok_l1_valid.
Qed.

Lemma configure_spec fuel trusted untrusted capT capU res i cfg i' : host_ok res ->
  configure ParseFloat fuel trusted untrusted capT capU res i = Some (cfg, i') ->
  exists xdp mode oos udp rst syn srv tune allow tcp udpmax l1 fm,
    cfg = answered trusted untrusted xdp mode oos udp rst syn srv tune allow tcp udpmax l1 fm /\
    (xdp = "native" \/ xdp = "auto") /\ (mode = "monitor" \/ mode = "enforce") /\ Forall entry_ok (elems allow) /\
    (is_u32 tcp /\ 1024 <= tcp) /\ (is_u32 udpmax /\ 1024 <= udpmax) /\ (is_u32 l1 /\ (l1 = 0 \/ 1024 <= l1 /\ is_pow2 l1)) /\
    (is_u32 (SampleEvery fm) /\ is_pow2 (SampleEvery fm) /\ 1 <= SampleEvery fm <= 65536) /\ 1024 <= MaxFlows fm <= 2 ^ 20 /\
    Forall typed_rule (elems (CIDRs fm)) /\ Z.of_nat (length (elems (CIDRs fm))) <= 4096.
Proof.
  intros Hres. destruct (recommended_sizes res Hres) as ((U1 & S1) & (U2 & S2) & (U3 & S3)). unfold configure.
  set (xdp := if String.eqb capT "native" && String.eqb capU "native" then "native" else "auto").
  assert (Hx: xdp = "native" \/ xdp = "auto") by (unfold xdp; case_match; auto).
  destruct (ask_policy fuel _ i) as [[c1 i1]|] eqn:E1; [|done].
  assert (H1: exists mode oos udp rst syn srv allow, (mode = "monitor" \/ mode = "enforce") /\ Forall entry_ok (elems allow) /\
    c1 = Default {{ TrustedIface := trusted }} {{ UntrustedIface := untrusted }} {{ XDPMode := xdp }} {{ Mode := mode }} {{ OosStrict := oos }}
    {{ FilterUDP := udp }} {{ RejectWithRST := rst }} {{ AllowInboundSYN := syn }} {{ AllowInboundServers := srv }} {{ ServerAllow := allow }}).
  { revert E1. unfold ask_policy, new_config. fold xdp.
    destruct (promptYN true i) as [mo j1]. destruct (promptYN true j1) as [ad j2]. destruct (promptYN true j2) as [ud j3].
    destruct (promptYN false j3) as [rs j4]. destruct (promptYN false j4) as [sy j5]. destruct (promptYN false j5) as [sv j6].
    assert (Hm: (if mo then "monitor" else "enforce") = "monitor" \/ (if mo then "monitor" else "enforce") = "enforce") by (destruct mo; auto).
    destruct sv.
    - match goal with |- context [ask_servers fuel ?a j6] => destruct (ask_servers fuel a j6) as [[al j7]|] eqn:EA; [|done] end.
      apply servers_valid in EA; [|constructor]. intros [= <- _]. exists (if mo then "monitor" else "enforce"), (negb ad), ud, rs, sy, true, al. split_and!; done.
    - intros [= <- _]. exists (if mo then "monitor" else "enforce"), (negb ad), ud, rs, sy, false, None. split_and!; [done | constructor | reflexivity]. }
  destruct H1 as (mode & oos & udp & rst & syn & srv & allow & Hmode & Hallow & ->).
  destruct (ask_sizing _ _ i1) as [c2 i2] eqn:E2. unfold ask_sizing in E2.
  pose proof (promptU32_valid _ (fun v => 1024 <=? v) i1 S1 U1) as Htcp. destruct (promptU32 (R_FlowMax _) _ i1) as [tcp k1]. cbn [fst] in Htcp.
  pose proof (promptU32_valid _ (fun v => 1024 <=? v) k1 S2 U2) as Hudp. destruct (promptU32 (R_UDPFlowMax _) _ k1) as [um k2]. cbn [fst] in Hudp.
  pose proof (promptU32_valid _ l1_valid k2 S3 U3) as Hl1. destruct (promptU32 (R_L1Size _) _ k2) as [l1 k3]. cbn [fst] in Hl1.
  injection E2 as <- <-.
  destruct (ask_monitoring _ fuel _ k3) as [[c3 i3]|] eqn:E3; [|done]. destruct (promptYN true i3) as [tune i4]. intros [= <- _].
  assert (H3: exists fm, (is_u32 (SampleEvery fm) /\ is_pow2 (SampleEvery fm) /\ 1 <= SampleEvery fm <= 65536) /\ 1024 <= MaxFlows fm <= 2 ^ 20 /\
    Forall typed_rule (elems (CIDRs fm)) /\ Z.of_nat (length (elems (CIDRs fm))) <= 4096 /\
    c3 = answered trusted untrusted xdp mode oos udp rst syn srv true allow tcp um l1 fm).
  { revert E3. unfold ask_monitoring. destruct (promptYN false k3) as [yes m1]. destruct yes; cbn [negb].
    - rsimpl. pose proof (promptU32_valid 64 sample_valid m1 eq_refl ltac:(unfold is_u32; lia)) as Hse. destruct (promptU32 64 sample_valid m1) as [se m2]. cbn [fst] in Hse.
      pose proof (promptU32_valid (2 ^ 18) flows_valid m2 eq_refl ltac:(unfold is_u32; lia)) as Hmf. destruct (promptU32 (2 ^ 18) flows_valid m2) as [mf m3]. cbn [fst] in Hmf.
      destruct (ask_rules ParseFloat fuel [] m3) as [[r m4]|] eqn:ER; [|done]. apply rules_valid in ER as [Hr Hlen]; [|cbn; lia | constructor].
      intros [= <- _]. exists (mkFM true se mf (Some r)). destruct Hse as [Hse Hsu]. destruct Hmf as [[Hm1 Hm2]%andb_true_iff _].
      apply Z.leb_le in Hm1, Hm2. pose proof (sample_valid_ok se Hsu Hse). split_and!; try done; try tauto; cbn; lia.
    - intros [= <- _]. exists (FlowMon Default). split_and!; try reflexivity; try (cbn; lia); try constructor; try (unfold is_u32; cbn; lia). 
      + exists 6. split; [lia | reflexivity]. }
  destruct H3 as (fm & Hs & Hf & Hr & Hl & ->).
  exists xdp, mode, oos, udp, rst, syn, srv, tune, allow, tcp, um, l1, fm.
  split; [reflexivity|]. destruct Htcp as [A1 B1], Hudp as [A2 B2], Hl1 as [A3 B3]. apply Z.leb_le in A1, A2.
  split_and!; auto; try tauto. now apply l1_valid_ok.
Qed.

Lemma answered_wt trusted untrusted xdp mode oos udp rst syn srv tune allow tcp udpmax l1 fm :
  is_u32 tcp -> is_u32 udpmax -> is_u32 l1 -> is_u32 (SampleEvery fm) -> 1024 <= MaxFlows fm <= 2 ^ 20 ->
  wt (answered trusted untrusted xdp mode oos udp rst syn srv tune allow tcp udpmax l1 fm).
Proof. intros. unfold wt, answered. rsimpl. unfold is_u32 in *. lia. Qed.

Lemma configure_wt fuel trusted untrusted capT capU res i cfg i' : host_ok res ->
  configure ParseFloat fuel trusted untrusted capT capU res i = Some (cfg, i') -> wt cfg /\ TrustedIface cfg = trusted /\ UntrustedIface cfg = untrusted.
Proof.
  intros Hr Hc. destruct (configure_spec _ _ _ _ _ _ _ _ _ Hr Hc) as
    (xdp & mode & oos & udp & rst & syn & srv & tune & allow & tcp & um & l1 & fm & -> & _ & _ & _ & [A _] & [B _] & [C _] & [D _] & E & _).
  split; [now apply answered_wt | done].
Qed.

(** The dialogue only lets valid answers through, with two exceptions:
    whatever is typed, the configuration built for two different named ports
    passes validation as it is, provided no typed rate is NaN or infinite and
    no network was entered twice. *)
Theorem answers_valid fuel trusted untrusted capT capU res i cfg i' :
  host_ok res -> trusted <> "" -> untrusted <> "" -> trusted <> untrusted ->
  configure ParseFloat fuel trusted untrusted capT capU res i = Some (cfg, i') ->
  unchecked (FlowMon cfg) -> Valid cfg /\ Validate cfg = (cfg, None).
Proof.
  intros Hr Ht Hu Hne Hc [Hn Hd]. pose proof (configure_wt _ _ _ _ _ _ _ _ _ Hr Hc) as [Hw _].
  assert (Hv: Valid cfg); [|split; [done | apply Validate_ok; [done | now rewrite valid_fill]]].
  destruct (configure_spec _ _ _ _ _ _ _ _ _ Hr Hc) as
    (xdp & mode & oos & udp & rst & syn & srv & tune & allow & tcp & um & l1 & fm & -> & Hx & Hm & Ha & [_ B1] & [_ B2] & [_ B3] & [_ D] & E & F & G).
  change (FlowMon _) with fm in Hn, Hd.
  split; [now split_and! | exact Hm | destruct Hx as [Hx|Hx]; [left; exact Hx | right; right; exact Hx] | split; [exact B1 | exact B2] | exact B3 | discriminate | exact Ha | split; discriminate | split; [cbn; lia | cbn; lia] |].
  change (FlowMon _) with fm. split; [exact D | exact E | exact G | |].
  - rewrite Forall_forall in F, Hn |- *. intros r Hin. now apply typed_rule_ok; [apply F | apply Hn].
  - assert (Hname: map rule_name (elems (CIDRs fm)) = map CIDR (elems (CIDRs fm))); [|now rewrite Hname].
    apply map_ext_Forall. eapply Forall_impl; [exact F|]. intros r (Htrim & _). exact Htrim.
Qed.

(** C40. The dialogue ends: after the ports are picked, whatever the input
    holds, no question is asked forever; the input's length bounds the rounds
    of every loop. *)
Theorem dialogue_ends trusted untrusted capT capU res i :
  is_Some (configure ParseFloat (S (String.length i)) trusted untrusted capT capU res i).
Proof. apply configure_ends. lia. Qed.

(** ** The run *)

Lemma fill_wt c : wt c -> wt (fill c).
Proof.
  unfold wt, is_u32, fill, fm_fill. destruct c as [????????????????????????????[] ?]. rsimpl. intros (? & ? & ? & ? & ? & ?).
  split_and!; repeat case_match; lia.
Qed.

Lemma index_listed (nics : list nic) s (c : nic) :
  match Atoi s with (idx, None) => if 0 <=? idx then nics !! Z.to_nat idx else None | (_, Some _) => None end = Some c -> c ∈ nics.
Proof. repeat case_match; try done. apply list_elem_of_lookup_2. Qed.

Lemma pick_listed fuel (nics : list nic) : forall bl i s bl' i', pickIface fuel nics bl i = Some (s, bl', i') -> exists c, c ∈ nics /\ Name c = s.
Proof.
  induction fuel as [|n IH]; intros bl i s bl' i'; [done|]. cbn [pickIface]. destruct (prompt "" i) as [t j].
  destruct (HasPrefix t "b"); [apply IH|].
  destruct (match Atoi t with (idx, None) => if 0 <=? idx then nics !! Z.to_nat idx else None | (_, Some _) => None end) as [c|] eqn:E.
  - intros [= <- _ _]. exists c. split; [now apply index_listed in E | done].
  - destruct (existsb _ nics) eqn:EX; [|apply IH]. intros [= <- _ _]. apply existsb_exists in EX as (c & Hc%list_elem_of_In & Hn%String.eqb_eq). eauto.
Qed.

Context {K : Type} (systemctl : list string -> K -> bool * K).
Context (yaml_marshal : Config -> option string) (yaml_unmarshal : string -> Config -> option Config).

(** C39. What a setup writes the daemon takes: when the wizard reports a
    configuration as written, it is valid, its ports are two different
    interfaces from the list, and loading the file gives it back; when it
    reports none, the configuration file is as it was. *)
Theorem setup_writes_loadable fuel root nics res e path i k fs err written k' states :
  (forall c b base, yaml_marshal c = Some b -> yaml_unmarshal b base = Some (as_decoded c)) ->
  host_ok res ->
  Run ParseFloat systemctl yaml_marshal fuel root nics res e path i k fs = Some (err, written, k', states) ->
  match written with
  | Some cfg =>
      Valid cfg /\ TrustedIface cfg <> UntrustedIface cfg /\
      (exists c, c ∈ nics /\ Name c = TrustedIface cfg) /\ (exists c, c ∈ nics /\ Name c = UntrustedIface cfg) /\
      Load yaml_unmarshal path (final states fs) = inl (as_decoded cfg)
  | None => final states fs !! path = fs !! path /\ is_Some err
  end.
Proof.
  intros Hyaml Hres. unfold Run. destruct root; cbn [negb]; [|now intros [= <- <- <- <-]].
  destruct (length nics <? 2)%nat; [now intros [= <- <- <- <-]|].
  destruct (pickIface fuel nics [] i) as [[[trusted b1] i1]|] eqn:P1; [|done].
  destruct (pickIface fuel nics [] i1) as [[[untrusted b2] i2]|] eqn:P2; [|done].
  apply pick_listed in P1, P2. destruct (String.eqb trusted untrusted) eqn:EQ; [now intros [= <- <- <- <-]|]. apply String.eqb_neq in EQ.
  destruct (configure _ _ _ _ _ _ _ _) as [[cfg i3]|] eqn:C; [|done].
  destruct (configure_wt _ _ _ _ _ _ _ _ _ Hres C) as (Hw & Ht & Hu).
  destruct (Validate cfg) as [cfg' [er|]] eqn:V; [now intros [= <- <- <- <-]|].
  destruct (proj1 (Validate_ok cfg cfg' Hw) V) as [Hfill Hv].
  pose proof (fill_wt cfg Hw) as Hw'. rewrite <- Hfill in Hw'.
  assert (Hifs: TrustedIface cfg' = trusted /\ UntrustedIface cfg' = untrusted) by (rewrite Hfill, <- Ht, <- Hu; destruct cfg; split; reflexivity).
  destruct (Save yaml_marshal e cfg' path fs) as [st [er|]] eqn:S.
  - intros [= <- <- <- <-]. split; [|eauto]. unfold Save in S. destruct (negb (env_mkdir e)); [now injection S as <- <-|].
    destruct (yaml_marshal cfg') as [b|]; [|now injection S as <- <-]. destruct (publish e path b fs) as [st' ok] eqn:P.
    destruct ok; [done|]. injection S as <- _. pose proof (publish_fail e path b fs) as Hf. rewrite P in Hf. now apply Hf.
  - destruct (finish_setup systemctl i3 k) as [er k1]. intros [= <- <- <- <-]. destruct Hifs as [-> ->].
    split_and!; try done. exact (saved_loads yaml_marshal yaml_unmarshal Hyaml e cfg' path fs st Hw' Hv S).
Qed.
End Spec.

(** ** Concrete runs *)

Definition two_ports : list nic := [mkNic "bond0" "mlx5_core" true "25000" "native"; mkNic "eth1" "mlx5_core" true "25000" "native"].
Definition lines (l : list string) : string := String.concat "" (map (fun s => s ++ String newline "") l).

(** [ParseFloat] on the texts of the runs below. *)
Definition few_floats (s : string) : option f64 :=
  if String.eqb s "0" then Some fzero else if String.eqb s "NaN" then Some SpecFloat.S754_nan else None.

(** Port 0, port 1, the defaults, an allowlisted server, one monitored network. *)
Definition session : string :=
  lines ["0"; "eth1"; ""; ""; ""; ""; ""; "y"; "192.0.2.7:443"; "nonsense"; ""; ""; "8192"; "5"; "y"; ""; ""; "10.0.0.0/24"; "1000"; ""; ""; "n"].
Definition after_ports : string := str_drop 7 session.

Lemma sample_host_ok : host_ok sample_host.
Proof. vm_compute. intuition congruence. Qed.

Definition session_config : option (Config * string) :=
  configure few_floats 400 "bond0" "eth1" "native" "native" sample_host after_ports.

Theorem answers_valid_witness : exists cfg i, session_config = Some (cfg, i) /\ Validate cfg = (cfg, None) /\
  UDPFlowMax cfg = 8192 /\ map CIDR (elems (CIDRs (FlowMon cfg))) = ["10.0.0.0/24"] /\ Tune cfg = false.
Proof.
  destruct session_config as [[cfg i]|] eqn:E; [|vm_compute in E; discriminate].
  assert (Hv: option_map (fun r => (UDPFlowMax (fst r), map CIDR (elems (CIDRs (FlowMon (fst r)))), Tune (fst r),
     map (fun x => (IsNaN (MbpsThreshold x), IsInf (MbpsThreshold x))) (elems (CIDRs (FlowMon (fst r)))))) session_config = Some (8192, ["10.0.0.0/24"], false, [(false, false)]))
    by (vm_compute; reflexivity).
  rewrite E in Hv. cbn [option_map fst] in Hv. apply (inj Some), pair_equal_spec in Hv as [[[H1 H2]%pair_equal_spec H3]%pair_equal_spec H4].
  exists cfg, i. split; [done|]. split; [|done].
  refine (proj2 (answers_valid few_floats 400 "bond0" "eth1" "native" "native" sample_host after_ports cfg i sample_host_ok _ _ _ E _)); try discriminate.
  split; [|rewrite H2; apply NoDup_singleton]. destruct (elems (CIDRs (FlowMon cfg))) as [|r [|]]; try discriminate.
  cbn [map] in H4. injection H4 as H5 H6. repeat constructor; done.
Defined.

Definition all_fine (args : list string) (k : unit) : bool * unit := (true, k).

(** A marshaller that knows the session's configuration. *)
Definition written_config : Config := match session_config with Some (c, _) => c | None => Default end.
Definition knows (c : Config) : option string := if decide (c = written_config) then Some "new" else None.
Definition reads (b : string) (_ : Config) : option Config := if String.eqb b "new" then Some (as_decoded written_config) else None.

Lemma knows_reads c b base : knows c = Some b -> reads b base = Some (as_decoded c).
Proof. unfold knows. case_decide as Hc; [|discriminate]. intros [= <-]. now rewrite Hc. Qed.

Definition setup : option (option WizardError * option Config * unit * list FS) :=
  Run few_floats all_fine knows 400 true two_ports sample_host (mkEnv true WOk true) "/etc/c.yaml" session tt ∅.

Theorem setup_writes_loadable_witness : exists states, setup = Some (None, Some written_config, tt, states) /\
  Load reads "/etc/c.yaml" (final states ∅) = inl (as_decoded written_config).
Proof.
  assert (Hok: option_map (fun r => (fst (fst (fst r)), bool_decide (snd (fst (fst r)) = Some written_config))) setup = Some (None, true)) by (vm_compute; reflexivity).
  destruct setup as [[[[err written] []] states]|] eqn:E; [|discriminate].
  cbn [option_map fst snd] in Hok. apply (inj Some), pair_equal_spec in Hok as [-> Hw%bool_decide_eq_true]. subst written.
  exists states. split; [done|].
  unfold setup in E. pose proof (setup_writes_loadable few_floats all_fine knows reads _ _ _ _ _ _ _ _ _ _ _ _ _ knows_reads sample_host_ok E) as H.
  cbv beta iota in H. destruct H as (_ & _ & _ & _ & H). exact H.
Defined.

(** An interface whose name begins with "b" cannot be picked by its name: the
    answer is taken for a request to blink.  And when the input ends, the
    question for a port is asked again for ever. *)
Lemma pick_eof fuel : forall bl, pickIface fuel two_ports bl "" = None.
Proof. induction fuel as [|n IH]; intros bl; [done|]. apply IH. Qed.

Example b_name_unreachable fuel : pickIface fuel two_ports [] (lines ["bond0"]) = None.
Proof. destruct fuel as [|n]; [done|]. apply pick_eof. Qed.

(** A threshold of NaN is taken by the dialogue and refused by the validation
    at its end; so is a network entered twice.  The answers are lost. *)
Example nan_rate_refused :
  option_map (fun r => snd (Validate (fst r))) (configure few_floats 400 "bond0" "eth1" "native" "native" sample_host
    (lines [""; ""; ""; ""; ""; ""; ""; ""; ""; "y"; ""; ""; "10.0.0.0/24"; "0"; "NaN"; ""; ""])) = Some (Some (EMbps 0)).
Proof. vm_compute. reflexivity. Qed.

Example repeated_network_refused :
  option_map (fun r => snd (Validate (fst r))) (configure few_floats 400 "bond0" "eth1" "native" "native" sample_host
    (lines [""; ""; ""; ""; ""; ""; ""; ""; ""; "y"; ""; ""; "10.0.0.0/24"; "1"; "0"; "10.0.0.0/24"; "2"; "0"; ""; ""])) = Some (Some (ECIDRDuplicate "10.0.0.0/24")).
Proof. vm_compute. reflexivity. Qed.
