(* ===== verification/Forms.v ===== *)
(** * Forms: the forms of internal/manage/manage.go

    Which setting each widget of the console's forms shows and changes, as the
    code wires them: [policyForm], [dataplaneForm], [runtimeForm] and the
    engine form of [flowMonitoringView].  A widget's callback is the one of
    Manage.v; drawing is not modelled. *)

From Stdlib Require Import ZArith Lia Bool Ascii String.
From stdpp Require Import prelude strings list gmap.
From coqutil Require Import Datatypes.RecordSetters.
From S2P Require Import Prelude GoText Config Manage.
Import DoubleBraceUpdate.

Local Open Scope string_scope.
Local Open Scope Z_scope.

(** ** Widgets *)

(** An input field or a choice, with the setting it was given and the setter
    its callback calls; [name] is the name it is marked invalid under. *)
Inductive Widget :=
  | WString (name : string) (value : Config -> string) (set : string -> Config -> Config)
  | WOptional (value : Config -> string) (set : string -> Config -> Config)
  | WU32 (name : string) (value : Config -> Z) (set : Z -> Config -> Config)
  | WInt (name : string) (value : Config -> Z) (set : Z -> Config -> Config)
  | WTri (value : Config -> option bool) (set : option bool -> Config -> Config)
  | WCheck (value : Config -> bool) (set : bool -> Config -> Config)
  | WChoice (options : list string) (value : Config -> string) (set : string -> Config -> Config).

(** What the user does to it: typing a text, picking an option, ticking. *)
Inductive Input := Typed (s : string) | Picked (n : nat) | Ticked (b : bool).

(** What the widget shows at first; a choice shows an option's number. *)
Inductive Shown := ShowText (s : string) | ShowOption (n : Z) | ShowTick (b : bool).

Definition tri_options : list string := ["auto"; "on"; "off"].

Definition shown (w : Widget) (c : Config) : Shown :=
  match w with
  | WString _ v _ | WOptional v _ => ShowText (v c)
  | WU32 _ v _ => ShowText (FormatUint (v c))
  | WInt _ v _ => ShowText (Itoa (v c))
  | WTri v _ => ShowOption (tri_index (v c))
  | WCheck v _ => ShowTick (v c)
  | WChoice o v _ => ShowOption (indexOf o (v c))
  end.

(** The callback; an action the widget does not take does nothing. *)
Definition edit (w : Widget) (i : Input) (u : ui) : ui :=
  match w, i with
  | WString name _ set, Typed s => addString name set s u
  | WOptional _ set, Typed s => addOptionalString set s u
  | WU32 name _ set, Typed s => addU32 name set s u
  | WInt name _ set, Typed s => addInt name set s u
  | WTri _ set, Picked n => if (n <? length tri_options)%nat then addTri set (Z.of_nat n) u else u
  | WCheck _ set, Ticked b => set_staged (set b) u
  | WChoice o _ set, Picked n => match o !! n with Some s => set_staged (set s) u | None => u end
  | _, _ => u
  end.

(** ** The forms: label and widget *)

Definition policyForm : list (string * Widget) := [
  ("Mode", WChoice ["monitor"; "enforce"] Mode (fun v c => c {{ Mode := v }}));
  ("Strict out-of-state", WCheck OosStrict (fun v c => c {{ OosStrict := v }}));
  ("Allow allowlisted servers", WCheck AllowInboundServers (fun v c => c {{ AllowInboundServers := v }}));
  ("Allow all inbound SYN", WCheck AllowInboundSYN (fun v c => c {{ AllowInboundSYN := v }}));
  ("Filter UDP", WCheck FilterUDP (fun v c => c {{ FilterUDP := v }}));
  ("Drop TCP fragments", WCheck DropFrags (fun v c => c {{ DropFrags := v }}));
  ("Drop bad TCP flags", WCheck DropBadFlags (fun v c => c {{ DropBadFlags := v }}));
  ("Drop deep VLAN", WCheck DropVlanDeep (fun v c => c {{ DropVlanDeep := v }}));
  ("Drop UDP fragments", WCheck DropUDPFrags (fun v c => c {{ DropUDPFrags := v }}));
  ("Reject TCP with RST", WCheck RejectWithRST (fun v c => c {{ RejectWithRST := v }}));
  ("SYN TTL seconds", WU32 "ttl_syn" TTLSyn (fun v c => c {{ TTLSyn := v }}));
  ("Established TTL", WU32 "ttl_est" TTLEst (fun v c => c {{ TTLEst := v }}));
  ("Closing TTL", WU32 "ttl_closing" TTLClosing (fun v c => c {{ TTLClosing := v }}));
  ("UDP TTL", WU32 "ttl_udp" TTLUdp (fun v c => c {{ TTLUdp := v }})) ].

Definition dataplaneForm : list (string * Widget) := [
  ("Trusted interface", WString "trusted_iface" TrustedIface (fun v c => c {{ TrustedIface := v }}));
  ("Untrusted interface", WString "untrusted_iface" UntrustedIface (fun v c => c {{ UntrustedIface := v }}));
  ("XDP mode", WChoice ["native"; "generic"; "auto"] XDPMode (fun v c => c {{ XDPMode := v }}));
  ("TCP flow capacity", WU32 "flow_max" FlowMax (fun v c => c {{ FlowMax := v }}));
  ("UDP flow capacity", WU32 "udp_flow_max" UDPFlowMax (fun v c => c {{ UDPFlowMax := v }}));
  ("Per-CPU L1 slots", WU32 "l1_size" L1Size (fun v c => c {{ L1Size := v }}));
  ("Per-CPU LRU", WCheck LRUPerCPU (fun v c => c {{ LRUPerCPU := v }}));
  ("Pin directory", WString "pin_dir" PinDir (fun v c => c {{ PinDir := v }})) ].

Definition in_tuning (f : Tuning -> Tuning) (c : Config) : Config := c {{ Tun := f (Tun c) }}.

Definition runtimeForm : list (string * Widget) := [
  ("Apply tuning on start", WCheck Tune (fun v c => c {{ Tune := v }}));
  ("Stats directory", WString "stats_dir" StatsDir (fun v c => c {{ StatsDir := v }}));
  ("Stats interval", WInt "stats_interval" StatsInterval (fun v c => c {{ StatsInterval := v }}));
  ("GC interval", WInt "gc_interval" GCInterval (fun v c => c {{ GCInterval := v }}));
  ("Housekeeping core", WInt "housekeeping_core" HousekeepingCore (fun v c => c {{ HousekeepingCore := v }}));
  ("Ring size", WU32 "ring_size" (fun c => RingSize (Tun c)) (fun v => in_tuning (fun t => t {{ RingSize := v }})));
  ("Channels", WU32 "channels" (fun c => Channels (Tun c)) (fun v => in_tuning (fun t => t {{ Channels := v }})));
  ("Netdev backlog", WU32 "netdev_max_backlog" (fun c => NetdevBacklog (Tun c)) (fun v => in_tuning (fun t => t {{ NetdevBacklog := v }})));
  ("Netdev budget", WU32 "netdev_budget" (fun c => NetdevBudget (Tun c)) (fun v => in_tuning (fun t => t {{ NetdevBudget := v }})));
  ("CPU governor (blank=auto)", WOptional (fun c => Governor (Tun c)) (fun v => in_tuning (fun t => t {{ Governor := v }})));
  ("Symmetric RSS", WTri (fun c => SymmetricRSS (Tun c)) (fun v => in_tuning (fun t => t {{ SymmetricRSS := v }})));
  ("CQE compression", WTri (fun c => CQECompress (Tun c)) (fun v => in_tuning (fun t => t {{ CQECompress := v }})));
  ("Disable LRO", WTri (fun c => DisableLRO (Tun c)) (fun v => in_tuning (fun t => t {{ DisableLRO := v }})));
  ("Disable VLAN HW", WTri (fun c => DisableVLANHW (Tun c)) (fun v => in_tuning (fun t => t {{ DisableVLANHW := v }})));
  ("Disable irqbalance", WTri (fun c => DisableIRQBal (Tun c)) (fun v => in_tuning (fun t => t {{ DisableIRQBal := v }}))) ].

Definition in_monitoring (f : FlowMonitoring -> FlowMonitoring) (c : Config) : Config := c {{ FlowMon := f (FlowMon c) }}.

Definition engineForm : list (string * Widget) := [
  ("Enabled", WCheck (fun c => Enabled (FlowMon c)) (fun v => in_monitoring (fun m => m {{ Enabled := v }})));
  ("Sample 1/N", WU32 "flow_monitoring.sample_every" (fun c => SampleEvery (FlowMon c)) (fun v => in_monitoring (fun m => m {{ SampleEvery := v }})));
  ("Max flows", WU32 "flow_monitoring.max_flows" (fun c => MaxFlows (FlowMon c)) (fun v => in_monitoring (fun m => m {{ MaxFlows := v }}))) ].

(** ** The chrome *)

(** [updateChrome] without the colour marks of the footer. *)
Definition header_text (version path : string) (dirty : bool) : string :=
  "[::b] xdpfilter " ++ version ++ "[-]  config: " ++ path ++ (if dirty then " [yellow]● STAGED[-]" else "").

Definition footer_errors (u : ui) : string :=
  match sortedKeys (validation u) with
  | [] => ""
  | ks => "  [red]invalid fields: " ++ Join ks ", " ++ "[-]"
  end.

(** [keys]: what a key does, and whether the focused widget sees it. *)
Inductive Key := KeyCtrlS | KeyRune (r : string) | KeyOther.
Inductive KeyAction := KApply | KQuit | KHelp | KRefresh.

Definition keys (current : string) (k : Key) : option KeyAction * bool :=
  match k with
  | KeyCtrlS => (Some KApply, false)
  | KeyRune r =>
      if String.eqb r "q" then (Some KQuit, false)
      else if String.eqb r "?" then (Some KHelp, false)
      else if String.eqb r "r" then (if String.eqb current "flows" then Some KRefresh else None, true)
      else (None, true)
  | KeyOther => (None, true)
  end.

(** [message]: the number handed to the callback for the button pressed. *)
Fixpoint button_index (i : Z) (buttons : list string) (label : string) : option Z :=
  match buttons with
  | [] => None
  | b :: r => if String.eqb b label then Some i else button_index (i + 1) r label
  end.
Definition message_choice (buttons : list string) (label : string) : option Z :=
  button_index 0 (match buttons with [] => ["OK"] | _ => buttons end) label.

(** [quit]: with nothing staged at once, otherwise when "Discard" is pressed. *)
Definition quits (dirty : bool) (label : string) : bool :=
  if negb dirty then true else bool_decide (message_choice ["Discard"; "Cancel"] label = Some 0).

(** [runAsync]: title and text of the box that reports an operation. *)
Definition async_report (title out : string) (err : option string) : string * string :=
  match err with
  | Some e => (title ++ " failed", (if String.eqb out "" then "" else out ++ String newline "") ++ e)
  | None => (title, if String.eqb out "" then "completed" else out)
  end.

(** The tables: number and entry; network and thresholds. *)
Fixpoint allow_rows (i : Z) (l : list string) : list (list string) :=
  match l with [] => [] | v :: r => [Itoa (i + 1); v] :: allow_rows (i + 1) r end.
Definition updateAllowlist (c : Config) : list (list string) := ["#"; "Protected server"] :: allow_rows 0 (elems (ServerAllow c)).
