(* ===== verification/FormsSpec.v ===== *)
(** * FormsSpec: the console's forms are wired right

    Every widget shows the setting it changes, changes only that one, and every
    setting the daemon distinguishes has a widget or an editor. *)

From Stdlib Require Import ZArith Lia Bool Ascii String.
From stdpp Require Import prelude strings list gmap.
From coqutil Require Import Datatypes.RecordSetters.
From S2P Require Import Prelude GoText TextLemmas GoNet GoFloat Config ConfigSpec ConfigDiff Manage Forms.
Import DoubleBraceUpdate.

Local Open Scope string_scope.
Local Open Scope Z_scope.

(** The setting behind each widget, under the name [Diff] gives it. *)
Definition setting_names : list string :=
  (["mode"; "oos_strict"; "allow_inbound_servers"; "allow_inbound_syn"; "filter_udp"; "drop_frags"; "drop_bad_flags"; "drop_vlan_deep";
    "drop_udp_frags"; "reject_with_rst"; "ttl_syn"; "ttl_est"; "ttl_closing"; "ttl_udp"] ++
   ["trusted_iface"; "untrusted_iface"; "xdp_mode"; "flow_max"; "udp_flow_max"; "l1_size"; "lru_percpu"; "pin_dir"] ++
   ["tune"; "stats_dir"; "stats_interval"; "gc_interval"; "housekeeping_core"; "tuning"; "tuning"; "tuning"; "tuning"; "tuning"; "tuning"; "tuning";
    "tuning"; "tuning"; "tuning"] ++
   ["flow_monitoring.enabled"; "flow_monitoring.sample_every"; "flow_monitoring.max_flows"])%list.

Definition all_fields : list (string * Widget) := (policyForm ++ dataplaneForm ++ runtimeForm ++ engineForm)%list.

Definition wired : list (Widget * string) := combine (map snd all_fields) setting_names.

(** ** What an edit can do to the staged configuration *)

(** The values a widget's setter is called with. *)
Inductive sets : Widget -> Config -> Config -> Prop :=
  | sets_string name v set x c : sets (WString name v set) c (set x c)
  | sets_optional v set x c : sets (WOptional v set) c (set x c)
  | sets_u32 name v set x c : sets (WU32 name v set) c (set x c)
  | sets_int name v set x c : sets (WInt name v set) c (set x c)
  | sets_tri v set x c : sets (WTri v set) c (set x c)
  | sets_check v set x c : sets (WCheck v set) c (set x c)
  | sets_choice o v set x c : sets (WChoice o v set) c (set x c).

Lemma edit_sets w i u : ui_staged (edit w i u) = ui_staged u \/ sets w (ui_staged u) (ui_staged (edit w i u)).
Proof.
  destruct w, i; cbn [edit]; try (now left).
  - right. apply (sets_string name value set).
  - right. apply (sets_optional value set).
  - unfold addU32. destruct (ParseUint _ _) as [v [e|]]; [left; reflexivity | right; apply (sets_u32 name value set)].
  - unfold addInt. destruct (Atoi _) as [v [e|]]; [left; reflexivity | right; apply (sets_int name value set)].
  - case_match; [right; apply (sets_tri value set) | now left].
  - right. apply (sets_check value set).
  - destruct (options !! n); [right; apply (sets_choice options value set) | now left].
Qed.

(** ** Differences *)

Definition only_row (name : string) (c d : Config) : Prop := Forall (fun r => row_name r = name \/ row_changed r = false) (diff_rows c d).

Lemma rows_only name rows n : Forall (fun r => row_name r = name \/ row_changed r = false) rows ->
  n ∈ map row_name (List.filter row_changed rows) -> n = name.
Proof.
  induction 1 as [|r rows Hr _ IH]; cbn [List.filter map]; [now intros ?%not_elem_of_nil|].
  destruct (row_changed r); [|exact IH]. cbn [map]. intros [->|Hn]%elem_of_cons; [now destruct Hr | now apply IH].
Qed.

Lemma only_row_fields name c d n : only_row name c d -> n ∈ CSFields (Diff (Some c) (Some d)) -> n = name.
Proof. rewrite Diff_fields. apply rows_only. Qed.

Lemma forms_slice_refl {A} (eq : A -> A -> bool) (s : slice A) : Forall (fun x => eq x x = true) (elems s) -> slice_eqb eq s s = true.
Proof. destruct s; cbn; [apply list_eqb_refl | done]. Qed.

Lemma allow_refl c : slice_eqb String.eqb (ServerAllow c) (ServerAllow c) = true.
Proof. now apply strings_eqb_iff. Qed.

Lemma cidrs_refl c : no_nan c -> slice_eqb rule_eqb (CIDRs (FlowMon c)) (CIDRs (FlowMon c)) = true.
Proof. intros Hn. apply forms_slice_refl, rules_refl, Hn. Qed.

Lemma tuning_refl t : tuning_eqb t t = true.
Proof. now apply tuning_eqb_iff. Qed.

(** The rows under another name show no change, as a computation. *)
Definition row_ok (name : string) (r : ChangeImpact * string * bool) : bool := bool_decide (row_name r = name) || negb (row_changed r).

Lemma only_row_by_rows name c d : forallb (row_ok name) (diff_rows c d) = true -> only_row name c d.
Proof.
  rewrite forallb_forall. intros H. apply Forall_forall. intros r Hr%list_elem_of_In. specialize (H _ Hr).
  apply orb_true_iff in H as [H|H]; [left; now apply bool_decide_eq_true in H | right; now apply negb_true_iff].
Qed.

(** Compute the rows, leaving the comparisons of settings, each of which
    compares a setting with itself. *)
Ltac same_settings Ha Hr Ht :=
  cbv beta iota delta [ServerAllow FlowMon CIDRs Tun] in Ha, Hr, Ht;
  apply only_row_by_rows; cbv -[String.eqb Z.eqb Bool.eqb slice_eqb tuning_eqb rule_eqb];
  repeat first [rewrite String.eqb_refl | rewrite Z.eqb_refl | rewrite Bool.eqb_reflx | rewrite Ha | rewrite Hr | rewrite Ht]; reflexivity.

Definition wires (e : Widget * string) : Prop := forall c d, no_nan c -> sets (fst e) c d -> only_row (snd e) c d.

Lemma wired_wires : Forall wires wired.
Proof.
  unfold wired. cbn [all_fields policyForm dataplaneForm runtimeForm engineForm setting_names app map snd combine].
  repeat (apply Forall_cons; split); try apply List.Forall_nil.
  all: intros c d Hn Hs; cbn [fst snd] in *; pose proof (allow_refl c) as Ha; pose proof (cidrs_refl c Hn) as Hr; pose proof (tuning_refl (Tun c)) as Ht.
  all: inversion Hs; subst; clear Hs; destruct c as [? ? ? ? ? ? ? ? ? ? ? ? ? ? ? ? ? ? ? ? ? ? ? ? ? ? ? ? [? ? ? ?] ?].
  all: same_settings Ha Hr Ht.
Qed.

Lemma same_row name c : no_nan c -> only_row name c c.
Proof.
  intros Hn. pose proof (allow_refl c) as Ha. pose proof (cidrs_refl c Hn) as Hr. pose proof (tuning_refl (Tun c)) as Ht.
  unfold only_row, diff_rows. repeat (apply Forall_cons; split); try apply List.Forall_nil.
  all: right; apply negb_false_iff;
       first [apply String.eqb_refl | apply Z.eqb_refl | apply Bool.eqb_reflx | exact Ha | exact Hr | exact Ht].
Qed.

Lemma edited_row w name i u : (w, name) ∈ wired -> no_nan (ui_staged u) -> only_row name (ui_staged u) (ui_staged (edit w i u)).
Proof.
  intros Hw Hn. destruct (edit_sets w i u) as [->|Hs]; [now apply same_row|].
  pose proof wired_wires as H. rewrite Forall_forall in H. exact (H _ Hw _ _ Hn Hs).
Qed.

(** A widget shows what its callback stores. *)
Definition reads_back (w : Widget) : Prop :=
  match w with
  | WString _ v set | WOptional v set | WChoice _ v set => forall x c, v (set x c) = x
  | WU32 _ v set | WInt _ v set => forall x c, v (set x c) = x
  | WTri v set => forall x c, v (set x c) = x
  | WCheck v set => forall x c, v (set x c) = x
  end.

Lemma wired_reads_back : Forall (fun e => reads_back (fst e)) wired.
Proof.
  unfold wired. cbn [all_fields policyForm dataplaneForm runtimeForm engineForm setting_names app map snd combine].
  repeat (apply Forall_cons; split); try apply List.Forall_nil; intros ? ?; reflexivity.
Qed.

(** The names of the comparison's rows are the widgets' and the two lists'. *)
Lemma row_names c d : Forall (fun r => row_name r ∈ (setting_names ++ ["server_allow"; "flow_monitoring.cidrs"])%list) (diff_rows c d).
Proof.
  unfold diff_rows. repeat (apply Forall_cons; split); try apply List.Forall_nil.
  all: cbn [row_name fst snd]; apply (bool_decide_unpack _); vm_compute; exact I.
Qed.

Lemma rows_complete (names : list string) rows n : Forall (fun r => row_name r ∈ names) rows ->
  n ∈ map row_name (List.filter row_changed rows) -> n ∈ names.
Proof.
  induction 1 as [|r rows Hr _ IH]; cbn [List.filter map]; [now intros ?%not_elem_of_nil|].
  destruct (row_changed r); [|exact IH]. cbn [map]. intros [->|Hn]%elem_of_cons; [exact Hr | now apply IH].
Qed.

(** C38. The console's forms are wired right.  Whatever is done to a widget,
    only the setting it stands for can differ afterwards, under the name the
    daemon's comparison gives it; the widget shows what its callback stores;
    and every setting the comparison distinguishes has a widget, apart from
    the two lists, which have editors. *)
Theorem forms_wired :
  map fst wired = map snd all_fields /\
  (forall w name i u n, (w, name) ∈ wired -> no_nan (ui_staged u) ->
     n ∈ CSFields (Diff (Some (ui_staged u)) (Some (ui_staged (edit w i u)))) -> n = name) /\
  Forall (fun e => reads_back (fst e)) wired /\
  (forall c d n, n ∈ CSFields (Diff (Some c) (Some d)) -> n ∈ (setting_names ++ ["server_allow"; "flow_monitoring.cidrs"])%list).
Proof.
  split_and!; [reflexivity | | exact wired_reads_back |].
  - intros w name i u n Hw Hn. apply only_row_fields, edited_row; assumption.
  - intros c d n. rewrite Diff_fields. apply rows_complete, row_names.
Qed.

(** Ticking "Filter UDP" off in the default configuration. *)
Theorem forms_wired_witness :
  let u := mkUi Default ∅ (-1) "" (-1) "" "" "" None in
  exists w, wired !! 4%nat = Some (w, "filter_udp") /\
    CSFields (Diff (Some (ui_staged u)) (Some (ui_staged (edit w (Ticked false) u)))) = ["filter_udp"] /\
    (forall n, n ∈ CSFields (Diff (Some (ui_staged u)) (Some (ui_staged (edit w (Ticked false) u)))) -> n = "filter_udp").
Proof.
  intros u. eexists. split_and!; [reflexivity | reflexivity |].
  intros n. apply (proj1 (proj2 forms_wired) _ "filter_udp" (Ticked false) u n); [|constructor].
  apply (list_elem_of_lookup_2 _ 4). reflexivity.
Defined.
