(* ===== verification/Sampler.v ===== *)
(** * Sampler: the sampler, the frame and the flow filter of internal/manage/manage.go

    The goroutine behind the operations console that reads the running
    datapath every second and queues updates of the screen, the texts around
    the sections ([updateChrome]) and the query of the flow section. *)

From Stdlib Require Import ZArith Lia Bool Ascii String.
From stdpp Require Import prelude strings list gmap.
From coqutil Require Import Datatypes.RecordSetters.
From S2P Require Import Prelude GoText GoFmt Config Ebpf Policy FlowTable Loader LoaderSpec Stats Controller ControllerSpec Manage Dashboard Forms.
Import DoubleBraceUpdate.

Local Open Scope string_scope.
Local Open Scope Z_scope.

(** ** The frame: [updateChrome] *)

(** The two lines around the sections; [u] holds what the controller staged. *)
Definition updateChrome {digest : Type} (version : string) (ctrl : Controller (digest := digest)) (u : ui) : string * string :=
  (header_text version (Path ctrl) (Dirty ctrl),
   " [yellow]1-8[-] sections  [yellow]Ctrl-S[-] Apply  [yellow]?[-] help  [yellow]q[-] quit" ++ footer_errors u).

(** ** The flow section's filter: [flowsView] *)

Record FlowFilter := mkFilter { flowProto : string; flowVLAN : string; flowText : string }.

(** The VLAN field shows -1, but its text is set before its callback. *)
Definition flowsView : FlowFilter := mkFilter "ALL" "" "".
Definition protocols : list string := ["ALL"; "TCP"; "UDP"].

Inductive FilterEdit := EditProto (n : nat) | EditVLAN (s : string) | EditText (s : string).

Definition edit_filter (e : FilterEdit) (f : FlowFilter) : FlowFilter :=
  match e with
  | EditProto n => match protocols !! n with Some s => mkFilter s (flowVLAN f) (flowText f) | None => f end
  | EditVLAN s => mkFilter (flowProto f) s (flowText f)
  | EditText s => mkFilter (flowProto f) (flowVLAN f) s
  end.

(** The query a refresh takes from it. *)
Definition filter_query (f : FlowFilter) : FlowQuery := flow_query (flowProto f) (flowVLAN f) (flowText f).

(** ** The sampler: [startSampler] *)

(** A closure queued for the interface, which looks at the section shown when
    it runs. *)
Inductive Queued := QDraw (text : string) | QFlows.
Inductive UiEffect := ShowDashboard (text : string) | RefreshAlerts | RequestFlows.

Definition run_queued (current : string) (q : Queued) : list UiEffect :=
  match q with
  | QDraw text => ShowDashboard text :: (if String.eqb current "flowmonitor" then [RefreshAlerts] else [])
  | QFlows => if String.eqb current "flows" then [RequestFlows] else []
  end.

Record SamplerState := mkSampler { sm_prev : option Stats.Snapshot; sm_ticks : Z }.

Section Sampler.
Context {K : Type} {M : Type -> Type -> Type} `{Sys K M} `{EbpfMap M}.

(** The per-CPU answers of the statistics maps, an error's text, and Go's
    formats of clock readings. *)
Context (stat_maps : K -> StatMaps) (error_text : LoaderError -> string) (format_datetime : Z -> string).

(** One tick of the ticker: [pin] is the controller's active pin directory,
    [service] what systemctl said, [now] the clock. *)
Definition sampler_tick (pin service : string) (now : Z) (s : SamplerState) (k : K) : list Queued * SamplerState * K :=
  let ticks := sm_ticks s + 1 in
  match OpenPinned pin k with
  | (inr e, k) =>
      let '(prev, text) := sample_tick format_datetime None service (error_text e) now (sm_prev s) in
      (match text with Some t => [QDraw t] | None => [] end, mkSampler prev ticks, k)
  | (inl byName, k) =>
      let policy := match ReadLivePolicy (sys_maps k) with inl p => Some p | inr _ => None end in
      let runtime := ReadRuntimeState (sys_maps k) in
      let '(prev, text) := sample_tick format_datetime (Some (stat_maps k, policy, runtime)) service "" now (sm_prev s) in
      (match text with
       | Some t => QDraw t :: (if ticks mod 2 =? 0 then [QFlows] else [])
       | None => []
       end, mkSampler prev ticks, close_all byName.*2 k)
  end.

(** The ticks one after the other, each with what it found. *)
Fixpoint sampler_run (l : list (string * string * Z)) (s : SamplerState) (k : K) : list (list Queued) * SamplerState * K :=
  match l with
  | [] => ([], s, k)
  | (pin, service, now) :: r =>
      let '(q, s, k) := sampler_tick pin service now s k in
      let '(qs, s, k) := sampler_run r s k in (q :: qs, s, k)
  end.

Context `{!EbpfLaws M, !SysLaws K M}.

(** The sampler only looks: however long the console runs and whatever it
    finds, it holds no handle between ticks and writes no map. *)
Lemma sampler_harmless l : forall s k qs s' k', sampler_run l s k = (qs, s', k') ->
  sys_open k' = sys_open k /\ sys_maps k' = sys_maps k /\ sm_ticks s' = sm_ticks s + Z.of_nat (length l).
Proof.
  induction l as [|[[pin service] now] l IH]; intros s k qs s' k'; cbn [sampler_run length]; [intros [= <- <- <-]; split_and!; [done.. | lia]|].
  unfold sampler_tick. destruct (OpenPinned pin k) as [[byName|e] k1] eqn:E; apply OpenPinned_spec in E as [Hm Hg].
  - destruct (sample_tick _ _ _ _ _ _) as [prev text]. destruct (sampler_run l _ _) as [[qs1 s1] k2] eqn:Er. intros [= _ <- <-].
    apply IH in Er as (Ho & Hm' & Ht). cbn [sm_ticks] in Ht. rewrite (grows_close_all _ _ _ Hg) in Ho. rewrite close_all_maps in Hm'.
    split_and!; [done | congruence | lia].
  - destruct (sample_tick _ _ _ _ _ _) as [prev text]. destruct (sampler_run l _ _) as [[qs1 s1] k2] eqn:Er. intros [= _ <- <-].
    apply IH in Er as (Ho & Hm' & Ht). cbn [sm_ticks] in Ht. split_and!; [congruence | congruence | lia].
Qed.

(** A gap in the readings is never read as a rate: after a tick that could not
    open the datapath, the next reading is compared with nothing. *)
Lemma sampler_gap pin service now s k e k' : OpenPinned pin k = (inr e, k') ->
  sm_prev (snd (fst (sampler_tick pin service now s k))) = None.
Proof. intros E. unfold sampler_tick. rewrite E. reflexivity. Qed.
End Sampler.

(** The protocol of the filter is always one the scan knows. *)
Lemma filter_proto es : flowProto (fold_right edit_filter flowsView es) ∈ protocols.
Proof.
  induction es as [|e es IH]; cbn [fold_right]; [left|]. destruct e as [n|s|s]; cbn [edit_filter flowProto]; [|exact IH..].
  destruct (protocols !! n) as [s|] eqn:E; [now apply list_elem_of_lookup_2 in E | exact IH].
Qed.
