(* ===== verification/Console.v ===== *)
(** * Console: the sections of internal/manage/manage.go and the operations

    What the console is made of besides its forms: its start, the sections,
    the buttons of the operations form with the word each dangerous one asks
    for, the tables, the Tab order of the two linked forms, and the refresh of
    the flow table that runs beside the interface.  The service and tuning
    wrappers of internal/manage/controller.go are here too.  tview's own
    key handling is a parameter. *)

From Stdlib Require Import ZArith Lia Bool Ascii String.
From stdpp Require Import prelude strings list gmap.
From coqutil Require Import Datatypes.RecordSetters.
From S2P Require Import Prelude GoText GoFmt GoNet GoFloat Config Ebpf Policy FlowTable Loader FlowMonitor Controller Manage Dashboard Tune.
Import DoubleBraceUpdate.

Local Open Scope string_scope.
Local Open Scope Z_scope.

(** ** Start *)

Inductive RunError := RunNotRoot | RunNoTerminal | RunConfig.

Definition initial_ui (staged : Config) : ui := mkUi staged ∅ (-1) "" (-1) "" "0" "0" None.

(** [Run], up to the event loop. *)
Definition Run {digest : Type} (root terminal : bool) (ctrl : option (Controller (digest := digest))) : ui + RunError :=
  if negb root then inr RunNotRoot
  else if negb terminal then inr RunNoTerminal
  else match ctrl with None => inr RunConfig | Some c => inl (initial_ui (Staged c)) end.

(** The sections, by page name and menu label; the menu's shortcut is the digit. *)
Definition tabs : list (string * string) := [
  ("dashboard", "Dashboard"); ("policy", "Policy"); ("allowlist", "Allowlist"); ("flows", "Flows");
  ("flowmonitor", "Flow Monitoring"); ("dataplane", "Dataplane"); ("runtime", "Runtime / Tuning"); ("operations", "Operations") ].

Fixpoint shortcuts (i : Z) (l : list (string * string)) : list (Z * string) :=
  match l with [] => [] | (name, _) :: r => (49 + i, name) :: shortcuts (i + 1) r end.

(** ** Service and tuning wrappers *)

(** What [systemctl show] printed, [None] when it failed. *)
Definition ServiceState (out : option string) : string :=
  match out with
  | None => "unavailable"
  | Some out => match Fields (TrimSpace out) with [] => "unknown" | parts => Join parts "/" end
  end.

Section Tuning.
Context {W : Type} `{Machine W} (rng : forall A, gmap string A -> list (string * A)).
Context (json_marshal : Tune.Snapshot -> string) (json_unmarshal : string -> option Tune.Snapshot).

Definition printed (t : Tuner (W := W)) : string := String.concat "" (map (fun l => l ++ nl) (t_out t)).

(** What was printed, and the machine afterwards. *)
Definition TuningPreview (cfg : Config) (w : W) : string * W :=
  let t := Tune.Apply rng json_marshal cfg true (New w) in (printed t, t_w t).
Definition TuningApply (cfg : Config) (w : W) : string * W :=
  let t := Tune.Apply rng json_marshal cfg false (New w) in (printed t, t_w t).
Definition TuningRestore (w : W) : bool * W := Tune.Restore rng json_unmarshal w.
End Tuning.

(** ** The operations form *)

Inductive Operation := OpService (action : string) | OpPreview | OpApplyTuning | OpRestoreTuning | OpDetach.

(** [strings.Title] on ASCII: a letter that begins a word becomes a capital. *)
Definition word_char (c : ascii) : bool :=
  let n := nat_of_ascii c in
  ((48 <=? n) && (n <=? 57) || (65 <=? n) && (n <=? 90) || (97 <=? n) && (n <=? 122) || (n =? 95))%nat.
Fixpoint title_from (inside : bool) (s : string) : string :=
  match s with
  | EmptyString => EmptyString
  | String c r => append (if inside then String c "" else ToUpper (String c "")) (title_from (word_char c) r)
  end.
Definition Title : string -> string := title_from false.

(** The label of each button, with the word it asks for. *)
Definition operationsForm : list (string * option string * Operation) :=
  (map (fun a => (Title a, None, OpService a)) ["start"; "stop"; "restart"; "reload"; "enable"; "disable"] ++
   [("Tuning preview", None, OpPreview); ("Apply tuning", None, OpApplyTuning);
    ("Restore tuning (danger)", Some "RESTORE", OpRestoreTuning); ("Detach datapath (danger)", Some "DETACH", OpDetach)])%list.

(** [typed]: nothing happens unless the text is the word. *)
Definition typed (word text : string) : bool := String.eqb text word.

(** What pressing a button runs, with the text then typed. *)
Definition press (label text : string) : option Operation :=
  match List.find (fun b => String.eqb (fst (fst b)) label) operationsForm with
  | Some (_, Some word, op) => if typed word text then Some op else None
  | Some (_, None, op) => Some op
  | None => None
  end.

Section Detach.
Context {K : Type} {M : Type -> Type -> Type} `{Sys K M} `{EbpfMap M}.
Context (systemctl : string -> K -> (string * bool) * K).

(** The datapath goes whether or not the service could be stopped. *)
Definition detach_datapath (activePin : string) (k : K) : string * option LoaderError * K :=
  let '(_, k) := ServiceAction systemctl "stop" k in
  let '(e, k) := Loader.Detach activePin k in ("datapath detached", e, k).
End Detach.

(** ** Tables *)

Definition flow_table (scan : FlowScan) : list (list string) * string :=
  (["Proto"; "Host"; "Internet"; "VID"; "State"; "Age"] :: map flow_row (Rows scan),
   " Flows — " ++ Itoa (Z.of_nat (length (Rows scan))) ++ " shown, " ++ Itoa (Scanned scan) ++ " scanned, truncated="
   ++ (if Truncated scan then "true" else "false") ++ " ").

Definition rule_table (FormatFloat : f64 -> string) (c : Config) : list (list string) :=
  ["CIDR"; "PPS"; "Mbps"] ::
  map (fun r => [CIDR r; FormatUint (PPSThreshold r); FormatFloat (MbpsThreshold r)]) (elems (CIDRs (FlowMon c))).

(** [refreshFlowMonitorAlerts]; [age] is the time since the first alert was observed. *)
Definition alert_table (read : list Alert + string) (age : Z) : list (list string) * string :=
  let headers := ["Proto"; "Protected"; "Internet"; "VLAN"; "PPS / limit"; "Mbps / limit"; "CIDR"] in
  match read with
  | inr err => ([headers], " Current over-threshold flows — " ++ err ++ " ")
  | inl alerts =>
      let freshness := match alerts with [] => "empty" | _ => duration_string (round_second age) ++ " old" end in
      (headers :: map alert_row alerts,
       " Current over-threshold flows — " ++ Itoa (Z.of_nat (length alerts)) ++ " (" ++ freshness ++ ") ")
  end.

(** ** The Tab order of the two linked forms *)

Section Focus.
Local Open Scope nat_scope.

(** A form's elements are its items, then its buttons. *)
Inductive NavKey := KeyTab | KeyBacktab.
Inductive Focus := InEngine (i : nat) | InEditor (i : nat).

Definition engine_items : nat := 3.
Definition editor_items : nat := 3.
Definition editor_buttons : nat := 2.

(** [GetFocusedItemIndex]: the item and the button, -1 for the other one. *)
Definition focused (items i : nat) : Z * Z :=
  if i <? items then (Z.of_nat i, -1)%Z else (-1, Z.of_nat (i - items))%Z.

(** The two input captures; [None]: the form handles the key itself. *)
Definition engine_capture (k : NavKey) (i : nat) : option Focus :=
  let '(item, _) := focused engine_items i in
  match k with
  | KeyTab => if (item =? Z.of_nat engine_items - 1)%Z then Some (InEditor 0) else None
  | KeyBacktab => if (item =? 0)%Z then Some (InEditor (editor_items + editor_buttons - 1)) else None
  end.
Definition editor_capture (k : NavKey) (i : nat) : option Focus :=
  let '(item, button) := focused editor_items i in
  match k with
  | KeyTab => if (button =? Z.of_nat editor_buttons - 1)%Z then Some (InEngine 0) else None
  | KeyBacktab => if (item =? 0)%Z then Some (InEngine (engine_items - 1)) else None
  end.

(** [form_key n k i]: where a tview form of [n] elements moves the focus. *)
Context (form_key : nat -> NavKey -> nat -> nat).

Definition navigate (k : NavKey) (f : Focus) : Focus :=
  match f with
  | InEngine i => default (InEngine (form_key engine_items k i)) (engine_capture k i)
  | InEditor i => default (InEditor (form_key (editor_items + editor_buttons) k i)) (editor_capture k i)
  end.
End Focus.

(** ** The refresh of the flow table *)

(** The flag, and the scans under way with the query each took; the table
    shows the last answer. *)
Record Refresher := mkRefresher { flowRefreshing : bool; scans : list FlowQuery; shown_flows : option (list (list string) * string) }.

Definition requestFlowRefresh (q : FlowQuery) (r : Refresher) : Refresher :=
  if flowRefreshing r then r else mkRefresher true (q :: scans r) (shown_flows r).

(** A scan ends; one that failed leaves the table.  The flag is released last. *)
Inductive refresh_step : Refresher -> Refresher -> Prop :=
  | refresh_asked q r : refresh_step r (requestFlowRefresh q r)
  | refresh_ended a q b answer r : scans r = (a ++ q :: b)%list ->
      refresh_step r (mkRefresher false (a ++ b)
        (match answer with Some s => Some (flow_table s) | None => shown_flows r end)).

(** ** Theorems *)

(** At most one scan runs, and the flag says whether it does; so the flag is
    never left set with nothing running, and a later request is served. *)
Definition one_scan (r : Refresher) : Prop := length (scans r) = if flowRefreshing r then 1%nat else 0%nat.

Lemma refresh_single r r' : rtc refresh_step r r' -> one_scan r -> one_scan r'.
Proof.
  induction 1 as [|r r1 r2 Hs _ IH]; [done|]. intros Hr. apply IH. unfold one_scan in *.
  destruct Hs as [q r|a q b answer r E].
  - unfold requestFlowRefresh. destruct (flowRefreshing r) eqn:F; [now rewrite F|]. cbn [scans flowRefreshing length]. now rewrite Hr.
  - rewrite E, length_app in Hr. cbn [length] in Hr. cbn [scans flowRefreshing]. rewrite length_app. destruct (flowRefreshing r); lia.
Qed.

Lemma refresh_served q r : one_scan r -> flowRefreshing r = false ->
  flowRefreshing (requestFlowRefresh q r) = true /\ scans (requestFlowRefresh q r) = [q].
Proof. intros Hr F. unfold one_scan in Hr. rewrite F in Hr. unfold requestFlowRefresh. rewrite F. now rewrite (nil_length_inv _ Hr). Qed.

(** A dangerous operation runs only after its word; a service button never
    runs an action the controller refuses. *)
Lemma press_guarded label text op : press label text = Some op ->
  match op with
  | OpDetach => text = "DETACH"
  | OpRestoreTuning => text = "RESTORE"
  | OpService a => a ∈ allowed
  | _ => True
  end.
Proof.
  unfold press. destruct (List.find _ operationsForm) as [[[l word] o]|] eqn:F; [|done].
  apply List.find_some in F as [Hin _]. cbn in Hin.
  repeat (destruct Hin as [[= <- <- <-]|Hin]; [|]); try done.
  all: cbn [typed]; intros E; unfold typed in E; repeat case_match; simplify_eq; try done; try (now apply String.eqb_eq).
  all: apply (bool_decide_unpack _); vm_compute; exact I.
Qed.

Section Ring.
Local Open Scope nat_scope.
Context (form_key : nat -> NavKey -> nat -> nat).
(** tview moves the focus to the next or the previous element. *)
Hypothesis form_next : forall n i, i + 1 < n -> form_key n KeyTab i = i + 1.
Hypothesis form_prev : forall n i, 0 < i < n -> form_key n KeyBacktab i = i - 1.

Definition place (f : Focus) : nat := match f with InEngine i => i | InEditor i => engine_items + i end.
Definition focus_ok (f : Focus) : Prop :=
  match f with InEngine i => i < engine_items | InEditor i => i < editor_items + editor_buttons end.

Lemma navigate_tab f : focus_ok f -> focus_ok (navigate form_key KeyTab f) /\ place (navigate form_key KeyTab f) = (place f + 1) mod 8.
Proof.
  destruct f as [i|i]; cbn [focus_ok]; unfold engine_items, editor_items, editor_buttons; intros Hi.
  all: do 5 (destruct i as [|i]; [first [lia | lazy -[lt]; rewrite ?form_next by lia; split; lazy -[lt]; lia]|]); lia.
Qed.

Lemma navigate_backtab f : focus_ok f -> focus_ok (navigate form_key KeyBacktab f) /\ place (navigate form_key KeyBacktab f) = (place f + 7) mod 8.
Proof.
  destruct f as [i|i]; cbn [focus_ok]; unfold engine_items, editor_items, editor_buttons; intros Hi.
  all: do 5 (destruct i as [|i]; [first [lia | lazy -[lt]; rewrite ?form_prev by lia; split; lazy -[lt]; lia]|]); lia.
Qed.

(** Shift-Tab undoes Tab, and eight Tabs visit every element once and return. *)
Lemma tab_ring f : focus_ok f ->
  place (navigate form_key KeyBacktab (navigate form_key KeyTab f)) = place f /\
  forall n, place (Nat.iter n (navigate form_key KeyTab) f) = (place f + n) mod 8.
Proof.
  intros Hf. assert (Hp : place f < 8) by (destruct f; cbn in *; unfold engine_items, editor_items, editor_buttons in *; lia).
  split.
  - destruct (navigate_tab f Hf) as [Ht Et]. destruct (navigate_backtab _ Ht) as [_ ->]. rewrite Et.
    rewrite Nat.Div0.add_mod_idemp_l, <- Nat.add_assoc. change (1 + 7) with (1 * 8). rewrite Nat.Div0.mod_add. now apply Nat.mod_small.
  - intros n. assert (Hn : focus_ok (Nat.iter n (navigate form_key KeyTab) f)
      /\ place (Nat.iter n (navigate form_key KeyTab) f) = (place f + n) mod 8); [|apply Hn].
    induction n as [|n [Ho IH]]; cbn [Nat.iter nat_rect]; [split; [done | rewrite Nat.add_0_r; symmetry; now apply Nat.mod_small]|].
    destruct (navigate_tab _ Ho) as [Ho' E]. split; [exact Ho'|]. unfold Nat.iter in *. rewrite E, IH, Nat.Div0.add_mod_idemp_l. f_equal; lia.
Qed.
End Ring.
