(* ===== verification/Cli.v ===== *)
(** * Cli: the command line of cmd/xdpfilter/main.go

    The dispatch of [main] with its exit codes, and the subcommands that are
    not in Daemon.v: run, reload, status and tune (setup is Wizard.v, manage
    Console.v).  They take their parsed flags; Args.v parses the arguments. *)

From Stdlib Require Import ZArith Lia Bool Ascii String.
From stdpp Require Import prelude strings list gmap.
From S2P Require Import Prelude GoText GoFmt Config ConfigFile Ebpf Policy Loader Stats Tune Daemon.

Local Open Scope string_scope.
Local Open Scope Z_scope.

(** ** Dispatch *)

Inductive Command :=
  CSetup | CRun | CDaemon | CReload | CStatus | CMode | CFlows | CManage | CTune | CCheck | CStop | CVersion.

Definition command_of (arg : string) : option Command :=
  if String.eqb arg "setup" then Some CSetup
  else if String.eqb arg "run" then Some CRun
  else if String.eqb arg "daemon" then Some CDaemon
  else if String.eqb arg "reload" then Some CReload
  else if String.eqb arg "status" then Some CStatus
  else if String.eqb arg "mode" then Some CMode
  else if String.eqb arg "flows" then Some CFlows
  else if String.eqb arg "manage" then Some CManage
  else if String.eqb arg "tune" then Some CTune
  else if String.eqb arg "check" then Some CCheck
  else if String.eqb arg "stop" then Some CStop
  else if String.eqb arg "version" || String.eqb arg "-v" || String.eqb arg "--version" then Some CVersion
  else None.

(** A subcommand returns, with the text of an error, unless the flag package
    has exited. *)
Inductive CmdEnd := CExit (code : Z) | CReturn (err : option string).

Inductive Outcome := OUsage | OVersion (text : string) | OExit (code : Z) | ODone | OFailed (text : string).

(** [run] is the subcommands; [args] follow the program's name. *)
Definition main (version : string) (run : Command -> list string -> CmdEnd) (args : list string) : Outcome :=
  match args with
  | [] => OUsage
  | a :: rest =>
      match command_of a with
      | None => OUsage
      | Some CVersion => OVersion ("xdpfilter " ++ version ++ nl ++ Copyright ++ nl)
      | Some c => match run c rest with
                  | CExit code => OExit code
                  | CReturn None => ODone
                  | CReturn (Some err) => OFailed ("xdpfilter " ++ a ++ ": " ++ err)
                  end
      end
  end.

Definition exit_code (o : Outcome) : Z :=
  match o with OUsage => 2 | OFailed _ => 1 | OExit code => code | OVersion _ | ODone => 0 end.

(** ** Usage *)

(** What [usage] prints on standard error. *)
Definition usage : string := "xdpfilter — transparent XDP spoofed-TCP filter

usage:
  xdpfilter setup                 interactive first-run wizard
  xdpfilter run                   start the systemd service (runs in background)
  xdpfilter daemon [--config P]   run the datapath in the foreground (systemd ExecStart)
  xdpfilter status [--watch]      show live counters
  xdpfilter reload                reload config live (allowlist / policy / TTLs)
  xdpfilter mode monitor|enforce  flip mode live (no reattach)
  xdpfilter flows [--limit N]     sample the flow table
  xdpfilter manage [--config P]   interactive operations console
  xdpfilter tune [--dry-run]      apply/preview performance tuning
  xdpfilter check                 preflight the environment
  xdpfilter stop [--detach] [--restore] [--yes]
  xdpfilter version
" ++ nl ++ Copyright ++ nl.

(** ** Subcommands *)

Definition cond {A} (b : bool) (a c : A) : A := if b then a else c.

Section Commands.
Context {K : Type} {M : Type -> Type -> Type} `{Sys K M} `{EbpfMap M}.
Context (yaml_unmarshal : string -> Config -> option Config) (systemctl : list string -> K -> bool * K).

(** The failure of a reload of the unit files is ignored. *)
Definition cmdRunSvc (k : K) : bool * K :=
  let '(_, k) := systemctl ["daemon-reload"] k in systemctl ["start"; "xdpfilter"] k.

Definition cmdReload (k : K) : bool * K := systemctl ["reload"; "xdpfilter"] k.

(** [config.Exists]: setup warns that it will overwrite a configuration. *)
Definition Exists (path : string) (fs : FS) : bool := bool_decide (is_Some (fs !! path)).

(** The statistics and the capacities of the maps that are pinned. *)
Context (format_stamp format_clock : Z -> string) (stat_maps : K -> StatMaps) (max_entries : K -> Z * Z).

Definition status_ports (path : string) (fs : FS) : string :=
  match ConfigFile.Load yaml_unmarshal path fs with
  | inl cfg => TrustedIface cfg ++ " (trusted) <-> " ++ UntrustedIface cfg ++ " (untrusted)"
  | inr _ => "?"
  end.

(** The capacity shown: the sum of two 32-bit numbers, as 32 bits. *)
Definition status_capacity (tcp udp : Z) : Z := u32 (tcp + udp).

(** [cmdStatus], one rendering. *)
Definition cmdStatus (version path : string) (now : Z) (fs : FS) (k : K) : (string + LoaderError) * K :=
  match OpenPinned (pin_dir yaml_unmarshal path fs) k with
  | (inr e, k) => (inr e, k)
  | (inl byName, k) =>
      let '(tcp, udp) := max_entries k in
      (inl (PrintStatus format_stamp format_clock (stat_maps k) (Mode_of (sys_maps k)) version (status_ports path fs) now
              (Some (0, status_capacity tcp udp))), close_all byName.*2 k)
  end.
End Commands.

(** [cmdTune] *)
Definition cmdTune {W : Type} `{Machine W} (rng : forall A, gmap string A -> list (string * A)) (json_marshal : Tune.Snapshot -> string)
    (loaded : Config + LoadError) (dry : bool) (w : W) : option LoadError * list string * W :=
  match loaded with
  | inr e => (Some e, [], w)
  | inl cfg => let t := Tune.Apply rng json_marshal cfg dry (New w) in (None, t_out t, t_w t)
  end.

(** ** Theorems *)

(** The words the usage text documents: those that follow the program's name. *)
Definition documented : list string :=
  omap (fun line => match Fields line with prog :: word :: _ => if String.eqb prog "xdpfilter" then Some word else None | _ => None end)
    (tail (Split usage newline)).

Definition words : list string :=
  ["setup"; "run"; "daemon"; "reload"; "status"; "mode"; "flows"; "manage"; "tune"; "check"; "stop"; "version"; "-v"; "--version"].

Lemma command_words a : is_Some (command_of a) <-> a ∈ words.
Proof.
  split.
  - intros [c Hc]. revert Hc. unfold command_of, words.
    repeat (match goal with |- context [String.eqb a ?w] => destruct (String.eqb_spec a w) as [->|?] end; 
      [intros _; apply list_elem_of_In; cbn; tauto|cbn [orb]]). discriminate.
  - intros Ha. unfold words in Ha. repeat (apply elem_of_cons in Ha as [->|Ha]; [now eexists|]). now apply not_elem_of_nil in Ha.
Qed.

(** The usage text and the dispatch agree: every word documented is a command,
    and every command is documented, by its name if not by its short forms. *)
Lemma usage_agrees a : is_Some (command_of a) <-> a ∈ documented \/ a = "-v" \/ a = "--version".
Proof.
  rewrite command_words. assert (Hp : words ≡ₚ documented ++ ["-v"; "--version"]).
  { apply (bool_decide_unpack _). vm_compute. exact I. }
  rewrite Hp, elem_of_app, !elem_of_cons, elem_of_nil. tauto.
Qed.

(** The exit code tells the outcomes apart: 2 for a command line that names no
    subcommand or a flag error in it, 1 for a subcommand that failed. *)
Lemma exit_usage version run args : exit_code (main version run args) = 2 <->
  match args with
  | [] => True
  | a :: r => match command_of a with None => True | Some CVersion => False | Some c => run c r = CExit 2 end
  end.
Proof.
  destruct args as [|a r]; cbn [main]; [split; done|]. destruct (command_of a) as [c|]; [|split; done].
  destruct c; cbn [exit_code]; try (split; done); (destruct (run _ r) as [code|[err|]]; cbn; [split; congruence | split; done..]).
Qed.

Lemma status_capacity_exact tcp udp : 0 <= tcp -> 0 <= udp -> status_capacity tcp udp = tcp + udp <-> tcp + udp < 4294967296.
Proof.
  intros Ht Hu. unfold status_capacity, u32. pose proof (Z.mod_pos_bound (tcp + udp) 4294967296 ltac:(lia)).
  split; intros; [lia | apply Z.mod_small; lia].
Qed.
