(* ===== verification/Args.v ===== *)
(** * Args: the subcommands of cmd/xdpfilter/main.go on their arguments

    What each subcommand does with the words that follow its name: its flag
    set, the parsing of GoFlag.v, which may exit, and the command on the flags
    that were read.  The arguments that parsing leaves are ignored, as the
    code ignores them. *)

From Stdlib Require Import ZArith Lia Bool Ascii String.
From stdpp Require Import prelude strings list gmap.
From coqutil Require Import Datatypes.RecordSetters.
From S2P Require Import Prelude GoText GoFlag GoFmt GoNet GoFloat Config ConfigSpec ConfigFile Resources Ebpf Policy PolicySpec FlowTable Loader Stats Tune TuneRestore TuneRef Controller Manage Daemon Wizard Console Cli SysRef DaemonSpec.
Import DoubleBraceUpdate.

Local Open Scope string_scope.
Local Open Scope Z_scope.

(** ** Flag sets *)

Definition DefaultPath : string := "/etc/xdpfilter/config.yaml".

Definition config_flags : FlagSet := {[ "config" := VString DefaultPath ]}.
Definition status_flags : FlagSet := <["watch" := VBool false]> config_flags.
Definition flows_flags : FlagSet := <["limit" := VInt 50]> (<["vlan" := VInt (-1)]> config_flags).
Definition tune_flags : FlagSet := <["dry-run" := VBool false]> config_flags.
Definition stop_flags : FlagSet :=
  <["detach" := VBool false]> (<["restore" := VBool false]> (<["yes" := VBool false]> config_flags)).

(** [fs.Parse(args)] on a set that exits on an error, and what follows. *)
Definition with_flags {A} (fs : FlagSet) (args : list string) (exit : Z -> A) (k : FlagSet -> A) : A :=
  match Parse fs args with
  | inr err => exit (flag_exit err)
  | inl (fs, _) => k fs
  end.

(** ** Subcommands *)

(** A command exits in the flag package, or returns. *)
Inductive Ended (E : Type) := Exited (code : Z) | Returned (e : E).
Arguments Exited {E}. Arguments Returned {E}.

Section Commands.
Context {K : Type} {M : Type -> Type -> Type} `{Sys K M} `{EbpfMap M}.
Context (yaml_marshal : Config -> option string) (yaml_unmarshal : string -> Config -> option Config).
Context (systemctl : list string -> K -> bool * K).

(** [cmdManage]: the console opens on the configuration at the path. *)
Definition manageCommand {digest : Type} (root terminal : bool) (controller : string -> option (Controller (digest := digest)))
    (args : list string) : Ended (ui + RunError) :=
  with_flags config_flags args Exited (fun f => Returned (Console.Run root terminal (controller (string_flag f "config")))).

(** [cmdSetup]: whether it warns of a file that it will overwrite, and the wizard. *)
Definition setupCommand (ParseFloat : string -> option f64) (fuel : nat) (root : bool) (nics : list nic) (res : HostResources)
    (e : Env) (args : list string) (input : string) (k : K) (fs : FS)
    : Ended (bool * option (option WizardError * option Config * K * list FS)) :=
  with_flags config_flags args Exited (fun f =>
    let path := string_flag f "config" in
    Returned (Cli.Exists path fs, Wizard.Run ParseFloat systemctl yaml_marshal fuel root nics res e path input k fs)).

(** [cmdDaemon], up to the workers. *)
Definition daemonCommand (rng : gset key -> list key) (loadFilter : option CollectionSpec) (tune : Config -> K -> K) (root : bool)
    (start : Z) (args : list string) (fs : FS) (k : K) : Ended (Daemon (M := M) * Handle + StartError) * K :=
  with_flags config_flags args (fun code => (Exited code, k)) (fun f =>
    let '(r, k) := start_daemon rng loadFilter tune (ConfigFile.Load yaml_unmarshal (string_flag f "config") fs) root start k in
    (Returned r, k)).

(** [cmdMode]: the mode may stand anywhere, the other words are the flags. *)
Definition modeCommand (e : Env) (args : list string) (k : K) (fs : FS) : Ended (option CmdError * bool) * K * list FS :=
  with_flags config_flags (snd (mode_args args)) (fun code => (Exited code, k, [fs])) (fun f =>
    let '(err, warned, k, states) := cmdMode yaml_marshal yaml_unmarshal e args (string_flag f "config") k fs in
    (Returned (err, warned), k, states)).

(** [cmdFlows] *)
Definition flowsCommand (now : Z) (args : list string) (fs : FS) (k : K) : Ended (string + LoaderError) * K :=
  with_flags flows_flags args (fun code => (Exited code, k)) (fun f =>
    match OpenPinned (pin_dir yaml_unmarshal (string_flag f "config") fs) k with
    | (inr err, k) => (Returned (inr err), k)
    | (inl byName, k) =>
        (Returned (inl (cmdFlows (int_flag f "vlan") (int_flag f "limit") now (sys_maps k))), close_all byName.*2 k)
    end).

(** [cmdCheck] *)
Definition checkCommand (has_iface : string -> bool) (mounts : option string) (memlock root : bool) (args : list string) (fs : FS)
    : Ended (list (bool * string) * bool) :=
  with_flags config_flags args Exited (fun f =>
    Returned (cmdCheck (ConfigFile.Load yaml_unmarshal (string_flag f "config") fs) has_iface mounts memlock root)).

(** [cmdStop]; [typed] is what is typed when it asks. *)
Definition stopCommand (tuning_restore : K -> bool * K) (args : list string) (typed : string) (fs : FS) (k : K)
    : Ended (option CmdError) * list StopNote * K :=
  with_flags stop_flags args (fun code => (Exited code, [], k)) (fun f =>
    let '(err, notes, k) := cmdStop yaml_unmarshal systemctl tuning_restore (bool_flag f "detach") (bool_flag f "restore")
      (bool_flag f "yes") typed (string_flag f "config") fs k in
    (Returned err, notes, k)).

(** [cmdStatus], its output in the first rounds: with [--watch] it renders
    for ever, clearing the screen, on what [seen] finds at each round. *)
Context (format_stamp format_clock : Z -> string).

Definition clear_screen : string := String "027" "[H" ++ String "027" "[2J".

Definition status_text (version ports : string) (st : StatMaps * string * (Z * Z) * Z) : string :=
  let '(maps, mode, (tcp, udp), now) := st in
  PrintStatus format_stamp format_clock maps mode version ports now (Some (0, status_capacity tcp udp)).

Definition statusCommand (version : string) (args : list string) (rounds : nat) (seen : nat -> StatMaps * string * (Z * Z) * Z)
    (fs : FS) (k : K) : Ended (list string + LoaderError) * K :=
  with_flags status_flags args (fun code => (Exited code, k)) (fun f =>
    let path := string_flag f "config" in
    match OpenPinned (pin_dir yaml_unmarshal path fs) k with
    | (inr err, k) => (Returned (inr err), k)
    | (inl byName, k) =>
        let text i := status_text version (status_ports yaml_unmarshal path fs) (seen i) in
        if bool_flag f "watch" then (Returned (inl (flat_map (fun i => [clear_screen; text i]) (seq 0 rounds))), k)
        else (Returned (inl [text 0%nat]), close_all byName.*2 k)
    end).
End Commands.

(** [cmdTune] *)
Definition tuneCommand {W : Type} `{Machine W} (rng : forall A, gmap string A -> list (string * A)) (json_marshal : Tune.Snapshot -> string)
    (yaml_unmarshal : string -> Config -> option Config) (args : list string) (fs : FS) (w : W)
    : Ended (option LoadError) * list string * W :=
  with_flags tune_flags args (fun code => (Exited code, [], w)) (fun f =>
    let '(err, out, w) := Cli.cmdTune rng json_marshal (ConfigFile.Load yaml_unmarshal (string_flag f "config") fs) (bool_flag f "dry-run") w in
    (Returned err, out, w)).

(** ** Theorems *)

Lemma with_flags_written {A} fs sts rest (exit : Z -> A) k : Forall (takes fs) sts -> ends_flags rest = true ->
  with_flags fs (concat (map written sts) ++ rest)%list exit k = k (assign fs sts).
Proof. intros Hs He. unfold with_flags. now destruct (Parse_ends fs sts rest Hs He) as [r ->]. Qed.

(** *** The mode stands anywhere *)

Definition mode_word (a : string) : bool := String.eqb a "monitor" || String.eqb a "enforce".

Lemma mode_arg_free l : forall m acc, Forall (fun a => mode_word a = false) l -> fold_left mode_arg l (m, acc) = (m, acc ++ l)%list.
Proof.
  induction l as [|a l IH]; intros m acc Hl; cbn [fold_left]; [now rewrite app_nil_r|].
  apply Forall_cons in Hl as [Ha Hl]. unfold mode_arg at 2. unfold mode_word in Ha. rewrite Ha. cbn [fst snd].
  rewrite IH by done. now rewrite <- app_assoc.
Qed.

Lemma mode_args_word l1 m l2 : mode_word m = true -> Forall (fun a => mode_word a = false) l1 -> Forall (fun a => mode_word a = false) l2 ->
  mode_args (l1 ++ m :: l2) = (m, l1 ++ l2)%list.
Proof.
  intros Hm H1 H2. unfold mode_args. rewrite fold_left_app, mode_arg_free by done. cbn [fold_left].
  unfold mode_arg at 2. unfold mode_word in Hm. rewrite Hm. cbn [snd]. rewrite mode_arg_free by done. now rewrite app_nil_l.
Qed.

Section Stop.
Context {K : Type} {M : Type -> Type -> Type} `{Sys K M} `{EbpfMap M}.
Context (yaml_marshal : Config -> option string) (yaml_unmarshal : string -> Config -> option Config).
Context (systemctl : list string -> K -> bool * K) (tuning_restore : K -> bool * K).

Lemma mode_anywhere e l1 m l2 k fs : mode_word m = true -> Forall (fun a => mode_word a = false) l1 ->
  Forall (fun a => mode_word a = false) l2 ->
  modeCommand yaml_marshal yaml_unmarshal e (l1 ++ m :: l2)%list k fs = modeCommand yaml_marshal yaml_unmarshal e (m :: l1 ++ l2)%list k fs.
Proof.
  intros Hm H1 H2. unfold modeCommand, cmdMode. rewrite mode_args_word by done.
  change (m :: l1 ++ l2)%list with ([] ++ m :: (l1 ++ l2))%list. rewrite mode_args_word; [done..|]. now apply Forall_app.
Qed.

(** *** What stop does to the bridge *)

(** The flags of [stop] as they are written, and the words after them ignored. *)
Lemma stop_as_written sts rest typed fs k : Forall (takes stop_flags) sts -> ends_flags rest = true ->
  let f := assign stop_flags sts in
  stopCommand yaml_unmarshal systemctl tuning_restore (concat (map written sts) ++ rest)%list typed fs k =
  let '(err, notes, k') := cmdStop yaml_unmarshal systemctl tuning_restore (bool_flag f "detach") (bool_flag f "restore")
    (bool_flag f "yes") typed (string_flag f "config") fs k in (Returned err, notes, k').
Proof. intros Hs He f. unfold stopCommand. now rewrite with_flags_written. Qed.

Lemma restore_notes restore k err notes k' : stop_restore tuning_restore restore [] k = (err, notes, k') ->
  notes ⊆ [NRestoreFailed] /\ (k' = k \/ k' = snd (tuning_restore k)).
Proof.
  unfold stop_restore. destruct restore; [|intros [= <- <- <-]; split; [set_solver | now left]].
  destruct (tuning_restore k) as [[] k1]; intros [= <- <- <-]; (split; [set_solver | now right]).
Qed.

Lemma not_asked name args (fs fs' : FlagSet) rest : Parse fs args = inl (fs', rest) ->
  Forall (fun a => mentions name a = false) args -> bool_flag fs name = false -> bool_flag fs' name = false.
Proof. intros Hp Ha Hf. unfold bool_flag in *. now rewrite (Parse_unmentioned _ _ _ _ _ Hp Ha). Qed.

End Stop.

(** *** The preview *)

(** [tune --dry-run] with the flag among the flags changes nothing. *)
Lemma preview_as_written {W : Type} `{Machine W} rng json_marshal yaml_unmarshal sts rest fs (w : W) :
  (forall w : W, snd (command is_active_query w) = w) -> Forall (takes tune_flags) sts -> ends_flags rest = true ->
  bool_flag (assign tune_flags sts) "dry-run" = true ->
  snd (tuneCommand rng json_marshal yaml_unmarshal (concat (map written sts) ++ rest)%list fs w) = w.
Proof.
  intros Hq Hs He Hd. unfold tuneCommand. rewrite with_flags_written by done. rewrite Hd. unfold Cli.cmdTune.
  destruct (ConfigFile.Load _ _ _) as [cfg|e]; [|done]. cbn [snd]. now rewrite preview_harmless.
Qed.

(** ** A filter in place *)

Definition in_place : RefSys := snd first_start.
Definition quiet_service (_ : list string) (k : RefSys) : bool * RefSys := (true, k).
Definition no_file (_ : string) (_ : Config) : option Config := None.

Definition stop_run (args : list string) (typed : string) : Ended (option CmdError) * list StopNote * RefSys :=
  stopCommand no_file quiet_service (fun k => (false, k)) args typed ∅ in_place.


(** The preview is lost behind a word that is not a flag: [tune now --dry-run]
    applies the profile. *)
Definition tuned_sample : Config := live_sample {{ Tune := true }}.
Definition reads_tuned (_ : string) (_ : Config) : option Config := Some tuned_sample.
Definition tune_run (args : list string) : Files :=
  snd (tuneCommand in_order marshal reads_tuned args {[ DefaultPath := "" ]} fresh_box).

Lemma late_preview_applies : tune_run ["--dry-run"; "now"] = fresh_box /\ tune_run ["now"; "--dry-run"] <> fresh_box.
Proof.
  split; [apply (bool_decide_unpack _); vm_compute; exact I|].
  intros E. apply (f_equal (fun w => w !! governor0)) in E. vm_compute in E. discriminate E.
Qed.
