(* ===== verification/KernelView.v ===== *)
(** * KernelView: what the packet program reads in the daemon's maps

    The daemon writes map keys as bytes, the packet program as C structs.  The
    layouts of the structs of bpf/filter.h, the correspondence of the two
    notions of an address and a port, and the packet program's view of the
    maps the daemon holds. *)

From Stdlib Require Import ZArith Lia Bool Ascii String.
From stdpp Require Import prelude strings list gmap.
From S2P Require Import Prelude GoText GoNet Config ConfigSpec Ebpf Policy PolicySpec Filter Packet PacketRef PacketRst PacketWire FlowTable FlowMonitor.

Local Open Scope string_scope.
Local Open Scope Z_scope.

(** ** Layouts *)

Definition le16_bytes (x : Z) : list Z := [x mod 256; x / 256 mod 256].

(** [struct srv_key], padding included. *)
Definition srv_key (ip port : Z) : key := (le32_bytes ip ++ le16_bytes port ++ [0; 0])%list.

(** [struct flow_key], packed. *)
Definition flow_key_bytes (k : flow_key) : key :=
  (le32_bytes (inet_ip k) ++ le32_bytes (host_ip k) ++ le16_bytes (inet_port k) ++ le16_bytes (host_port k) ++ le32_bytes (vlans k))%list.

(** [struct flow_monitor_key]. *)
Definition flow_monitor_key (k : flow_key) (protocol : Z) : key := (flow_key_bytes k ++ [protocol; 0; 0; 0])%list.

(** [struct flow_cidr_key]. *)
Definition flow_cidr_key (prefixlen addr : Z) : key := (le32_bytes prefixlen ++ le32_bytes addr)%list.

(** ** Byte order *)

(** An address loaded raw is stored back in the order it had on the wire. *)
Lemma le32_swapped x : is_u32 x -> le32_bytes (bswap32 x) = b32 x.
Proof.
  unfold is_u32, le32_bytes, b32, b16, bswap32, bswap16. intros Hx. cbn [app].
  f_equal; [|f_equal; [|f_equal; [|f_equal]]]; Z.to_euclidean_division_equations; lia.
Qed.

Lemma le16_swapped x : is_u16 x -> le16_bytes (bswap16 x) = b16 x.
Proof. unfold is_u16, le16_bytes, b16, bswap16. intros Hx. f_equal; [|f_equal]; Z.to_euclidean_division_equations; lia. Qed.

Lemma le32_read x l : is_u32 x -> le32 (le32_bytes x ++ l) = x.
Proof. unfold is_u32, le32, le32_bytes. intros Hx. cbn. Z.to_euclidean_division_equations; lia. Qed.

Lemma be16_read x : Policy.be16 (b16 x) = x.
Proof. unfold Policy.be16, b16. cbn. pose proof (Z.div_mod x 256). lia. Qed.

Lemma b16_inj x y : b16 x = b16 y -> x = y.
Proof. intros E. rewrite <- (be16_read x), E. apply be16_read. Qed.

Lemma b32_ip4 x : is_u32 x -> is_ip4 (b32 x).
Proof.
  unfold is_u32. intros Hx. split; [reflexivity|]. unfold b32, b16. cbn [app].
  repeat constructor; unfold is_u8; Z.to_euclidean_division_equations; lia.
Qed.

(** ** Tags *)

Lemma vids o i : 0 <= o < 4096 -> 0 <= i < 4096 ->
  let vl := Z.lor (u32 (Z.shiftl o 12)) i in is_u32 vl /\ Z.land (Z.shiftr vl 12) 4095 = o /\ Z.land vl 4095 = i.
Proof.
  intros Ho Hi. cbv zeta. rewrite Z.shiftl_mul_pow2 by lia. change (2 ^ 12) with 4096. rewrite u32_small by (unfold is_u32; lia).
  assert (E : Z.lor (o * 4096) i = o * 4096 + i).
  { rewrite <- Z.lxor_lor, <- Z.add_nocarry_lxor; [done| |].
    all: change 4096 with (2 ^ 12); rewrite <- Z.shiftl_mul_pow2 by lia; apply Z.bits_inj'; intros n Hn; rewrite Z.land_spec, Z.bits_0;
      destruct (Z_lt_le_dec n 12); [rewrite Z.shiftl_spec_low by lia; reflexivity|];
      rewrite andb_comm, (Z.bits_above_log2 i); [reflexivity | lia |].
    all: destruct (Z.eq_dec i 0) as [->|]; [cbn; lia|]; pose proof (proj1 (Z.log2_lt_pow2 i 12 ltac:(lia)) ltac:(change (2 ^ 12) with 4096; lia)); lia. }
  rewrite E. change 4095 with (Z.ones 12). rewrite !Z.land_ones, Z.shiftr_div_pow2 by lia. change (2 ^ 12) with 4096.
  unfold is_u32. split_and!; Z.to_euclidean_division_equations; lia.
Qed.

Lemma tag_vid_range tags n : 0 <= tag_vid tags n < 4096.
Proof. unfold tag_vid. apply Z.mod_pos_bound. lia. Qed.

(** ** Keys of frames *)

(** The two ends of a frame's flow: the protected one, then the other. *)
Definition ends (out : bool) (w : tcp_wire) : (Z * Z) * (Z * Z) :=
  if out then ((w_saddr w, w_sport w), (w_daddr w, w_dport w)) else ((w_daddr w, w_dport w), (w_saddr w, w_sport w)).

Lemma wire_key_bytes out w : wire_ok w -> let '((host, hport), (inet, iport)) := ends out w in
  flow_key_bytes (wire_key out w) =
  (b32 inet ++ b32 host ++ b16 iport ++ b16 hport ++
   le32_bytes (Z.lor (u32 (Z.shiftl (tag_vid (w_tags w) 0) 12)) (tag_vid (w_tags w) 1)))%list.
Proof.
  intros Hw. pose proof (ok_addrs _ Hw) as [? ?]. pose proof (ok_ports _ Hw) as [? ?]. unfold flow_key_bytes, wire_key, ends.
  destruct out; cbn [inet_ip host_ip inet_port host_port vlans]; now rewrite !le32_swapped, !le16_swapped by done.
Qed.

(** ** The keys a program can make *)

Record key_ok (k : flow_key) : Prop := {
  ok_inet : is_u32 (inet_ip k); ok_host : is_u32 (host_ip k);
  ok_iport : is_u16 (inet_port k); ok_hport : is_u16 (host_port k); ok_vlans : is_u32 (vlans k) }.

(** Such keys are told apart by their bytes. *)
Lemma le16_read x : is_u16 x -> x = default 0 (le16_bytes x !! 0%nat) + default 0 (le16_bytes x !! 1%nat) * 256.
Proof. unfold is_u16. intros Hx. cbn. Z.to_euclidean_division_equations; lia. Qed.

Lemma flow_key_bytes_inj k k' : key_ok k -> key_ok k' -> flow_key_bytes k = flow_key_bytes k' -> k = k'.
Proof.
  intros [A1 A2 A3 A4 A5] [B1 B2 B3 B4 B5]. unfold flow_key_bytes. destruct k as [a b c d e], k' as [a' b' c' d' e'].
  cbn [inet_ip host_ip inet_port host_port vlans] in *. intros E.
  apply app_inj_1 in E as [E1 E]; [|done]. apply app_inj_1 in E as [E2 E]; [|done]. apply app_inj_1 in E as [E3 E]; [|done].
  apply app_inj_1 in E as [E4 E5]; [|done]. f_equal.
  - rewrite <- (le32_read a [] A1), <- (le32_read a' [] B1). now rewrite E1.
  - rewrite <- (le32_read b [] A2), <- (le32_read b' [] B2). now rewrite E2.
  - rewrite (le16_read c A3), (le16_read c' B3). now rewrite E3.
  - rewrite (le16_read d A4), (le16_read d' B4). now rewrite E4.
  - rewrite <- (le32_read e [] A5), <- (le32_read e' [] B5). now rewrite E5.
Qed.

Lemma load8_u8 j p x : octets p -> load8 j p = Some x -> is_u8 x.
Proof.
  unfold load8. intros Hp. destruct (0 <=? j); [|done]. intros H. exact (proj1 (Forall_lookup _ _) Hp _ _ H).
Qed.

Lemma load16_u16 j p x : octets p -> load16 j p = Some x -> is_u16 x.
Proof.
  intros Hp. unfold load16. destruct (load8 j p) as [a|] eqn:Ea; [|done]. cbn [mbind option_bind].
  destruct (load8 (j + 1) p) as [b|] eqn:Eb; [|done]. apply load8_u8 in Ea, Eb; [|done..]. intros [= <-]. unfold is_u8, is_u16 in *. lia.
Qed.

Lemma load32_u32 j p x : octets p -> load32 j p = Some x -> is_u32 x.
Proof.
  intros Hp. unfold load32. destruct (load16 j p) as [a|] eqn:Ea; [|done]. cbn [mbind option_bind].
  destruct (load16 (j + 2) p) as [b|] eqn:Eb; [|done]. apply load16_u16 in Ea, Eb; [|done..]. intros [= <-]. unfold is_u16, is_u32 in *. lia.
Qed.

Lemma vlan_tags_vids n : forall first t p t', vlan_tags n first t p = Some t' -> 0 <= t_outer t < 4096 -> 0 <= t_inner t < 4096 ->
  0 <= t_outer t' < 4096 /\ 0 <= t_inner t' < 4096.
Proof.
  induction n as [|n IH]; intros first t p t'; cbn [vlan_tags]; [now intros [= <-]|].
  destruct (negb _); [now intros [= <-]|]. destruct (_ <? _); [now intros [= <-]|].
  destruct (load16 (t_cur t) p) as [x|]; [|done]. cbn [mbind option_bind]. destruct (load16 (t_cur t + 2) p); [|done]. cbn [mbind option_bind].
  intros H Ho Hi. apply IH in H; [exact H|..]; cbn [t_outer t_inner]; destruct first; try done.
  all: change VLAN_VID_MASK with (Z.ones 12); rewrite Z.land_ones by lia; apply Z.mod_pos_bound; lia.
Qed.

Lemma c_key_wf trusted outer inner ip l4 p k : octets p -> 0 <= outer < 4096 -> 0 <= inner < 4096 ->
  make_key trusted outer inner ip l4 p = Some k -> key_ok k.
Proof.
  intros Hp Ho Hi. unfold make_key. destruct (load32 (ip + 12) p) as [a|] eqn:Ea; [|done]. destruct (load32 (ip + 16) p) as [b|] eqn:Eb; [|done].
  destruct (load16 l4 p) as [c|] eqn:Ec; [|done]. destruct (load16 (l4 + 2) p) as [d|] eqn:Ed; [|done]. cbn [mbind option_bind].
  apply load32_u32 in Ea, Eb; [|done..]. apply load16_u16 in Ec, Ed; [|done..]. destruct (vids outer inner Ho Hi) as [Hv _].
  intros [= <-]. destruct trusted; constructor; assumption.
Qed.

Definition class_key (c : fclass) : option flow_key := match c with Tcp _ sg => Some (sg_key sg) | Udp _ k => Some k | _ => None end.

(** The key of any frame of bytes. *)
Lemma frame_key_ok trusted p c k : octets p -> classify trusted p = Some c -> class_key c = Some k -> key_ok k.
Proof.
  intros Hp. unfold classify, classify_ip, classify_tcp, classify_udp.
  destruct (_ <? _); [now intros [= <-]|]. destruct (load16 12 p) as [proto|]; [|done]. cbn [mbind option_bind].
  destruct (vlan_tags _ _ _ p) as [t|] eqn:Et; [|done]. apply vlan_tags_vids in Et as [Ho Hi]; [|cbn; lia..]. cbn [mbind option_bind]. cbv zeta.
  intros H. repeat match type of H with
  | (if ?b then _ else _) = _ => destruct b
  | mbind _ ?o = _ => let E := fresh "E" in destruct o eqn:E; cbn [mbind option_bind] in H
  | Some _ = Some _ => injection H as <-
  | None = Some _ => discriminate H
  end; cbn [class_key]; try done; intros [= <-]; cbn [sg_key];
  match goal with Hk : make_key _ _ _ _ _ _ = Some _ |- _ => exact (c_key_wf _ _ _ _ _ _ _ Hp Ho Hi Hk) end.
Qed.

(** C12. What an operator is shown is what was on the wire: the flow table's
    browser and the traffic alerts decode the key bytes the packet program
    stores for a frame into the frame's own addresses, ports and VLAN tags, the
    protected end first whichever direction the frame took. *)
Theorem keys_shown out w v now : wire_ok w -> let '((host, hport), (inet, iport)) := ends out w in
  let fi := decodeFlow (flow_key_bytes (wire_key out w)) v "TCP" now in
  (HostIP fi, HostPort fi, InetIP fi, InetPort fi, OuterVID fi) = (b32 host, hport, b32 inet, iport, tag_vid (w_tags w) 0) /\
  decodeFlowID (flow_monitor_key (wire_key out w) IPPROTO_TCP) =
    mkFlowID "tcp" (IP_String (b32 host)) hport (IP_String (b32 inet)) iport (tag_vid (w_tags w) 0) (tag_vid (w_tags w) 1).
Proof.
  intros Hw. pose proof (wire_key_bytes out w Hw) as E. destruct (ends out w) as [[host hport] [inet iport]]. cbv zeta. unfold flow_monitor_key.
  rewrite E. destruct (vids _ _ (tag_vid_range (w_tags w) 0) (tag_vid_range (w_tags w) 1)) as (Hu & H0 & H1).
  set (vl := Z.lor _ _) in *. pose proof (le32_read vl [] Hu) as R. rewrite app_nil_r in R.
  unfold decodeFlow, decodeFlowID. cbn [HostIP HostPort InetIP InetPort OuterVID].
  change (sub 12 16 _) with (le32_bytes vl). change (sub 12 16 _) with (le32_bytes vl). rewrite R, H0, H1.
  change (sub 8 10 _) with (b16 iport). change (sub 10 12 _) with (b16 hport).
  change (sub 8 10 _) with (b16 iport). change (sub 10 12 _) with (b16 hport). rewrite !be16_read. split; reflexivity.
Qed.

(** The answer of a server on VLAN 7, as a flow and as an alert. *)
Theorem keys_shown_witness :
  let w := e_wire false (TCP_SYN + TCP_ACK) 9000 7001 in
  wire_ok w /\ HostIP (decodeFlow (flow_key_bytes (wire_key false w)) (mkFlowVal 0 0 0 0) "TCP" 0) = [10; 0; 0; 2] /\
  decodeFlowID (flow_monitor_key (wire_key false w) IPPROTO_TCP) = mkFlowID "tcp" "10.0.0.2" 40000 "203.0.113.5" 443 7 0.
Proof.
  intros w. assert (Hw : wire_ok w) by (apply e_wire_ok; unfold is_u32; lia). split; [exact Hw|].
  pose proof (keys_shown false w (mkFlowVal 0 0 0 0) 0 Hw) as H. cbn [ends] in H. destruct H as [H1 ->].
  apply (f_equal (fun t => t.1.1.1.1)) in H1. cbn [fst snd] in H1. rewrite H1. split; vm_compute; reflexivity.
Defined.
