(* ===== verification/Deploy.v ===== *)
(** * Deploy: from the configuration file to the frame

    The daemon and the packet program together.  The program reads the maps a
    running daemon holds; what the operator wrote in the configuration is what
    happens to the bytes on the wire: which servers can be reached, which hosts
    are monitored. *)

From Stdlib Require Import ZArith Lia Bool Ascii String.
From stdpp Require Import prelude strings list gmap.
From coqutil Require Import Datatypes.RecordSetters.
From S2P Require Import Prelude Filter FlowSafety Packet PacketRef PacketSpec Traffic PacketRst PacketWire GoText GoNet GoFloat Config ConfigSpec Ebpf Policy PolicySpec FlowTable FlowMonitor FlowMonitorSpec Loader LoaderSpec SysRef Daemon DaemonSpec KernelView.
Import DoubleBraceUpdate.

Local Open Scope string_scope.
Local Open Scope Z_scope.

(** ** The packet program on the daemon's maps *)

Section View.
Context {M : Type -> Type -> Type} `{EbpfLaws M}.

(** The program's lookups are those of the shared maps. *)
Record sees (s : SharedMaps M) (m : machine) : Prop := {
  sees_features : m_features m = as_features <$> em_view (Features s) !! 0;
  sees_servers : forall ip port, is_u32 ip -> is_u16 port ->
    (ip, port) ∈ server_allow (m_dp m) <-> is_Some (em_view (ServerAllowMap s) !! srv_key ip port) }.

(** A server named in the configuration, as an address and a port. *)
Definition listed (cfg : Config) (addr port : Z) : Prop :=
  exists e, e ∈ elems (ServerAllow cfg) /\ ParseHostPort e = inl (b32 addr, port).

Lemma ParseHostPort_inv e ip p : ParseHostPort e = inl (ip, p) -> is_ip4 ip /\ is_u16 p.
Proof.
  unfold ParseHostPort. destruct (SplitHostPort e) as [[host ps]|]; [|done]. destruct (parse_to4 host) as [ip'|] eqn:E; [|done].
  destruct (ParseUint ps 16) as [p' [er|]] eqn:Ep; [done|]. intros [= <- <-].
  split; [now apply parse_to4_ip4 in E | now apply ParseUint_range in Ep].
Qed.

(** The bytes the daemon writes for an entry are the struct the program looks up. *)
Lemma wants_listed cfg addr port : is_u32 addr -> is_u16 port ->
  wants_server cfg (srv_key (bswap32 addr) (bswap16 port)) <-> listed cfg addr port.
Proof.
  intros Ha Hp. unfold wants_server, listed, srv_key, srvKeyBytes. rewrite le32_swapped, le16_swapped by done. split.
  - intros (e & ip & p & He & Ep & E). destruct (ParseHostPort_inv _ _ _ Ep) as [[Hl _] _].
    apply app_inj_1 in E as [<- E]; [|now rewrite Hl]. apply app_inj_1 in E as [E _]; [|done].
    apply b16_inj in E as <-. eauto.
  - intros (e & He & Ep). exists e, (b32 addr), port. done.
Qed.

Lemma bswap16_twice x : is_u16 x -> bswap16 (bswap16 x) = x.
Proof. unfold is_u16, bswap16. intros Hx. Z.to_euclidean_division_equations. lia. Qed.

(** The allowlist the program looks up, with addresses and ports as they are loaded. *)
Lemma server_seen cfg s m ip port : in_force cfg s -> sees s m -> is_u32 ip -> is_u16 port ->
  (ip, port) ∈ server_allow (m_dp m) <-> listed cfg (bswap32 ip) (bswap16 port).
Proof.
  intros (_ & HA & _) [_ Ss] Hi Hp. rewrite Ss, (holds_some _ _ _ HA) by done.
  rewrite <- (bswap32_twice ip), <- (bswap16_twice port) at 1 by done.
  apply wants_listed; unfold is_u32, is_u16; [pose proof (bswap32_range ip) | pose proof (bswap16_range port)]; lia.
Qed.

Lemma policy_seen cfg s m w : in_force cfg s -> sees s m -> wire_ok w ->
  exists f, m_features m = Some f /\ f = as_features (featuresFrom cfg) /\
    (syn_policy_ok f (wire_key false w) (m_dp m) = true <->
     AllowInboundSYN cfg = true \/ (AllowInboundServers cfg = true /\ listed cfg (w_daddr w) (w_dport w))).
Proof.
  intros Hf Hs Hw. pose proof (ok_addrs _ Hw) as [_ Hd]. pose proof (ok_ports _ Hw) as [_ Hp].
  pose proof Hf as (HF & _). pose proof (sees_features _ _ Hs) as Sf.
  exists (as_features (featuresFrom cfg)). split; [now rewrite Sf, HF|]. split; [done|].
  unfold syn_policy_ok. cbn [as_features featuresFrom FV_AllowInboundSYN FV_AllowInboundServers allow_inbound_syn allow_inbound_servers wire_key host_ip host_port].
  assert (E : (bswap32 (w_daddr w), bswap16 (w_dport w)) ∈ server_allow (m_dp m) <-> listed cfg (w_daddr w) (w_dport w)).
  { rewrite (server_seen cfg s m) by (first [done | unfold is_u32, is_u16; pose proof (bswap32_range (w_daddr w)); pose proof (bswap16_range (w_dport w)); lia]).
    now rewrite bswap32_twice, bswap16_twice. }
  destruct (AllowInboundSYN cfg), (AllowInboundServers cfg); cbn; rewrite ?bool_decide_eq_true, ?E; intuition discriminate.
Qed.
End View.

(** ** A program that sees given maps *)

(** The entry a key of the allowlist is, when it has the struct's form. *)
Definition key_server (k : key) : option (Z * Z) :=
  let ip := le32 k in let port := default 0 (k !! 4%nat) + default 0 (k !! 5%nat) * 256 in
  if bool_decide (srv_key ip port = k) then Some (ip, port) else None.

Lemma key_server_iff k ip port : is_u32 ip -> is_u16 port -> key_server k = Some (ip, port) <-> k = srv_key ip port.
Proof.
  intros Hi Hp. unfold key_server. split.
  - case_bool_decide as E; [|done]. intros [= E1 E2]. now rewrite <- E, E1, E2.
  - intros ->. assert (E1 : le32 (srv_key ip port) = ip) by now apply le32_read.
    assert (E2 : default 0 (srv_key ip port !! 4%nat) + default 0 (srv_key ip port !! 5%nat) * 256 = port).
    { change (port mod 256 + port / 256 mod 256 * 256 = port). unfold is_u16 in Hp. Z.to_euclidean_division_equations; lia. }
    rewrite E1, E2. now rewrite bool_decide_eq_true_2.
Qed.

Section Machine.
Context {M : Type -> Type -> Type} `{EbpfLaws M}.

Definition machine_on (s : SharedMaps M) : machine :=
  Machine (Dp ∅ ∅ ∅ (list_to_set (omap key_server (elements (dom (em_view (ServerAllowMap s)))))) ∅ ∅)
    (as_features <$> em_view (Features s) !! 0) (Some (StatsGlobal 0 0 0 0 0 0 0 0 0 0 0 0 0)) ∅ ∅.

Lemma machine_sees s : sees s (machine_on s).
Proof.
  constructor; [reflexivity|]. intros ip port Hi Hp. cbn [machine_on m_dp server_allow].
  rewrite elem_of_list_to_set, (list_elem_of_omap key_server). setoid_rewrite elem_of_elements. rewrite <- elem_of_dom. split.
  - intros (k & Hk & E). apply key_server_iff in E as ->; done.
  - intros Hk. exists (srv_key ip port). split; [exact Hk | now apply key_server_iff].
Qed.
End Machine.

(** ** The verdict on a connection request *)

(** Both buckets have a token left for a request with this key. *)
Definition tokens_left (kn : kernel) (k : flow_key) (d : dp) : bool :=
  let '(ok, d) := syn_token_ok (k_helpers kn) (inet_ip k) (k_t_src kn) d in
  ok && fst (syn_global_ok (k_helpers kn) (k_t_glob kn) d).

Lemma request_handled h f k fl ack now t1 t2 d r c d' : lone_syn fl = true ->
  handle_inbound h f k fl ack now t1 t2 d = (r, c, d') ->
  r = ACT_FORWARD <-> syn_policy_ok f k d = true /\
    (let '(ok, d1) := syn_token_ok h (inet_ip k) t1 d in ok && fst (syn_global_ok h t2 d1)) = true.
Proof.
  intros Hl. unfold handle_inbound. rewrite (lone_not_both _ Hl), Hl. unfold inbound_lone_syn.
  destruct (syn_policy_ok f k d); cbn [negb]; [|intros [= <- _ _]; split; [discriminate | intros [? _]; discriminate]].
  destruct (syn_token_ok _ _ _ _) as [[|] d1]; cbn [negb andb]; [|intros [= <- _ _]; split; [discriminate | intros [_ ?]; discriminate]].
  destruct (syn_global_ok _ _ _) as [[|] d2]; cbn [negb fst]; [|intros [= <- _ _]; split; [discriminate | intros [_ ?]; discriminate]].
  repeat case_match; intros [= <- _ _]; done.
Qed.

(** Under an enforcing policy a well-formed request goes on exactly when the
    policy admits it and neither rate limit is reached. *)
Lemma request_verdict i kn p m f vs sg v p' m' :
  ROLE_TRUSTED i = false -> m_features m = Some f -> mode f = MODE_ENFORCE -> classify false p = Some (Tcp vs sg) ->
  lone_syn (sg_flags sg) = true -> bad_flags (sg_flags sg) = false -> xdp_filter i kn p m = Some (v, p', m') ->
  v = Redirected (PEER_IDX i) <-> syn_policy_ok f (sg_key sg) (m_dp m) = true /\ tokens_left kn (sg_key sg) (m_dp m) = true.
Proof.
  intros Hr Hf Hm Hc Hl Hb. rewrite xdp_filter_act, Hr, Hc. cbn [mbind option_bind]. unfold act. cbn [act_after class_vlan].
  set (len := frame_len i kn p). unfold act_tcp. rewrite (lone_not_eligible _ _ Hl), Hb. cbn [andb negb].
  change (m_features (rx_account vs len m)) with (m_features m). rewrite Hf, andb_false_r. unfold act_tcp_state, tcp_handle.
  rewrite Hr, (proj1 (monitored_fields _ _ _ _ _ _)). change (m_dp (rx_account vs len m)) with (m_dp m).
  destruct (handle_inbound _ _ _ _ _ _ _ _ _) as [[r c] d] eqn:Eh. apply (request_handled _ _ _ _ _ _ _ _ _ _ _ _ Hl) in Eh.
  fold (tokens_left kn (sg_key sg) (m_dp m)) in Eh. rewrite <- Eh. destruct (Z.eqb_spec r ACT_FORWARD) as [->|Hne]; cbn [andb].
  - unfold do_forward. intros [= <- _ _]. done.
  - intros [_ H]%do_drop_tcp_same. split; [|done]. intros ->. destruct (H Hm); discriminate.
Qed.

(** ** The configured servers, on the wire *)

Section Servers.
Context {M : Type -> Type -> Type} `{EbpfLaws M}.

(** A connection request under a policy in force that enforces. *)
Lemma request_under cfg s m i kn w v p' m' : in_force cfg s -> sees s m -> Mode cfg = "enforce" -> ROLE_TRUSTED i = false ->
  wire_ok w -> lone_syn (w_flags w) = true -> bad_flags (w_flags w) = false -> xdp_filter i kn (wire w) m = Some (v, p', m') ->
  v = Redirected (PEER_IDX i) <->
  (AllowInboundSYN cfg = true \/ (AllowInboundServers cfg = true /\ listed cfg (w_daddr w) (w_dport w))) /\
  tokens_left kn (wire_key false w) (m_dp m) = true.
Proof.
  intros Hf Hm He Hi Hw Hl Hb Hx. destruct (policy_seen _ _ _ _ Hf Hm Hw) as (f & Ef & -> & <-).
  apply (request_verdict i kn (wire w) m _ (tag_vid (w_tags w) 0) (wire_segment false w) v p' m' Hi Ef); [| exact (wire_reads w Hw false) | exact Hl | exact Hb | exact Hx].
  cbn. now rewrite He.
Qed.

Context (rng : gset key -> list key) (rng_perm : forall X, rng X ≡ₚ elements X).

(** C2. The allowlist, from the file to the wire.  While the daemon runs, after
    any reloads that settled, and its configuration enforces, a connection
    request from the internet side is handed on exactly when the configuration
    allows requests to every host, or allows servers and names the frame's
    destination address and port, and no rate limit is reached. *)
Theorem allowlist_on_the_wire {K} `{!Sys K M, !SysLaws K M} loadFilter tune cfg root start k d h k' d' i kn w m v p' m' :
  Valid cfg -> start_daemon (K := K) rng loadFilter tune (inl cfg) root start k = (inl (d, h), k') -> rtc (reload_step rng) d d' ->
  sees (d_maps d') m -> Mode (d_cfg d') = "enforce" -> ROLE_TRUSTED i = false ->
  wire_ok w -> lone_syn (w_flags w) = true -> bad_flags (w_flags w) = false ->
  xdp_filter i kn (wire w) m = Some (v, p', m') ->
  v = Redirected (PEER_IDX i) <->
  (AllowInboundSYN (d_cfg d') = true \/
   (AllowInboundServers (d_cfg d') = true /\ listed (d_cfg d') (w_daddr w) (w_dport w))) /\
  tokens_left kn (wire_key false w) (m_dp m) = true.
Proof.
  intros Hv Hs Hr Hm He Hi Hw Hl Hb Hx. destruct (start_governs rng rng_perm _ _ _ _ _ _ _ _ _ Hs) as (Hc & Hg & _). injection Hc as ->.
  destruct (reloads_refine rng rng_perm _ _ Hg Hv Hr) as (_ & [Hf _] & _).
  exact (request_under _ _ _ _ _ _ _ _ _ Hf Hm He Hi Hw Hl Hb Hx).
Qed.
End Servers.

(** Servers allowed, one of them listed. *)
Definition serving : Config := live_sample {{ Mode := "enforce" }} {{ AllowInboundServers := true }} {{ ServerAllow := Some ["10.0.0.2:40000"] }}.

Lemma serving_valid : Valid serving.
Proof. apply (Validate_ok serving); [vm_compute; intuition congruence | reflexivity]. Qed.

Definition serving_start := start_daemon elements (Some object) untuned (inl serving) true 0 (fresh_sys []).

(** A request to the listed port gets through, one to another port does not. *)
Definition request (port : Z) : tcp_wire := 
  let w := e_wire false TCP_SYN 1 0 in
  TcpWire (w_dst w) (w_src w) (w_tags w) (w_tos w) (w_id w) (w_frag w) (w_ttl w) (w_ipck w) (w_saddr w) (w_daddr w) (w_opts w)
    (w_sport w) port (w_seq w) (w_ack w) (w_doff w) (w_flags w) (w_win w) (w_ck w) (w_urg w) (w_rest w).

Lemma request_ok port : is_u16 port -> wire_ok (request port).
Proof.
  intros Hp. destruct (e_wire_ok false TCP_SYN 1 0) as [? ? ? ? ? ? Hq ? ?]; [unfold is_u32; lia..|].
  constructor; [assumption.. | | assumption | assumption]. split; [exact (proj1 Hq) | exact Hp].
Qed.

Theorem allowlist_on_the_wire_witness : exists (d : Daemon (M := FMap)) h k', serving_start = (inl (d, h), k') /\
  verdict_of (xdp_filter (e_inst false) e_kernel (wire (request 40000)) (machine_on (d_maps d))) = Some (Redirected 0) /\
  verdict_of (xdp_filter (e_inst false) e_kernel (wire (request 22)) (machine_on (d_maps d))) = Some XDP_DROP /\
  listed serving (w_daddr (request 40000)) 40000 /\ ~ listed serving (w_daddr (request 22)) 22.
Proof.
  assert (Hok : match fst serving_start with inl (d, _) => map (fun q => verdict_of (xdp_filter (e_inst false) e_kernel (wire (request q)) (machine_on (d_maps d)))) [40000; 22]
                | inr _ => [] end = [Some (Redirected 0); Some XDP_DROP]) by (vm_compute; reflexivity).
  destruct serving_start as [[[d h]|e] k'] eqn:E; cbn [fst] in Hok; [|discriminate]. cbn [map] in Hok. injection Hok as H1 H2.
  exists d, h, k'. split; [done|]. split; [done|]. split; [done|].
  assert (Hc : d_cfg d = serving) by (pose proof (start_governs elements elements_perm _ _ _ _ _ _ _ _ _ E) as (Hc & _); congruence).
  destruct (verdict_some _ _ H1) as (p1 & m1 & X1), (verdict_some _ _ H2) as (p2 & m2 & X2).
  pose proof (allowlist_on_the_wire elements elements_perm (Some object) untuned serving true 0 (fresh_sys []) d h k' d (e_inst false) e_kernel (request 40000)
    (machine_on (d_maps d)) (Redirected 0) p1 m1 serving_valid E (rtc_refl _ _) (machine_sees _) ltac:(now rewrite Hc) eq_refl
    ltac:(apply request_ok; unfold is_u16; lia) eq_refl eq_refl X1) as [A _].
  pose proof (allowlist_on_the_wire elements elements_perm (Some object) untuned serving true 0 (fresh_sys []) d h k' d (e_inst false) e_kernel (request 22)
    (machine_on (d_maps d)) XDP_DROP p2 m2 serving_valid E (rtc_refl _ _) (machine_sees _) ltac:(now rewrite Hc) eq_refl
    ltac:(apply request_ok; unfold is_u16; lia) eq_refl eq_refl X2) as [_ B].
  rewrite Hc in A, B. split.
  - destruct (A eq_refl) as [[Ha|[_ Ha]] _]; [discriminate Ha | exact Ha].
  - intros Hl. discriminate B. split; [right; split; [reflexivity | exact Hl] | vm_compute; reflexivity].
Defined.
