(* ===== verification/Monitored.v ===== *)
(** * Monitored: the hosts the packet program samples

    The monitored networks live in a longest-prefix-match trie that the packet
    program asks about the protected host of a frame; the reporter looks the
    same host up in the configuration's rules.  Both say the same, and a frame
    is counted exactly when the configuration samples it. *)

From Stdlib Require Import ZArith Lia Bool Ascii String.
From stdpp Require Import prelude strings list gmap.
From coqutil Require Import Datatypes.RecordSetters.
From S2P Require Import Prelude Filter FlowSafety Packet PacketRef PacketSpec Traffic PacketRst PacketWire GoText GoNet GoFloat Config ConfigSpec Ebpf Policy PolicySpec FlowTable FlowMonitor FlowMonitorSpec Loader LoaderSpec SysRef Daemon DaemonSpec KernelView Deploy.
Import DoubleBraceUpdate.

Local Open Scope string_scope.
Local Open Scope Z_scope.

(** ** The trie *)

(** Four bytes as a number. *)
Definition num4 (l : list Z) : Z := fold_left (fun acc b => acc * 256 + b) l 0.

(** The first [plen] of 32 bits are the same. *)
Definition same_prefix (plen : Z) (a b : list Z) : Prop := num4 a / 2 ^ (32 - plen) = num4 b / 2 ^ (32 - plen).

(** BPF_MAP_TYPE_LPM_TRIE: the lookup of a whole address finds an entry when
    a stored prefix is one of the address. *)
Definition lpm_hit (t : gmap key Z) (addr : list Z) : Prop :=
  exists plen data v, 0 <= plen <= 32 /\ is_ip4 data /\ t !! (le32_bytes plen ++ data)%list = Some v /\ same_prefix plen data addr.

(** Found by looking at every entry. *)
Definition lpm_match (addr : list Z) (e : key * Z) : bool :=
  let plen := le32 (fst e) in let data := drop 4 (fst e) in
  (0 <=? plen) && (plen <=? 32) && (length data =? 4)%nat && forallb (fun b => (0 <=? b) && (b <? 256)) data &&
  bool_decide (fst e = (le32_bytes plen ++ data)%list) && (num4 data / 2 ^ (32 - plen) =? num4 addr / 2 ^ (32 - plen)).

Definition lpm_find (t : gmap key Z) (addr : list Z) : bool := existsb (lpm_match addr) (map_to_list t).

Lemma forallb_bytes l : forallb (fun b => (0 <=? b) && (b <? 256)) l = true <-> Forall is_u8 l.
Proof.
  rewrite forallb_forall, Forall_forall. unfold is_u8. split; intros H x Hx.
  - apply list_elem_of_In, H, andb_true_iff in Hx as [H1%Z.leb_le H2%Z.ltb_lt]. done.
  - apply list_elem_of_In, H in Hx. apply andb_true_iff. now rewrite Z.leb_le, Z.ltb_lt.
Qed.

Lemma lpm_find_hit t addr : lpm_find t addr = true <-> lpm_hit t addr.
Proof.
  unfold lpm_find, lpm_hit, same_prefix. rewrite existsb_exists. split.
  - intros ([k v] & Hin%list_elem_of_In%elem_of_map_to_list & Hm). unfold lpm_match in Hm. cbn [fst] in Hm.
    rewrite !andb_true_iff, !Z.leb_le, Nat.eqb_eq, bool_decide_eq_true, Z.eqb_eq, forallb_bytes in Hm.
    destruct Hm as [[[[[H1 H2] H3] H4] H5] H6]. exists (le32 k), (drop 4 k), v. rewrite <- H5. unfold is_ip4. tauto.
  - intros (plen & data & v & Hp & [Hl Hb] & Hv & Hs). exists ((le32_bytes plen ++ data)%list, v).
    split; [now apply list_elem_of_In, elem_of_map_to_list|]. unfold lpm_match. cbn [fst].
    rewrite le32_read by (unfold is_u32; lia). change (drop 4 (le32_bytes plen ++ data)%list) with data.
    rewrite !andb_true_iff, !Z.leb_le, Nat.eqb_eq, bool_decide_eq_true, Z.eqb_eq, forallb_bytes. tauto.
Qed.

(** ** Masks are prefixes *)

Lemma land_mask x k : is_u8 x -> 0 <= k < 9 -> Z.land x (256 - 2 ^ k) = x / 2 ^ k * 2 ^ k.
Proof.
  intros Hx Hk. rewrite <- Z.shiftr_div_pow2, <- Z.shiftl_mul_pow2 by lia. apply Z.bits_inj'. intros n Hn.
  rewrite Z.land_spec. replace (256 - 2 ^ k) with (Z.shiftl (Z.ones (8 - k)) k).
  2: { rewrite Z.shiftl_mul_pow2, Z.ones_equiv, Z.mul_pred_l, <- Z.pow_add_r by lia. replace (8 - k + k) with 8 by lia. reflexivity. }
  rewrite !(Z.shiftl_spec _ _ n) by lia. destruct (Z_lt_le_dec n k); [rewrite !(Z.testbit_neg_r _ (n - k)) by lia; apply andb_false_r|].
  rewrite Z.shiftr_spec by lia. replace (n - k + k) with n by lia. rewrite Z.testbit_ones by lia.
  destruct (Z_lt_le_dec n 8) as [Hl|Hl].
  - replace (0 <=? n - k) with true by (symmetry; apply Z.leb_le; lia). replace (n - k <? 8 - k) with true by (symmetry; apply Z.ltb_lt; lia). apply andb_true_r.
  - rewrite (Z.bits_above_log2 x n); [reflexivity | unfold is_u8 in Hx; lia|]. unfold is_u8 in Hx.
    destruct (Z.eq_dec x 0) as [->|]; [cbn; lia|]. pose proof (proj1 (Z.log2_lt_pow2 x 8 ltac:(lia)) ltac:(lia)). lia.
Qed.

Lemma num4_inj a b : is_ip4 a -> is_ip4 b -> num4 a = num4 b -> a = b.
Proof.
  intros Ha Hb. apply is_ip4_inv in Ha as (a1 & a2 & a3 & a4 & -> & ? & ? & ? & ?), Hb as (b1 & b2 & b3 & b4 & -> & ? & ? & ? & ?).
  unfold num4, is_u8 in *. cbn [fold_left]. intros E. assert (a1 = b1) by lia. assert (a2 = b2) by lia. assert (a3 = b3) by lia. f_equal; [lia|]. now repeat f_equal; lia.
Qed.

(** Masking keeps the prefix and clears the rest. *)
Lemma mask_num x n : is_ip4 x -> 0 <= n < 33 -> num4 (ip_and x (CIDRMask n 32)) = num4 x / 2 ^ (32 - n) * 2 ^ (32 - n).
Proof.
  intros Hx. apply is_ip4_inv in Hx as (a & b & c & d & -> & Ha & Hb & Hc & Hd).
  pose proof (fun y H => land_mask y 0 H ltac:(lia)) as L0. pose proof (fun y H => land_mask y 1 H ltac:(lia)) as L1.
  pose proof (fun y H => land_mask y 2 H ltac:(lia)) as L2. pose proof (fun y H => land_mask y 3 H ltac:(lia)) as L3.
  pose proof (fun y H => land_mask y 4 H ltac:(lia)) as L4. pose proof (fun y H => land_mask y 5 H ltac:(lia)) as L5.
  pose proof (fun y H => land_mask y 6 H ltac:(lia)) as L6. pose proof (fun y H => land_mask y 7 H ltac:(lia)) as L7.
  pose proof (fun y H => land_mask y 8 H ltac:(lia)) as L8.
  cbn -[Z.land Z.div] in L0, L1, L2, L3, L4, L5, L6, L7, L8.
  revert n. refine (Z_range_ind 33 _ _). cbn [seq map].
  repeat constructor.
  all: match goal with |- context [CIDRMask ?n 32] => let m := eval vm_compute in (CIDRMask n 32) in change (CIDRMask n 32) with m end.
  all: unfold ip_and, num4; cbn [zip_with fold_left].
  all: repeat first [rewrite L0 by assumption | rewrite L1 by assumption | rewrite L2 by assumption | rewrite L3 by assumption | rewrite L4 by assumption
    | rewrite L5 by assumption | rewrite L6 by assumption | rewrite L7 by assumption | rewrite L8 by assumption].
  all: match goal with |- context [_ / 2 ^ ?e] => let p := eval vm_compute in (2 ^ e) in change (2 ^ e) with p end.
  all: unfold is_u8 in *; clear L0 L1 L2 L3 L4 L5 L6 L7 L8; Z.to_euclidean_division_equations; lia.
Qed.

Lemma To4_ip4 f : is_ip4 f -> To4 f = Some f.
Proof. intros [Hf _]. unfold To4. now rewrite Hf. Qed.

Lemma contains_prefix f n x : is_ip4 f -> is_ip4 x -> 0 <= n <= 32 -> ip_and f (CIDRMask n 32) = f ->
  IPNet_Contains (mkNet f (CIDRMask n 32)) x = true <-> same_prefix n f x.
Proof.
  intros Hf Hx Hn Hm. unfold IPNet_Contains, networkNumberAndMask. cbn [net_ip net_mask].
  destruct (mask32_facts n) as (a & b & c & d & Em & _); [lia|]. replace (length (CIDRMask n 32)) with 4%nat by now rewrite Em.
  rewrite (To4_ip4 f), (To4_ip4 x) by done. cbn [default from_option id]. change (id f) with f. change (id x) with x. rewrite (proj1 Hf). cbn [Nat.eqb negb orb andb]. rewrite (proj1 Hx), (proj1 Hf). cbn [Nat.eqb andb]. rewrite bool_decide_eq_true.
  pose proof (ip_and_ip4 f n (proj1 Hf) Hn) as If. pose proof (ip_and_ip4 x n (proj1 Hx) Hn) as Ix.
  pose proof (mask_num f n Hf ltac:(lia)) as Nf. pose proof (mask_num x n Hx ltac:(lia)) as Nx.
  assert (Hp : 0 < 2 ^ (32 - n)) by (apply Z.pow_pos_nonneg; lia). unfold same_prefix. split.
  - intros E. rewrite E, Nx in Nf. symmetry. eapply Z.mul_reg_r; [|exact Nf]. lia.
  - intros E. apply num4_inj; [done..|]. now rewrite Nf, Nx, E.
Qed.

(** ** The trie and the rules *)

Lemma canonical_key f n : is_ip4 f -> 0 <= n <= 32 -> cidrKeyBytes (mkNet f (CIDRMask n 32)) = (le32_bytes n ++ f)%list.
Proof.
  intros Hf Hn. unfold cidrKeyBytes, Mask_Size. cbn [net_ip net_mask].
  destruct (mask32_facts n) as (_ & _ & _ & _ & _ & _ & _ & _ & _ & -> & _); [lia|]. cbn [fst]. rewrite u32_small by (unfold is_u32; lia).
  rewrite (To4_ip4 f) by done. cbn [default from_option id].
  now rewrite (take_app_le f) , take_ge by (rewrite (proj1 Hf); lia).
Qed.

Lemma prefix_key_inj n m f g : 0 <= n <= 32 -> 0 <= m <= 32 -> (le32_bytes n ++ f)%list = (le32_bytes m ++ g)%list -> n = m /\ f = g.
Proof.
  intros Hn Hm E. pose proof (f_equal le32 E) as E1. rewrite !le32_read in E1 by (unfold is_u32; lia). subst m.
  split; [done|]. now apply app_inv_head in E.
Qed.

(** What the loader and the reporter both make of a rule written plainly. *)
Lemma rule_parses r : RuleOK r -> trimmed r -> exists f n, is_ip4 f /\ 0 <= n <= 32 /\ ip_and f (CIDRMask n 32) = f /\
  ParseCIDR (CIDR r) = Some ((v4InV6Prefix ++ f)%list, mkNet f (CIDRMask n 32)).
Proof.
  intros [(f & n & Hc) _ _] Ht. rewrite Ht in Hc. destruct Hc as (Hf & Hn & Hm & E). exists f, n. do 3 (split; [done|]).
  rewrite E. exact (proj1 (canonical_cidr_complete f n Hf Hn Hm)).
Qed.

(** A rule of the configuration covers the address. *)
Definition covers (x : list Z) (r : FlowMonitorCIDR) : bool := match rule_bits x r with Some _ => true | None => false end.

Section Trie.
Context {M : Type -> Type -> Type} `{EbpfLaws M}.

Lemma trie_rules cfg (s : SharedMaps M) x : in_force cfg s -> Forall RuleOK (elems (CIDRs (FlowMon cfg))) ->
  Forall trimmed (elems (CIDRs (FlowMon cfg))) -> is_ip4 x ->
  lpm_hit (em_view (FlowMonitorCIDRs s)) x <-> longestMatch x (elems (CIDRs (FlowMon cfg))) <> None.
Proof.
  intros (_ & _ & HC) Hr Ht Hx. rewrite Forall_forall in Hr, Ht. rewrite longestMatch_None. split.
  - intros (plen & data & v & Hp & Hd & Hv & Hs) Hno.
    assert (Hw : wants_cidr cfg (le32_bytes plen ++ data)%list) by (apply (holds_some _ _ _ HC); eauto).
    destruct Hw as (r & ip & net & Hin & Hparse & E). destruct (rule_parses r (Hr r Hin) (Ht r Hin)) as (f & n & Hf & Hn & Hm & Ep).
    rewrite Hparse in Ep. injection Ep as -> ->. rewrite canonical_key in E by done. apply prefix_key_inj in E as [-> ->]; [|done..].
    specialize (Hno r (proj1 (list_elem_of_In _ _) Hin)). unfold rule_bits in Hno.
    now rewrite Hparse, (proj2 (contains_prefix f n x Hf Hx Hn Hm) Hs) in Hno.
  - intros Hsome. destruct (existsb (covers x) (elems (CIDRs (FlowMon cfg)))) eqn:He.
    2: { exfalso. apply Hsome. intros r Hin. unfold covers in He. destruct (rule_bits x r) eqn:Eb; [|done].
         enough (existsb (covers x) (elems (CIDRs (FlowMon cfg))) = true) by (unfold covers in *; congruence).
         apply existsb_exists. exists r. split; [done|]. unfold covers. now rewrite Eb. }
    apply existsb_exists in He as (r & Hin%list_elem_of_In & Hb). destruct (rule_parses r (Hr r Hin) (Ht r Hin)) as (f & n & Hf & Hn & Hm & Ep).
    unfold covers in Hb.
    unfold rule_bits in Hb. rewrite Ep in Hb. destruct (IPNet_Contains _ _) eqn:Ec; [|done]. apply (contains_prefix f n x Hf Hx Hn Hm) in Ec.
    assert (Hw : wants_cidr cfg (le32_bytes n ++ f)%list) by (exists r; do 2 eexists; split; [done|]; split; [exact Ep | now rewrite canonical_key]).
    apply (holds_some _ _ _ HC) in Hw as [v Hv]. exists n, f, v. done.
Qed.
End Trie.

(** ** The counters *)

Lemma alter_insert_some {A V : Type} `{Countable A} (g : V -> V) (t : gmap A V) a c : t !! a = Some c -> alter g a t = <[a := g c]> t.
Proof.
  intros E. apply map_eq. intros j. destruct (decide (j = a)) as [->|Hj].
  - rewrite lookup_insert_eq, lookup_alter_eq, E. done.
  - rewrite lookup_insert_ne, lookup_alter_ne by done. done.
Qed.

Lemma do_drop_counters i f vs reason len p m : m_counters (snd (do_drop i f vs reason len p m)) = m_counters m.
Proof. unfold do_drop. now case_match. Qed.

Lemma do_drop_tcp_counters i f vs reason len ip tcp p m v p' m' :
  do_drop_tcp i f vs reason len 0 ip tcp p m = Some (v, p', m') -> m_counters m' = m_counters m.
Proof.
  unfold do_drop_tcp. destruct (_ && _).
  - intros (x & _ & E)%bind_Some. destruct x; injection E as E; [now subst|].
    rewrite <- (do_drop_counters i f vs reason len p m). now rewrite E.
  - intros [= E]. rewrite <- (do_drop_counters i f vs reason len p m). now rewrite E.
Qed.

(** Whatever becomes of a segment under a policy, only monitoring counts it. *)
Lemma tcp_counters i kn p m vs sg f v p' m' : m_features m = Some f -> classify (ROLE_TRUSTED i) p = Some (Tcp vs sg) ->
  xdp_filter i kn p m = Some (v, p', m') ->
  m_counters m' = m_counters (monitored i kn (sg_key sg) IPPROTO_TCP (frame_len i kn p) m).
Proof.
  intros Hf Hc. rewrite xdp_filter_act, Hc. cbn [mbind option_bind]. unfold act. cbn [act_after class_vlan].
  set (len := frame_len i kn p). set (m0 := rx_account vs len m).
  assert (E0 : m_counters (monitored i kn (sg_key sg) IPPROTO_TCP len m0) = m_counters (monitored i kn (sg_key sg) IPPROTO_TCP len m)).
  { unfold monitored. destruct (ROLE_TRUSTED i); [done|]. unfold monitor_flow. change (m_counters m0) with (m_counters m). repeat case_match; done. }
  rewrite <- E0. unfold act_tcp. change (m_features m0) with (m_features m). rewrite Hf. destruct (_ && l1_hit _ _ _ _ _); [now intros [= <- <- <-]|].
  destruct (_ && bad_flags _); [apply do_drop_tcp_counters|]. unfold act_tcp_state.
  destruct (tcp_handle _ _ _ _ _) as [[r st] d]. destruct (r =? ACT_FORWARD); [|intros E%do_drop_tcp_counters; exact E].
  intros [= <- <- <-]. cbn [on_stats m_counters]. now case_match.
Qed.

(** ** The configured hosts, on the wire *)

(** The configuration samples a frame to [addr] when the draw is [draw]. *)
Definition sampled (cfg : Config) (draw addr : Z) : Prop :=
  Enabled (FlowMon cfg) = true /\ draw mod SampleEvery (FlowMon cfg) = 0 /\
  longestMatch (b32 addr) (elems (CIDRs (FlowMon cfg))) <> None.

Section Hosts.
Context {M : Type -> Type -> Type} `{EbpfLaws M}.
Context (rng : gset key -> list key) (rng_perm : forall X, rng X ≡ₚ elements X).

Lemma monitor_skips i kn k protocol len m :
  FLOW_MONITOR_ENABLED i = 0 \/ Z.land (k_prandom kn) (FLOW_MONITOR_SAMPLE_MASK i) <> 0 \/ k_lpm kn (host_ip k) = false ->
  monitor_flow i kn k protocol len m = m.
Proof.
  unfold monitor_flow. destruct (Z.eqb_spec (FLOW_MONITOR_ENABLED i) 0); [done|].
  destruct (Z.eqb_spec (Z.land (k_prandom kn) (FLOW_MONITOR_SAMPLE_MASK i)) 0); cbn [negb]; [|done]. now intros [?|[?| ->]].
Qed.

Lemma monitor_counts i kn k protocol len m :
  FLOW_MONITOR_ENABLED i <> 0 -> Z.land (k_prandom kn) (FLOW_MONITOR_SAMPLE_MASK i) = 0 -> k_lpm kn (host_ip k) = true ->
  match m_counters m !! (k, protocol) with
  | Some c => m_counters (monitor_flow i kn k protocol len m) = <[(k, protocol) := bump len c]> (m_counters m)
  | None => forall t, k_insert kn (m_counters m) (k, protocol) (1, len) = (false, t) -> m_counters (monitor_flow i kn k protocol len m) = t
  end.
Proof.
  intros He Hd Hl. unfold monitor_flow. rewrite (proj2 (Z.eqb_neq _ _) He), Hd, Hl. cbn [Z.eqb negb].
  destruct (m_counters m !! (k, protocol)) as [c|] eqn:E.
  - exact (alter_insert_some (bump len) _ _ _ E).
  - intros t ->. reflexivity.
Qed.

Lemma mask_draw e draw : is_pow2 e -> 1 <= e <= 65536 -> 0 <= draw -> Z.land draw (u32 (e - 1)) = draw mod e.
Proof.
  intros (k & Hk & ->) He Hd. rewrite u32_small by (unfold is_u32; lia). rewrite <- Z.land_ones by done. now rewrite Z.ones_equiv.
Qed.

(** C11. Which traffic is sampled, from the file to the counters.  While the
    daemon runs, after any reloads that settled, an inbound TCP frame is
    counted exactly when its configuration monitors, the random draw falls on
    the sample, and a rule of the configuration covers the frame's
    destination, which is the rule the reporter then finds for that address. *)
Theorem monitored_hosts {K} `{!Sys K M, !SysLaws K M} loadFilter tune cfg root start k d h k' d' i kn w m v p' m' :
  Valid cfg -> start_daemon (K := K) rng loadFilter tune (inl cfg) root start k = (inl (d, h), k') -> rtc (reload_step rng) d d' ->
  Forall trimmed (elems (CIDRs (FlowMon (d_cfg d')))) -> sees (d_maps d') m ->
  d_mon d' = mkMon (Some (FLOW_MONITOR_ENABLED i)) (Some (FLOW_MONITOR_SAMPLE_MASK i)) ->
  (forall a, is_u32 a -> k_lpm kn a = true <-> lpm_hit (em_view (FlowMonitorCIDRs (d_maps d'))) (le32_bytes a)) ->
  0 <= k_prandom kn -> ROLE_TRUSTED i = false -> wire_ok w -> xdp_filter i kn (wire w) m = Some (v, p', m') ->
  let slot := (wire_key false w, IPPROTO_TCP) in let len := frame_len i kn (wire w) in
  (~ sampled (d_cfg d') (k_prandom kn) (w_daddr w) -> m_counters m' = m_counters m) /\
  (sampled (d_cfg d') (k_prandom kn) (w_daddr w) ->
   match m_counters m !! slot with
   | Some c => m_counters m' = <[slot := bump len c]> (m_counters m)
   | None => forall t, k_insert kn (m_counters m) slot (1, len) = (false, t) -> m_counters m' = t
   end).
Proof.
  intros Hv Hs Hr Ht Hm Hi Hk Hd Hro Hw Hx. destruct (start_governs rng rng_perm _ _ _ _ _ _ _ _ _ Hs) as (Hc & Hg & _). injection Hc as ->.
  destruct (reloads_refine rng rng_perm _ _ Hg Hv Hr) as (_ & [Hf Hmon] & Hv' & _). destruct (v_fm _ Hv') as [[Hp2 Hse] _ _ Hrules _].
  destruct (policy_seen _ _ _ _ Hf Hm Hw) as (f & Ef & _). rewrite Hmon in Hi. unfold monitor_of in Hi. injection Hi as Hen Hma.
  pose proof (ok_addrs _ Hw) as [_ Ha].
  rewrite (tcp_counters _ _ _ _ (tag_vid (w_tags w) 0) (wire_segment false w) f _ _ _ Ef ltac:(rewrite Hro; exact (wire_reads w Hw false)) Hx).
  unfold monitored. rewrite Hro. cbn [wire_segment sg_key]. cbv zeta.
  assert (Hlpm : k_lpm kn (host_ip (wire_key false w)) = true <-> longestMatch (b32 (w_daddr w)) (elems (CIDRs (FlowMon (d_cfg d')))) <> None).
  { cbn [wire_key host_ip]. rewrite Hk by (pose proof (bswap32_range (w_daddr w)); unfold is_u32; lia). rewrite le32_swapped by done.
    apply trie_rules; try done. now apply b32_ip4. }
  assert (Hdraw : Z.land (k_prandom kn) (FLOW_MONITOR_SAMPLE_MASK i) = k_prandom kn mod SampleEvery (FlowMon (d_cfg d'))) by (rewrite <- Hma; now apply mask_draw).
  unfold sampled. rewrite <- Hlpm, <- Hdraw. split.
  - intros Hno. f_equal. apply monitor_skips. rewrite <- Hen. destruct (Enabled (FlowMon (d_cfg d'))); [|now left]. right.
    destruct (Z.eq_dec (Z.land (k_prandom kn) (FLOW_MONITOR_SAMPLE_MASK i)) 0); [right | now left].
    destruct (k_lpm kn _); [|done]. exfalso. apply Hno. done.
  - intros (He & Hz & Hl). apply monitor_counts; [rewrite <- Hen, He; discriminate | done | done].
Qed.
End Hosts.

(** Every host of 10.0.0.0/8 monitored, one frame in 64. *)
Definition watching_hosts : Config := serving {{ FlowMon := mkFM true 64 4096 (Some [mkRule "10.0.0.0/8" 1000 fzero]) }}.

Lemma watching_hosts_valid : Valid watching_hosts.
Proof. apply (Validate_ok watching_hosts); [vm_compute; intuition congruence | reflexivity]. Qed.

Definition hosts_start := start_daemon elements (Some object) untuned (inl watching_hosts) true 0 (fresh_sys []).
Definition hosts_inst : instance := Instance false 0 0 false 1 63.
Definition hosts_kernel (t : gmap key Z) (draw : Z) : kernel :=
  Kernel ref_helpers 60000000000 60000000000 60000000000 draw 0 (fun a => lpm_find t (le32_bytes a)) (fun c k v => (false, <[k := v]> c)).

(** A request to 10.0.0.2 on the draw 128, and on the draw 129. *)
Theorem monitored_hosts_witness : exists (d : Daemon (M := FMap)) h k', hosts_start = (inl (d, h), k') /\
  forall draw, draw = 128 \/ draw = 129 -> exists v p' m',
  xdp_filter hosts_inst (hosts_kernel (em_view (FlowMonitorCIDRs (d_maps d))) draw) (wire (request 40000)) (machine_on (d_maps d)) = Some (v, p', m') /\
  m_counters m' !! (wire_key false (request 40000), IPPROTO_TCP) = if draw =? 128 then Some (1, 58) else None.
Proof.
  destruct hosts_start as [[[d h]|e] k'] eqn:E.
  2: { exfalso. assert (H : match fst hosts_start with inl _ => True | inr _ => False end) by (vm_compute; exact I). rewrite E in H. exact H. }
  exists d, h, k'. split; [done|]. intros draw Hdraw.
  destruct (start_governs elements elements_perm _ _ _ _ _ _ _ _ _ E) as (Hc & [_ Hmon] & _). injection Hc as Hc. 
  destruct (xdp_filter_runs hosts_inst (hosts_kernel (em_view (FlowMonitorCIDRs (d_maps d))) draw) (wire (request 40000)) (machine_on (d_maps d)))
    as (v & p' & m' & Hx). exists v, p', m'. split; [exact Hx|].
  pose proof (monitored_hosts elements elements_perm (Some object) untuned watching_hosts true 0 (fresh_sys []) d h k' d hosts_inst
    (hosts_kernel (em_view (FlowMonitorCIDRs (d_maps d))) draw) (request 40000) (machine_on (d_maps d)) v p' m' watching_hosts_valid E (rtc_refl _ _)
    ltac:(rewrite <- Hc; repeat constructor; vm_compute; reflexivity) (machine_sees _) ltac:(rewrite Hmon, <- Hc; reflexivity)
    ltac:(intros a _; apply lpm_find_hit) ltac:(cbn; destruct Hdraw; lia) eq_refl ltac:(apply request_ok; unfold is_u16; lia) Hx) as [A B].
  rewrite <- Hc in A, B. unfold sampled in A, B. cbn [hosts_kernel k_prandom] in A, B. destruct Hdraw as [-> | ->].
  - specialize (B ltac:(split; [reflexivity | split; [reflexivity | vm_compute; discriminate]])). rewrite (B _ eq_refl). reflexivity.
  - rewrite A; [reflexivity|]. intros (_ & Hd & _). vm_compute in Hd. discriminate.
Defined.
