(* ===== verification/Running.v ===== *)
(** * Running: the daemon and the packet program on the same maps

    One system of both: frames on any CPU, evictions, sweeps, the writes of a
    reload or of another process one by one and the end of a reload, in any
    order.  The kernel maps are one
    memory with two views, the daemon's byte keys and the program's structs. *)

From Stdlib Require Import ZArith Lia Bool Ascii String.
From stdpp Require Import prelude strings list gmap.
From coqutil Require Import Datatypes.RecordSetters.
From S2P Require Import Prelude Filter FlowSafety Packet PacketRef PacketSpec Traffic PacketRst PacketWire GoText GoNet GoFloat Config ConfigSpec Ebpf Policy PolicySpec FlowTable Loader LoaderSpec SysRef Daemon DaemonSpec KernelView Deploy.
Import DoubleBraceUpdate.

Local Open Scope string_scope.
Local Open Scope Z_scope.

(** ** A sweep only removes *)

Section Sweep.
Context {M : Type -> Type -> Type} `{EbpfLaws M}.

Lemma gc_delete_sub ks : forall (m : M key flowVal) d k v,
  em_view (fst (gc_delete (fun m => m) ks m d)) !! k = Some v -> em_view m !! k = Some v.
Proof.
  induction ks as [|k0 ks IH]; intros m d k v; cbn [gc_delete]; [done|].
  destruct (em_delete k0 m) as [[|] m'] eqn:E; intros Hk; apply IH in Hk.
  - apply delete_ok in E. rewrite E in Hk. now apply lookup_delete_Some in Hk.
  - apply delete_err in E. now rewrite E in Hk.
Qed.

Lemma gc_once_sub (m : M key flowVal) cfg now k v :
  em_view (snd (GCOnce (fun m => m) m cfg now)) !! k = Some v -> em_view m !! k = Some v.
Proof.
  unfold GCOnce. destruct (now =? 0); [done|]. destruct (em_iterate m) as [l ok]. 
  pose proof (gc_delete_sub ((List.filter (fun e => gc_expired cfg now e.2) l).*1) m 0 k v) as Hs.
  destruct (gc_delete _ _ _ _) as [m' d]. exact Hs.
Qed.

(** A tick of the sweep worker: the tables shrink, the policy stays. *)
Lemma gc_tick_frame now1 now2 wall (d : Daemon (M := M)) :
  let d' := snd (gc_tick (fun m => m) (fun m => m) now1 now2 wall d) in
  d_cfg d' = d_cfg d /\ d_mon d' = d_mon d /\ Features (d_maps d') = Features (d_maps d) /\
  ServerAllowMap (d_maps d') = ServerAllowMap (d_maps d) /\ FlowMonitorCIDRs (d_maps d') = FlowMonitorCIDRs (d_maps d) /\
  (forall k v, em_view (Flows (d_maps d')) !! k = Some v -> em_view (Flows (d_maps d)) !! k = Some v) /\
  (forall k v, em_view (UDPFlows (d_maps d')) !! k = Some v -> em_view (UDPFlows (d_maps d)) !! k = Some v).
Proof.
  cbv zeta. unfold gc_tick.
  pose proof (gc_once_sub (Flows (d_maps d)) (d_cfg d) now1) as H1. pose proof (gc_once_sub (UDPFlows (d_maps d)) (d_cfg d) now2) as H2.
  destruct (GCOnce _ (Flows (d_maps d)) _ _) as [[lt dt] flows']. destruct (GCOnce _ (UDPFlows (d_maps d)) _ _) as [[lu du] udp'].
  unfold PublishRuntimeState. cbn [Runtime]. destruct (Runtime (d_maps d)) as [rt|]; [destruct (em_put _ _ rt) as [ok rt']|]; cbn; split_and!; auto.
Qed.
End Sweep.

(** ** The system *)

Section Running.
Context {M : Type -> Type -> Type} `{EbpfLaws M}.
Context (rng : gset key -> list key) (rng_perm : forall X, rng X ≡ₚ elements X).

(** A table in its two views; the program makes no other keys
    ([KernelView.frame_key_ok]). *)
Definition same_table (m : M key flowVal) (t : gmap flow_key flow_val) : Prop :=
  forall k v, t !! k = Some v <-> key_ok k /\ exists v', em_view m !! flow_key_bytes k = Some v' /\ v = as_flow_val v'.

(** The memory is one: the flow tables at any time, and the policy whenever
    it is the one the daemon published. *)
Definition shared (settled : bool) (s : SharedMaps M) (m : machine) : Prop :=
  same_table (Flows s) (flows (m_dp m)) /\ same_table (UDPFlows s) (udp_flows (m_dp m)) /\ (settled = true -> sees s m).

(** [rn_settled]: the policy was last written by the start, or by a reload that
    went through. *)
Record Running := mkRunning { rn_daemon : Daemon (M := M); rn_system : system; rn_seen : list seen; rn_settled : bool }.

Definition with_tables (flows udp : M key flowVal) (d : Daemon (M := M)) : Daemon (M := M) :=
  let s := d_maps d in
  mkDaemon (d_cfg d) (mkMaps flows udp (FlowMonitorCIDRs s) (FlowMonitorCounters s) (TxPorts s) (Features s) (ServerAllowMap s) (Runtime s)) (d_mon d).

Definition with_policy (cidrs allow : M key Z) (fs : M Z featuresValue) (d : Daemon (M := M)) : Daemon (M := M) :=
  let s := d_maps d in
  mkDaemon (d_cfg d) (mkMaps (Flows s) (UDPFlows s) cidrs (FlowMonitorCounters s) (TxPorts s) fs allow (Runtime s)) (d_mon d).

(** What a reload leaves behind. *)
Definition settles (before : bool) (r : ReloadResult) : bool :=
  match r with RKept _ => before | RApplied _ => true | RMonitor undone => undone | RPolicy _ _ => false end.

(** [run_write] is one write of the policy: of a reload under way, of the mode
    command or of the console. *)
Inductive running_step : Running -> Running -> Prop :=
  | run_frame d y h b n i kn p v p' m' flows udp :
      HelperLaws (k_helpers kn) -> xdp_filter i kn p (on_cpu n y) = Some (v, p', m') ->
      shared b (d_maps (with_tables flows udp d)) m' ->
      running_step (mkRunning d y h b) (mkRunning (with_tables flows udp d) (back n m' y) (Seen i p (m_features (y_machine y)) v :: h) b)
  | run_evict d y h b m' flows udp :
      Filter.flows (m_dp m') ⊆ Filter.flows (m_dp (y_machine y)) -> Filter.udp_flows (m_dp m') ⊆ Filter.udp_flows (m_dp (y_machine y)) ->
      shared b (d_maps (with_tables flows udp d)) m' ->
      running_step (mkRunning d y h b) (mkRunning (with_tables flows udp d) (System m' (y_caches y)) h b)
  | run_sweep d y h b m' now1 now2 wall d' :
      d' = snd (gc_tick (fun m => m) (fun m => m) now1 now2 wall d) -> shared b (d_maps d') m' ->
      running_step (mkRunning d y h b) (mkRunning d' (System m' (y_caches y)) h b)
  | run_write d y h b m' cidrs allow fs :
      Filter.flows (m_dp m') = Filter.flows (m_dp (y_machine y)) -> Filter.udp_flows (m_dp m') = Filter.udp_flows (m_dp (y_machine y)) ->
      running_step (mkRunning d y h b) (mkRunning (with_policy cidrs allow fs d) (System m' (y_caches y)) h false)
  | run_reload d y h b m' w1 w2 loaded d' r :
      (forall src, loaded = inl src -> Valid src) -> reload rng w1 w2 loaded d = (d', r) ->
      shared (settles b r) (d_maps d') m' ->
      running_step (mkRunning d y h b) (mkRunning d' (System m' (y_caches y)) h (settles b r)).

(** ** Its invariant *)

Definition running_ok (r : Running) : Prop :=
  traffic (rn_seen r) (rn_system r) /\ Valid (d_cfg (rn_daemon r)) /\
  shared (rn_settled r) (d_maps (rn_daemon r)) (y_machine (rn_system r)) /\
  (rn_settled r = true -> governed (rn_daemon r)).

(** A smaller table in one view is smaller in the other. *)
Lemma same_table_sub m m' t t' : same_table m t -> same_table m' t' ->
  (forall k v, em_view m' !! k = Some v -> em_view m !! k = Some v) -> t' ⊆ t.
Proof.
  intros H1 H2 Hs. apply map_subseteq_spec. intros k v Hk. apply H2 in Hk as (Ho & v' & Hv & ->). apply H1. eauto.
Qed.

Lemma same_table_eq m t t' : same_table m t -> same_table m t' -> t' = t.
Proof. intros H1 H2. apply (anti_symm (⊆)); eapply same_table_sub; eauto. Qed.

Lemma governed_tables flows udp (d : Daemon (M := M)) : governed d -> governed (with_tables flows udp d).
Proof. intros [(A & B & C) D]. split; [split_and!; done | done]. Qed.

Lemma running_invariant r r' : running_step r r' -> running_ok r -> running_ok r'.
Proof.
  intros Hs (Ht & Hv & Hsh & Hg). destruct Hs as
    [d y h b n i kn p v p' m' flows udp Hh Hx Hsh'|d y h b m' flows udp H1 H2 Hsh'|d y h b m' now1 now2 wall d' -> Hsh'|d y h b m' cidrs allow fs H1 H2|
     d y h b m' w1 w2 loaded d' r Hl E Hsh']; unfold running_ok; cbn [rn_seen rn_system rn_daemon rn_settled y_machine] in *.
  - split; [exact (traffic_frame _ _ _ _ _ _ _ _ _ Ht Hh Hx)|]. split_and!; [exact Hv | exact Hsh' | intros Hb; now apply governed_tables, Hg].
  - split; [exact (traffic_control _ _ _ Ht H1 H2)|]. split_and!; [exact Hv | exact Hsh' | intros Hb; now apply governed_tables, Hg].
  - pose proof (gc_tick_frame now1 now2 wall d) as Hf. cbv zeta in Hf. set (d' := snd _) in *. destruct Hf as (Ec & Em & F1 & F2 & F3 & S1 & S2).
    destruct Hsh as (T1 & T2 & _), Hsh' as (T1' & T2' & Hse).
    split; [apply traffic_control; [exact Ht | exact (same_table_sub _ _ _ _ T1 T1' S1) | exact (same_table_sub _ _ _ _ T2 T2' S2)]|].
    rewrite Ec. split; [exact Hv|]. split; [done|]. intros Hb. destruct (Hg Hb) as [(A & B & C) D].
    unfold governed, in_force. rewrite Ec, Em, F1, F2, F3. done.
  - split; [apply traffic_control; [exact Ht | now rewrite H1 | now rewrite H2]|]. split; [exact Hv|]. split; [|discriminate].
    destruct Hsh as (T1 & T2 & _). unfold shared. cbn [y_machine]. rewrite H1, H2. split_and!; [done..|discriminate].
  - pose proof (reload_tables _ _ _ _ _ _ _ E) as (F1 & F2 & _). apply (reload_cases rng rng_perm) in E.
    destruct Hsh as (T1 & T2 & _), Hsh' as (T1' & T2' & Hse). rewrite F1 in T1'. rewrite F2 in T2'.
    split; [apply traffic_control; [exact Ht | now rewrite (same_table_eq _ _ _ T1 T1') | now rewrite (same_table_eq _ _ _ T2 T2')]|].
    rewrite <- F1 in T1'. rewrite <- F2 in T2'. destruct r as [e|undone|e back|diff]; cbn [settles] in *.
    + subst d'. done.
    + destruct E as [-> Hu]. done.
    + destruct E as [-> Hu]. done.
    + destruct E as (src & -> & -> & Hgov). split; [|done]. apply live_valid; [done | now apply Hl].
Qed.

Lemma running_reachable r r' : rtc running_step r r' -> running_ok r -> running_ok r'.
Proof. induction 1 as [r|r r1 r2 Hs _ IH]; [done|]. intros Hr. apply IH. now apply (running_invariant r). Qed.

Lemma running_starts {K} `{!Sys K M, !SysLaws K M} loadFilter tune cfg root start k d hd k' h y :
  Valid cfg -> start_daemon (K := K) rng loadFilter tune (inl cfg) root start k = (inl (d, hd), k') ->
  traffic h y -> shared true (d_maps d) (y_machine y) -> running_ok (mkRunning d y h true).
Proof.
  intros Hv Hs Ht Hsh. destruct (start_governs rng rng_perm _ _ _ _ _ _ _ _ _ Hs) as (Hc & Hg & _). injection Hc as ->.
  split_and!; [exact Ht | exact Hv | exact Hsh | done].
Qed.

(** C1. Nothing gets in uninvited.  Let the daemon start on a valid
    configuration, over tables left by any earlier traffic; then let frames
    arrive on any CPU, entries be evicted and swept, other processes write the
    policy, the configuration be reloaded and reloads fail, in any order.
    Whenever the policy was last written by the start or by a reload that went
    through, and the published configuration enforces, a TCP frame from the
    internet side (not a fragment, with at most two VLAN tags) is handed on
    only if it is a connection request to a host and port that configuration
    opens, or belongs to a connection on which the protected side sent a frame
    before, or which a connection request opened that an earlier policy let
    in. *)
Theorem uninvited_tcp_stopped {K} `{!Sys K M, !SysLaws K M} loadFilter tune cfg root start k d hd k' h y r i kn n w peer p' m' :
  Valid cfg -> start_daemon (K := K) rng loadFilter tune (inl cfg) root start k = (inl (d, hd), k') ->
  traffic h y -> shared true (d_maps d) (y_machine y) -> rtc running_step (mkRunning d y h true) r ->
  rn_settled r = true -> let c := d_cfg (rn_daemon r) in Mode c = "enforce" ->
  ROLE_TRUSTED i = false -> wire_ok w -> xdp_filter i kn (wire w) (on_cpu n (rn_system r)) = Some (Redirected peer, p', m') ->
  if lone_syn (w_flags w)
  then AllowInboundSYN c = true \/ (AllowInboundServers c = true /\ listed c (w_daddr w) (w_dport w))
  else Exists (fun sn => sent (wire_key false w) sn \/ let_in (wire_key false w) sn) (rn_seen r).
Proof.
  intros Hv Hs Ht Hsh Hrun Hset c Hm Hi Hw Hx.
  destruct (running_reachable _ _ Hrun (running_starts _ _ _ _ _ _ _ _ _ _ _ Hv Hs Ht Hsh)) as (Ht' & _ & (_ & _ & Hsee) & Hg).
  destruct (Hg Hset) as [Hf _]. destruct (policy_seen _ _ _ _ Hf (Hsee Hset) Hw) as (f & Ef & Hfe & Hpol).
  assert (Hmode : mode f = MODE_ENFORCE) by (subst f; cbn; unfold c in Hm; now rewrite Hm).
  destruct (lone_syn (w_flags w)) eqn:Hl.
  - apply Hpol. exact (forwarded_request _ _ _ _ _ _ _ (wire_segment false w) _ _ _ Hi Ef Hmode (wire_reads w Hw false) Hl Hx).
  - exact (proj1 (forwarded_has_opener _ _ _ _ _ _ _ _ (wire_segment false w) _ _ _ Ht' Hi Ef Hmode (wire_reads w Hw false) Hl Hx)).
Qed.

(** C4. Datagrams get no further.  In the same system, while UDP is filtered, a
    datagram from the internet side is handed on only if the protected side
    sent one on the same addresses and ports before, or it is for a server the
    configuration lists while servers are allowed.  An earlier datagram from the
    internet side opens nothing. *)
Theorem uninvited_udp_stopped {K} `{!Sys K M, !SysLaws K M} loadFilter tune cfg root start k d hd k' h y r i kn n p vs fk peer p' m' :
  Valid cfg -> start_daemon (K := K) rng loadFilter tune (inl cfg) root start k = (inl (d, hd), k') ->
  traffic h y -> shared true (d_maps d) (y_machine y) -> rtc running_step (mkRunning d y h true) r ->
  rn_settled r = true -> let c := d_cfg (rn_daemon r) in Mode c = "enforce" -> FilterUDP c = true ->
  ROLE_TRUSTED i = false -> octets p -> classify false p = Some (Udp vs fk) ->
  xdp_filter i kn p (on_cpu n (rn_system r)) = Some (Redirected peer, p', m') ->
  Exists (sent_udp fk) (rn_seen r) \/
  (AllowInboundServers c = true /\ listed c (bswap32 (host_ip fk)) (bswap16 (host_port fk))).
Proof.
  intros Hv Hs Ht Hsh Hrun Hset c Hm Hu Hi Hp Hc Hx.
  destruct (running_reachable _ _ Hrun (running_starts _ _ _ _ _ _ _ _ _ _ _ Hv Hs Ht Hsh)) as (Ht' & _ & (_ & _ & Hsee) & Hg).
  destruct (Hg Hset) as [Hf _]. pose proof Hf as [HF _]. specialize (Hsee Hset). fold c in Hf, HF.
  assert (Ef : m_features (y_machine (rn_system r)) = Some (as_features (featuresFrom c))) by now rewrite (sees_features _ _ Hsee), HF.
  destruct (frame_key_ok _ _ _ _ Hp Hc eq_refl) as [_ Hip _ Hport _].
  destruct (spoofed_udp_stopped _ _ _ _ _ _ _ _ _ _ _ _ Ht' Hi Ef ltac:(cbn; now rewrite Hm) ltac:(cbn; now rewrite Hu) Hc Hx) as [Ho|[Ha Hl]]; [now left|right].
  apply (server_seen c _ _ _ _ Hf Hsee Hip Hport) in Hl. split; [|exact Hl]. cbn in Ha. now destruct (AllowInboundServers c).
Qed.
End Running.

(** ** A run *)

Definition served : Daemon (M := FMap) := match fst serving_start with inl (d, _) => d | inr _ => running end.

Lemma served_start : exists hd k', serving_start = (inl (served, hd), k').
Proof.
  assert (H : match fst serving_start with inl _ => True | inr _ => False end) by (vm_compute; exact I).
  unfold served. destruct serving_start as [[[d hd]|e] k']; [cbn; eauto | destruct H].
Qed.

Definition w_boot : system := System (machine_on (d_maps served)) (fun _ => ∅).

(** The protected host 10.0.0.2:40000 asks, and the flow is in both views. *)
Definition w_asked : machine :=
  match xdp_filter (e_inst true) e_kernel e_syn (on_cpu 0 w_boot) with Some (_, _, m') => m' | None => y_machine w_boot end.
Definition w_key : flow_key := wire_key true (e_wire true TCP_SYN 7000 0).
Definition w_flows : FMap key flowVal := mkFMap [(flow_key_bytes w_key, mkFlowVal 7000 55 1 1)] [] false.
Definition no_flows : FMap key flowVal := mkFMap [] [] false.

Lemma empty_table (m : FMap key flowVal) : em_view m = ∅ -> same_table m ∅.
Proof.
  intros Hm k v. unfold same_table. split; [now rewrite lookup_empty|]. intros (_ & v' & Hv & _). rewrite Hm in Hv. discriminate Hv.
Qed.

Lemma one_flow (m : FMap key flowVal) k0 v0 : key_ok k0 -> em_view m = {[flow_key_bytes k0 := v0]} -> same_table m {[k0 := as_flow_val v0]}.
Proof.
  intros Hk Hm k v. rewrite Hm, lookup_singleton_Some. split.
  - intros [<- <-]. split; [done|]. exists v0. split; [apply lookup_singleton_eq | done].
  - intros (Hk' & v' & Hv & ->). apply lookup_singleton_Some in Hv as [E <-]. split; [now apply flow_key_bytes_inj | done].
Qed.

Lemma sees_same (s s' : SharedMaps FMap) m m' : sees s m -> Features s' = Features s -> ServerAllowMap s' = ServerAllowMap s ->
  m_features m' = m_features m -> server_allow (m_dp m') = server_allow (m_dp m) -> sees s' m'.
Proof. intros [H1 H2] E1 E2 E3 E4. constructor; [now rewrite E1, E3 | intros ip port; rewrite E2, E4; apply H2]. Qed.

Lemma w_key_ok : key_ok w_key.
Proof. constructor; vm_compute; intuition congruence. Qed.

Lemma boot_shared : shared true (d_maps served) (y_machine w_boot).
Proof. split_and!; [apply empty_table; vm_compute; reflexivity | apply empty_table; vm_compute; reflexivity | intros _; apply machine_sees]. Qed.

Lemma asked_flows : Filter.flows (m_dp w_asked) = {[w_key := as_flow_val (mkFlowVal 7000 55 1 1)]}.
Proof. apply (bool_decide_unpack _). vm_compute. exact I. Qed.

Lemma asked_udp : Filter.udp_flows (m_dp w_asked) = ∅.
Proof. vm_compute. reflexivity. Qed.

Lemma asked_policy : m_features w_asked = m_features (y_machine w_boot) /\ server_allow (m_dp w_asked) = server_allow (m_dp (y_machine w_boot)).
Proof. split; vm_compute; reflexivity. Qed.

Lemma asked_shared : shared true (d_maps (with_tables w_flows no_flows served)) w_asked.
Proof.
  split; [|split].
  - rewrite asked_flows. apply one_flow; [exact w_key_ok | reflexivity].
  - rewrite asked_udp. now apply empty_table.
  - intros _. apply (sees_same (d_maps served) _ (y_machine w_boot)); [apply machine_sees | reflexivity | reflexivity | apply asked_policy..].
Qed.

Definition w_running : Running (M := FMap) :=
  mkRunning (with_tables w_flows no_flows served) (back 0 w_asked w_boot) [Seen (e_inst true) e_syn (m_features (y_machine w_boot)) (Redirected 1)] true.

Lemma w_run : rtc (running_step elements) (mkRunning served w_boot [] true) w_running.
Proof.
  destruct (verdict_some (xdp_filter (e_inst true) e_kernel e_syn (on_cpu 0 w_boot)) (Redirected 1)) as (p' & m' & E); [vm_compute; reflexivity|].
  apply rtc_once. apply (run_frame _ served w_boot [] true 0 (e_inst true) e_kernel e_syn (Redirected 1) p' w_asked w_flows no_flows).
  - exact ref_helpers_laws.
  - unfold w_asked. rewrite E. reflexivity.
  - exact asked_shared.
Qed.

Definition w_answer : tcp_wire := e_wire false (TCP_SYN + TCP_ACK) 9000 7001.

Lemma w_answer_ok : wire_ok w_answer.
Proof. apply e_wire_ok; unfold is_u32; lia. Qed.

Lemma w_boot_traffic : traffic [] w_boot.
Proof. constructor; [reflexivity..|]. intros n idx e. cbn. now rewrite lookup_empty. Qed.

Lemma w_running_enforces : Mode (d_cfg (rn_daemon w_running)) = "enforce".
Proof. vm_compute. reflexivity. Qed.

(** The server's answer gets through. *)
Theorem uninvited_tcp_stopped_witness : exists p' m',
  xdp_filter (e_inst false) e_kernel (wire w_answer) (on_cpu 0 (rn_system w_running)) = Some (Redirected 0, p', m') /\
  Exists (fun sn => sent (wire_key false w_answer) sn \/ let_in (wire_key false w_answer) sn) (rn_seen w_running).
Proof.
  destruct (verdict_some (xdp_filter (e_inst false) e_kernel (wire w_answer) (on_cpu 0 (rn_system w_running))) (Redirected 0)) as (p' & m' & E); [vm_compute; reflexivity|].
  exists p', m'. split; [exact E|]. destruct served_start as (hd & k' & Hs).
  pose proof (uninvited_tcp_stopped elements elements_perm (Some object) untuned serving true 0 (fresh_sys []) served hd k' [] w_boot w_running (e_inst false) e_kernel 0%nat
    w_answer 0 p' m' serving_valid Hs w_boot_traffic boot_shared w_run eq_refl w_running_enforces eq_refl w_answer_ok E) as H.
  assert (Hl : lone_syn (w_flags w_answer) = false) by reflexivity. rewrite Hl in H. exact H.
Defined.

(** Nobody asked, but the server is listed. *)
Theorem uninvited_udp_stopped_witness : exists p' m',
  xdp_filter (e_inst false) e_kernel (e_udp false) (on_cpu 0 w_boot) = Some (Redirected 0, p', m') /\
  listed serving 167772162 40000.
Proof.
  destruct (verdict_some (xdp_filter (e_inst false) e_kernel (e_udp false) (on_cpu 0 w_boot)) (Redirected 0)) as (p' & m' & E); [vm_compute; reflexivity|].
  exists p', m'. split; [exact E|]. destruct served_start as (hd & k' & Hs).
  assert (Hc : classify false (e_udp false) = Some (Udp 0 (FlowKey 91291851 33554442 13568 16540 0))) by (vm_compute; reflexivity).
  assert (Ho : octets (e_udp false)) by (unfold octets; repeat constructor; unfold is_u8; lia).
  assert (Hd : d_cfg served = serving) by (pose proof (start_governs elements elements_perm _ _ _ _ _ _ _ _ _ Hs) as (Hd & _); congruence).
  pose proof (uninvited_udp_stopped elements elements_perm (Some object) untuned serving true 0 (fresh_sys []) served hd k' [] w_boot
    (mkRunning served w_boot [] true) (e_inst false) e_kernel 0%nat (e_udp false) 0 _ 0 p' m' serving_valid Hs w_boot_traffic boot_shared
    (rtc_refl _ _) eq_refl ltac:(cbn [rn_daemon]; rewrite Hd; reflexivity) ltac:(cbn [rn_daemon]; rewrite Hd; reflexivity) eq_refl Ho Hc E) as [H|[_ H]].
  - cbn in H. now apply Exists_nil in H.
  - cbn [rn_daemon] in H. rewrite Hd in H. exact H.
Defined.
