(* ===== verification/Operate.v ===== *)
(** * Operate: from the operator's command to the packet

    The console, the mode command, the file and the daemon together.  What the
    console saved is what the daemon loads; the policy that the console or the
    command wrote to the kernel is the one the daemon writes again when the
    changed file makes it reload; and it is what decides the next frame. *)

From Stdlib Require Import ZArith Lia Bool Ascii String.
From stdpp Require Import prelude strings list gmap.
From coqutil Require Import Datatypes.RecordSetters.
From S2P Require Import Prelude Filter FlowSafety Packet PacketRef PacketSpec Traffic PacketRst PacketWire GoText GoFlag GoNet GoFloat Config ConfigSpec ConfigDiff ConfigFile Ebpf Policy PolicySpec Loader LoaderSpec Controller ControllerSpec Daemon DaemonSpec Cli Args KernelView Deploy SysRef ConsoleRef.
Import DoubleBraceUpdate.

Local Open Scope string_scope.
Local Open Scope Z_scope.

(** ** Configurations with the same policy

    What the kernel maps hold depends on part of the configuration only; an
    empty list and none are the same there. *)

Record same_policy (c c' : Config) : Prop := {
  sp_features : featuresFrom c = featuresFrom c';
  sp_servers : elems (ServerAllow c) = elems (ServerAllow c');
  sp_networks : elems (CIDRs (FlowMon c)) = elems (CIDRs (FlowMon c')) }.

#[export] Instance same_policy_equiv : Equivalence same_policy.
Proof.
  split.
  - done.
  - intros a b [H1 H2 H3]. now constructor.
  - intros a b c [H1 H2 H3] [H4 H5 H6]. constructor; congruence.
Qed.

#[export] Instance listed_proper : Proper (same_policy ==> eq ==> eq ==> iff) listed.
Proof. intros c c' [_ Hs _] addr _ <- port _ <-. unfold listed. now rewrite Hs. Qed.

#[export] Instance wants_server_proper : Proper (same_policy ==> eq ==> iff) wants_server.
Proof. intros c c' [_ Hs _] k _ <-. unfold wants_server. now rewrite Hs. Qed.

#[export] Instance wants_cidr_proper : Proper (same_policy ==> eq ==> iff) wants_cidr.
Proof. intros c c' [_ _ Hs] k _ <-. unfold wants_cidr. now rewrite Hs. Qed.

#[export] Instance in_force_proper {M : Type -> Type -> Type} `{EbpfMap M} : Proper (same_policy ==> eq ==> iff) (in_force (M := M)).
Proof.
  intros c c' Hc s _ <-. unfold in_force. rewrite (sp_features _ _ Hc).
  enough (forall m : M key Z, (holds_exactly m (wants_server c) <-> holds_exactly m (wants_server c')) /\
    (holds_exactly m (wants_cidr c) <-> holds_exactly m (wants_cidr c'))) as E by (now rewrite (proj1 (E _)), (proj2 (E _))).
  intros m. unfold holds_exactly. split; setoid_rewrite Hc; done.
Qed.

Lemma same_policy_clone c : same_policy (Clone c) c.
Proof. constructor; [done | now destruct (ServerAllow c) as [[|]|] eqn:E; cbn; rewrite E |]. destruct c as [????????????????????????????[en se mf cs] ?]. now destruct cs as [[|]|]. Qed.

Lemma same_policy_decoded c : same_policy (as_decoded c) c.
Proof. constructor; done. Qed.

Lemma elems_copy {A} (s : slice A) : elems (slice_copy s) = elems s.
Proof. unfold slice_copy, elems. now destruct s as [[|]|]. Qed.

(** A live update takes over the whole policy. *)
Lemma same_policy_live c src : same_policy (ApplyLiveFrom c src) src.
Proof. constructor; [done | apply elems_copy..]. Qed.

(** Validation fills in a default of one field of the policy, the UDP timeout;
    what decides a connection request is as it was staged. *)
Record same_requests (c c' : Config) : Prop := {
  sr_mode : Mode c = Mode c';
  sr_syn : AllowInboundSYN c = AllowInboundSYN c';
  sr_servers : AllowInboundServers c = AllowInboundServers c';
  sr_listed : elems (ServerAllow c) = elems (ServerAllow c') }.

Lemma same_requests_listed c c' addr port : same_requests c c' -> listed c addr port <-> listed c' addr port.
Proof. intros [_ _ _ Hs]. unfold listed. now rewrite Hs. Qed.

Lemma validated_requests c next : wt c -> Validate (Clone c) = (next, None) -> same_requests next c /\ Valid next /\ wt next.
Proof.
  intros Hw Hv. assert (Hwc : wt (Clone c)) by (revert Hw; unfold wt, Clone; now destruct c as [????????????????????????????[] ?]).
  apply Validate_ok in Hv as [-> Hv]; [|exact Hwc]. split; [|split; [exact Hv|]].
  - constructor; try done. apply elems_copy.
  - revert Hwc. unfold wt, fill, fm_fill, is_u32. destruct (Clone c) as [????????????????????????????[] ?]; rsimpl.
    intros (? & ? & ? & ? & ? & ?). split_and!; case_ifs; lia.
Qed.

(** ** The console *)

Section Console.
Context {K : Type} {M : Type -> Type -> Type} `{EbpfMap M, !EbpfLaws M} `{Sys K M, !SysLaws K M}.
Context {digest : Type} `{EqDecision digest} (sha256 : string -> digest).
Context (yaml_marshal : Config -> option string) (yaml_unmarshal : string -> Config -> option Config).
Context (yaml_roundtrip : forall c b base, yaml_marshal c = Some b -> yaml_unmarshal b base = Some (as_decoded c)).
Context (rng : gset key -> list key) (rng_perm : forall X, rng X ≡ₚ elements X).

(** What a daemon reads after a successful apply. *)
Lemma applied_loads e rd rr (c : Controller (digest := digest)) (k : K) fs : wt (Staged c) ->
  let a := Controller.Apply sha256 yaml_marshal rng e rd rr c k fs in
  a_err a = None -> Dirty c = true ->
  exists next, same_requests next (Staged c) /\ Valid next /\
    ConfigFile.Load yaml_unmarshal (Path c) (final (a_files a) fs) = inl (as_decoded next) /\
    (Active (a_result a) = true -> in_force next (sys_maps (a_sys a))).
Proof using EbpfLaws0 SysLaws0 rng_perm yaml_roundtrip.
  intros Hw a Ha Hd. pose proof (apply_outcome sha256 yaml_marshal rng rng_perm e rd rr c k fs Hw) as [_ Ht].
  fold a in Ht. rewrite Ha, Hd in Ht. destruct Ht as (old & next & b & _ & _ & Hv & Hvalid & Hm & Hfile & _ & _ & _ & _ & Hact).
  destruct (validated_requests _ _ Hw Hv) as (Hr & _ & Hwn). exists next. split; [done|]. split; [done|]. split.
  - unfold ConfigFile.Load. rewrite Hfile, (yaml_roundtrip _ _ Default Hm).
    assert (Validate (as_decoded next) = (as_decoded next, None)) as ->; [|done].
    pose proof (Valid_as_decoded _ Hvalid) as Hvd. apply Validate_ok; [now apply wt_as_decoded|]. now rewrite valid_fill.
  - intros Hact'. now rewrite Hact' in Hact.
Qed.

(** C3. From the console to the wire.  When the console reports a successful apply
    that had changes, the file is one the daemon accepts, so that the reload it
    triggers is never refused.  From the moment of the apply if the console
    found the datapath, and again once the daemon has reloaded, a connection
    request from the internet side is handed on exactly when what the operator
    staged opens its destination and no rate limit is reached. *)
Theorem console_to_wire e rd rr (c : Controller (digest := digest)) (k : K) fs w1 w2 (d d' : Daemon (M := M)) r s m i kn w v p' m' :
  wt (Staged c) -> let a := Controller.Apply sha256 yaml_marshal rng e rd rr c k fs in
  a_err a = None -> Dirty c = true ->
  reload rng w1 w2 (ConfigFile.Load yaml_unmarshal (Path c) (final (a_files a) fs)) d = (d', r) ->
  (forall err, r <> RKept err) /\
  ((Active (a_result a) = true /\ s = sys_maps (a_sys a)) \/ ((exists diff, r = RApplied diff) /\ s = d_maps d') ->
   sees s m -> Mode (Staged c) = "enforce" -> ROLE_TRUSTED i = false ->
   wire_ok w -> lone_syn (w_flags w) = true -> bad_flags (w_flags w) = false -> xdp_filter i kn (wire w) m = Some (v, p', m') ->
   v = Redirected (PEER_IDX i) <->
   (AllowInboundSYN (Staged c) = true \/
    (AllowInboundServers (Staged c) = true /\ listed (Staged c) (w_daddr w) (w_dport w))) /\
   tokens_left kn (wire_key false w) (m_dp m) = true).
Proof using EbpfLaws0 SysLaws0 rng_perm yaml_roundtrip.
  intros Hw a Ha Hd Hr. destruct (applied_loads e rd rr c k fs Hw Ha Hd) as (next & Hreq & Hvalid & Hload & Hact).
  fold a in Hload. rewrite Hload in Hr. apply (reload_cases rng rng_perm) in Hr as Hc. split.
  { intros err ->. revert Hr. unfold reload. repeat case_match; discriminate. }
  intros Hs Hm He Hi Hwo Hl Hb Hx. assert (Hf : in_force next s).
  { destruct Hs as [[Hac ->] | [[diff ->] ->]]; [now apply Hact|]. destruct Hc as (src & [= <-] & Hcfg & [Hf _]).
    rewrite Hcfg, same_policy_live, same_policy_decoded in Hf. exact Hf. }
  rewrite <- (sr_mode _ _ Hreq) in He. rewrite <- (sr_syn _ _ Hreq), <- (sr_servers _ _ Hreq), <- (same_requests_listed _ _ _ _ Hreq).
  exact (request_under next s m i kn w v p' m' Hf Hm He Hi Hwo Hl Hb Hx).
Qed.
End Console.

(** ** The mode command *)

Section Mode.
Context {K : Type} {M : Type -> Type -> Type} `{EbpfMap M, !EbpfLaws M} `{Sys K M, !SysLaws K M}.
Context (yaml_marshal : Config -> option string) (yaml_unmarshal : string -> Config -> option Config).
Context (yaml_roundtrip : forall c b base, yaml_marshal c = Some b -> yaml_unmarshal b base = Some (as_decoded c)).
(** The decoder fills a struct whose fields have their widths. *)
Context (yaml_typed : forall b base c, yaml_unmarshal b base = Some c -> wt c).
Context (rng : gset key -> list key) (rng_perm : forall X, rng X ≡ₚ elements X).

Lemma loaded_valid path fs cfg : ConfigFile.Load yaml_unmarshal path fs = inl cfg -> wt cfg /\ Valid cfg.
Proof using yaml_typed.
  unfold ConfigFile.Load. destruct (fs !! path) as [b|]; [|done]. destruct (yaml_unmarshal b Default) as [c|] eqn:E; [|done].
  apply yaml_typed in E. destruct (Validate c) as [c' [err|]] eqn:Ev; [done|]. intros [= <-].
  apply Validate_ok in Ev as [-> Hv]; [|exact E]. split; [|exact Hv].
  revert E. unfold wt, fill, fm_fill, is_u32. destruct c as [????????????????????????????[] ?]; rsimpl. intros (? & ? & ? & ? & ? & ?). split_and!; case_ifs; lia.
Qed.

Lemma with_mode_valid cfg m : mode_word m = true -> Valid cfg -> Valid (with_mode cfg m).
Proof.
  intros Hm [? ? ? ? ? ? ? ? ? ?]. assert (m = "monitor" \/ m = "enforce") by (unfold mode_word in Hm; apply orb_true_iff in Hm; now rewrite !String.eqb_eq in Hm).
  destruct cfg; constructor; rsimpl; auto.
Qed.

(** The mode byte alone changes, so the policy is the old one in the new mode. *)
Lemma SetMode_spec (s s' : SharedMaps M) enforce err : SetMode s enforce = (s', err) ->
  match err with
  | Some _ => em_view (Features s') = em_view (Features s) /\ ServerAllowMap s' = ServerAllowMap s /\ FlowMonitorCIDRs s' = FlowMonitorCIDRs s
  | None => forall cfg, in_force cfg s -> in_force (with_mode cfg (if enforce then "enforce" else "monitor")) s'
  end.
Proof using EbpfLaws0.
  unfold SetMode. destruct (em_lookup 0 (Features s)) as [fv|] eqn:El; [|now intros [= <- <-]].
  destruct (em_put 0 _ (Features s)) as [[|] f'] eqn:Ep; intros [= <- <-].
  - intros cfg (HF & HA & HN). apply lookup_ok in El. rewrite HF in El. injection El as <-. apply put_ok in Ep.
    unfold in_force. cbn [with_features Features ServerAllowMap FlowMonitorCIDRs]. split_and!; [|exact HA | exact HN].
    rewrite Ep, lookup_insert_eq. now destruct enforce, cfg.
  - apply put_err in Ep. now destruct s.
Qed.

Lemma SetModePinned_spec pin enforce (k k' : K) err : SetModePinned pin enforce k = (err, k') ->
  sys_open k' = sys_open k /\
  match err with
  | Some _ => forall cfg, in_force cfg (sys_maps k) -> in_force cfg (sys_maps k')
  | None => forall cfg, in_force cfg (sys_maps k) -> in_force (with_mode cfg (if enforce then "enforce" else "monitor")) (sys_maps k')
  end.
Proof using EbpfLaws0 SysLaws0.
  unfold SetModePinned. destruct (OpenPinned pin k) as [[byName|e] k1] eqn:Eo; apply OpenPinned_spec in Eo as [Hm Hg].
  - destruct (SetMode (sys_maps k1) enforce) as [s e] eqn:Es. apply SetMode_spec in Es. rewrite Hm in Es. intros [= <- <-].
    split; [apply (grows_close_all byName.*2 k); eapply grows_same; [exact Hg | apply set_maps_open]|].
    rewrite close_all_maps, set_maps_get. destruct e; [|exact Es]. destruct Es as (E1 & E2 & E3). intros cfg. unfold in_force. now rewrite E1, E2, E3.
  - intros [= <- <-]. split; [exact Hg|]. now rewrite Hm.
Qed.

Lemma mode_args_mode args : fst (mode_args args) = "" \/ mode_word (fst (mode_args args)) = true.
Proof.
  unfold mode_args. assert (Hg : forall st, fst st = "" \/ mode_word (fst st) = true -> let r := fold_left mode_arg args st in fst r = "" \/ mode_word (fst r) = true).
  { induction args as [|a args IH]; intros st Hst; [exact Hst|]. cbn [fold_left]. apply IH. unfold mode_arg.
    fold (mode_word a). destruct (mode_word a) eqn:E; [now right | exact Hst]. }
  apply Hg. now left.
Qed.

Lemma mode_word_is m : mode_word m = true -> (if String.eqb m "enforce" then "enforce" else "monitor") = m.
Proof. unfold mode_word. destruct (String.eqb_spec m "enforce") as [->|]; [done|]. rewrite orb_false_r. now intros ->%String.eqb_eq. Qed.

(** C10. The mode command sticks.  It leaves no handle open.  When it fails, the
    policy in force and the files are as before.  When it succeeds, the
    policy in force is the old one in the mode that was named; and unless it
    warned, the configuration file names the mode too, so that the reload the
    daemon then makes is not refused and installs the file's configuration in
    that mode. *)
Theorem mode_sticks e args (k k' : K) fs states err warned cfg0 :
  modeCommand yaml_marshal yaml_unmarshal e args k fs = (Returned (err, warned), k', states) -> in_force cfg0 (sys_maps k) ->
  sys_open k' = sys_open k /\
  match err with
  | Some _ => in_force cfg0 (sys_maps k') /\ final states fs = fs
  | None =>
      let mode := fst (mode_args args) in
      mode_word mode = true /\ in_force (with_mode cfg0 mode) (sys_maps k') /\
      exists f rest, Parse config_flags (snd (mode_args args)) = inl (f, rest) /\
        let path := string_flag f "config" in
        forall cfg, ConfigFile.Load yaml_unmarshal path fs = inl cfg -> warned = false ->
        forall w1 w2 (d d' : Daemon (M := M)) r, reload rng w1 w2 (ConfigFile.Load yaml_unmarshal path (final states fs)) d = (d', r) ->
        (forall err, r <> RKept err) /\ (forall diff, r = RApplied diff -> Mode (d_cfg d') = mode /\ in_force (with_mode cfg mode) (d_maps d'))
  end.
Proof using EbpfLaws0 SysLaws0 yaml_roundtrip yaml_typed rng_perm.
  unfold modeCommand, with_flags. destruct (Parse config_flags _) as [[f rest]|]; [|done]. intros Hc Hf. revert Hc.
  unfold cmdMode. set (mode := fst (mode_args args)). set (path := string_flag f "config").
  destruct (String.eqb_spec mode "") as [E|E]; [now intros [= <- <- <- <-]|].
  assert (Hm : mode_word mode = true) by (destruct (mode_args_mode args) as [?|Hw]; [done | exact Hw]).
  destruct (SetModePinned _ _ k) as [[er|] k1] eqn:Es; apply SetModePinned_spec in Es as [Ho Hs]; [intros [= <- <- <- <-]; auto|].
  specialize (Hs cfg0 Hf). rewrite (mode_word_is _ Hm) in Hs. destruct (ConfigFile.Load yaml_unmarshal path fs) as [cfg|le] eqn:El.
  - destruct (Save yaml_marshal e (with_mode cfg mode) path fs) as [st se] eqn:Esv. intros [= <- <- <- <-].
    split; [exact Ho|]. split; [exact Hm|]. split; [exact Hs|]. exists f, rest. split; [done|]. intros cfg' Hl Hw. fold path in Hl |- *. rewrite El in Hl. injection Hl as <-.
    destruct se as [se|]; [discriminate|]. destruct (loaded_valid _ _ _ El) as [Hwt Hv].
    rewrite (saved_loads yaml_marshal yaml_unmarshal yaml_roundtrip e (with_mode cfg mode) path fs st Hwt (with_mode_valid _ _ Hm Hv) Esv).
    intros w1 w2 d d' r Hr. apply (reload_cases rng rng_perm) in Hr as Hc. split.
    + intros er ->. revert Hr. unfold reload. repeat case_match; discriminate.
    + intros diff ->. destruct Hc as (src & [= <-] & Hcfg & [Hin _]). rewrite Hcfg in Hin |- *. split; [done|].
      now rewrite same_policy_live, same_policy_decoded in Hin.
  - intros [= <- <- <- <-]. split; [exact Ho|]. split; [exact Hm|]. split; [exact Hs|]. exists f, rest. split; [done|]. intros cfg' Hl. fold path in Hl. now rewrite El in Hl.
Qed.
End Mode.

(** ** Runs *)

(** The operator opens 10.0.0.2:40000 on a filter that was only watching. *)
Definition opened : Config := serving.
Definition opened_text (c : Config) : option string := if decide (c = fill (Clone opened)) then Some "v2" else None.
Definition opened_read (b : string) (_ : Config) : option Config := if String.eqb b "v2" then Some (as_decoded (fill (Clone opened))) else None.
Definition opening : Controller := mkController conf_path live_sample opened (PinDir live_sample) "v1".
Definition opening_applied := Controller.Apply digest_of opened_text elements all_well true true opening (pinned_sys (PinDir live_sample)) disk.
Definition opening_daemon : Daemon (M := FMap) := mkDaemon live_sample (sys_maps (a_sys opening_applied)) (monitor_of live_sample).
Definition opening_reload := reload elements yes3 yes3 (ConfigFile.Load opened_read conf_path (final (a_files opening_applied) disk)) opening_daemon.

Lemma opened_roundtrip c b base : opened_text c = Some b -> opened_read b base = Some (as_decoded c).
Proof. unfold opened_text. case_decide; [|discriminate]. intros [= <-]. now subst. Qed.

(** The request gets through, and the theorem says why: the server is listed. *)
Theorem console_to_wire_witness :
  a_err opening_applied = None /\ Active (a_result opening_applied) = true /\
  verdict_of (xdp_filter (e_inst false) e_kernel (wire (request 40000)) (machine_on (d_maps (fst opening_reload)))) = Some (Redirected 0) /\
  listed opened (w_daddr (request 40000)) 40000.
Proof.
  assert (Ha : a_err opening_applied = None) by (vm_compute; reflexivity).
  assert (Hact : Active (a_result opening_applied) = true) by (vm_compute; reflexivity).
  assert (Hd : Dirty opening = true) by (vm_compute; reflexivity).
  assert (Hap : match snd opening_reload with RApplied _ => true | _ => false end = true) by (vm_compute; reflexivity).
  assert (Hv : verdict_of (xdp_filter (e_inst false) e_kernel (wire (request 40000)) (machine_on (d_maps (fst opening_reload)))) = Some (Redirected 0)) by (vm_compute; reflexivity).
  split; [exact Ha|]. split; [exact Hact|]. split; [exact Hv|]. destruct (verdict_some _ _ Hv) as (p' & m' & Hx).
  destruct (console_to_wire digest_of opened_text opened_read opened_roundtrip elements elements_perm all_well true true opening
    (pinned_sys (PinDir live_sample)) disk yes3 yes3 opening_daemon (fst opening_reload) (snd opening_reload) (d_maps (fst opening_reload))
    (machine_on (d_maps (fst opening_reload))) (e_inst false) e_kernel (request 40000) (Redirected 0) p' m') as [_ Hw];
    [vm_compute; intuition congruence | exact Ha | exact Hd | apply surjective_pairing |].
  destruct Hw as [Hw _]; [right | apply machine_sees | reflexivity | reflexivity | apply request_ok; unfold is_u16; lia | reflexivity | reflexivity | exact Hx |].
  { split; [|done]. destruct (snd opening_reload); try discriminate Hap. eauto. }
  destruct (Hw eq_refl) as [[Hs|[_ Hl]] _]; [discriminate Hs | exact Hl].
Defined.

(** The mode is turned from monitor to enforce with a datapath running. *)
Definition turned_on : Config := with_mode live_sample "enforce".
Definition mode_text (c : Config) : option string := if decide (c = turned_on) then Some "v2" else None.
Definition mode_read (b : string) (_ : Config) : option Config :=
  if String.eqb b "v1" then Some live_sample else if String.eqb b "v2" then Some (as_decoded turned_on) else None.
Definition mode_disk : FS := {[ DefaultPath := "v1" ]}.
Definition policy_maps : SharedMaps FMap := fst (ReloadPolicy elements sample_maps live_sample).
Definition mode_sys : RefSys := sys_set_maps policy_maps (pinned_sys (PinDir live_sample)).
Definition mode_run := modeCommand mode_text mode_read all_well ["enforce"] mode_sys mode_disk.
Definition mode_daemon : Daemon (M := FMap) := mkDaemon live_sample (sys_maps (snd (fst mode_run))) (monitor_of live_sample).
Definition mode_reload := reload elements yes3 yes3 (ConfigFile.Load mode_read DefaultPath (final (snd mode_run) mode_disk)) mode_daemon.

Lemma mode_roundtrip c b base : mode_text c = Some b -> mode_read b base = Some (as_decoded c).
Proof. unfold mode_text. case_decide; [|discriminate]. intros [= <-]. now subst. Qed.

Lemma mode_typed b base c : mode_read b base = Some c -> wt c.
Proof. unfold mode_read. repeat case_match; intros [= <-]; vm_compute; intuition congruence. Qed.

Theorem mode_sticks_witness :
  fst (fst mode_run) = Returned (None, false) /\ in_force turned_on (sys_maps (snd (fst mode_run))) /\
  (exists diff, snd mode_reload = RApplied diff) /\ Mode (d_cfg (fst mode_reload)) = "enforce" /\ in_force turned_on (d_maps (fst mode_reload)).
Proof.
  assert (Hr : fst (fst mode_run) = Returned (None, false)) by (vm_compute; reflexivity).
  assert (Hap : match snd mode_reload with RApplied _ => true | _ => false end = true) by (vm_compute; reflexivity).
  assert (Hf : in_force live_sample (sys_maps mode_sys)).
  { apply (reload_maps elements elements_perm sample_maps policy_maps). vm_compute. reflexivity. }
  assert (Hload : ConfigFile.Load mode_read DefaultPath mode_disk = inl live_sample) by (vm_compute; reflexivity).
  assert (Hrun : mode_run = (Returned (None, false), snd (fst mode_run), snd mode_run)) by (rewrite <- Hr; now destruct mode_run as [[] ?]).
  destruct (mode_sticks mode_text mode_read mode_roundtrip mode_typed elements elements_perm all_well ["enforce"] mode_sys
    (snd (fst mode_run)) mode_disk (snd mode_run) None false live_sample Hrun Hf) as (_ & _ & Hin & f & rest & Hp & Hfile).
  assert (Hpath : string_flag f "config" = DefaultPath) by (vm_compute in Hp; injection Hp as <- <-; reflexivity).
  rewrite Hpath in Hfile.
  destruct (Hfile live_sample Hload eq_refl yes3 yes3 mode_daemon (fst mode_reload) (snd mode_reload) (surjective_pairing _)) as [_ Hd].
  destruct (snd mode_reload) as [| | |diff] eqn:E; try discriminate Hap. destruct (Hd diff eq_refl) as [Hm Hi].
  split_and!; [exact Hr | exact Hin | eauto | exact Hm | exact Hi].
Defined.
